(** * dudamel-plugin: the storage adapters, the legacy-to-native migration
      and the backend selector, embedded in Rocq.

    Sources embedded here:
    - [src/db-sqlite-vec.js]  (SqliteVecAdapter, the legacy vec0 backend)
    - [src/db-libsql.js]      (LibsqlAdapter, the native F32_BLOB backend)
    - [src/db.js]             (module-level [listRecords] of the older API,
                               and the factory [initDb]/[_autoMigrate])
    - [scripts/migrate-to-libsql.js] ([migrateFromDb])

    Numbers.  JavaScript numbers that hold similarities and vector
    components are modelled as exact rationals [Q]; rounding of the
    Float32/Float64 arithmetic is outside the model.  Row identifiers are
    [Z].  Timestamps stay the TEXT values they are in the schema. *)

From Stdlib Require Import List ZArith QArith Qminmax String Bool Lia Lqa Permutation.
Import ListNotations.

Set Implicit Arguments.

(* ------------------------------------------------------------------ *)
(** ** Schema-level data *)

(** [kind TEXT NOT NULL CHECK (kind IN ('issue','spec','arch','update'))] *)
Inductive kind : Type := Issue | Spec | Arch | Update.

(** [status TEXT NOT NULL ... CHECK (status IN ('open','resolved','archived'))] *)
Inductive status : Type := Open | Resolved | Archived.

Definition kind_to_string (k : kind) : string :=
  match k with
  | Issue => "issue" | Spec => "spec" | Arch => "arch" | Update => "update"
  end%string.

Definition status_to_string (s : status) : string :=
  match s with
  | Open => "open" | Resolved => "resolved" | Archived => "archived"
  end%string.

(** The CHECK constraint on [kind]: a TEXT value is storable exactly when it
    is one of the four literals. *)
Definition kind_of_string (s : string) : option kind :=
  if String.eqb s "issue" then Some Issue
  else if String.eqb s "spec" then Some Spec
  else if String.eqb s "arch" then Some Arch
  else if String.eqb s "update" then Some Update
  else None.

Definition status_of_string (s : string) : option status :=
  if String.eqb s "open" then Some Open
  else if String.eqb s "resolved" then Some Resolved
  else if String.eqb s "archived" then Some Archived
  else None.

Definition kind_eqb (a b : kind) : bool :=
  match a, b with
  | Issue, Issue | Spec, Spec | Arch, Arch | Update, Update => true
  | _, _ => false
  end.

Definition status_eqb (a b : status) : bool :=
  match a, b with
  | Open, Open | Resolved, Resolved | Archived, Archived => true
  | _, _ => false
  end.

(** An embedding: the components of a Float32Array. *)
Definition embedding : Type := list Q.

(** [FLOAT[384]] in the vec0 table, [F32_BLOB(384)] on the native column. *)
Definition EMBEDDING_DIM : nat := 384.

Definition dim_ok (e : embedding) : bool := Nat.eqb (List.length e) EMBEDDING_DIM.

(** Row of table [project]. *)
Record project : Type := mkProject {
  p_id : Z;
  p_name : string;
  p_created_at : string;
  p_updated_at : string
}.

(** Row of table [record] without the embedding (the eight scalar
    columns shared by both backends, [RECORD_COLS]). *)
Record record : Type := mkRecord {
  r_id : Z;
  r_project_id : Z;
  r_kind : kind;
  r_title : string;
  r_body : string;
  r_status : status;
  r_created_at : string;
  r_updated_at : string
}.

(** What [get] / [_getRecord] return: the record joined with its
    project's name ([p.name AS project]).  [list] and [search] select
    fewer columns of the same joined row; the model hands the whole row
    back and no statement below looks at a column they leave out. *)
Record record_view : Type := mkView {
  rv_record : record;
  rv_project : string
}.

(** A search result row: the joined record plus the [similarity] field. *)
Record hit : Type := mkHit {
  hit_view : record_view;
  similarity : Q
}.

(** The argument object of [upsert]:
    [{ id, projectId, kind, title, body = '', status = 'open' }].
    For [id], [projectId], [body] and [status], [None] is an absent
    property (for the first two also [null]); for [title], [None] is an
    explicit [null]. *)
Record upsert_args : Type := mkArgs {
  a_id : option Z;
  a_projectId : option Z;
  a_kind : string;
  a_title : option string;
  a_body : option string;
  a_status : option string
}.

(** JavaScript truthiness of an optional numeric id: [if (id)]. *)
Definition truthy_id (id : option Z) : bool :=
  match id with
  | Some n => negb (Z.eqb n 0)
  | None => false
  end.

(** JavaScript truthiness of an optional string. *)
Definition truthy_str (s : option string) : bool :=
  match s with
  | Some t => negb (String.eqb t "")
  | None => false
  end.

(** Destructuring defaults [body = ''] and [status = 'open']. *)
Definition body_of (a : upsert_args) : string :=
  match a_body a with Some b => b | None => ""%string end.

Definition status_arg (a : upsert_args) : string :=
  match a_status a with Some s => s | None => "open"%string end.

(* ------------------------------------------------------------------ *)
(** ** Numbers *)

Definition Qleb (a b : Q) : bool := Qle_bool a b.

(** [dot += queryEmbedding[i] * stored[i]] over the indices of the query
    ([_computeSimilarity]); both vectors have the schema's dimension. *)
Definition dot (q v : embedding) : Q :=
  fold_left (fun acc ab => acc + fst ab * snd ab)%Q (combine q v) 0%Q.

(** Cosine distance as both nearest-neighbour primitives report or order
    by it.  On L2-normalised vectors (the only ones the embedding source
    produces) cosine distance is [1 - q.v]; the model uses that form. *)
Definition distance (q v : embedding) : Q := (1 - dot q v)%Q.

(** [Math.min(1.0, similarity + 0.1)] *)
Definition boost (sim : Q) : Q := Qmin 1 (sim + (1 # 10))%Q.

Definition is_unit (e : embedding) : bool := Qeq_bool (dot e e) 1%Q.

(* ------------------------------------------------------------------ *)
(** ** Stable sorting, as [ORDER BY] and [Array.prototype.sort] do it *)

Section Sorting.
Variable A : Type.
Variable le : A -> A -> bool.

Fixpoint insert_by (x : A) (l : list A) : list A :=
  match l with
  | [] => [x]
  | h :: t => if le x h then x :: h :: t else h :: insert_by x t
  end.

Definition sort_by (l : list A) : list A := fold_right insert_by [] l.
End Sorting.

(** Ascending by a rational key (nearest first). *)
Definition asc (A : Type) (key : A -> Q) (a b : A) : bool := Qleb (key a) (key b).

(** Descending by a rational key: the comparator [(a, b) => b.k - a.k]. *)
Definition desc (A : Type) (key : A -> Q) (a b : A) : bool := Qleb (key b) (key a).

(** Descending by a TEXT column ([ORDER BY r.updated_at DESC]). *)
Definition desc_text (A : Type) (key : A -> string) (a b : A) : bool :=
  String.leb (key b) (key a).

(* ------------------------------------------------------------------ *)
(** ** Statements, errors and the store monad *)

(** The statements an [upsert] issues, used to say which one a storage
    fault hits. *)
Inductive stmt : Type :=
| DedupLookup
| UpdateRecord
| DeleteEmbedding
| InsertEmbedding
| InsertRecord
| ReadBack.

(** A fault plan: which statements the backend fails with a storage fault
    (disk, connectivity).  [no_faults] is normal operation. *)
Definition faults : Type := stmt -> bool.
Definition no_faults : faults := fun _ => false.

Inductive sql_error : Type :=
| NotInitialised                 (* Error('Database not initialised') *)
| CheckFailed (column : string)  (* CHECK constraint failed *)
| NotNullFailed (column : string)
| UniqueFailed (table : string)
| ForeignKeyFailed
| DimensionMismatch
| StorageFault (s : stmt).

Inductive result (A : Type) : Type :=
| Ok (a : A)
| Err (e : sql_error).
Arguments Err {A} e.

(** A computation over a store [S]: the outcome together with the store as
    it stands when the computation ends (also when it throws). *)
Definition M (S A : Type) : Type := S -> result A * S.

Definition ret (S A : Type) (a : A) : M S A := fun s => (Ok a, s).
Definition throw (S A : Type) (e : sql_error) : M S A := fun s => (Err e, s).

Definition bind (S A B : Type) (m : M S A) (k : A -> M S B) : M S B :=
  fun s =>
    match m s with
    | (Ok a, s') => k a s'
    | (Err e, s') => (Err e, s')
    end.

Notation "x <- m ;; k" := (bind m (fun x => k))
  (at level 61, m at next level, right associativity).
Notation "m ;;; k" := (bind m (fun _ => k))
  (at level 61, right associativity).

(** A statement that the fault plan may fail before it touches anything. *)
Definition guarded (S A : Type) (f : faults) (st : stmt) (m : M S A) : M S A :=
  fun s => if f st then (Err (StorageFault st), s) else m s.

(** [db.transaction(() => { ... })()] of better-sqlite3: commit on return,
    roll back to the state at entry when the body throws. *)
Definition transaction (S A : Type) (body : M S A) : M S A :=
  fun s =>
    match body s with
    | (Ok a, s') => (Ok a, s')
    | (Err e, _) => (Err e, s)
    end.

(** Row-wise evaluation of an UPDATE: every row the WHERE clause selects is
    rewritten, and the statement fails as a whole (changing nothing) when a
    rewritten row violates a constraint. *)
Fixpoint update_rows (A : Type) (sel : A -> bool) (upd : A -> result A)
    (rows : list A) : result (list A) :=
  match rows with
  | [] => Ok []
  | r :: rest =>
      match (if sel r then upd r else Ok r) with
      | Err e => Err e
      | Ok r' =>
          match update_rows sel upd rest with
          | Err e => Err e
          | Ok rest' => Ok (r' :: rest')
          end
      end
  end.

(** Constraint checks on the bound values of an INSERT or UPDATE. *)
Definition check_kind (s : string) : result kind :=
  match kind_of_string s with Some k => Ok k | None => Err (CheckFailed "kind") end.

Definition check_status (s : string) : result status :=
  match status_of_string s with Some k => Ok k | None => Err (CheckFailed "status") end.

Definition check_title (t : option string) : result string :=
  match t with Some s => Ok s | None => Err (NotNullFailed "title") end.

Definition check_dim (e : embedding) : result embedding :=
  if dim_ok e then Ok e else Err DimensionMismatch.

Definition list_max_id (ids : list Z) : Z := fold_right Z.max 0%Z ids.

(** [proj = projectId ?? (await this.getCurrentProject()).id] *)
Definition resolve_project (cur : option project) (projectId : option Z) : result Z :=
  match projectId with
  | Some p => Ok p
  | None =>
      match cur with
      | Some c => Ok (p_id c)
      | None => Err NotInitialised
      end
  end.

(** Sequencing inside one statement (constraint checks on its values). *)
Definition rbind (A B : Type) (r : result A) (k : A -> result B) : result B :=
  match r with
  | Ok a => k a
  | Err e => Err e
  end.

Notation "x <-- r ;; k" := (rbind r (fun x => k))
  (at level 61, r at next level, right associativity).

(** [kind && kind !== 'all'] (and the same test on [status]). *)
Definition filter_active (v : option string) : bool :=
  match v with
  | Some s => negb (String.eqb s "") && negb (String.eqb s "all")
  | None => false
  end.

Definition filter_value (v : option string) : string :=
  match v with Some s => s | None => ""%string end.

(** [{ limit = 5 }] *)
Definition limit_of (limit : option nat) : nat :=
  match limit with Some n => n | None => 5%nat end.

(* ------------------------------------------------------------------ *)
(** ** The native column backend: [LibsqlAdapter] (src/db-libsql.js) *)

Module Libsql.

(** A row of [record] with its [embedding F32_BLOB(384)] column
    ([None] is SQL NULL). *)
Record row : Type := mkRow {
  rec : record;
  emb : option embedding
}.

(** The database behind [this.db]: both tables in rowid order and the
    AUTOINCREMENT high-water mark of [record]. *)
Record store : Type := mkStore {
  projects : list project;
  records : list row;
  seq : Z
}.

Definition empty : store := mkStore [] [] 0.

Definition has_id (id : Z) (r : row) : bool := Z.eqb (r_id (rec r)) id.

(** [JOIN project p ON r.project_id = p.id], keeping [p.name AS project]. *)
Definition join_project (db : store) (r : row) : list (row * string) :=
  map (fun p => (r, p_name p))
      (filter (fun p => Z.eqb (p_id p) (r_project_id (rec r))) (projects db)).

Definition view_of (rp : row * string) : record_view :=
  mkView (rec (fst rp)) (snd rp).

(** [get(id)]: [result.rows[0] ?? null]. *)
Definition get_rows (db : store) (id : Z) : list record_view :=
  map view_of (flat_map (join_project db) (filter (has_id id) (records db))).

Definition get (id : Z) : M store (option record_view) :=
  fun db => (Ok (hd_error (get_rows db id)), db).

(** The vector index [idx_record_embedding] holds the rows whose
    embedding is not NULL. *)
Definition indexed (db : store) : list (Z * embedding) :=
  flat_map (fun r => match emb r with
                     | Some v => [(r_id (rec r), v)]
                     | None => []
                     end) (records db).

(** [vector_top_k('idx_record_embedding', vector(?), k)]: the rowids of
    the [k] indexed rows nearest to the query, nearest first.  The
    index is modelled as exact; ties keep rowid order. *)
Definition vector_top_k (db : store) (q : embedding) (k : nat) : list Z :=
  map fst (firstn k (sort_by (asc (fun iv => distance q (snd iv))) (indexed db))).

(** [JOIN record r ON r.rowid = v.id] *)
Definition join_record (db : store) (ids : list Z) : list row :=
  flat_map (fun id => filter (has_id id) (records db)) ids.

(** [_computeSimilarity(queryEmbedding, storedBlob)] *)
Definition _computeSimilarity (q : embedding) (stored : option embedding) : Q :=
  match stored with
  | None => 0%Q
  | Some v => dot q v
  end.

(** [getCurrentProject()] *)
Definition getCurrentProject (cur : option project) : result project :=
  match cur with
  | Some c => Ok c
  | None => Err NotInitialised
  end.

(** One candidate of [search] after the [rows.map(...)] step. *)
Definition scored : Type := (row * string * Q)%type.
Definition score_of (x : scored) : Q := snd x.

Definition score (curName : string) (q : embedding) (rp : row * string) : scored :=
  let similarity := _computeSimilarity q (emb (fst rp)) in
  let boosted := if String.eqb (snd rp) curName
                 then boost similarity else similarity in
  (rp, boosted).

(** [.map(({ embedding: _emb, ...rest }) => rest)] *)
Definition strip (x : scored) : hit := mkHit (view_of (fst x)) (snd x).

(** The candidate rows of [search]: top [3 * limit] of the index joined
    to [record] and [project], then the optional [WHERE r.kind = ?].
    The query has no ORDER BY; the rows are listed here as the index
    yields them, nearest first. *)
Definition search_candidates (db : store) (q : embedding)
    (kind : option string) (limit : nat) : list (row * string) :=
  let candidateLimit := (limit * 3)%nat in
  let joined := flat_map (join_project db)
                  (join_record db (vector_top_k db q candidateLimit)) in
  if filter_active kind
  then filter (fun rp => String.eqb (kind_to_string (r_kind (rec (fst rp))))
                                    (filter_value kind)) joined
  else joined.

(** [search(embedding, { kind, projectId, limit = 5 })] *)
Definition search (cur : option project) (q : embedding)
    (kind : option string) (limit : option nat) : M store (list hit) :=
  fun db =>
    match getCurrentProject cur with
    | Err e => (Err e, db)
    | Ok curProject =>
        match check_dim q with
        | Err e => (Err e, db)
        | Ok _ =>
            let rows := map (score (p_name curProject) q)
                          (search_candidates db q kind (limit_of limit)) in
            (Ok (map strip
                   (firstn (limit_of limit)
                      (sort_by (desc score_of)
                         (filter (fun r => Qleb (3 # 10) (score_of r)) rows)))),
             db)
        end
    end.

(** [UPDATE record SET ... WHERE id = ?] as one statement. *)
Definition exec_update (id : Z) (upd : row -> result row) : M store unit :=
  fun db =>
    match update_rows (has_id id) upd (records db) with
    | Ok rows' => (Ok tt, mkStore (projects db) rows' (seq db))
    | Err e => (Err e, db)
    end.

(** [SET kind = ?, title = ?, body = ?, status = ?, embedding = vector(?),
    updated_at = ?] (the explicit-id branch). *)
Definition set_by_id (a : upsert_args) (e : embedding) (now : string)
    (r : row) : result row :=
  k <-- check_kind (a_kind a) ;;
  t <-- check_title (a_title a) ;;
  st <-- check_status (status_arg a) ;;
  v <-- check_dim e ;;
  Ok (mkRow (mkRecord (r_id (rec r)) (r_project_id (rec r)) k t (body_of a) st
               (r_created_at (rec r)) now) (Some v)).

(** [SET title = ?, body = ?, status = ?, embedding = vector(?),
    updated_at = ?] (the close-match branch; [kind] is left alone). *)
Definition set_dedup (a : upsert_args) (e : embedding) (now : string)
    (r : row) : result row :=
  t <-- check_title (a_title a) ;;
  st <-- check_status (status_arg a) ;;
  v <-- check_dim e ;;
  Ok (mkRow (mkRecord (r_id (rec r)) (r_project_id (rec r)) (r_kind (rec r)) t
               (body_of a) st (r_created_at (rec r)) now) (Some v)).

(** AUTOINCREMENT: one more than the largest rowid ever used. *)
Definition next_rowid (db : store) : Z :=
  (Z.max (seq db) (list_max_id (map (fun r => r_id (rec r)) (records db))) + 1)%Z.

(** [INSERT INTO record (project_id, kind, title, body, status, embedding,
    created_at, updated_at) VALUES (...)], returning [lastInsertRowid].
    The adapter issues no [PRAGMA foreign_keys]; the reference to
    [project] is not checked here, and every statement below about a
    successful insert assumes the project row exists. *)
Definition exec_insert (proj : Z) (a : upsert_args) (e : embedding)
    (now : string) : M store Z :=
  fun db =>
    match (k <-- check_kind (a_kind a) ;;
           t <-- check_title (a_title a) ;;
           st <-- check_status (status_arg a) ;;
           v <-- check_dim e ;;
           Ok (mkRow (mkRecord (next_rowid db) proj k t (body_of a) st now now)
                     (Some v))) with
    | Ok r => (Ok (next_rowid db),
               mkStore (projects db) (records db ++ [r]) (next_rowid db))
    | Err err => (Err err, db)
    end.

(** The dedup lookup:
    [SELECT r.id, r.embedding
     FROM vector_top_k('idx_record_embedding', vector(?), 5) AS v
     JOIN record r ON r.rowid = v.id
     WHERE r.project_id = ? AND r.kind = ?] *)
Definition dedup_candidates (proj : Z) (kind : string) (e : embedding)
    : M store (list (Z * option embedding)) :=
  fun db =>
    match check_dim e with
    | Err err => (Err err, db)
    | Ok _ =>
        (Ok (map (fun r => (r_id (rec r), emb r))
               (filter (fun r => Z.eqb (r_project_id (rec r)) proj
                                 && String.eqb (kind_to_string (r_kind (rec r))) kind)
                  (join_record db (vector_top_k db e 5)))),
         db)
    end.

Definition id_of (id : option Z) : Z :=
  match id with Some n => n | None => 0%Z end.

(** [upsert({ id, projectId, kind, title, body, status }, embedding)].
    Every [await this.db.execute] commits on its own: the store returned
    with an error is the store as the failing statement found it. *)
Definition upsert (f : faults) (cur : option project) (a : upsert_args)
    (e : embedding) (now : string) : M store (option record_view) :=
  fun db =>
    match resolve_project cur (a_projectId a) with
    | Err err => (Err err, db)
    | Ok proj =>
        if truthy_id (a_id a) then
          (guarded f UpdateRecord
             (exec_update (id_of (a_id a)) (set_by_id a e now)) ;;;
           guarded f ReadBack (get (id_of (a_id a)))) db
        else
          (candidates <- guarded f DedupLookup
                           (dedup_candidates proj (a_kind a) e) ;;
           match find (fun c => Qleb (85 # 100) (_computeSimilarity e (snd c)))
                      candidates with
           | Some c =>
               guarded f UpdateRecord
                 (exec_update (fst c) (set_dedup a e now)) ;;;
               guarded f ReadBack (get (fst c))
           | None =>
               newId <- guarded f InsertRecord (exec_insert proj a e now) ;;
               guarded f ReadBack (get newId)
           end) db
    end.

(** The project filter of [list]: which [projectId] the WHERE clause
    will use, if any. *)
Definition list_project_id (cur : option project) (project : option string)
    (db : store) : result (option Z) :=
  match project with
  | None => p <-- getCurrentProject cur ;; Ok (Some (p_id p))
  | Some name =>
      if String.eqb name "" || String.eqb name "current"
      then p <-- getCurrentProject cur ;; Ok (Some (p_id p))
      else if negb (String.eqb name "*")
      then Ok (hd_error (map p_id
                  (filter (fun p => String.eqb (p_name p) name) (projects db))))
      else Ok None
  end.

(** The rows of [list] once [projectId] is known. *)
Definition list_rows (db : store) (projectId : option Z)
    (kind status : option string) : list record_view :=
  let joined := map view_of (flat_map (join_project db) (records db)) in
  let by_project :=
    if truthy_id projectId
    then filter (fun v => Z.eqb (r_project_id (rv_record v)) (id_of projectId)) joined
    else joined in
  let by_kind :=
    if filter_active kind
    then filter (fun v => String.eqb (kind_to_string (r_kind (rv_record v)))
                                     (filter_value kind)) by_project
    else by_project in
  let by_status :=
    if filter_active status
    then filter (fun v => String.eqb (status_to_string (r_status (rv_record v)))
                                     (filter_value status)) by_kind
    else by_kind in
  sort_by (desc_text (fun v => r_updated_at (rv_record v))) by_status.

(** [list({ kind, status, project })] *)
Definition list (cur : option project) (kind status project : option string)
    : M store (list record_view) :=
  fun db =>
    match list_project_id cur project db with
    | Err e => (Err e, db)
    | Ok projectId => (Ok (list_rows db projectId kind status), db)
    end.

End Libsql.

(* ------------------------------------------------------------------ *)
(** ** The legacy vector-table backend: [SqliteVecAdapter]
       (src/db-sqlite-vec.js) *)

Module SqliteVec.

(** The database behind [this.db]: [project], [record], the vec0
    side-table [record_embedding (record_id INTEGER PRIMARY KEY,
    embedding FLOAT[384] distance_metric=cosine)] and the AUTOINCREMENT
    high-water mark of [record]. *)
Record store : Type := mkStore {
  projects : list project;
  records : list record;
  record_embedding : list (Z * embedding);
  seq : Z
}.

Definition empty : store := mkStore [] [] [] 0.

Definition has_id (id : Z) (r : record) : bool := Z.eqb (r_id r) id.

(** [JOIN project p ON r.project_id = p.id] *)
Definition join_project (db : store) (r : record) : list record_view :=
  map (fun p => mkView r (p_name p))
      (filter (fun p => Z.eqb (p_id p) (r_project_id r)) (projects db)).

(** [_getRecord(id)]: [row ?? null]. *)
Definition get_rows (db : store) (id : Z) : list record_view :=
  flat_map (join_project db) (filter (has_id id) (records db)).

Definition _getRecord (id : Z) : M store (option record_view) :=
  fun db => (Ok (hd_error (get_rows db id)), db).

Definition getCurrentProject (cur : option project) : result project :=
  match cur with
  | Some c => Ok c
  | None => Err NotInitialised
  end.

(** [WHERE re.embedding MATCH ? AND k = ?] on the vec0 table: the [k]
    nearest embedding rows with their [distance], nearest first; ties
    keep the table's row order. *)
Definition vec0_knn (db : store) (q : embedding) (k : nat) : list (Z * Q) :=
  firstn k (sort_by (asc (fun x : Z * Q => snd x))
              (map (fun iv => (fst iv, distance q (snd iv))) (record_embedding db))).

(** One joined row of the KNN queries: [re.distance] with the record. *)
Definition join_record (db : store) (nd : Z * Q) : list (record * Q) :=
  map (fun r => (r, snd nd)) (filter (has_id (fst nd)) (records db)).

(** One candidate of [search] after the [rows.map(...)] step. *)
Definition scored : Type := (record_view * Q)%type.
Definition score_of (x : scored) : Q := snd x.

(** [let similarity = 1 - row.distance; if (row.project === curProject.name)
    similarity = Math.min(1.0, similarity + 0.1)] *)
Definition score (curName : string) (vd : record_view * Q) : scored :=
  let similarity := (1 - snd vd)%Q in
  (fst vd, if String.eqb (rv_project (fst vd)) curName
           then boost similarity else similarity).

(** [.map(({ record_id, distance, ...rest }) => rest)] *)
Definition strip (x : scored) : hit := mkHit (fst x) (snd x).

(** The rows of the search query, [ORDER BY re.distance]. *)
Definition search_candidates (db : store) (q : embedding)
    (kind : option string) (limit : nat) : list (record_view * Q) :=
  let joined :=
    flat_map (fun rd => map (fun v => (v, snd rd)) (join_project db (fst rd)))
      (flat_map (join_record db) (vec0_knn db q (limit * 3))) in
  let by_kind :=
    if filter_active kind
    then filter (fun vd => String.eqb (kind_to_string (r_kind (rv_record (fst vd))))
                                      (filter_value kind)) joined
    else joined in
  sort_by (asc (fun vd : record_view * Q => snd vd)) by_kind.

(** [search(embedding, { kind, projectId, limit = 5 })] *)
Definition search (cur : option project) (q : embedding)
    (kind : option string) (limit : option nat) : M store (list hit) :=
  fun db =>
    match getCurrentProject cur with
    | Err e => (Err e, db)
    | Ok curProject =>
        match check_dim q with
        | Err e => (Err e, db)
        | Ok _ =>
            let rows := map (score (p_name curProject))
                          (search_candidates db q kind (limit_of limit)) in
            (Ok (map strip
                   (firstn (limit_of limit)
                      (sort_by (desc score_of)
                         (filter (fun r => Qleb (3 # 10) (score_of r)) rows)))),
             db)
        end
    end.

(** [UPDATE record SET ... WHERE id = ?] *)
Definition exec_update (id : Z) (upd : record -> result record) : M store unit :=
  fun db =>
    match update_rows (has_id id) upd (records db) with
    | Ok rows' =>
        (Ok tt, mkStore (projects db) rows' (record_embedding db) (seq db))
    | Err e => (Err e, db)
    end.

(** [SET kind = ?, title = ?, body = ?, status = ?, updated_at = ?] *)
Definition set_by_id (a : upsert_args) (now : string) (r : record) : result record :=
  k <-- check_kind (a_kind a) ;;
  t <-- check_title (a_title a) ;;
  st <-- check_status (status_arg a) ;;
  Ok (mkRecord (r_id r) (r_project_id r) k t (body_of a) st (r_created_at r) now).

(** [SET title = ?, body = ?, status = ?, updated_at = ?] *)
Definition set_dedup (a : upsert_args) (now : string) (r : record) : result record :=
  t <-- check_title (a_title a) ;;
  st <-- check_status (status_arg a) ;;
  Ok (mkRecord (r_id r) (r_project_id r) (r_kind r) t (body_of a) st
        (r_created_at r) now).

(** [DELETE FROM record_embedding WHERE record_id = ?] *)
Definition exec_delete_embedding (id : Z) : M store unit :=
  fun db =>
    (Ok tt, mkStore (projects db) (records db)
              (filter (fun iv => negb (Z.eqb (fst iv) id)) (record_embedding db))
              (seq db)).

(** [INSERT INTO record_embedding (record_id, embedding) VALUES (?, ?)]:
    the vec0 table checks the vector's dimension and its primary key. *)
Definition exec_insert_embedding (id : Z) (e : embedding) : M store unit :=
  fun db =>
    match check_dim e with
    | Err err => (Err err, db)
    | Ok v =>
        if existsb (fun iv => Z.eqb (fst iv) id) (record_embedding db)
        then (Err (UniqueFailed "record_embedding"), db)
        else (Ok tt, mkStore (projects db) (records db)
                       (record_embedding db ++ [(id, v)]) (seq db))
    end.

Definition next_rowid (db : store) : Z :=
  (Z.max (seq db) (list_max_id (map r_id (records db))) + 1)%Z.

(** [INSERT INTO record (project_id, kind, title, body, status, created_at,
    updated_at) VALUES (...)], returning [lastInsertRowid];
    [foreign_keys = ON] makes the project reference checked. *)
Definition exec_insert (proj : Z) (a : upsert_args) (now : string) : M store Z :=
  fun db =>
    match (k <-- check_kind (a_kind a) ;;
           t <-- check_title (a_title a) ;;
           st <-- check_status (status_arg a) ;;
           (if existsb (fun p => Z.eqb (p_id p) proj) (projects db)
            then Ok (mkRecord (next_rowid db) proj k t (body_of a) st now now)
            else Err ForeignKeyFailed)) with
    | Ok r => (Ok (next_rowid db),
               mkStore (projects db) (records db ++ [r]) (record_embedding db)
                 (next_rowid db))
    | Err err => (Err err, db)
    end.

(** The dedup lookup:
    [SELECT re.record_id, re.distance
     FROM record_embedding re JOIN record r ON r.id = re.record_id
     WHERE re.embedding MATCH ? AND k = 5
       AND r.project_id = ? AND r.kind = ?
     ORDER BY re.distance LIMIT 1] *)
Definition dedup_candidates (proj : Z) (kind : string) (e : embedding)
    : M store (list (Z * Q)) :=
  fun db =>
    match check_dim e with
    | Err err => (Err err, db)
    | Ok _ =>
        (Ok (firstn 1
               (sort_by (asc (fun x : Z * Q => snd x))
                  (map (fun rd => (r_id (fst rd), snd rd))
                     (filter (fun rd => Z.eqb (r_project_id (fst rd)) proj
                                        && String.eqb (kind_to_string (r_kind (fst rd))) kind)
                        (flat_map (join_record db) (vec0_knn db e 5)))))),
         db)
    end.

Definition id_of (id : option Z) : Z :=
  match id with Some n => n | None => 0%Z end.

(** The body of the transaction in [upsert]. *)
Definition upsert_body (f : faults) (proj : Z) (a : upsert_args)
    (e : embedding) (now : string) : M store (option record_view) :=
  if truthy_id (a_id a) then
    guarded f UpdateRecord (exec_update (id_of (a_id a)) (set_by_id a now)) ;;;
    (* vec0 doesn't support UPDATE — delete then insert *)
    guarded f DeleteEmbedding (exec_delete_embedding (id_of (a_id a))) ;;;
    guarded f InsertEmbedding (exec_insert_embedding (id_of (a_id a)) e) ;;;
    guarded f ReadBack (_getRecord (id_of (a_id a)))
  else
    candidates <- guarded f DedupLookup (dedup_candidates proj (a_kind a) e) ;;
    match candidates with
    | c :: _ =>
        if Qleb (snd c) (15 # 100) then
          guarded f UpdateRecord (exec_update (fst c) (set_dedup a now)) ;;;
          guarded f DeleteEmbedding (exec_delete_embedding (fst c)) ;;;
          guarded f InsertEmbedding (exec_insert_embedding (fst c) e) ;;;
          guarded f ReadBack (_getRecord (fst c))
        else
          newId <- guarded f InsertRecord (exec_insert proj a now) ;;
          guarded f InsertEmbedding (exec_insert_embedding newId e) ;;;
          guarded f ReadBack (_getRecord newId)
    | [] =>
        newId <- guarded f InsertRecord (exec_insert proj a now) ;;
        guarded f InsertEmbedding (exec_insert_embedding newId e) ;;;
        guarded f ReadBack (_getRecord newId)
    end.

(** [upsert({ id, projectId, kind, title, body, status }, embedding)]:
    the project is resolved first, then everything runs in
    [this.db.transaction(...)]. *)
Definition upsert (f : faults) (cur : option project) (a : upsert_args)
    (e : embedding) (now : string) : M store (option record_view) :=
  fun db =>
    match resolve_project cur (a_projectId a) with
    | Err err => (Err err, db)
    | Ok proj => transaction (upsert_body f proj a e now) db
    end.

Definition list_project_id (cur : option project) (project : option string)
    (db : store) : result (option Z) :=
  match project with
  | None => p <-- getCurrentProject cur ;; Ok (Some (p_id p))
  | Some name =>
      if String.eqb name "" || String.eqb name "current"
      then p <-- getCurrentProject cur ;; Ok (Some (p_id p))
      else if negb (String.eqb name "*")
      then Ok (hd_error (map p_id
                  (filter (fun p => String.eqb (p_name p) name) (projects db))))
      else Ok None
  end.

Definition list_rows (db : store) (projectId : option Z)
    (kind status : option string) : list record_view :=
  let joined := flat_map (join_project db) (records db) in
  let by_project :=
    if truthy_id projectId
    then filter (fun v => Z.eqb (r_project_id (rv_record v)) (id_of projectId)) joined
    else joined in
  let by_kind :=
    if filter_active kind
    then filter (fun v => String.eqb (kind_to_string (r_kind (rv_record v)))
                                     (filter_value kind)) by_project
    else by_project in
  let by_status :=
    if filter_active status
    then filter (fun v => String.eqb (status_to_string (r_status (rv_record v)))
                                     (filter_value status)) by_kind
    else by_kind in
  sort_by (desc_text (fun v => r_updated_at (rv_record v))) by_status.

(** [list({ kind, status, project })] *)
Definition list (cur : option project) (kind status project : option string)
    : M store (list record_view) :=
  fun db =>
    match list_project_id cur project db with
    | Err e => (Err e, db)
    | Ok projectId => (Ok (list_rows db projectId kind status), db)
    end.

End SqliteVec.

(* ------------------------------------------------------------------ *)
(** ** The module-level API of src/db.js over the legacy store *)

Module DbJs.

(** [listRecords({ kind, status, project })]: as [SqliteVecAdapter.list],
    except that the current project is read with
    [adapter.currentProject?.id] and so never throws. *)
Definition listRecords (cur : option project) (kind status project : option string)
    (db : SqliteVec.store) : list record_view :=
  let projectId :=
    match project with
    | None => option_map p_id cur
    | Some name =>
        if String.eqb name "" || String.eqb name "current"
        then option_map p_id cur
        else if negb (String.eqb name "*")
        then hd_error (map p_id
               (filter (fun p => String.eqb (p_name p) name) (SqliteVec.projects db)))
        else None
    end in
  SqliteVec.list_rows db projectId kind status.

End DbJs.

(* ------------------------------------------------------------------ *)
(** ** The migration script (scripts/migrate-to-libsql.js) *)

Module Migrate.

(** [{ projects, records, embeddings }] *)
Record stats : Type := mkStats {
  st_projects : nat;
  st_records : nat;
  st_embeddings : nat
}.

(** Both open connections: [oldDb] (better-sqlite3 + sqlite-vec) and
    [newDb] (libsql client). *)
Definition world : Type := (SqliteVec.store * Libsql.store)%type.

(** [oldDb.prepare('SELECT ...').all()] / [.get(...)]: a query that reads
    the old database. *)
Definition query_old (A : Type) (q : SqliteVec.store -> A) : M world A :=
  fun w => (Ok (q (fst w)), w).

(** [await newDb.execute(...)] / [newDb.batch(...)]: a statement run on
    the new database. *)
Definition execute_new (A : Type) (m : M Libsql.store A) : M world A :=
  fun w =>
    match m (snd w) with
    | (r, db') => (r, (fst w, db'))
    end.

(** [createSchema(db)]: every statement is [CREATE ... IF NOT EXISTS];
    the tables of a [Libsql.store] always exist, so nothing changes. *)
Definition createSchema : M Libsql.store unit := fun db => (Ok tt, db).

(** [INSERT INTO project (id, name, created_at, updated_at) VALUES (?, ?, ?, ?)]
    under [id INTEGER PRIMARY KEY] and [name TEXT NOT NULL UNIQUE]. *)
Definition insert_project (p : project) : M Libsql.store unit :=
  fun db =>
    if existsb (fun p' => Z.eqb (p_id p') (p_id p)) (Libsql.projects db)
    then (Err (UniqueFailed "project.id"), db)
    else if existsb (fun p' => String.eqb (p_name p') (p_name p)) (Libsql.projects db)
    then (Err (UniqueFailed "project.name"), db)
    else (Ok tt, Libsql.mkStore (Libsql.projects db ++ [p]) (Libsql.records db)
                   (Libsql.seq db)).

(** [INSERT INTO record (id, project_id, kind, title, body, status, embedding,
    created_at, updated_at) VALUES (?, ?, ?, ?, ?, ?, vector(?) | NULL, ?, ?)]
    with an explicit rowid. *)
Definition insert_record (r : record) (e : option embedding) : M Libsql.store unit :=
  fun db =>
    if existsb (Libsql.has_id (r_id r)) (Libsql.records db)
    then (Err (UniqueFailed "record.id"), db)
    else
      match e with
      | Some v =>
          match check_dim v with
          | Err err => (Err err, db)
          | Ok v' =>
              (Ok tt, Libsql.mkStore (Libsql.projects db)
                        (Libsql.records db ++ [Libsql.mkRow r (Some v')])
                        (Z.max (Libsql.seq db) (r_id r)))
          end
      | None =>
          (Ok tt, Libsql.mkStore (Libsql.projects db)
                    (Libsql.records db ++ [Libsql.mkRow r None])
                    (Z.max (Libsql.seq db) (r_id r)))
      end.

(** [SELECT embedding FROM record_embedding WHERE record_id = ?] with
    [.get(r.id)]: the first matching row, if any. *)
Definition lookup_embedding (id : Z) (old : SqliteVec.store) : option embedding :=
  option_map snd
    (find (fun iv => Z.eqb (fst iv) id) (SqliteVec.record_embedding old)).

(** [for (const p of projects) { await newDb.execute(...) }] *)
Fixpoint migrate_projects (ps : list project) : M world unit :=
  match ps with
  | [] => ret tt
  | p :: rest => execute_new (insert_project p) ;;; migrate_projects rest
  end.

(** [for (const r of records) { ... }] with the running [embeddingCount]. *)
Fixpoint migrate_records (rs : list record) (embeddingCount : nat) : M world nat :=
  match rs with
  | [] => ret embeddingCount
  | r :: rest =>
      vec <- query_old (lookup_embedding (r_id r)) ;;
      match vec with
      | Some floats =>
          execute_new (insert_record r (Some floats)) ;;;
          migrate_records rest (S embeddingCount)
      | None =>
          execute_new (insert_record r None) ;;;
          migrate_records rest embeddingCount
      end
  end.

(** [migrateFromDb(oldDb, newDb)] *)
Definition migrateFromDb : M world stats :=
  execute_new createSchema ;;;
  projects <- query_old SqliteVec.projects ;;
  migrate_projects projects ;;;
  records <- query_old SqliteVec.records ;;
  embeddingCount <- migrate_records records 0 ;;
  ret (mkStats (List.length projects) (List.length records) embeddingCount).

End Migrate.

(* ------------------------------------------------------------------ *)
(** ** The backend selector: [initDb] and [_autoMigrate] (src/db.js) *)

Module Factory.

(** What [existsSync] can see under [DATA_DIR]. *)
Record files : Type := mkFiles {
  old_db : bool;       (* dude.db *)
  new_db : bool;       (* dude-libsql.db *)
  old_backup : bool    (* dude.db.backup *)
}.

(** A JavaScript outcome: a returned value or a thrown [Error] with its
    message. *)
Inductive outcome (A : Type) : Type :=
| Returned (a : A)
| Thrown (message : string).
Arguments Thrown {A} message.

(** How the call [migrate(OLD_DB, `file:${NEW_DB}`)] ends.  The script
    reads the old file only; when it throws, [partial] tells whether it
    had already created the new file. *)
Inductive migrate_result : Type :=
| MigrateOk (s : Migrate.stats)
| MigrateThrows (message : string) (partial : bool).

(** The collaborators [_autoMigrate] calls, each with the way it ends. *)
Record env : Type := mkEnv {
  home : string;                      (* homedir() *)
  import_error : option string;       (* import('../scripts/migrate-to-libsql.js') *)
  migrate_run : migrate_result;
  unlink_fails : bool;                (* unlink(NEW_DB) throws *)
  rename_fails : bool                 (* rename(OLD_DB, ...) throws *)
}.

Definition DATA_DIR (e : env) : string := (home e ++ "/.dude-claude")%string.
Definition OLD_DB (e : env) : string := (DATA_DIR e ++ "/dude.db")%string.
Definition NEW_DB (e : env) : string := (DATA_DIR e ++ "/dude-libsql.db")%string.

Definition nl : string := String (Ascii.ascii_of_nat 10) EmptyString.

Definition import_message (msg : string) : string :=
  ("Database migration requires better-sqlite3 and sqlite-vec packages." ++ nl
   ++ "       Install them with: npm install better-sqlite3 sqlite-vec" ++ nl
   ++ "       Then restart. Your old data in dude.db will be migrated." ++ nl
   ++ "       Error: " ++ msg)%string.

Definition failure_message (e : env) (msg : string) : string :=
  ("Database migration failed. Old database preserved at " ++ OLD_DB e
   ++ ". Error: " ++ msg)%string.

(** [_autoMigrate()] *)
Definition _autoMigrate (e : env) (fs : files) : outcome unit * files :=
  match import_error e with
  | Some msg => (Thrown (import_message msg), fs)
  | None =>
      match migrate_run e with
      | MigrateThrows msg partial =>
          let fs1 := mkFiles (old_db fs) (new_db fs || partial) (old_backup fs) in
          (* Clean up partial migration so next startup can retry *)
          let fs2 :=
            if new_db fs1
            then (if unlink_fails e
                  then fs1  (* ignore cleanup errors *)
                  else mkFiles (old_db fs1) false (old_backup fs1))
            else fs1 in
          (Thrown (failure_message e msg), fs2)
      | MigrateOk _ =>
          let fs1 := mkFiles (old_db fs) true (old_backup fs) in
          (* Rename old DB to .backup *)
          if rename_fails e || negb (old_db fs1)
          then (Returned tt, fs1)  (* warning only *)
          else (Returned tt, mkFiles false (new_db fs1) true)
      end
  end.

(** The test [hasOldDb && !hasNewDb] of [initDb]. *)
Definition needs_migration (fs : files) : bool := old_db fs && negb (new_db fs).

(** [initDb()] without a config on a fresh process ([adapter] still
    null), for an [adapter.init()] that succeeds and so creates the new
    file.  [FactoryStart.initDb] below has the config, the module variable
    and an [init] that may throw. *)
Definition initDb (e : env) (fs : files) : outcome unit * files :=
  if needs_migration fs then
    match _autoMigrate e fs with
    | (Thrown msg, fs') => (Thrown msg, fs')
    | (Returned _, fs') => (Returned tt, mkFiles (old_db fs') true (old_backup fs'))
    end
  else (Returned tt, mkFiles (old_db fs) true (old_backup fs)).

End Factory.

(* ------------------------------------------------------------------ *)
(** ** Concrete data used by the examples below *)

Module Fixtures.

(** The [i]-th axis as a 384-dimensional unit vector. *)
Definition axis (i : nat) : embedding :=
  (repeat 0%Q i ++ [1%Q] ++ repeat 0%Q (383 - i))%list.

(** A unit vector at cosine similarity 12/13 (about 0.92) of [axis 0]. *)
Definition near_axis0 : embedding := ((12 # 13) :: (5 # 13) :: repeat 0 382)%Q.

(** A unit vector at cosine similarity 1/4 of [axis 0]:
    (1/4, 1/4, 1/4, 1/4, 1/2, 1/2, 1/2, 0, ...). *)
Definition quarter_axis0 : embedding :=
  ((1 # 4) :: (1 # 4) :: (1 # 4) :: (1 # 4) :: (1 # 2) :: (1 # 2) :: (1 # 2)
     :: repeat 0 377)%Q.

Definition repo : project := mkProject 1 "org/repo" "2025-06-01" "2025-06-01".
Definition other : project := mkProject 2 "other" "2025-06-01" "2025-06-01".

Definition args (k t : string) : upsert_args :=
  mkArgs None None k (Some t) None None.

Definition rec_of (id proj : Z) (k : kind) (t : string) : record :=
  mkRecord id proj k t "" Open "2025-06-01" "2025-06-01".

Definition legacy0 : SqliteVec.store := SqliteVec.mkStore [repo; other] [] [] 0.

(** One record per project, both embedded. *)
Definition native2 : Libsql.store :=
  Libsql.mkStore [repo; other]
    [Libsql.mkRow (rec_of 1 1 Issue "mine") (Some (axis 1));
     Libsql.mkRow (rec_of 2 2 Issue "theirs") (Some (axis 2))] 2.

Definition legacy2 : SqliteVec.store :=
  SqliteVec.mkStore [repo; other]
    [rec_of 1 1 Issue "mine"; rec_of 2 2 Issue "theirs"]
    [(1%Z, axis 1); (2%Z, axis 2)] 2.

(** Five [spec] records that all carry [axis 0], and one [issue] record
    at similarity 12/13 of it, all in project [repo]. *)
Definition crowded_records : list record :=
  [rec_of 1 1 Spec "s1"; rec_of 2 1 Spec "s2"; rec_of 3 1 Spec "s3";
   rec_of 4 1 Spec "s4"; rec_of 5 1 Spec "s5"; rec_of 6 1 Issue "the issue"].

Definition crowded_embeddings : list (Z * embedding) :=
  [(1%Z, axis 0); (2%Z, axis 0); (3%Z, axis 0); (4%Z, axis 0); (5%Z, axis 0);
   (6%Z, near_axis0)].

Definition native_crowded : Libsql.store :=
  Libsql.mkStore [repo]
    (map (fun re => Libsql.mkRow (fst re) (Some (snd (snd re))))
         (combine crowded_records crowded_embeddings)) 6.

Definition legacy_crowded : SqliteVec.store :=
  SqliteVec.mkStore [repo] crowded_records crowded_embeddings 6.

(** One record of the current project at raw similarity 1/4 of [axis 0]. *)
Definition native_faint : Libsql.store :=
  Libsql.mkStore [repo]
    [Libsql.mkRow (rec_of 1 1 Issue "faint") (Some quarter_axis0)] 1.

Definition legacy_faint : SqliteVec.store :=
  SqliteVec.mkStore [repo] [rec_of 1 1 Issue "faint"] [(1%Z, quarter_axis0)] 1.

(** A legacy store with one project and three records, two of them
    embedded (the migration test's scenario). *)
Definition legacy3 : SqliteVec.store :=
  SqliteVec.mkStore [repo]
    [rec_of 1 1 Issue "Record 0"; rec_of 2 1 Issue "Record 1";
     rec_of 3 1 Issue "Record 2"]
    [(1%Z, axis 0); (2%Z, axis 1)] 3.

End Fixtures.

(* ------------------------------------------------------------------ *)
(** ** Vocabulary of the statements below *)

(** A row value passes an optional [kind] / [status] filter of [list]. *)
Definition passes (f : option string) (v : string) : bool :=
  negb (filter_active f) || String.eqb v (filter_value f).

(** A literal project name that is none of the sentinels and names no
    project of the store. *)
Definition unknown_project (name : string) (ps : list project) : bool :=
  negb (String.eqb name "") && negb (String.eqb name "current")
  && negb (String.eqb name "*")
  && negb (existsb (fun p => String.eqb (p_name p) name) ps).

(** Primary keys and UNIQUE columns, as decidable checks. *)
Fixpoint distinct_ids (l : list Z) : bool :=
  match l with
  | [] => true
  | h :: t => negb (existsb (Z.eqb h) t) && distinct_ids t
  end.

Fixpoint distinct_names (l : list string) : bool :=
  match l with
  | [] => true
  | h :: t => negb (existsb (String.eqb h) t) && distinct_names t
  end.

(** A legacy database as its own schema keeps it: project ids and names
    are unique, record ids are unique, every stored vector has the
    declared dimension, every record references a project. *)
Definition legacy_schema_ok (old : SqliteVec.store) : bool :=
  distinct_ids (map p_id (SqliteVec.projects old))
  && distinct_names (map p_name (SqliteVec.projects old))
  && distinct_ids (map r_id (SqliteVec.records old))
  && forallb (fun iv => dim_ok (snd iv)) (SqliteVec.record_embedding old)
  && forallb (fun r => existsb (fun p => Z.eqb (p_id p) (r_project_id r))
                               (SqliteVec.projects old))
             (SqliteVec.records old).

(** The record has a row in [record_embedding]. *)
Definition has_embedding_row (old : SqliteVec.store) (r : record) : bool :=
  existsb (fun iv => Z.eqb (fst iv) (r_id r)) (SqliteVec.record_embedding old).

(** The native row a legacy record migrates to. *)
Definition migrated_row (old : SqliteVec.store) (r : record) : Libsql.row :=
  Libsql.mkRow r (Migrate.lookup_embedding (r_id r) old).

(** The AUTOINCREMENT mark after inserting rows with explicit ids. *)
Definition seq_after (rs : list record) (s : Z) : Z :=
  fold_left (fun acc r => Z.max acc (r_id r)) rs s.

(** A fault plan that fails exactly one kind of statement. *)
Definition stmt_eqb (a b : stmt) : bool :=
  match a, b with
  | DedupLookup, DedupLookup | UpdateRecord, UpdateRecord
  | DeleteEmbedding, DeleteEmbedding | InsertEmbedding, InsertEmbedding
  | InsertRecord, InsertRecord | ReadBack, ReadBack => true
  | _, _ => false
  end.

Definition fail_at (st : stmt) : faults := fun s => stmt_eqb s st.


(** The argument object carries a kind or a status outside the
    enumerations, or no title at all. *)
Definition rejected_by_schema (a : upsert_args) : bool :=
  match kind_of_string (a_kind a), status_of_string (status_arg a), a_title a with
  | Some _, Some _, Some _ => false
  | _, _, _ => true
  end.

(** The data model's invariant on embeddings: the declared dimension and
    unit length. *)
Definition normalized (e : embedding) : bool := dim_ok e && is_unit e.

Definition native_embeddings_ok (db : Libsql.store) : bool :=
  forallb (fun r => match Libsql.emb r with
                    | Some v => normalized v
                    | None => true
                    end) (Libsql.records db).

Definition legacy_embeddings_ok (db : SqliteVec.store) : bool :=
  forallb (fun iv => normalized (snd iv)) (SqliteVec.record_embedding db).

(** Two embeddings are the same vector (component by component). *)
Definition same_vector (u v : embedding) : bool :=
  Nat.eqb (List.length u) (List.length v)
  && forallb (fun ab => Qeq_bool (fst ab) (snd ab)) (combine u v).

(** Some stored record already carries the vector [e]. *)
Definition native_holds (db : Libsql.store) (e : embedding) : bool :=
  existsb (fun r => match Libsql.emb r with
                    | Some v => same_vector e v
                    | None => false
                    end) (Libsql.records db).

Definition legacy_holds (db : SqliteVec.store) (e : embedding) : bool :=
  existsb (fun iv => same_vector e (snd iv)) (SqliteVec.record_embedding db).

(** Primary keys of the native store. *)
Definition native_keys_ok (db : Libsql.store) : bool :=
  distinct_ids (map (fun r => r_id (Libsql.rec r)) (Libsql.records db)).

(** Primary keys of the legacy store, and no embedding row without its
    record. *)
Definition legacy_keys_ok (db : SqliteVec.store) : bool :=
  distinct_ids (map r_id (SqliteVec.records db))
  && forallb (fun iv => existsb (SqliteVec.has_id (fst iv)) (SqliteVec.records db))
             (SqliteVec.record_embedding db).

(** The project row exists (the foreign key of [record.project_id]). *)
Definition project_exists (ps : list project) (proj : Z) : bool :=
  existsb (fun p => Z.eqb (p_id p) proj) ps.

(** Row [y] is not record [t] and does not carry the vector [e]. *)
Definition native_other (e : embedding) (t : Z) (y : Libsql.row) : Prop :=
  r_id (Libsql.rec y) <> t
  /\ match Libsql.emb y with
     | Some v => normalized v = true /\ same_vector e v = false
     | None => True
     end.

(** The state of the native store once record [t] of project [proj] and
    kind [k] carries the vector [e] and no other row does. *)
Definition native_settled (db : Libsql.store) (e : embedding) (t proj : Z)
    (k : kind) : Prop :=
  exists l1 T l2,
    Libsql.records db = l1 ++ T :: l2
    /\ r_id (Libsql.rec T) = t
    /\ r_project_id (Libsql.rec T) = proj
    /\ r_kind (Libsql.rec T) = k
    /\ Libsql.emb T = Some e
    /\ forall y, In y (l1 ++ l2) -> native_other e t y.

(** The same for the legacy store: record [t] is there and its
    embedding row is the only one that carries [e]. *)
Definition legacy_settled (db : SqliteVec.store) (e : embedding) (t proj : Z)
    (k : kind) : Prop :=
  (exists l1 T l2,
      SqliteVec.records db = l1 ++ T :: l2
      /\ r_id T = t /\ r_project_id T = proj /\ r_kind T = k
      /\ forall y, In y (l1 ++ l2) -> r_id y <> t)
  /\ (exists m1 m2,
         SqliteVec.record_embedding db = m1 ++ (t, e) :: m2
         /\ forall iv, In iv (m1 ++ m2) ->
                       normalized (snd iv) = true /\ same_vector e (snd iv) = false).

(* ------------------------------------------------------------------ *)
(** ** [basename] of node:path (POSIX) and [String.prototype.includes] *)

Module Path.

(** The character [/] (code 47). *)
Definition is_slash (c : Ascii.ascii) : bool := Ascii.eqb c (Ascii.ascii_of_nat 47).

Fixpoint drop_slashes (l : list Ascii.ascii) : list Ascii.ascii :=
  match l with
  | [] => []
  | c :: t => if is_slash c then drop_slashes t else l
  end.

Fixpoint until_slash (l : list Ascii.ascii) : list Ascii.ascii :=
  match l with
  | [] => []
  | c :: t => if is_slash c then [] else c :: until_slash t
  end.

(** [basename(path)]: scanning from the end, trailing slashes are
    skipped, then everything back to the next slash is the result. *)
Definition basename (path : string) : string :=
  string_of_list_ascii
    (rev (until_slash (drop_slashes (rev (list_ascii_of_string path))))).

(** [path.includes('/')] *)
Definition includes_slash (s : string) : bool :=
  existsb is_slash (list_ascii_of_string s).

End Path.

(* ------------------------------------------------------------------ *)
(** ** The [project] table, as both adapters write it *)

Module ProjectTable.

(** AUTOINCREMENT on [project.id]. *)
Definition next_id (ps : list project) (pseq : Z) : Z :=
  (Z.max pseq (list_max_id (map p_id ps)) + 1)%Z.

(** [DO UPDATE SET updated_at = datetime('now')] on the conflicting row. *)
Definition touch (name now : string) (p : project) : project :=
  if String.eqb (p_name p) name
  then mkProject (p_id p) (p_name p) (p_created_at p) now
  else p.

(** [INSERT INTO project (name) VALUES (?)
     ON CONFLICT(name) DO UPDATE SET updated_at = datetime('now')];
    [now] is the value of [datetime('now')].  The new rowid is drawn
    before the conflict on [name] is found, so the AUTOINCREMENT mark
    advances on a conflicting insert as well. *)
Definition insert_or_touch (name now : string) (ps : list project) (pseq : Z)
    : list project * Z :=
  if existsb (fun p => String.eqb (p_name p) name) ps
  then (map (touch name now) ps, next_id ps pseq)
  else (ps ++ [mkProject (next_id ps pseq) name now now], next_id ps pseq).

(** [SELECT ... FROM project WHERE name = ?], first row. *)
Definition by_name (name : string) (ps : list project) : option project :=
  find (fun p => String.eqb (p_name p) name) ps.

(** [DELETE FROM project WHERE id = ?] *)
Definition delete_id (id : Z) (ps : list project) : list project :=
  filter (fun p => negb (Z.eqb (p_id p) id)) ps.

(** [SELECT id, name, created_at, updated_at FROM project ORDER BY name] *)
Definition ordered_by_name (ps : list project) : list project :=
  sort_by (fun a b => String.leb (p_name a) (p_name b)) ps.

End ProjectTable.

(* ------------------------------------------------------------------ *)
(** ** [LibsqlAdapter]: initialisation, projects, delete, recent records *)

Module LibsqlAdapter.

(** The database file: the two tables of [Libsql.store] and the
    AUTOINCREMENT mark of [project]. *)
Record database : Type := mkDatabase {
  tables : Libsql.store;
  project_seq : Z
}.

(** The adapter object: [this.db] is set, and [this.currentProject]. *)
Record adapter : Type := mkAdapter {
  opened : bool;
  currentProject : option project
}.

(** [new LibsqlAdapter(config)] *)
Definition fresh : adapter := mkAdapter false None.

(** [_upsertProject(name)] *)
Definition _upsertProject (name now : string) : M database (option project) :=
  fun d =>
    let '(ps, pseq) := ProjectTable.insert_or_touch name now
                         (Libsql.projects (tables d)) (project_seq d) in
    (Ok (ProjectTable.by_name name ps),
     mkDatabase (Libsql.mkStore ps (Libsql.records (tables d)) (Libsql.seq (tables d)))
                pseq).

(** [UPDATE record SET project_id = ? WHERE project_id = ?] *)
Definition reassign (to from : Z) (r : Libsql.row) : Libsql.row :=
  if Z.eqb (r_project_id (Libsql.rec r)) from
  then Libsql.mkRow
         (mkRecord (r_id (Libsql.rec r)) to (r_kind (Libsql.rec r))
            (r_title (Libsql.rec r)) (r_body (Libsql.rec r))
            (r_status (Libsql.rec r)) (r_created_at (Libsql.rec r))
            (r_updated_at (Libsql.rec r)))
         (Libsql.emb r)
  else r.

(** The first statement of the merge: every record of project [from]
    moves to project [to]. *)
Definition move_records (to from : Z) (d : database) : database :=
  mkDatabase
    (Libsql.mkStore (Libsql.projects (tables d))
       (map (reassign to from) (Libsql.records (tables d)))
       (Libsql.seq (tables d)))
    (project_seq d).

(** The second statement: [DELETE FROM project WHERE id = ?]. *)
Definition drop_project (id : Z) (d : database) : database :=
  mkDatabase
    (Libsql.mkStore (ProjectTable.delete_id id (Libsql.projects (tables d)))
       (Libsql.records (tables d)) (Libsql.seq (tables d)))
    (project_seq d).

Definition undefined_id : string :=
  "Cannot read properties of undefined (reading 'id')".

(** [_migrateProjectNames(projectName)]; [cur] is [this.currentProject].
    The two statements are two separate [execute] calls, nothing wraps
    them. *)
Definition _migrateProjectNames (cur : option project) (projectName : string)
    (d : database) : Factory.outcome unit * database :=
  if Path.includes_slash projectName then
    match ProjectTable.by_name (Path.basename projectName)
            (Libsql.projects (tables d)) with
    | None => (Factory.Returned tt, d)
    | Some oldProject =>
        match cur with
        | None => (Factory.Thrown undefined_id, d)
        | Some c =>
            if negb (Z.eqb (p_id oldProject) (p_id c))
            then (Factory.Returned tt,
                  drop_project (p_id oldProject)
                    (move_records (p_id c) (p_id oldProject) d))
            else (Factory.Returned tt, d)
        end
    end
  else (Factory.Returned tt, d).

(** [init()], with [projectName] the result of [_detectProject()].
    [_runSchema] creates tables and indexes only where they are missing
    and changes no row. *)
Definition init (projectName now : string) (a : adapter) (d : database)
    : Factory.outcome adapter * database :=
  if opened a then (Factory.Returned a, d)
  else
    match _upsertProject projectName now d with
    | (Err e, d1) => (Factory.Thrown "storage error", d1)
    | (Ok cur, d1) =>
        match _migrateProjectNames cur projectName d1 with
        | (Factory.Thrown msg, d2) => (Factory.Thrown msg, d2)
        | (Factory.Returned _, d2) => (Factory.Returned (mkAdapter true cur), d2)
        end
    end.

(** [close()] *)
Definition close (a : adapter) : adapter :=
  if opened a then mkAdapter false (currentProject a) else a.

(** [listProjects()] *)
Definition listProjects (d : database) : list project :=
  ProjectTable.ordered_by_name (Libsql.projects (tables d)).

(** [delete(id)]: [DELETE FROM record WHERE id = ?], then
    [result.rowsAffected > 0]. *)
Definition delete (id : Z) : M Libsql.store bool :=
  fun db =>
    (Ok (existsb (Libsql.has_id id) (Libsql.records db)),
     Libsql.mkStore (Libsql.projects db)
       (filter (fun r => negb (Libsql.has_id id r)) (Libsql.records db))
       (Libsql.seq db)).

(** [getRecentRecords(projectId, hours)]; [cutoff] is the ISO string of
    [Date.now() - hours * 60 * 60 * 1000]:
    [WHERE r.project_id = ? AND r.updated_at > ?
     ORDER BY r.updated_at DESC LIMIT 10]. *)
Definition getRecentRecords (projectId : Z) (cutoff : string)
    (db : Libsql.store) : list record_view :=
  firstn 10
    (sort_by (desc_text (fun v => r_updated_at (rv_record v)))
       (filter (fun v => Z.eqb (r_project_id (rv_record v)) projectId
                         && String.ltb cutoff (r_updated_at (rv_record v)))
          (map Libsql.view_of
             (flat_map (Libsql.join_project db) (Libsql.records db))))).

End LibsqlAdapter.

(* ------------------------------------------------------------------ *)
(** ** [SqliteVecAdapter]: projects, delete, recent records, migrations *)

Module SqliteVecAdapter.

Record database : Type := mkDatabase {
  tables : SqliteVec.store;
  project_seq : Z
}.

(** [_upsertProject(name)] *)
Definition _upsertProject (name now : string) : M database (option project) :=
  fun d =>
    let '(ps, pseq) := ProjectTable.insert_or_touch name now
                         (SqliteVec.projects (tables d)) (project_seq d) in
    (Ok (ProjectTable.by_name name ps),
     mkDatabase (SqliteVec.mkStore ps (SqliteVec.records (tables d))
                   (SqliteVec.record_embedding (tables d))
                   (SqliteVec.seq (tables d)))
                pseq).

(** [UPDATE record SET project_id = ? WHERE project_id = ?] *)
Definition reassign (to from : Z) (r : record) : record :=
  if Z.eqb (r_project_id r) from
  then mkRecord (r_id r) to (r_kind r) (r_title r) (r_body r) (r_status r)
         (r_created_at r) (r_updated_at r)
  else r.

(** The first statement of the merge. *)
Definition move_records (to from : Z) (d : database) : database :=
  mkDatabase
    (SqliteVec.mkStore (SqliteVec.projects (tables d))
       (map (reassign to from) (SqliteVec.records (tables d)))
       (SqliteVec.record_embedding (tables d))
       (SqliteVec.seq (tables d)))
    (project_seq d).

(** The second statement: [DELETE FROM project WHERE id = ?]; with
    [foreign_keys = ON] it cascades to the records that still reference
    the project ([ON DELETE CASCADE]). *)
Definition drop_project (id : Z) (d : database) : database :=
  mkDatabase
    (SqliteVec.mkStore
       (ProjectTable.delete_id id (SqliteVec.projects (tables d)))
       (filter (fun r => negb (Z.eqb (r_project_id r) id))
          (SqliteVec.records (tables d)))
       (SqliteVec.record_embedding (tables d))
       (SqliteVec.seq (tables d)))
    (project_seq d).

(** [_migrateProjectNames(projectName)]; [cur] is [this.currentProject]. *)
Definition _migrateProjectNames (cur : option project) (projectName : string)
    (d : database) : Factory.outcome unit * database :=
  if Path.includes_slash projectName then
    match ProjectTable.by_name (Path.basename projectName)
            (SqliteVec.projects (tables d)) with
    | None => (Factory.Returned tt, d)
    | Some oldProject =>
        match cur with
        | None => (Factory.Thrown LibsqlAdapter.undefined_id, d)
        | Some c =>
            if negb (Z.eqb (p_id oldProject) (p_id c))
            then (Factory.Returned tt,
                  drop_project (p_id oldProject)
                    (move_records (p_id c) (p_id oldProject) d))
            else (Factory.Returned tt, d)
        end
    end
  else (Factory.Returned tt, d).

(** [listProjects()] *)
Definition listProjects (d : database) : list project :=
  ProjectTable.ordered_by_name (SqliteVec.projects (tables d)).

(** [delete(id)], also [deleteRecord(id)] of src/db.js: in one
    transaction, [DELETE FROM record_embedding WHERE record_id = ?], then
    [DELETE FROM record WHERE id = ?] and [result.changes > 0]. *)
Definition delete (id : Z) : M SqliteVec.store bool :=
  transaction
    (SqliteVec.exec_delete_embedding id ;;;
     (fun db =>
        (Ok (existsb (SqliteVec.has_id id) (SqliteVec.records db)),
         SqliteVec.mkStore (SqliteVec.projects db)
           (filter (fun r => negb (SqliteVec.has_id id r)) (SqliteVec.records db))
           (SqliteVec.record_embedding db) (SqliteVec.seq db)))).

(** [getRecentRecords(projectId, hours)] *)
Definition getRecentRecords (projectId : Z) (cutoff : string)
    (db : SqliteVec.store) : list record_view :=
  firstn 10
    (sort_by (desc_text (fun v => r_updated_at (rv_record v)))
       (filter (fun v => Z.eqb (r_project_id (rv_record v)) projectId
                         && String.ltb cutoff (r_updated_at (rv_record v)))
          (flat_map (SqliteVec.join_project db) (SqliteVec.records db)))).

End SqliteVecAdapter.

(** The [project] table as its schema keeps it: unique ids, unique names. *)
Definition projects_ok (ps : list project) : bool :=
  distinct_ids (map p_id ps) && distinct_names (map p_name ps).

(** Stores in which project 1 still carries the directory name [repo] of
    the repository that project 3 names [org/repo]. *)
Module Scenes.

Definition legacy_named : project := mkProject 1 "repo" "2025-01-01" "2025-01-01".
Definition bystander : project := mkProject 2 "other" "2025-01-01" "2025-01-01".
Definition remote_named : project :=
  mkProject 3 "org/repo" "2025-06-01" "2025-06-01".

Definition native_split : LibsqlAdapter.database :=
  LibsqlAdapter.mkDatabase
    (Libsql.mkStore [legacy_named; bystander; remote_named]
       [Libsql.mkRow (Fixtures.rec_of 1 1 Issue "old") (Some (Fixtures.axis 1));
        Libsql.mkRow (Fixtures.rec_of 2 2 Issue "theirs") None;
        Libsql.mkRow (Fixtures.rec_of 3 3 Spec "new") (Some (Fixtures.axis 3))] 3)
    3.

Definition legacy_split : SqliteVecAdapter.database :=
  SqliteVecAdapter.mkDatabase
    (SqliteVec.mkStore [legacy_named; bystander; remote_named]
       [Fixtures.rec_of 1 1 Issue "old"; Fixtures.rec_of 2 2 Issue "theirs";
        Fixtures.rec_of 3 3 Spec "new"]
       [(1%Z, Fixtures.axis 1); (3%Z, Fixtures.axis 3)] 3)
    3.

End Scenes.

(** Every element is in order with its successor. *)
Fixpoint sorted_by (A : Type) (le : A -> A -> bool) (l : list A) : bool :=
  match l with
  | [] => true
  | x :: t =>
      match t with
      | [] => true
      | y :: _ => le x y && sorted_by le t
      end
  end.

(** [b.similarity - a.similarity <= 0]: hit [a] may stand before hit [b]. *)
Definition by_similarity (a b : hit) : bool := Qleb (similarity b) (similarity a).

(** [ORDER BY updated_at DESC]: row [a] may stand before row [b]. *)
Definition newest_first (a b : record_view) : bool :=
  String.leb (r_updated_at (rv_record b)) (r_updated_at (rv_record a)).

(** What identifies a record for good: its id, its project and its
    creation time. *)
Definition record_identity (r : record) : Z * Z * string :=
  (r_id r, r_project_id r, r_created_at r).

(** [db'] has the projects of [db], and its record table is that of [db]
    with the identities unchanged, in the same order, possibly followed by
    new rows; unique record ids stay unique. *)
Definition native_extends (db db' : Libsql.store) : Prop :=
  Libsql.projects db' = Libsql.projects db
  /\ (exists added,
         map (fun r => record_identity (Libsql.rec r)) (Libsql.records db')
         = map (fun r => record_identity (Libsql.rec r)) (Libsql.records db) ++ added)
  /\ (distinct_ids (map (fun r => r_id (Libsql.rec r)) (Libsql.records db)) = true ->
      distinct_ids (map (fun r => r_id (Libsql.rec r)) (Libsql.records db')) = true).

Definition legacy_extends (db db' : SqliteVec.store) : Prop :=
  SqliteVec.projects db' = SqliteVec.projects db
  /\ (exists added,
         map record_identity (SqliteVec.records db')
         = map record_identity (SqliteVec.records db) ++ added)
  /\ (distinct_ids (map r_id (SqliteVec.records db)) = true ->
      distinct_ids (map r_id (SqliteVec.records db')) = true).

(** Every run of [m] ends in a state related to the one it started in. *)
Definition stays (S A : Type) (R : S -> S -> Prop) (m : M S A) : Prop :=
  forall s, R s (snd (m s)).

(** The migration's source database is the one it was. *)
Definition same_source (w w' : Migrate.world) : Prop := fst w' = fst w.

(* ------------------------------------------------------------------ *)
(** ** [SqliteVecAdapter._runMigrations] *)

Module Migrations.

Section Runner.
(** The state of the database as the migration modules see it; the
    modules themselves ([src/migrations/*.js]) are parameters here. *)
Variable D : Type.

(** A migration module: [mod.version] and [mod.up]. *)
Record migration : Type := mkMigration {
  version : Z;
  up : D -> result D
}.

(** The database with its table [schema_version (version INTEGER PRIMARY KEY)]. *)
Record versioned : Type := mkVersioned {
  schema_version : list Z;
  content : D
}.

(** [SELECT MAX(version) AS v FROM schema_version]: NULL on an empty table. *)
Fixpoint max_version (vs : list Z) : option Z :=
  match vs with
  | [] => None
  | v :: rest =>
      match max_version rest with
      | None => Some v
      | Some m => Some (Z.max v m)
      end
  end.

(** [row?.v ?? 0] *)
Definition currentVersion (s : versioned) : Z :=
  match max_version (schema_version s) with
  | Some v => v
  | None => 0%Z
  end.

(** [INSERT INTO schema_version (version) VALUES (?)] *)
Definition record_version (v : Z) : M versioned unit :=
  fun s =>
    if existsb (Z.eqb v) (schema_version s)
    then (Err (UniqueFailed "schema_version"), s)
    else (Ok tt, mkVersioned (schema_version s ++ [v]) (content s)).

(** [mod.up(d)] *)
Definition run_up (m : migration) : M versioned unit :=
  fun s =>
    match up m (content s) with
    | Ok d' => (Ok tt, mkVersioned (schema_version s) d')
    | Err e => (Err e, s)
    end.

(** One turn of the loop over the sorted files. *)
Definition step (cur : Z) (m : migration) : M versioned unit :=
  if Z.ltb cur (version m)
  then transaction (run_up m ;;; record_version (version m))
  else ret tt.

Fixpoint run (cur : Z) (ms : list migration) : M versioned unit :=
  match ms with
  | [] => ret tt
  | m :: rest => step cur m ;;; run cur rest
  end.

(** [_runMigrations()]: [currentVersion] is read once, before the loop;
    [ms] are the modules in the order of their sorted file names. *)
Definition _runMigrations (ms : list migration) : M versioned unit :=
  fun s => run (currentVersion s) ms s.

End Runner.

End Migrations.

(** No record of project [proj] and kind [kind] carries a vector at
    similarity 0.85 or more of [e] (native store). *)
Definition native_nothing_close (db : Libsql.store) (proj : Z) (kind : string)
    (e : embedding) : bool :=
  forallb (fun r => negb (Z.eqb (r_project_id (Libsql.rec r)) proj
                          && String.eqb (kind_to_string (r_kind (Libsql.rec r))) kind
                          && Qleb (85 # 100)
                                  (Libsql._computeSimilarity e (Libsql.emb r))))
          (Libsql.records db).

(** No embedding row of a record of project [proj] and kind [kind] is at
    distance 0.15 or less of [e] (legacy store). *)
Definition legacy_nothing_close (db : SqliteVec.store) (proj : Z) (kind : string)
    (e : embedding) : bool :=
  forallb (fun iv =>
             forallb (fun r => negb (SqliteVec.has_id (fst iv) r
                                     && Z.eqb (r_project_id r) proj
                                     && String.eqb (kind_to_string (r_kind r)) kind
                                     && Qleb (distance e (snd iv)) (15 # 100)))
                     (SqliteVec.records db))
          (SqliteVec.record_embedding db).

(* ------------------------------------------------------------------ *)
(** ** The record routes of the web server (src/web.js) *)

Module Web.

(** The parsed JSON body of a request; [None] is an absent property. *)
Record request_body : Type := mkBody {
  b_kind : option string;
  b_title : option string;
  b_body : option string;
  b_status : option string
}.

(** What the handler answers: [json(res, record, status)], [notFound(res)],
    [json(res, { ok: true })], or the 500 of the [catch] around
    [handleRequest]. *)
Inductive response : Type :=
| Json (status : nat) (r : option record_view)
| NotFound
| Deleted
| ServerError.

(** [x || d] on an optional string. *)
Definition or_default (x : option string) (d : string) : string :=
  match x with
  | Some s => if String.eqb s "" then d else s
  | None => d
  end.

(** [x ?? d] *)
Definition or_existing (x : option string) (d : string) : string :=
  match x with
  | Some s => s
  | None => d
  end.

(** The argument object of the [upsertRecord] call of [PUT]. *)
Definition put_args (id : Z) (body : request_body) (existing : record_view)
    : upsert_args :=
  mkArgs (Some id) (Some (r_project_id (rv_record existing)))
    (or_default (b_kind body) (kind_to_string (r_kind (rv_record existing))))
    (Some (or_default (b_title body) (r_title (rv_record existing))))
    (Some (or_existing (b_body body) (r_body (rv_record existing))))
    (Some (or_default (b_status body)
             (status_to_string (r_status (rv_record existing))))).

(** [PUT /api/records/:id] with a body that parsed to an object; [e] is
    the embedding of the merged text.  [upsertRecord] of src/db.js is
    called with a [projectId], so its transaction is the adapter's with
    that project. *)
Definition put_record (f : faults) (id : Z) (body : request_body)
    (e : embedding) (now : string) (db : SqliteVec.store)
    : response * SqliteVec.store :=
  if Z.eqb id 0 then (NotFound, db)
  else
    match hd_error (SqliteVec.get_rows db id) with
    | None => (NotFound, db)
    | Some existing =>
        match transaction
                (SqliteVec.upsert_body f (r_project_id (rv_record existing))
                   (put_args id body existing) e now) db with
        | (Ok r, db') => (Json 200 r, db')
        | (Err _, db') => (ServerError, db')
        end
    end.

(** [DELETE /api/records/:id] *)
Definition delete_record (id : Z) (db : SqliteVec.store)
    : response * SqliteVec.store :=
  if Z.eqb id 0 then (NotFound, db)
  else
    match SqliteVecAdapter.delete id db with
    | (Ok true, db') => (Deleted, db')
    | (Ok false, db') => (NotFound, db')
    | (Err _, db') => (ServerError, db')
    end.

End Web.

(** Some record with this id has kind [K]. *)
Definition native_of_kind (db : Libsql.store) (K : string) (id : Z) : bool :=
  existsb (fun r => Libsql.has_id id r
                    && String.eqb (kind_to_string (r_kind (Libsql.rec r))) K)
          (Libsql.records db).

Definition legacy_of_kind (db : SqliteVec.store) (K : string) (id : Z) : bool :=
  existsb (fun r => SqliteVec.has_id id r && String.eqb (kind_to_string (r_kind r)) K)
          (SqliteVec.records db).

(** At least [n] stored vectors belong to records of another kind than
    [K], and each of them is strictly nearer to [q] than every vector of a
    record of kind [K]. *)
Definition crowded_out (of_kind : Z -> bool) (q : embedding) (n : nat)
    (vectors : list (Z * embedding)) : bool :=
  Nat.leb n (List.length (filter (fun iv => negb (of_kind (fst iv))) vectors))
  && forallb (fun x =>
                forallb (fun y => negb (negb (of_kind (fst x)) && of_kind (fst y)
                                        && Qleb (distance q (snd y)) (distance q (snd x))))
                        vectors)
             vectors.

(** Some record with this id is of project [proj] and kind [K]. *)
Definition native_of_group (db : Libsql.store) (proj : Z) (K : string) (id : Z)
    : bool :=
  existsb (fun r => Libsql.has_id id r
                    && (Z.eqb (r_project_id (Libsql.rec r)) proj
                        && String.eqb (kind_to_string (r_kind (Libsql.rec r))) K))
          (Libsql.records db).

Definition legacy_of_group (db : SqliteVec.store) (proj : Z) (K : string) (id : Z)
    : bool :=
  existsb (fun r => SqliteVec.has_id id r
                    && (Z.eqb (r_project_id r) proj
                        && String.eqb (kind_to_string (r_kind r)) K))
          (SqliteVec.records db).

(* ------------------------------------------------------------------ *)
(** ** [searchRecords] of src/db.js *)

Module DbJsSearch.

(** [let similarity = 1 - row.distance;
     if (curProject && row.project === curProject.name)
       similarity = Math.min(1.0, similarity + 0.1)] *)
Definition score (cur : option project) (vd : record_view * Q) : SqliteVec.scored :=
  let similarity := (1 - snd vd)%Q in
  (fst vd,
   match cur with
   | Some curProject =>
       if String.eqb (rv_project (fst vd)) (p_name curProject)
       then boost similarity else similarity
   | None => similarity
   end).

(** [searchRecords(embedding, { kind, limit = 5 })]: the query and the
    ranking of [SqliteVecAdapter.search], with [adapter.currentProject]
    read directly (it may be null). *)
Definition searchRecords (cur : option project) (q : embedding)
    (kind : option string) (limit : option nat) : M SqliteVec.store (list hit) :=
  fun db =>
    match check_dim q with
    | Err e => (Err e, db)
    | Ok _ =>
        let rows := map (score cur)
                      (SqliteVec.search_candidates db q kind (limit_of limit)) in
        (Ok (map SqliteVec.strip
               (firstn (limit_of limit)
                  (sort_by (desc SqliteVec.score_of)
                     (filter (fun r => Qleb (3 # 10) (SqliteVec.score_of r)) rows)))),
         db)
    end.

End DbJsSearch.

(* ------------------------------------------------------------------ *)
(** ** [SqliteVecAdapter.init] and the [initDb] of src/db.js *)

Module SqliteVecStart.

(** The adapter object: [this.db] is set, and [this.currentProject]. *)
Record adapter : Type := mkAdapter {
  opened : bool;
  currentProject : option project
}.

(** [new SqliteVecAdapter()] *)
Definition fresh : adapter := mkAdapter false None.

(** The database file: the tables with the [schema_version] table. *)
Definition state : Type := Migrations.versioned SqliteVecAdapter.database.

(** How a call ends: it returns, or it throws the error of a statement or
    of a migration module, or a [TypeError]. *)
Inductive ending : Type :=
| Done
| Failed (e : sql_error)
| Threw (message : string).

(** [init()], with [ms] the migration modules in file order and
    [projectName] the result of [_detectProject()].  [this.db] is
    assigned before the migrations run. *)
Definition init (ms : list (Migrations.migration SqliteVecAdapter.database))
    (projectName now : string) (a : adapter) (s : state)
    : ending * adapter * state :=
  if opened a then (Done, a, s)
  else
    let a1 := mkAdapter true (currentProject a) in
    match Migrations._runMigrations ms s with
    | (Err e, s1) => (Failed e, a1, s1)
    | (Ok _, s1) =>
        match SqliteVecAdapter._upsertProject projectName now
                (Migrations.content s1) with
        | (Err e, d1) =>
            (Failed e, a1, Migrations.mkVersioned (Migrations.schema_version s1) d1)
        | (Ok cur, d1) =>
            let a2 := mkAdapter true cur in
            match SqliteVecAdapter._migrateProjectNames cur projectName d1 with
            | (Factory.Thrown msg, d2) =>
                (Threw msg, a2,
                 Migrations.mkVersioned (Migrations.schema_version s1) d2)
            | (Factory.Returned _, d2) =>
                (Done, a2, Migrations.mkVersioned (Migrations.schema_version s1) d2)
            end
        end
    end.

(** [initDb()] of src/db.js; [g] is the module's variable [adapter], which
    is assigned before [adapter.init()] is awaited. *)
Definition initDb (ms : list (Migrations.migration SqliteVecAdapter.database))
    (projectName now : string) (g : option adapter) (s : state)
    : ending * option adapter * state :=
  match g with
  | Some a => (Done, Some a, s)
  | None =>
      match init ms projectName now fresh s with
      | (r, a, s') => (r, Some a, s')
      end
  end.

End SqliteVecStart.

(* ------------------------------------------------------------------ *)
(** ** What [LibsqlAdapter.search] makes of the rows its query returned *)

Module LibsqlRanking.

(** [result.rows.map(...).filter(r => r.similarity >= 0.3)
      .sort((a, b) => b.similarity - a.similarity).slice(0, limit).map(...)]
    for [result.rows] in the order [rows]: the query of [search] has no
    ORDER BY, so the rows may come in any order. *)
Definition ranked (curName : string) (q : embedding) (limit : nat)
    (rows : list (Libsql.row * string)) : list hit :=
  map Libsql.strip
    (firstn limit
       (sort_by (desc Libsql.score_of)
          (filter (fun r => Qleb (3 # 10) (Libsql.score_of r))
             (map (Libsql.score curName q) rows)))).

End LibsqlRanking.

(** No record of a project named [name] carries a vector at similarity
    0.9 or more of [e]: the boost lifts none of them to the cap 1.0. *)
Definition native_below_cap (db : Libsql.store) (name : string) (e : embedding)
    : bool :=
  forallb (fun rp : Libsql.row * string =>
             negb (String.eqb (snd rp) name
                   && Qleb (9 # 10) (Libsql._computeSimilarity e (Libsql.emb (fst rp)))))
          (flat_map (Libsql.join_project db) (Libsql.records db)).

(* ------------------------------------------------------------------ *)
(** ** [initDb(config)] of the factory, with what the files hold *)

Module FactoryStart.

(** The three database files under [DATA_DIR]. *)
Inductive file_name : Type :=
| DudeDb          (* OLD_DB *)
| DudeLibsqlDb    (* NEW_DB *)
| DudeDbBackup.   (* `${OLD_DB}.backup` *)

(** [config] as [_createClient] reads it; [None] is an absent property. *)
Record config : Type := mkConfig {
  url : option string;
  dbPath : option string
}.


(** [option || fallback] on strings: the empty string is falsy. *)
Definition or_else (s : option string) (fallback : string) : string :=
  match s with
  | Some v => if String.eqb v "" then fallback else v
  | None => fallback
  end.

(** How [adapter.init()] ends; when it throws, [opened] tells whether the
    client had already opened its database. *)
Inductive init_result : Type :=
| InitOk
| InitThrows (message : string) (opened : bool).

Section Contents.
(** What a database file holds. *)
Variable C : Type.

(** The files under [DATA_DIR]; [None] is a file that does not exist. *)
Record files : Type := mkFiles {
  old_db : option C;        (* dude.db *)
  new_db : bool;            (* dude-libsql.db exists *)
  old_backup : option C     (* dude.db.backup *)
}.

(** The collaborators of [initDb]: those of [_autoMigrate]; which of the
    three files a client URL names, if any; the way [adapter.init()]
    ends; and what a file holds once the client has opened it and the
    schema has been run on it. *)
Record env : Type := mkEnv {
  base : Factory.env;
  locate : string -> option file_name;
  init_run : init_result;
  written : option C -> C
}.

(** The URL of [_createClient] for
    [new LibsqlAdapter({ dbPath: NEW_DB, ...config })]:
    [config.url || `file:${config.dbPath || DB_PATH}`], where [DB_PATH]
    and [NEW_DB] are the same path. *)
Definition client_url (e : env) (c : config) : string :=
  or_else (url c) ("file:" ++ or_else (dbPath c) (Factory.NEW_DB (base e))).

(** The files once the client has opened its database. *)
Definition open_at (e : env) (c : config) (fs : files) : files :=
  match locate e (client_url e c) with
  | Some DudeLibsqlDb => mkFiles (old_db fs) true (old_backup fs)
  | Some DudeDb => mkFiles (Some (written e (old_db fs))) (new_db fs) (old_backup fs)
  | Some DudeDbBackup =>
      mkFiles (old_db fs) (new_db fs) (Some (written e (old_backup fs)))
  | None => fs
  end.


(** [_autoMigrate()]; [rename] puts the legacy file in the place of an
    existing backup. *)
Definition _autoMigrate (e : env) (fs : files) : Factory.outcome unit * files :=
  match Factory.import_error (base e) with
  | Some msg => (Factory.Thrown (Factory.import_message msg), fs)
  | None =>
      match Factory.migrate_run (base e) with
      | Factory.MigrateThrows msg partial =>
          let fs1 := mkFiles (old_db fs) (new_db fs || partial) (old_backup fs) in
          let fs2 :=
            if new_db fs1
            then (if Factory.unlink_fails (base e)
                  then fs1
                  else mkFiles (old_db fs1) false (old_backup fs1))
            else fs1 in
          (Factory.Thrown (Factory.failure_message (base e) msg), fs2)
      | Factory.MigrateOk _ =>
          let fs1 := mkFiles (old_db fs) true (old_backup fs) in
          match old_db fs1 with
          | Some legacy =>
              if Factory.rename_fails (base e)
              then (Factory.Returned tt, fs1)
              else (Factory.Returned tt, mkFiles None true (Some legacy))
          | None => (Factory.Returned tt, fs1)
          end
      end
  end.

(** [hasOldDb && !hasNewDb] *)
Definition needs_migration (fs : files) : bool :=
  match old_db fs with
  | Some _ => negb (new_db fs)
  | None => false
  end.

(** The files and the module variable [adapter] (set or null). *)
Record state : Type := mkState {
  disk : files;
  adapter : bool
}.

(** [initDb(config)].  [adapter] is assigned before [adapter.init()] is
    awaited. *)
Definition initDb (e : env) (c : config) (s : state)
    : Factory.outcome unit * state :=
  if adapter s then (Factory.Returned tt, s)
  else
    match (if needs_migration (disk s)
           then _autoMigrate e (disk s)
           else (Factory.Returned tt, disk s)) with
    | (Factory.Thrown msg, fs1) => (Factory.Thrown msg, mkState fs1 false)
    | (Factory.Returned _, fs1) =>
        match init_run e with
        | InitOk => (Factory.Returned tt, mkState (open_at e c fs1) true)
        | InitThrows msg opened =>
            (Factory.Thrown msg,
             mkState (if opened then open_at e c fs1 else fs1) true)
        end
    end.


(** The files as [existsSync] sees them. *)
Definition seen (fs : files) : Factory.files :=
  Factory.mkFiles (match old_db fs with Some _ => true | None => false end)
                  (new_db fs)
                  (match old_backup fs with Some _ => true | None => false end).

End Contents.

End FactoryStart.

(* ------------------------------------------------------------------ *)
(** * Properties *)

Unset Implicit Arguments.

(** ** Lists, sorting and row-wise updates *)

Section SortFacts.
Variable A : Type.
Variable le : A -> A -> bool.

Lemma In_insert_by (x y : A) (l : list A) :
  In y (insert_by le x l) <-> y = x \/ In y l.
Proof.
  induction l as [|h t IH]; simpl.
  - intuition.
  - destruct (le x h); simpl; rewrite ?IH; intuition.
Qed.

Lemma In_sort_by (y : A) (l : list A) :
  In y (sort_by le l) <-> In y l.
Proof.
  induction l as [|h t IH]; simpl.
  - tauto.
  - rewrite In_insert_by, IH. intuition.
Qed.

(** An element that sorts strictly before everything else ends up first,
    wherever it stood. *)
Lemma insert_by_front (x : A) (l : list A) :
  (forall y, In y l -> le x y = true) -> insert_by le x l = x :: l.
Proof.
  destruct l as [|h t]; simpl; auto.
  intros H. rewrite (H h); auto.
Qed.

Lemma sort_by_front (x : A) (l1 l2 : list A) :
  (forall y, In y (l1 ++ l2) -> le x y = true /\ le y x = false) ->
  sort_by le (l1 ++ x :: l2) = x :: sort_by le (l1 ++ l2).
Proof.
  induction l1 as [|a l1 IH]; simpl; intros H.
  - apply insert_by_front. intros y Hy.
    apply (proj1 (In_sort_by y l2)) in Hy. destruct (H y Hy); auto.
  - rewrite IH by (intros y Hy; apply H; auto).
    simpl. destruct (H a (or_introl eq_refl)) as [_ Ha]. rewrite Ha. reflexivity.
Qed.
End SortFacts.

Lemma In_firstn (A : Type) (n : nat) (l : list A) (x : A) :
  In x (firstn n l) -> In x l.
Proof.
  revert l; induction n as [|n IH]; intros [|h t]; simpl; try tauto.
  intros [->|H]; auto.
Qed.

Lemma update_rows_untouched (A : Type) (sel : A -> bool) (upd : A -> result A)
    (rows : list A) :
  (forall r, In r rows -> sel r = false) ->
  update_rows sel upd rows = Ok rows.
Proof.
  induction rows as [|r rest IH]; simpl; intros H; auto.
  rewrite (H r) by auto. rewrite IH by auto. reflexivity.
Qed.

Lemma filter_none (A : Type) (f : A -> bool) (l : list A) :
  (forall x, In x l -> f x = false) -> filter f l = [].
Proof.
  induction l as [|h t IH]; simpl; intros H; auto.
  rewrite (H h) by auto. auto.
Qed.

Lemma existsb_false_forall (A : Type) (f : A -> bool) (l : list A) :
  existsb f l = false -> forall x, In x l -> f x = false.
Proof.
  intros H x Hx. destruct (f x) eqn:E; auto.
  assert (existsb f l = true) by (apply existsb_exists; eauto). congruence.
Qed.

Lemma In_optional_filter (A : Type) (b : bool) (f : A -> bool) (l : list A) (x : A) :
  In x l -> (b = true -> f x = true) -> In x (if b then filter f l else l).
Proof.
  intros Hin Hf. destruct b; auto. apply filter_In; auto.
Qed.

Lemma passes_spec (f : option string) (v : string) :
  passes f v = true -> filter_active f = true -> String.eqb v (filter_value f) = true.
Proof.
  unfold passes. intros H Ha. rewrite Ha in H. simpl in H. exact H.
Qed.

(** ** [list] with a project name nobody has *)

Lemma unknown_project_id (name : string) (ps : list project) :
  unknown_project name ps = true ->
  String.eqb name "" || String.eqb name "current" = false
  /\ negb (String.eqb name "*") = true
  /\ hd_error (map p_id (filter (fun p => String.eqb (p_name p) name) ps)) = None.
Proof.
  unfold unknown_project. intros H.
  repeat (apply andb_true_iff in H; destruct H as [H ?]).
  repeat match goal with
         | Hn : negb _ = true |- _ => apply negb_true_iff in Hn
         end.
  repeat split.
  - rewrite H. simpl. assumption.
  - apply negb_true_iff. assumption.
  - rewrite filter_none; auto.
    apply existsb_false_forall. assumption.
Qed.

Lemma Libsql_list_rows_complete (db : Libsql.store) (kind status : option string)
    (r : Libsql.row) (p : project) :
  In r (Libsql.records db) -> In p (Libsql.projects db) ->
  p_id p = r_project_id (Libsql.rec r) ->
  passes kind (kind_to_string (r_kind (Libsql.rec r))) = true ->
  passes status (status_to_string (r_status (Libsql.rec r))) = true ->
  In (mkView (Libsql.rec r) (p_name p)) (Libsql.list_rows db None kind status).
Proof.
  intros Hr Hp Hid Hk Hs. unfold Libsql.list_rows. simpl.
  apply In_sort_by.
  apply In_optional_filter; [|intro; apply passes_spec; assumption].
  apply In_optional_filter; [|intro; apply passes_spec; assumption].
  change (mkView (Libsql.rec r) (p_name p)) with (Libsql.view_of (r, p_name p)).
  apply in_map. apply in_flat_map. exists r. split; auto.
  unfold Libsql.join_project.
  apply (in_map (fun p0 => (r, p_name p0))).
  apply filter_In. split; auto. apply Z.eqb_eq. assumption.
Qed.

Lemma SqliteVec_list_rows_complete (db : SqliteVec.store) (kind status : option string)
    (r : record) (p : project) :
  In r (SqliteVec.records db) -> In p (SqliteVec.projects db) ->
  p_id p = r_project_id r ->
  passes kind (kind_to_string (r_kind r)) = true ->
  passes status (status_to_string (r_status r)) = true ->
  In (mkView r (p_name p)) (SqliteVec.list_rows db None kind status).
Proof.
  intros Hr Hp Hid Hk Hs. unfold SqliteVec.list_rows. simpl.
  apply In_sort_by.
  apply In_optional_filter; [|intro; apply passes_spec; assumption].
  apply In_optional_filter; [|intro; apply passes_spec; assumption].
  apply in_flat_map. exists r. split; auto.
  unfold SqliteVec.join_project.
  apply (in_map (fun p0 => mkView r (p_name p0))).
  apply filter_In. split; auto. apply Z.eqb_eq. assumption.
Qed.

(** C9.  In [list] (both adapters) and in [listRecords], a project filter
    that is a literal name of no existing project (and neither "current"
    nor "*", nor empty) drops the project restriction: the call answers
    exactly as with "*", and every record of every project that passes the
    kind and status filters is in the answer. *)
Theorem list_unknown_project_returns_all_projects :
  forall (cur : option project) (kind status : option string) (name : string),
    (forall db : Libsql.store,
        unknown_project name (Libsql.projects db) = true ->
        Libsql.list cur kind status (Some name) db
          = Libsql.list cur kind status (Some "*"%string) db
        /\ fst (Libsql.list cur kind status (Some name) db)
             = Ok (Libsql.list_rows db None kind status)
        /\ forall r p,
             In r (Libsql.records db) -> In p (Libsql.projects db) ->
             p_id p = r_project_id (Libsql.rec r) ->
             passes kind (kind_to_string (r_kind (Libsql.rec r))) = true ->
             passes status (status_to_string (r_status (Libsql.rec r))) = true ->
             In (mkView (Libsql.rec r) (p_name p))
                (Libsql.list_rows db None kind status))
    /\ (forall db : SqliteVec.store,
        unknown_project name (SqliteVec.projects db) = true ->
        SqliteVec.list cur kind status (Some name) db
          = SqliteVec.list cur kind status (Some "*"%string) db
        /\ fst (SqliteVec.list cur kind status (Some name) db)
             = Ok (SqliteVec.list_rows db None kind status)
        /\ DbJs.listRecords cur kind status (Some name) db
             = SqliteVec.list_rows db None kind status
        /\ forall r p,
             In r (SqliteVec.records db) -> In p (SqliteVec.projects db) ->
             p_id p = r_project_id r ->
             passes kind (kind_to_string (r_kind r)) = true ->
             passes status (status_to_string (r_status r)) = true ->
             In (mkView r (p_name p)) (SqliteVec.list_rows db None kind status)).
Proof.
  intros cur kind status name. split; intros db Hu;
    destruct (unknown_project_id _ _ Hu) as (Hcur & Hstar & Hnone).
  - assert (E : Libsql.list_project_id cur (Some name) db = Ok None).
    { unfold Libsql.list_project_id. rewrite Hcur, Hstar, Hnone. reflexivity. }
    repeat split.
    + unfold Libsql.list. rewrite E. reflexivity.
    + unfold Libsql.list. rewrite E. reflexivity.
    + intros. apply Libsql_list_rows_complete with (p := p); assumption.
  - assert (E : SqliteVec.list_project_id cur (Some name) db = Ok None).
    { unfold SqliteVec.list_project_id. rewrite Hcur, Hstar, Hnone. reflexivity. }
    repeat split.
    + unfold SqliteVec.list. rewrite E. reflexivity.
    + unfold SqliteVec.list. rewrite E. reflexivity.
    + unfold DbJs.listRecords. rewrite Hcur, Hstar, Hnone. reflexivity.
    + intros. apply SqliteVec_list_rows_complete with (p := p); assumption.
Qed.

(** The C9 scenario on a two-project store: asking for project "nope"
    lists the records of both projects. *)
Lemma list_unknown_project_witness :
  List.length (Libsql.list_rows Fixtures.native2 None None None) = 2%nat
  /\ Libsql.list (Some Fixtures.repo) None None (Some "nope"%string) Fixtures.native2
     = Libsql.list (Some Fixtures.repo) None None (Some "*"%string) Fixtures.native2
  /\ DbJs.listRecords (Some Fixtures.repo) None None (Some "nope"%string) Fixtures.legacy2
     = SqliteVec.list_rows Fixtures.legacy2 None None None.
Proof.
  split; [reflexivity|].
  destruct (list_unknown_project_returns_all_projects
              (Some Fixtures.repo) None None "nope"%string) as [HL HV].
  split.
  - apply (HL Fixtures.native2). reflexivity.
  - apply (HV Fixtures.legacy2). reflexivity.
Defined.

(** ** [upsert] with an explicit id that matches nothing *)

Lemma existsb_after_delete (id : Z) (l : list (Z * embedding)) :
  existsb (fun iv => Z.eqb (fst iv) id)
          (filter (fun iv => negb (Z.eqb (fst iv) id)) l) = false.
Proof.
  induction l as [|h t IH]; simpl; auto.
  destruct (Z.eqb (fst h) id) eqn:E; simpl; auto.
  rewrite E. simpl. assumption.
Qed.

Lemma Libsql_store_eta (db : Libsql.store) :
  Libsql.mkStore (Libsql.projects db) (Libsql.records db) (Libsql.seq db) = db.
Proof. destruct db; reflexivity. Qed.

(** C10.  [upsert] with an explicit (truthy) id that matches no record
    returns null and creates no record row; the sqlite-vec backend
    nevertheless leaves an embedding row keyed to that id in the
    side-table.  On the sqlite-vec backend the id is a 64-bit integer, as
    [BigInt(id)] must be to be bound. *)
Theorem upsert_explicit_missing_id_returns_null :
  forall (cur : option project) (a : upsert_args) (e : embedding) (now : string)
         (id proj : Z),
    a_id a = Some id -> id <> 0%Z ->
    resolve_project cur (a_projectId a) = Ok proj ->
    (forall db : Libsql.store,
        existsb (Libsql.has_id id) (Libsql.records db) = false ->
        Libsql.upsert no_faults cur a e now db = (Ok None, db))
    /\ (forall db : SqliteVec.store,
        (- 2 ^ 63 <= id < 2 ^ 63)%Z ->
        existsb (SqliteVec.has_id id) (SqliteVec.records db) = false ->
        dim_ok e = true ->
        let db' := snd (SqliteVec.upsert no_faults cur a e now db) in
        fst (SqliteVec.upsert no_faults cur a e now db) = Ok None
        /\ SqliteVec.records db' = SqliteVec.records db
        /\ SqliteVec.projects db' = SqliteVec.projects db
        /\ In (id, e) (SqliteVec.record_embedding db')
        /\ existsb (SqliteVec.has_id id) (SqliteVec.records db') = false).
Proof.
  intros cur a e now id proj Hid Hnz Hproj.
  assert (Ht : truthy_id (a_id a) = true).
  { rewrite Hid. simpl. apply negb_true_iff. apply Z.eqb_neq. assumption. }
  split; [intros db Hmiss | intros db Hint Hmiss].
  - unfold Libsql.upsert. rewrite Hproj, Ht, Hid. simpl.
    unfold bind, guarded, Libsql.exec_update, Libsql.get, Libsql.get_rows. simpl.
    rewrite update_rows_untouched by (apply existsb_false_forall; assumption).
    rewrite Libsql_store_eta. simpl.
    rewrite filter_none by (apply existsb_false_forall; assumption).
    reflexivity.
  - intros Hdim db'. subst db'.
    unfold SqliteVec.upsert, transaction, SqliteVec.upsert_body.
    rewrite Hproj, Ht, Hid. simpl.
    unfold bind, guarded, SqliteVec.exec_update, SqliteVec.exec_delete_embedding,
      SqliteVec.exec_insert_embedding, SqliteVec._getRecord, SqliteVec.get_rows,
      check_dim. simpl.
    rewrite update_rows_untouched by (apply existsb_false_forall; assumption).
    simpl. rewrite Hdim. rewrite existsb_after_delete. simpl.
    rewrite (filter_none _ (SqliteVec.has_id id))
      by (apply existsb_false_forall; assumption).
    simpl. repeat split; auto.
    apply in_or_app. right. left. reflexivity.
Qed.

(** C10 on the two-record stores: id 9 names no record. *)
Lemma upsert_explicit_missing_id_witness :
  Libsql.upsert no_faults (Some Fixtures.repo)
    (mkArgs (Some 9%Z) None "issue" (Some "x"%string) None None)
    (Fixtures.axis 0) "2025-06-02" Fixtures.native2
  = (Ok None, Fixtures.native2)
  /\ In (9%Z, Fixtures.axis 0)
        (SqliteVec.record_embedding
           (snd (SqliteVec.upsert no_faults (Some Fixtures.repo)
                   (mkArgs (Some 9%Z) None "issue" (Some "x"%string) None None)
                   (Fixtures.axis 0) "2025-06-02" Fixtures.legacy2))).
Proof.
  destruct (upsert_explicit_missing_id_returns_null (Some Fixtures.repo)
              (mkArgs (Some 9%Z) None "issue" (Some "x"%string) None None)
              (Fixtures.axis 0) "2025-06-02" 9%Z 1%Z
              eq_refl ltac:(discriminate) eq_refl) as [HL HV].
  split.
  - apply HL. reflexivity.
  - apply (HV Fixtures.legacy2); [lia | reflexivity | reflexivity].
Defined.

(** ** The one-shot auto-migration *)

Lemma string_append_assoc (a b c : string) :
  ((a ++ b) ++ c = a ++ (b ++ c))%string.
Proof.
  induction a as [|ch a IH]; simpl; [reflexivity | rewrite IH; reflexivity].
Qed.

(** C8, as the claim has it, fails: when [migrate] throws after creating
    the new file and [unlink] throws as well, the cleanup error is ignored,
    the partially written [dude-libsql.db] stays on disk, and the next
    [initDb] no longer sees a store to migrate. *)
Lemma autoMigrate_partial_file_survives_failed_unlink :
  let e := Factory.mkEnv "/home/u" None
             (Factory.MigrateThrows "disk I/O error" true) true false in
  let r := Factory._autoMigrate e (Factory.mkFiles true false false) in
  fst r = Factory.Thrown (Factory.failure_message e "disk I/O error")
  /\ Factory.new_db (snd r) = true
  /\ Factory.needs_migration (snd r) = false
  /\ fst (Factory.initDb e (snd r)) = Factory.Returned tt.
Proof. repeat split. Qed.

(** C8, amended.  Starting from "old store present, new store absent":
    whenever the import or the migration throws, [_autoMigrate] throws too
    (nothing is swallowed), its message is the code's guidance text around
    the original message ([import_message] when the import failed,
    [failure_message] when the migration did), the legacy file is still
    there and was not renamed,
    and, provided the [unlink] of the cleanup does not itself fail, the new
    file is gone, so that the next [initDb] migrates again. *)
Theorem autoMigrate_failure_preserves_legacy_store :
  forall (e : Factory.env) (fs : Factory.files),
    Factory.needs_migration fs = true ->
    ((exists m, Factory.import_error e = Some m)
     \/ (exists m p, Factory.migrate_run e = Factory.MigrateThrows m p)
     <-> exists msg, fst (Factory._autoMigrate e fs) = Factory.Thrown msg)
    /\ forall msg,
         fst (Factory._autoMigrate e fs) = Factory.Thrown msg ->
         let fs' := snd (Factory._autoMigrate e fs) in
         Factory.old_db fs' = true
         /\ Factory.old_backup fs' = Factory.old_backup fs
         /\ ((exists original,
                 Factory.import_error e = Some original
                 /\ msg = Factory.import_message original)
             \/ (exists original p,
                    Factory.import_error e = None
                    /\ Factory.migrate_run e = Factory.MigrateThrows original p
                    /\ msg = Factory.failure_message e original))
         /\ (Factory.unlink_fails e = false ->
               Factory.new_db fs' = false
               /\ Factory.needs_migration fs' = true).
Proof.
  intros e fs Hneed.
  unfold Factory.needs_migration in Hneed.
  apply andb_true_iff in Hneed. destruct Hneed as [Hold Hnew].
  apply negb_true_iff in Hnew.
  unfold Factory._autoMigrate.
  destruct (Factory.import_error e) as [im|] eqn:Himp.
  - split.
    + split; intros _; [eexists; reflexivity | left; eexists; reflexivity].
    + simpl. intros msg Hmsg. inversion Hmsg; subst msg.
      repeat split; auto.
      * left. exists im. split; reflexivity.
      * unfold Factory.needs_migration. rewrite Hold, Hnew. reflexivity.
  - destruct (Factory.migrate_run e) as [st | m partial] eqn:Hrun.
    + split.
      * split.
        -- intros [[m Hm] | [m [p Hm]]]; discriminate.
        -- intros [msg Hmsg].
           destruct (Factory.rename_fails e || negb (Factory.old_db _));
             discriminate.
      * intros msg Hmsg.
        destruct (Factory.rename_fails e || negb (Factory.old_db _));
          discriminate.
    + split.
      * split; intros _; [eexists; reflexivity | right; eauto].
      * simpl. intros msg Hmsg. inversion Hmsg; subst msg.
        rewrite Hnew. simpl.
        repeat split.
        -- destruct partial; [destruct (Factory.unlink_fails e)|]; simpl; assumption.
        -- destruct partial; [destruct (Factory.unlink_fails e)|]; reflexivity.
        -- right. exists m, partial. repeat split; reflexivity.
        -- destruct partial; [rewrite H|]; reflexivity.
        -- unfold Factory.needs_migration.
           destruct partial; [rewrite H|]; simpl; rewrite Hold; reflexivity.
Qed.

(** The amended C8 on a run where the script throws after creating the
    new file and the cleanup succeeds. *)
Lemma autoMigrate_failure_witness :
  let e := Factory.mkEnv "/home/u" None
             (Factory.MigrateThrows "disk I/O error" true) false false in
  let fs' := snd (Factory._autoMigrate e (Factory.mkFiles true false false)) in
  Factory.old_db fs' = true /\ Factory.new_db fs' = false
  /\ Factory.needs_migration fs' = true.
Proof.
  intros e fs'.
  destruct (autoMigrate_failure_preserves_legacy_store e
              (Factory.mkFiles true false false) eq_refl) as [_ H].
  destruct (H (Factory.failure_message e "disk I/O error") eq_refl)
    as (Hold & _ & _ & Hclean).
  destruct (Hclean eq_refl) as [Hnew Hneed].
  repeat split; assumption.
Defined.

(** ** The migration script *)

Lemma migrate_projects_appends (old : SqliteVec.store) (ps : list project) :
  forall db : Libsql.store,
    distinct_ids (map p_id (Libsql.projects db ++ ps)) = true ->
    distinct_names (map p_name (Libsql.projects db ++ ps)) = true ->
    Migrate.migrate_projects ps (old, db)
    = (Ok tt, (old, Libsql.mkStore (Libsql.projects db ++ ps) (Libsql.records db)
                      (Libsql.seq db))).
Proof.
  induction ps as [|p rest IH]; intros db Hid Hname.
  - simpl. unfold ret. rewrite app_nil_r, Libsql_store_eta. reflexivity.
  - simpl. unfold bind, Migrate.execute_new, Migrate.insert_project. simpl.
    assert (Hfresh_id :
              existsb (fun p' => Z.eqb (p_id p') (p_id p)) (Libsql.projects db) = false).
    { clear IH Hname. induction (Libsql.projects db) as [|q qs IHq]; simpl in *; auto.
      apply andb_true_iff in Hid. destruct Hid as [Hq Hrest].
      rewrite IHq by assumption. apply negb_true_iff in Hq.
      destruct (Z.eqb (p_id q) (p_id p)) eqn:E; auto.
      apply Z.eqb_eq in E. exfalso.
      assert (Hex : existsb (Z.eqb (p_id q)) (map p_id (qs ++ p :: rest)) = true).
      { apply existsb_exists. exists (p_id p). split.
        - apply in_map. apply in_or_app. right. left. reflexivity.
        - apply Z.eqb_eq. assumption. }
      congruence. }
    assert (Hfresh_name :
              existsb (fun p' => String.eqb (p_name p') (p_name p)) (Libsql.projects db)
              = false).
    { clear IH Hid Hfresh_id.
      induction (Libsql.projects db) as [|q qs IHq]; simpl in *; auto.
      apply andb_true_iff in Hname. destruct Hname as [Hq Hrest].
      rewrite IHq by assumption. apply negb_true_iff in Hq.
      destruct (String.eqb (p_name q) (p_name p)) eqn:E; auto.
      exfalso.
      assert (Hex : existsb (String.eqb (p_name q)) (map p_name (qs ++ p :: rest)) = true).
      { apply existsb_exists. exists (p_name p). split.
        - apply in_map. apply in_or_app. right. left. reflexivity.
        - assumption. }
      congruence. }
    rewrite Hfresh_id, Hfresh_name. simpl.
    rewrite IH; simpl; rewrite <- ?app_assoc; simpl; auto.
Qed.

Lemma lookup_embedding_dim (old : SqliteVec.store) (id : Z) (v : embedding) :
  forallb (fun iv => dim_ok (snd iv)) (SqliteVec.record_embedding old) = true ->
  Migrate.lookup_embedding id old = Some v -> dim_ok v = true.
Proof.
  unfold Migrate.lookup_embedding. intros Hall Hl.
  destruct (find _ _) as [[i w]|] eqn:F; simpl in Hl; [|discriminate].
  inversion Hl; subst w. apply find_some in F. destruct F as [Hin _].
  rewrite forallb_forall in Hall. apply (Hall _ Hin).
Qed.

Lemma lookup_embedding_row (old : SqliteVec.store) (r : record) :
  has_embedding_row old r
  = match Migrate.lookup_embedding (r_id r) old with Some _ => true | None => false end.
Proof.
  unfold has_embedding_row, Migrate.lookup_embedding.
  induction (SqliteVec.record_embedding old) as [|h t IH]; simpl; auto.
  destruct (Z.eqb (fst h) (r_id r)); simpl; auto.
Qed.

Lemma migrate_records_appends (old : SqliteVec.store) (rs : list record) :
  forallb (fun iv => dim_ok (snd iv)) (SqliteVec.record_embedding old) = true ->
  forall (db : Libsql.store) (n : nat),
    distinct_ids (map (fun r => r_id (Libsql.rec r)) (Libsql.records db)
                  ++ map r_id rs) = true ->
    Migrate.migrate_records rs n (old, db)
    = (Ok (n + List.length (filter (has_embedding_row old) rs))%nat,
       (old, Libsql.mkStore (Libsql.projects db)
               (Libsql.records db ++ map (migrated_row old) rs)
               (seq_after rs (Libsql.seq db)))).
Proof.
  intros Hdim. induction rs as [|r rest IH]; intros db n Hid.
  - simpl. unfold ret. rewrite app_nil_r, Libsql_store_eta, Nat.add_0_r. reflexivity.
  - assert (Hfresh : existsb (Libsql.has_id (r_id r)) (Libsql.records db) = false).
    { clear IH. induction (Libsql.records db) as [|q qs IHq]; simpl in *; auto.
      apply andb_true_iff in Hid. destruct Hid as [Hq Hrest].
      rewrite IHq by assumption. apply negb_true_iff in Hq.
      unfold Libsql.has_id at 1.
      destruct (Z.eqb (r_id (Libsql.rec q)) (r_id r)) eqn:E; auto.
      exfalso.
      assert (Hex : existsb (Z.eqb (r_id (Libsql.rec q)))
                      (map (fun r0 => r_id (Libsql.rec r0)) qs ++ r_id r :: map r_id rest)
                    = true).
      { apply existsb_exists. exists (r_id r). split.
        - apply in_or_app. right. left. reflexivity.
        - assumption. }
      congruence. }
    assert (Hnext : forall row,
               distinct_ids
                 (map (fun r0 => r_id (Libsql.rec r0))
                      (Libsql.records db ++ [Libsql.mkRow r row]) ++ map r_id rest)
               = true).
    { intros row. rewrite map_app. simpl. rewrite <- app_assoc. exact Hid. }
    pose proof (lookup_embedding_row old r) as Hrow.
    change (Migrate.migrate_records (r :: rest) n (old, db))
      with (bind (Migrate.query_old (Migrate.lookup_embedding (r_id r)))
              (fun vec =>
                 match vec with
                 | Some floats =>
                     bind (Migrate.execute_new (Migrate.insert_record r (Some floats)))
                          (fun _ => Migrate.migrate_records rest (S n))
                 | None =>
                     bind (Migrate.execute_new (Migrate.insert_record r None))
                          (fun _ => Migrate.migrate_records rest n)
                 end) (old, db)).
    unfold bind at 1. unfold Migrate.query_old. cbn [fst snd].
    cbn [map filter]. unfold migrated_row at 1.
    destruct (Migrate.lookup_embedding (r_id r) old) as [v|] eqn:L; rewrite Hrow;
      unfold bind, Migrate.execute_new, Migrate.insert_record;
      cbn [fst snd]; rewrite Hfresh.
    + unfold check_dim. rewrite (lookup_embedding_dim old _ _ Hdim L).
      rewrite IH by apply Hnext.
      cbn [Libsql.projects Libsql.records Libsql.seq List.length seq_after fold_left].
      rewrite <- app_assoc. cbn [app].
      replace (S n + _)%nat
        with (n + S (List.length (filter (has_embedding_row old) rest)))%nat by lia.
      reflexivity.
    + rewrite IH by apply Hnext.
      cbn [Libsql.projects Libsql.records Libsql.seq seq_after fold_left].
      rewrite <- app_assoc. cbn [app]. reflexivity.
Qed.

(** C7.  For every legacy database (as its schema keeps it) migrated into
    a fresh native database, [migrateFromDb] succeeds and reports
    [projects] = number of project rows, [records] = number of record
    rows, [embeddings] = number of records that have an embedding row;
    the target holds every project and every record, a record without an
    embedding row with a NULL embedding; the source is handed back
    unchanged; and an empty source yields [{0, 0, 0}]. *)
Theorem migrateFromDb_counts_and_orphans :
  (forall old : SqliteVec.store,
      legacy_schema_ok old = true ->
      exists new' : Libsql.store,
        Migrate.migrateFromDb (old, Libsql.empty)
        = (Ok (Migrate.mkStats
                 (List.length (SqliteVec.projects old))
                 (List.length (SqliteVec.records old))
                 (List.length (filter (has_embedding_row old) (SqliteVec.records old)))),
           (old, new'))
        /\ Libsql.projects new' = SqliteVec.projects old
        /\ Libsql.records new' = map (migrated_row old) (SqliteVec.records old)
        /\ (forall r, In r (SqliteVec.records old) ->
                      has_embedding_row old r = false ->
                      In (Libsql.mkRow r None) (Libsql.records new')))
  /\ Migrate.migrateFromDb (SqliteVec.empty, Libsql.empty)
     = (Ok (Migrate.mkStats 0 0 0), (SqliteVec.empty, Libsql.empty)).
Proof.
  split; [|reflexivity].
  intros old Hok. unfold legacy_schema_ok in Hok.
  apply andb_true_iff in Hok. destruct Hok as [Hok _].
  apply andb_true_iff in Hok. destruct Hok as [Hok Hdim].
  apply andb_true_iff in Hok. destruct Hok as [Hok Hrid].
  apply andb_true_iff in Hok. destruct Hok as [Hpid Hname].
  eexists. split; [|split; [|split]].
  - unfold Migrate.migrateFromDb.
    unfold bind at 1. unfold Migrate.execute_new at 1, Migrate.createSchema.
    cbn [fst snd].
    unfold bind at 1. unfold Migrate.query_old at 1. cbn [fst snd].
    unfold bind at 1.
    rewrite migrate_projects_appends by (simpl; assumption).
    unfold bind at 1. unfold Migrate.query_old at 1. cbn [fst snd].
    unfold bind at 1.
    rewrite (migrate_records_appends old (SqliteVec.records old) Hdim)
      by (simpl; assumption).
    unfold ret. cbn [Libsql.projects Libsql.records Libsql.seq Libsql.empty app plus].
    reflexivity.
  - reflexivity.
  - reflexivity.
  - intros r Hin Hnone. cbn [Libsql.records app].
    apply in_map_iff. exists r. split; auto.
    unfold migrated_row. rewrite lookup_embedding_row in Hnone.
    destruct (Migrate.lookup_embedding (r_id r) old); [discriminate | reflexivity].
Qed.

(** C7 on the store with one project and three records, two of them
    embedded: the counts are [{1, 3, 2}] and the third record arrives with
    a NULL embedding. *)
Lemma migrateFromDb_witness :
  exists new' : Libsql.store,
    Migrate.migrateFromDb (Fixtures.legacy3, Libsql.empty)
    = (Ok (Migrate.mkStats 1 3 2), (Fixtures.legacy3, new'))
    /\ In (Libsql.mkRow (Fixtures.rec_of 3 1 Issue "Record 2") None)
          (Libsql.records new').
Proof.
  destruct migrateFromDb_counts_and_orphans as [H _].
  destruct (H Fixtures.legacy3 eq_refl) as (new' & Hrun & _ & _ & Horphan).
  exists new'. split.
  - exact Hrun.
  - apply Horphan; [right; right; left|]; reflexivity.
Defined.

(** ** Failure atomicity of [upsert] *)

Lemma Libsql_exec_update_error (id : Z) (upd : Libsql.row -> result Libsql.row)
    (db db' : Libsql.store) (err : sql_error) :
  Libsql.exec_update id upd db = (Err err, db') -> db' = db.
Proof.
  unfold Libsql.exec_update.
  destruct (update_rows _ _ _); intros H; inversion H; reflexivity.
Qed.

Lemma Libsql_exec_insert_error (proj : Z) (a : upsert_args) (e : embedding)
    (now : string) (db db' : Libsql.store) (err : sql_error) :
  Libsql.exec_insert proj a e now db = (Err err, db') -> db' = db.
Proof.
  unfold Libsql.exec_insert.
  match goal with |- context [match ?r with Ok _ => _ | Err _ => _ end] => destruct r end;
    intros H; inversion H; reflexivity.
Qed.

Lemma Libsql_dedup_candidates_pure (proj : Z) (k : string) (e : embedding)
    (db : Libsql.store) :
  snd (Libsql.dedup_candidates proj k e db) = db.
Proof.
  unfold Libsql.dedup_candidates. destruct (check_dim e); reflexivity.
Qed.

(** A write followed by the read-back, when the read-back cannot fault:
    an error can only come from the write, which then changed nothing. *)
Lemma Libsql_write_then_get (A : Type) (f : faults) (st : stmt)
    (w : M Libsql.store A) (k : A -> Z) (db db' : Libsql.store) (err : sql_error) :
  f ReadBack = false ->
  (forall e d, w db = (Err e, d) -> d = db) ->
  bind (guarded f st w) (fun x => guarded f ReadBack (Libsql.get (k x))) db
  = (Err err, db') ->
  db' = db.
Proof.
  intros Hrb Hw. unfold bind, guarded. rewrite Hrb.
  destruct (f st).
  - intros H; inversion H; reflexivity.
  - destruct (w db) as [[x|e0] d] eqn:E.
    + unfold Libsql.get. intros H; inversion H.
    + intros H; inversion H; subst. eapply Hw; eauto.
Qed.

(** C5.  [upsert] is atomic with respect to failure.  On the sqlite-vec
    backend, whatever statement fails (a constraint or a storage fault at
    the lookup, the record update, the embedding delete/insert, the
    record insert, or the read-back), the store is as it was.  On the
    libsql backend the same holds when the failing statement is one of the
    dedup lookup, the update (which also replaces the embedding) or the
    insert. *)
Theorem upsert_failure_leaves_store_unchanged :
  forall (f : faults) (cur : option project) (a : upsert_args) (e : embedding)
         (now : string),
    (forall (db db' : SqliteVec.store) (err : sql_error),
        SqliteVec.upsert f cur a e now db = (Err err, db') -> db' = db)
    /\ (f ReadBack = false ->
        forall (db db' : Libsql.store) (err : sql_error),
          Libsql.upsert f cur a e now db = (Err err, db') -> db' = db).
Proof.
  intros f cur a e now. split.
  - intros db db' err. unfold SqliteVec.upsert, transaction.
    destruct (resolve_project cur (a_projectId a)).
    + destruct (SqliteVec.upsert_body f a0 a e now db) as [[v|e0] d];
        intros H; inversion H; reflexivity.
    + intros H; inversion H; reflexivity.
  - intros Hrb db db' err. unfold Libsql.upsert.
    destruct (resolve_project cur (a_projectId a)) as [proj|e0];
      [|intros H; inversion H; reflexivity].
    destruct (truthy_id (a_id a)).
    + apply Libsql_write_then_get with (k := fun _ => Libsql.id_of (a_id a)); auto.
      intros e1 d. apply Libsql_exec_update_error.
    + unfold bind at 1. unfold guarded at 1.
      destruct (f DedupLookup); [intros H; inversion H; reflexivity|].
      pose proof (Libsql_dedup_candidates_pure proj (a_kind a) e db) as Hpure.
      destruct (Libsql.dedup_candidates proj (a_kind a) e db) as [[cands|e1] d].
      * simpl in Hpure. subst d.
        destruct (find _ cands) as [c|].
        -- apply Libsql_write_then_get with (k := fun _ => fst c); auto.
           intros e1 d. apply Libsql_exec_update_error.
        -- apply Libsql_write_then_get with (k := fun newId => newId); auto.
           intros e1 d. apply Libsql_exec_insert_error.
      * simpl in Hpure. subst d. intros H; inversion H; reflexivity.
Qed.

(** C5 at work: on the legacy store the record insert succeeds, the
    embedding insert hits a storage fault, and the transaction undoes the
    record insert; on the native store a rejected status changes nothing. *)
Lemma upsert_failure_witness :
  SqliteVec.upsert (fail_at InsertEmbedding) (Some Fixtures.repo)
    (Fixtures.args "issue" "new") (Fixtures.axis 0) "2025-06-02" Fixtures.legacy2
  = (Err (StorageFault InsertEmbedding), Fixtures.legacy2)
  /\ snd (Libsql.upsert no_faults (Some Fixtures.repo)
            (mkArgs None None "issue" (Some "new"%string) None (Some "done"%string))
            (Fixtures.axis 0) "2025-06-02" Fixtures.native2)
     = Fixtures.native2.
Proof.
  split.
  - destruct (upsert_failure_leaves_store_unchanged (fail_at InsertEmbedding)
                (Some Fixtures.repo) (Fixtures.args "issue" "new")
                (Fixtures.axis 0) "2025-06-02") as [HV _].
    destruct (SqliteVec.upsert (fail_at InsertEmbedding) (Some Fixtures.repo)
                (Fixtures.args "issue" "new") (Fixtures.axis 0) "2025-06-02"
                Fixtures.legacy2) as [r d] eqn:E.
    assert (Hr : r = Err (StorageFault InsertEmbedding)).
    { apply (f_equal fst) in E. vm_compute in E. symmetry. exact E. }
    subst r. rewrite (HV _ _ _ E). reflexivity.
  - destruct (upsert_failure_leaves_store_unchanged no_faults
                (Some Fixtures.repo)
                (mkArgs None None "issue" (Some "new"%string) None (Some "done"%string))
                (Fixtures.axis 0) "2025-06-02") as [_ HL].
    destruct (Libsql.upsert no_faults (Some Fixtures.repo)
                (mkArgs None None "issue" (Some "new"%string) None (Some "done"%string))
                (Fixtures.axis 0) "2025-06-02" Fixtures.native2) as [r d] eqn:E.
    assert (Hr : r = Err (CheckFailed "status")).
    { apply (f_equal fst) in E. vm_compute in E. symmetry. exact E. }
    subst r. simpl. apply (HL eq_refl _ _ _ E).
Defined.

(** The legacy transaction is doing real work in that run: its body alone
    would have left the new record row behind. *)
Remark legacy_body_alone_is_not_atomic :
  List.length (SqliteVec.records
    (snd (SqliteVec.upsert_body (fail_at InsertEmbedding) 1
            (Fixtures.args "issue" "new") (Fixtures.axis 0) "2025-06-02"
            Fixtures.legacy2))) = 3%nat.
Proof. vm_compute. reflexivity. Qed.

(** The one statement of the libsql [upsert] outside C5: when the final
    read-back faults, the call throws although its write is in place. *)
Remark Libsql_readback_fault_after_write :
  fst (Libsql.upsert (fail_at ReadBack) (Some Fixtures.repo)
         (Fixtures.args "issue" "new") (Fixtures.axis 0) "2025-06-02"
         Fixtures.native2) = Err (StorageFault ReadBack)
  /\ List.length (Libsql.records
       (snd (Libsql.upsert (fail_at ReadBack) (Some Fixtures.repo)
               (Fixtures.args "issue" "new") (Fixtures.axis 0) "2025-06-02"
               Fixtures.native2))) = 3%nat.
Proof. vm_compute. split; reflexivity. Qed.

(** ** Validation by the schema *)

Lemma kind_of_to_string (k : kind) (s : string) :
  String.eqb (kind_to_string k) s = true -> kind_of_string s = Some k.
Proof.
  intros H. apply String.eqb_eq in H. subst s. destruct k; reflexivity.
Qed.








(** Every dedup candidate is a stored record of the kind asked for. *)
Lemma Libsql_candidate_row (db : Libsql.store) (proj : Z) (k : string)
    (ids : list Z) (c : Z * option embedding) :
  In c (map (fun r => (r_id (Libsql.rec r), Libsql.emb r))
          (filter (fun r => Z.eqb (r_project_id (Libsql.rec r)) proj
                            && String.eqb (kind_to_string (r_kind (Libsql.rec r))) k)
             (Libsql.join_record db ids))) ->
  exists r, In r (Libsql.records db)
            /\ c = (r_id (Libsql.rec r), Libsql.emb r)
            /\ r_project_id (Libsql.rec r) = proj
            /\ String.eqb (kind_to_string (r_kind (Libsql.rec r))) k = true.
Proof.
  intros H. apply in_map_iff in H. destruct H as (r & Hc & Hr).
  apply filter_In in Hr. destruct Hr as [Hj Hg].
  apply andb_true_iff in Hg. destruct Hg as [Hp Hk].
  unfold Libsql.join_record in Hj. apply in_flat_map in Hj.
  destruct Hj as (id & _ & Hf). apply filter_In in Hf.
  exists r. split; [tauto|]. split; [auto|]. split; [|assumption].
  apply Z.eqb_eq. assumption.
Qed.

Lemma SqliteVec_candidate_row (db : SqliteVec.store) (proj : Z) (k : string)
    (nds : list (Z * Q)) (c : Z * Q) :
  In c (map (fun rd : record * Q => (r_id (fst rd), snd rd))
          (filter (fun rd : record * Q =>
                     Z.eqb (r_project_id (fst rd)) proj
                     && String.eqb (kind_to_string (r_kind (fst rd))) k)
             (flat_map (SqliteVec.join_record db) nds))) ->
  exists r d, In r (SqliteVec.records db) /\ In (r_id r, d) nds
              /\ c = (r_id r, d)
              /\ r_project_id r = proj
              /\ String.eqb (kind_to_string (r_kind r)) k = true.
Proof.
  intros H. apply in_map_iff in H. destruct H as ([r d] & Hc & Hr).
  apply filter_In in Hr. destruct Hr as [Hj Hg]. simpl in *.
  apply andb_true_iff in Hg. destruct Hg as [Hp Hk].
  apply in_flat_map in Hj. destruct Hj as ([id d'] & Hnd & Hf).
  unfold SqliteVec.join_record in Hf. simpl in Hf.
  apply in_map_iff in Hf. destruct Hf as (r' & Heq & Hr').
  inversion Heq; subst r' d'. apply filter_In in Hr'. destruct Hr' as [Hin Hid].
  unfold SqliteVec.has_id in Hid. apply Z.eqb_eq in Hid. subst id.
  exists r, d. split; [assumption|]. split; [assumption|]. split; [auto|].
  split; [|assumption]. apply Z.eqb_eq. assumption.
Qed.




(** ** Dot products of unit vectors *)

Lemma dot_fold_shift (l : list (Q * Q)) (a : Q) :
  fold_left (fun acc ab => acc + fst ab * snd ab)%Q l a
  == a + fold_left (fun acc ab => acc + fst ab * snd ab)%Q l 0.
Proof.
  revert a. induction l as [|x l IH]; intros a; simpl.
  - ring.
  - rewrite IH. rewrite (IH (0 + fst x * snd x)%Q). ring.
Qed.

Lemma dot_cons (a b : Q) (u v : embedding) :
  dot (a :: u) (b :: v) == a * b + dot u v.
Proof.
  unfold dot. simpl. rewrite dot_fold_shift. ring.
Qed.

Lemma square_gap_nonneg (a b : Q) : 0 <= a * a + b * b - 2 * (a * b).
Proof.
  assert (H : a * a + b * b - 2 * (a * b) == (a - b) * (a - b)) by ring.
  rewrite H. destruct (Qlt_le_dec (a - b) 0).
  - setoid_replace ((a - b) * (a - b)) with ((- (a - b)) * (- (a - b))) by ring.
    apply Qmult_le_0_compat; lra.
  - apply Qmult_le_0_compat; lra.
Qed.

Lemma dot_gap_nonneg (u : embedding) :
  forall v : embedding,
    List.length u = List.length v ->
    0 <= dot u u + dot v v - 2 * dot u v.
Proof.
  induction u as [|a u IH]; intros [|b v] Hlen; simpl in Hlen;
    try (exfalso; discriminate Hlen).
  - unfold dot. simpl. lra.
  - rewrite !dot_cons.
    pose proof (IH v (eq_add_S _ _ Hlen)) as Hrest.
    pose proof (square_gap_nonneg a b) as Hhead.
    lra.
Qed.

(** Cauchy-Schwarz for the case at hand: two unit vectors of the same
    dimension have a dot product of at most 1. *)
Lemma dot_normalized_le_1 (q v : embedding) :
  normalized q = true -> normalized v = true -> dot q v <= 1.
Proof.
  unfold normalized, is_unit, dim_ok. intros Hq Hv.
  apply andb_true_iff in Hq. destruct Hq as [Hqd Hqu].
  apply andb_true_iff in Hv. destruct Hv as [Hvd Hvu].
  apply Nat.eqb_eq in Hqd. apply Nat.eqb_eq in Hvd.
  apply Qeq_bool_eq in Hqu. apply Qeq_bool_eq in Hvu.
  assert (Hlen : List.length q = List.length v) by congruence.
  pose proof (dot_gap_nonneg q v Hlen) as Hgap.
  rewrite Hqu, Hvu in Hgap. lra.
Qed.

Lemma dot_self_normalized (e : embedding) :
  normalized e = true -> dot e e == 1.
Proof.
  unfold normalized, is_unit. intros H. apply andb_true_iff in H.
  apply Qeq_bool_eq. tauto.
Qed.

Lemma boost_le_1 (s : Q) : boost s <= 1.
Proof. unfold boost. apply Q.le_min_l. Qed.

Lemma boost_floor (s : Q) : 3 # 10 <= boost s -> 2 # 10 <= s.
Proof.
  unfold boost. intros H.
  pose proof (Q.le_min_r 1 (s + (1 # 10))) as Hr. lra.
Qed.

(** ** What [search] returns *)

(** The tail of both [search] pipelines: floor, sort, truncate. *)
Lemma ranked_floor (A : Type) (key : A -> Q) (n : nat) (l : list A) (x : A) :
  In x (firstn n (sort_by (desc key) (filter (fun r => Qleb (3 # 10) (key r)) l))) ->
  In x l /\ 3 # 10 <= key x.
Proof.
  intros H. apply In_firstn in H. apply In_sort_by in H.
  apply filter_In in H. destruct H as [Hin Hk].
  split; auto. apply Qle_bool_iff. exact Hk.
Qed.

Lemma Libsql_search_hit (cur : option project) (q : embedding)
    (kind : option string) (limit : option nat) (db db' : Libsql.store)
    (hits : list hit) (h : hit) :
  Libsql.search cur q kind limit db = (Ok hits, db') ->
  In h hits ->
  exists c rp,
    cur = Some c
    /\ In rp (Libsql.search_candidates db q kind (limit_of limit))
    /\ h = Libsql.strip (Libsql.score (p_name c) q rp)
    /\ 3 # 10 <= similarity h.
Proof.
  unfold Libsql.search, Libsql.getCurrentProject.
  destruct cur as [c|]; [|discriminate].
  destruct (check_dim q); [|discriminate].
  intros H Hin. inversion H; subst hits db'. clear H.
  apply in_map_iff in Hin. destruct Hin as (x & Hx & Hin).
  apply ranked_floor in Hin. destruct Hin as [Hin Hfloor].
  apply in_map_iff in Hin. destruct Hin as (rp & Hrp & Hcand).
  exists c, rp. subst x h. repeat split; auto.
Qed.

Lemma SqliteVec_search_hit (cur : option project) (q : embedding)
    (kind : option string) (limit : option nat) (db db' : SqliteVec.store)
    (hits : list hit) (h : hit) :
  SqliteVec.search cur q kind limit db = (Ok hits, db') ->
  In h hits ->
  exists c vd,
    cur = Some c
    /\ In vd (SqliteVec.search_candidates db q kind (limit_of limit))
    /\ h = SqliteVec.strip (SqliteVec.score (p_name c) vd)
    /\ 3 # 10 <= similarity h.
Proof.
  unfold SqliteVec.search, SqliteVec.getCurrentProject.
  destruct cur as [c|]; [|discriminate].
  destruct (check_dim q); [|discriminate].
  intros H Hin. inversion H; subst hits db'. clear H.
  apply in_map_iff in Hin. destruct Hin as (x & Hx & Hin).
  apply ranked_floor in Hin. destruct Hin as [Hin Hfloor].
  apply in_map_iff in Hin. destruct Hin as (vd & Hvd & Hcand).
  exists c, vd. subst x h. repeat split; auto.
Qed.

(** Candidates are stored rows (native) ... *)
Lemma Libsql_search_candidate_stored (db : Libsql.store) (q : embedding)
    (kind : option string) (n : nat) (rp : Libsql.row * string) :
  In rp (Libsql.search_candidates db q kind n) -> In (fst rp) (Libsql.records db).
Proof.
  unfold Libsql.search_candidates. intros H.
  assert (Hj : In rp (flat_map (Libsql.join_project db)
                        (Libsql.join_record db (Libsql.vector_top_k db q (n * 3))))).
  { destruct (filter_active kind); auto. apply filter_In in H. tauto. }
  apply in_flat_map in Hj. destruct Hj as (r & Hr & Hp).
  unfold Libsql.join_project in Hp. apply in_map_iff in Hp.
  destruct Hp as (p & Hrp & _). subst rp. simpl.
  unfold Libsql.join_record in Hr. apply in_flat_map in Hr.
  destruct Hr as (id & _ & Hf). apply filter_In in Hf. tauto.
Qed.

(** ... and carry the distance to a stored vector (legacy). *)
Lemma SqliteVec_search_candidate_distance (db : SqliteVec.store) (q : embedding)
    (kind : option string) (n : nat) (vd : record_view * Q) :
  In vd (SqliteVec.search_candidates db q kind n) ->
  exists iv, In iv (SqliteVec.record_embedding db) /\ snd vd = distance q (snd iv).
Proof.
  unfold SqliteVec.search_candidates. intros H. apply In_sort_by in H.
  assert (Hj : In vd (flat_map
                        (fun rd : record * Q =>
                           map (fun v => (v, snd rd)) (SqliteVec.join_project db (fst rd)))
                        (flat_map (SqliteVec.join_record db)
                           (SqliteVec.vec0_knn db q (n * 3))))).
  { destruct (filter_active kind); auto. apply filter_In in H. tauto. }
  apply in_flat_map in Hj. destruct Hj as (rd & Hrd & Hv).
  apply in_map_iff in Hv. destruct Hv as (v & Hvd & _). subst vd. simpl.
  apply in_flat_map in Hrd. destruct Hrd as (nd & Hnd & Hr).
  unfold SqliteVec.join_record in Hr. apply in_map_iff in Hr.
  destruct Hr as (r & Hrd & _). subst rd. simpl.
  unfold SqliteVec.vec0_knn in Hnd. apply In_firstn in Hnd. apply In_sort_by in Hnd.
  apply in_map_iff in Hnd. destruct Hnd as (iv & Hnd & Hiv). subst nd. simpl.
  exists iv. split; auto.
Qed.


(** C2, as the claim has it, fails: the floor is applied to the boosted
    similarity.  A record of the current project whose raw similarity to
    the query is 1/4 is returned, with similarity 1/4 + 1/10 = 7/20. *)
Lemma search_returns_candidate_below_raw_floor :
  (Libsql._computeSimilarity (Fixtures.axis 0) (Some Fixtures.quarter_axis0) == 1 # 4
   /\ exists h,
        fst (Libsql.search (Some Fixtures.repo) (Fixtures.axis 0) None None
               Fixtures.native_faint) = Ok [h]
        /\ r_id (rv_record (hit_view h)) = 1%Z
        /\ similarity h == 7 # 20)
  /\ (1 - distance (Fixtures.axis 0) Fixtures.quarter_axis0 == 1 # 4
      /\ exists h,
           fst (SqliteVec.search (Some Fixtures.repo) (Fixtures.axis 0) None None
                  Fixtures.legacy_faint) = Ok [h]
           /\ r_id (rv_record (hit_view h)) = 1%Z
           /\ similarity h == 7 # 20).
Proof.
  split; (split; [vm_compute; reflexivity|]);
    eexists; (split; [vm_compute; reflexivity|]);
    split; [reflexivity | vm_compute; reflexivity | reflexivity | vm_compute; reflexivity].
Qed.

(** C2, amended.  Every row [search] returns stems from a candidate whose
    similarity after the same-project boost is at least 0.3: a candidate of
    another project is returned only with raw similarity at least 0.3, a
    candidate of the current project only with raw similarity at least
    0.2. *)
Theorem search_floor_applies_after_boost :
  forall (cur : option project) (q : embedding) (kind : option string)
         (limit : option nat),
    (forall (db db' : Libsql.store) (hits : list hit) (h : hit),
        Libsql.search cur q kind limit db = (Ok hits, db') ->
        In h hits ->
        exists c rp,
          cur = Some c
          /\ In rp (Libsql.search_candidates db q kind (limit_of limit))
          /\ h = Libsql.strip (Libsql.score (p_name c) q rp)
          /\ 3 # 10 <= similarity h
          /\ (String.eqb (snd rp) (p_name c) = false ->
              similarity h = Libsql._computeSimilarity q (Libsql.emb (fst rp))
              /\ 3 # 10 <= Libsql._computeSimilarity q (Libsql.emb (fst rp)))
          /\ (String.eqb (snd rp) (p_name c) = true ->
              similarity h = boost (Libsql._computeSimilarity q (Libsql.emb (fst rp)))
              /\ 2 # 10 <= Libsql._computeSimilarity q (Libsql.emb (fst rp))))
    /\ (forall (db db' : SqliteVec.store) (hits : list hit) (h : hit),
        SqliteVec.search cur q kind limit db = (Ok hits, db') ->
        In h hits ->
        exists c vd,
          cur = Some c
          /\ In vd (SqliteVec.search_candidates db q kind (limit_of limit))
          /\ h = SqliteVec.strip (SqliteVec.score (p_name c) vd)
          /\ 3 # 10 <= similarity h
          /\ (String.eqb (rv_project (fst vd)) (p_name c) = false ->
              similarity h = 1 - snd vd /\ 3 # 10 <= 1 - snd vd)
          /\ (String.eqb (rv_project (fst vd)) (p_name c) = true ->
              similarity h = boost (1 - snd vd) /\ 2 # 10 <= 1 - snd vd)).
Proof.
  intros cur q kind limit. split; intros db db' hits h Hs Hin.
  - destruct (Libsql_search_hit _ _ _ _ _ _ _ _ Hs Hin) as (c & rp & Hc & Hcand & Hh & Hfloor).
    exists c, rp. do 4 (split; [assumption|]).
    subst h. unfold Libsql.strip, Libsql.score in *. simpl in *.
    split; intros Hname; rewrite Hname in *; simpl in *; split; auto.
    apply boost_floor. assumption.
  - destruct (SqliteVec_search_hit _ _ _ _ _ _ _ _ Hs Hin) as (c & vd & Hc & Hcand & Hh & Hfloor).
    exists c, vd. do 4 (split; [assumption|]).
    subst h. unfold SqliteVec.strip, SqliteVec.score in *. simpl in *.
    split; intros Hname; rewrite Hname in *; simpl in *; split; auto.
    apply boost_floor. assumption.
Qed.

(** The amended C2 on the store with one faint record of the current
    project: the row returned carries a boosted similarity of at least
    0.3. *)
Lemma search_floor_witness :
  3 # 10 <= boost (Libsql._computeSimilarity (Fixtures.axis 0)
                     (Some Fixtures.quarter_axis0)).
Proof.
  destruct (search_floor_applies_after_boost (Some Fixtures.repo)
              (Fixtures.axis 0) None None) as [HL _].
  destruct (HL Fixtures.native_faint Fixtures.native_faint
              [mkHit (mkView (Fixtures.rec_of 1 1 Issue "faint") "org/repo")
                     (boost (Libsql._computeSimilarity (Fixtures.axis 0)
                               (Some Fixtures.quarter_axis0)))]
              (mkHit (mkView (Fixtures.rec_of 1 1 Issue "faint") "org/repo")
                     (boost (Libsql._computeSimilarity (Fixtures.axis 0)
                               (Some Fixtures.quarter_axis0)))))
    as (c & rp & _ & _ & _ & Hfloor & _).
  - vm_compute. reflexivity.
  - left. reflexivity.
  - exact Hfloor.
Defined.





(** ** Near-duplicate detection *)

(** C3.  The claim: the dedup candidates are the nearest neighbours among
    the records of the same project and kind, so that a stored record of
    that project and kind at similarity 0.85 or more is always updated
    instead of a row being inserted.  The code on this store: five [spec]
    records carry the query vector itself, the one [issue] record is at
    similarity 12/13; the five nearest rows of the whole table are taken
    first and only then filtered by project and kind, no candidate is
    left, and a seventh row is inserted, on both backends. *)
Theorem upsert_misses_duplicate_behind_five_nearer_rows :
  (85 # 100 <= dot (Fixtures.axis 0) Fixtures.near_axis0
   /\ native_embeddings_ok Fixtures.native_crowded = true
   /\ legacy_embeddings_ok Fixtures.legacy_crowded = true)
  /\ (let r := Libsql.upsert no_faults (Some Fixtures.repo)
                 (Fixtures.args "issue" "the issue again") (Fixtures.axis 0)
                 "2025-06-02" Fixtures.native_crowded in
      fst (Libsql.dedup_candidates 1 "issue" (Fixtures.axis 0) Fixtures.native_crowded)
        = Ok []
      /\ option_map (fun v => r_id (rv_record v))
           (match fst r with Ok v => v | Err _ => None end) = Some 7%Z
      /\ map (fun x => r_id (Libsql.rec x)) (Libsql.records (snd r))
         = [1; 2; 3; 4; 5; 6; 7]%Z)
  /\ (let r := SqliteVec.upsert no_faults (Some Fixtures.repo)
                 (Fixtures.args "issue" "the issue again") (Fixtures.axis 0)
                 "2025-06-02" Fixtures.legacy_crowded in
      fst (SqliteVec.dedup_candidates 1 "issue" (Fixtures.axis 0) Fixtures.legacy_crowded)
        = Ok []
      /\ option_map (fun v => r_id (rv_record v))
           (match fst r with Ok v => v | Err _ => None end) = Some 7%Z
      /\ map r_id (SqliteVec.records (snd r)) = [1; 2; 3; 4; 5; 6; 7]%Z).
Proof.
  split; [|split].
  - split; [vm_compute; discriminate | split; vm_compute; reflexivity].
  - vm_compute. repeat split.
  - vm_compute. repeat split.
Qed.

Lemma distinct_ids_NoDup (l : list Z) : distinct_ids l = true -> NoDup l.
Proof.
  induction l as [|h t IH]; simpl; intros H; constructor.
  - apply andb_true_iff in H. destruct H as [H _]. apply negb_true_iff in H.
    intros Hin.
    assert (existsb (Z.eqb h) t = true)
      by (apply existsb_exists; exists h; split; [assumption | apply Z.eqb_refl]).
    congruence.
  - apply IH. apply andb_true_iff in H. tauto.
Qed.

(** In a table with distinct keys, the other rows have other keys. *)
Lemma distinct_keys_split (A : Type) (key : A -> Z) (l1 l2 : list A) (x : A) :
  distinct_ids (map key (l1 ++ x :: l2)) = true ->
  forall y, In y (l1 ++ l2) -> key y <> key x.
Proof.
  intros H y Hy Heq. apply distinct_ids_NoDup in H.
  rewrite map_app in H. simpl in H. apply NoDup_remove_2 in H.
  apply H. rewrite <- map_app, <- Heq. apply in_map. assumption.
Qed.

Lemma update_rows_split (A : Type) (sel : A -> bool) (upd : A -> result A)
    (l1 l2 : list A) (x x' : A) :
  (forall y, In y (l1 ++ l2) -> sel y = false) ->
  sel x = true -> upd x = Ok x' ->
  update_rows sel upd (l1 ++ x :: l2) = Ok (l1 ++ x' :: l2).
Proof.
  intros Hothers Hx Hupd. induction l1 as [|h t IH]; simpl.
  - rewrite Hx, Hupd. rewrite update_rows_untouched; auto.
  - rewrite (Hothers h) by (left; reflexivity).
    rewrite IH; auto. intros y Hy. apply Hothers. right. assumption.
Qed.

Lemma filter_split_single (A : Type) (sel : A -> bool) (l1 l2 : list A) (x : A) :
  (forall y, In y (l1 ++ l2) -> sel y = false) ->
  sel x = true ->
  filter sel (l1 ++ x :: l2) = [x].
Proof.
  intros Hothers Hx. rewrite filter_app. simpl. rewrite Hx.
  rewrite !filter_none; auto; intros y Hy; apply Hothers; apply in_or_app; auto.
Qed.

(** The vector part of Cauchy-Schwarz's equality case: a gap of zero
    means the same components. *)
Lemma dot_gap_zero_same (u : embedding) :
  forall v : embedding,
    List.length u = List.length v ->
    dot u u + dot v v - 2 * dot u v == 0 ->
    forallb (fun ab => Qeq_bool (fst ab) (snd ab)) (combine u v) = true.
Proof.
  induction u as [|a u IH]; intros [|b v] Hlen; simpl in Hlen;
    try (exfalso; discriminate Hlen); auto.
  rewrite !dot_cons. intros Hz. simpl.
  pose proof (dot_gap_nonneg u v (eq_add_S _ _ Hlen)) as Hrest.
  pose proof (square_gap_nonneg a b) as Hhead.
  assert (Hsq : (a - b) * (a - b) == 0).
  { assert (E : (a - b) * (a - b) == a * a + b * b - 2 * (a * b)) by ring.
    rewrite E. lra. }
  apply andb_true_iff. split.
  - apply Qeq_bool_iff. destruct (Qmult_integral _ _ Hsq); lra.
  - apply IH; [apply (eq_add_S _ _ Hlen)|]. lra.
Qed.

(** A normalised vector other than [e] is at similarity below 1 of the
    normalised [e], that is at a positive distance. *)
Lemma other_vector_is_farther (e v : embedding) :
  normalized e = true -> normalized v = true -> same_vector e v = false ->
  dot e v < 1.
Proof.
  intros He Hv Hne.
  destruct (Qlt_le_dec (dot e v) 1) as [Hlt|Hge]; [assumption|exfalso].
  pose proof (dot_normalized_le_1 e v He Hv) as Hle.
  pose proof (dot_self_normalized e He) as Hee.
  pose proof (dot_self_normalized v Hv) as Hvv.
  unfold normalized, dim_ok in He, Hv.
  apply andb_true_iff in He. destruct He as [Hde _].
  apply andb_true_iff in Hv. destruct Hv as [Hdv _].
  apply Nat.eqb_eq in Hde. apply Nat.eqb_eq in Hdv.
  assert (Hlen : List.length e = List.length v) by congruence.
  unfold same_vector in Hne. rewrite Hlen, Nat.eqb_refl in Hne. simpl in Hne.
  rewrite dot_gap_zero_same in Hne; [discriminate | assumption |].
  rewrite Hee, Hvv. lra.
Qed.

Lemma same_vector_refl (e : embedding) : same_vector e e = true.
Proof.
  unfold same_vector. rewrite Nat.eqb_refl. simpl.
  induction e as [|a e IH]; simpl; auto.
  rewrite Qeq_bool_refl. assumption.
Qed.

Lemma kind_to_of_string (s : string) (k : kind) :
  kind_of_string s = Some k -> kind_to_string k = s.
Proof.
  unfold kind_of_string.
  repeat match goal with
         | |- context [String.eqb s ?lit] =>
             destruct (String.eqb_spec s lit); [subst s; intros H; inversion H; reflexivity|]
         end.
  discriminate.
Qed.

Lemma status_to_of_string (s : string) (k : status) :
  status_of_string s = Some k -> status_to_string k = s.
Proof.
  unfold status_of_string.
  repeat match goal with
         | |- context [String.eqb s ?lit] =>
             destruct (String.eqb_spec s lit); [subst s; intros H; inversion H; reflexivity|]
         end.
  discriminate.
Qed.

Lemma accepted_by_schema (a : upsert_args) :
  rejected_by_schema a = false ->
  exists k st t,
    kind_of_string (a_kind a) = Some k
    /\ status_of_string (status_arg a) = Some st
    /\ a_title a = Some t.
Proof.
  unfold rejected_by_schema.
  destruct (kind_of_string (a_kind a)) as [k|]; [|discriminate].
  destruct (status_of_string (status_arg a)) as [st|]; [|discriminate].
  destruct (a_title a) as [t|]; [|discriminate].
  intros _. exists k, st, t. auto.
Qed.

Lemma list_max_id_bound (ids : list Z) (id : Z) :
  In id ids -> (id <= list_max_id ids)%Z.
Proof.
  induction ids as [|h t IH]; simpl; [tauto|].
  intros [->|H]; [lia|]. specialize (IH H). lia.
Qed.

(** *** The native backend *)

Lemma native_other_not_selected (e : embedding) (t : Z) (l : list Libsql.row) :
  (forall y, In y l -> native_other e t y) ->
  forall y, In y l -> Libsql.has_id t y = false.
Proof.
  intros H y Hy. destruct (H y Hy) as [Hid _].
  unfold Libsql.has_id. apply Z.eqb_neq. assumption.
Qed.

(** Index entries of rows that do not carry [e] sort strictly after an
    entry that does. *)
Lemma native_index_farther (e : embedding) (t : Z) (l : list Libsql.row)
    (iv : Z * embedding) :
  normalized e = true ->
  (forall y, In y l -> native_other e t y) ->
  In iv (flat_map (fun r => match Libsql.emb r with
                            | Some v => [(r_id (Libsql.rec r), v)]
                            | None => []
                            end) l) ->
  asc (fun x : Z * embedding => distance e (snd x)) (t, e) iv = true
  /\ asc (fun x : Z * embedding => distance e (snd x)) iv (t, e) = false.
Proof.
  intros He Hl Hin. apply in_flat_map in Hin. destruct Hin as (r & Hr & Hiv).
  destruct (Hl r Hr) as [_ Hemb].
  destruct (Libsql.emb r) as [v|]; [|contradiction].
  destruct Hiv as [Hiv|[]]. subst iv. destruct Hemb as [Hn Hs].
  pose proof (other_vector_is_farther e v He Hn Hs) as Hlt.
  pose proof (dot_self_normalized e He) as Hee.
  unfold asc, Qleb, distance. simpl. split.
  - apply Qle_bool_iff. lra.
  - destruct (Qle_bool (1 - dot e v) (1 - dot e e)) eqn:E; auto.
    apply Qle_bool_iff in E. lra.
Qed.

Lemma native_settled_top (db : Libsql.store) (e : embedding) (t proj : Z)
    (k : kind) (n : nat) :
  normalized e = true -> native_settled db e t proj k ->
  exists rest, Libsql.vector_top_k db e (S n) = t :: rest.
Proof.
  intros He (l1 & T & l2 & Hrec & Ht & _ & _ & Hemb & Hothers).
  unfold Libsql.vector_top_k, Libsql.indexed. rewrite Hrec.
  rewrite flat_map_app. simpl. rewrite Hemb, Ht. simpl.
  rewrite sort_by_front.
  - simpl. eexists. reflexivity.
  - intros y Hy. rewrite <- flat_map_app in Hy.
    apply (native_index_farther e t (l1 ++ l2)); assumption.
Qed.

Lemma native_settled_candidates (db : Libsql.store) (e : embedding) (t proj : Z)
    (k : kind) (ks : string) :
  normalized e = true -> native_settled db e t proj k ->
  kind_to_string k = ks ->
  exists rest,
    Libsql.dedup_candidates proj ks e db = (Ok ((t, Some e) :: rest), db).
Proof.
  intros He Hset Hk.
  destruct (native_settled_top db e t proj k 4%nat He Hset) as (ids & Htop).
  destruct Hset as (l1 & T & l2 & Hrec & Ht & Hp & Hkind & Hemb & Hothers).
  unfold Libsql.dedup_candidates, check_dim.
  assert (Hdim : dim_ok e = true).
  { unfold normalized in He. apply andb_true_iff in He. tauto. }
  rewrite Hdim, Htop. unfold Libsql.join_record. simpl. rewrite Hrec.
  rewrite (filter_split_single _ (Libsql.has_id t) l1 l2 T).
  - simpl. rewrite Hp, Hkind, Hk, Z.eqb_refl, String.eqb_refl. simpl.
    rewrite Ht, Hemb. eexists. reflexivity.
  - apply (native_other_not_selected e). assumption.
  - unfold Libsql.has_id. rewrite Ht. apply Z.eqb_refl.
Qed.

Lemma project_exists_join (ps : list project) (proj : Z) :
  project_exists ps proj = true ->
  exists p rest, filter (fun p => Z.eqb (p_id p) proj) ps = p :: rest.
Proof.
  unfold project_exists. intros H. apply existsb_exists in H.
  destruct H as (p & Hin & Hid).
  destruct (filter (fun p0 => Z.eqb (p_id p0) proj) ps) as [|q rest] eqn:F.
  - assert (In p []) by (rewrite <- F; apply filter_In; auto). contradiction.
  - eauto.
Qed.

(** The close-match branch, from a settled store: record [t] is rewritten
    in place and read back. *)
Lemma Libsql_update_and_read_back (db : Libsql.store) (a : upsert_args)
    (e : embedding) (now : string) (l1 l2 : list Libsql.row) (T : Libsql.row)
    (st : status) (title : string) :
  Libsql.records db = l1 ++ T :: l2 ->
  (forall y, In y (l1 ++ l2) -> Libsql.has_id (r_id (Libsql.rec T)) y = false) ->
  status_of_string (status_arg a) = Some st ->
  a_title a = Some title ->
  dim_ok e = true ->
  project_exists (Libsql.projects db) (r_project_id (Libsql.rec T)) = true ->
  let T' := Libsql.mkRow
              (mkRecord (r_id (Libsql.rec T)) (r_project_id (Libsql.rec T))
                 (r_kind (Libsql.rec T)) title (body_of a) st
                 (r_created_at (Libsql.rec T)) now) (Some e) in
  exists pname,
    (guarded no_faults UpdateRecord
       (Libsql.exec_update (r_id (Libsql.rec T)) (Libsql.set_dedup a e now)) ;;;
     guarded no_faults ReadBack (Libsql.get (r_id (Libsql.rec T)))) db
    = (Ok (Some (mkView (Libsql.rec T') pname)),
       Libsql.mkStore (Libsql.projects db) (l1 ++ T' :: l2) (Libsql.seq db)).
Proof.
  intros Hrec Hothers Hst Htitle Hdim Hproj T'.
  destruct (project_exists_join _ _ Hproj) as (p & ps & Hps).
  exists (p_name p).
  unfold bind, guarded, no_faults, Libsql.exec_update. rewrite Hrec.
  rewrite (update_rows_split _ (Libsql.has_id (r_id (Libsql.rec T)))
             (Libsql.set_dedup a e now) l1 l2 T T'); auto.
  - unfold Libsql.get, Libsql.get_rows. simpl.
    rewrite (filter_split_single _ (Libsql.has_id (r_id (Libsql.rec T))) l1 l2 T'); auto.
    + simpl. unfold Libsql.join_project. simpl. rewrite Hps. simpl. reflexivity.
    + unfold Libsql.has_id. simpl. apply Z.eqb_refl.
  - unfold Libsql.has_id. apply Z.eqb_refl.
  - unfold Libsql.set_dedup, check_title, check_status, check_dim.
    rewrite Htitle, Hst, Hdim. reflexivity.
Qed.

Lemma native_row_is_other (db : Libsql.store) (e : embedding) (t : Z)
    (y : Libsql.row) :
  native_embeddings_ok db = true -> native_holds db e = false ->
  In y (Libsql.records db) -> r_id (Libsql.rec y) <> t ->
  native_other e t y.
Proof.
  unfold native_embeddings_ok, native_holds. intros Hok Hfresh Hin Hid.
  split; [assumption|].
  rewrite forallb_forall in Hok. specialize (Hok y Hin).
  pose proof (existsb_false_forall _ _ _ Hfresh y Hin) as Hnot.
  cbv beta in Hnot. destruct (Libsql.emb y); auto.
Qed.

(** Second call: on a settled store, [upsert] without id finds record [t]
    first, rewrites it and returns it; the store stays settled. *)
Lemma Libsql_upsert_settled (cur : option project) (a : upsert_args)
    (e : embedding) (now : string) (db : Libsql.store) (t proj : Z)
    (k : kind) (st : status) (title : string) :
  normalized e = true ->
  truthy_id (a_id a) = false ->
  resolve_project cur (a_projectId a) = Ok proj ->
  kind_of_string (a_kind a) = Some k ->
  status_of_string (status_arg a) = Some st ->
  a_title a = Some title ->
  project_exists (Libsql.projects db) proj = true ->
  native_settled db e t proj k ->
  exists v db',
    Libsql.upsert no_faults cur a e now db = (Ok (Some v), db')
    /\ r_id (rv_record v) = t
    /\ r_title (rv_record v) = title
    /\ r_body (rv_record v) = body_of a
    /\ r_status (rv_record v) = st
    /\ native_settled db' e t proj k
    /\ map (fun r => r_id (Libsql.rec r)) (Libsql.records db')
       = map (fun r => r_id (Libsql.rec r)) (Libsql.records db).
Proof.
  intros He Hid Hproj Hk Hst Htitle Hp Hset.
  destruct (native_settled_candidates db e t proj k (a_kind a) He Hset
              (kind_to_of_string _ _ Hk)) as (rest & Hcands).
  destruct Hset as (l1 & T & l2 & Hrec & Ht & HTp & HTk & Hemb & Hothers).
  assert (Hdim : dim_ok e = true).
  { unfold normalized in He. apply andb_true_iff in He. tauto. }
  assert (Hp' : project_exists (Libsql.projects db) (r_project_id (Libsql.rec T)) = true)
    by (rewrite HTp; assumption).
  assert (Hsel : forall y, In y (l1 ++ l2) ->
                           Libsql.has_id (r_id (Libsql.rec T)) y = false).
  { rewrite Ht. apply (native_other_not_selected e). assumption. }
  destruct (Libsql_update_and_read_back db a e now l1 l2 T st title
              Hrec Hsel Hst Htitle Hdim Hp') as (pname & Hrun).
  unfold Libsql.upsert. rewrite Hproj, Hid.
  unfold bind at 1. unfold guarded at 1, no_faults at 1. rewrite Hcands.
  assert (Hfind : Qleb (85 # 100) (Libsql._computeSimilarity e (Some e)) = true).
  { unfold Qleb. apply Qle_bool_iff. simpl.
    rewrite (dot_self_normalized e He). lra. }
  cbn [find snd]. rewrite Hfind. cbn [fst]. rewrite <- Ht.
  rewrite Hrun. eexists. eexists. split; [reflexivity|].
  cbn [rv_record r_id r_title r_body r_status Libsql.rec Libsql.records].
  repeat (split; [reflexivity|]).
  split.
  - exists l1, (Libsql.mkRow
                  (mkRecord (r_id (Libsql.rec T)) (r_project_id (Libsql.rec T))
                     (r_kind (Libsql.rec T)) title (body_of a) st
                     (r_created_at (Libsql.rec T)) now) (Some e)), l2.
    cbn [Libsql.records Libsql.rec Libsql.emb r_id r_project_id r_kind].
    rewrite Ht. repeat (split; [assumption || reflexivity|]). assumption.
  - rewrite Hrec, !map_app. reflexivity.
Qed.

(** First call: whichever branch it takes, the store is settled on the
    record it returns. *)
Lemma Libsql_upsert_first (cur : option project) (a : upsert_args)
    (e : embedding) (now : string) (db : Libsql.store) (proj : Z)
    (k : kind) (st : status) (title : string) :
  normalized e = true ->
  truthy_id (a_id a) = false ->
  resolve_project cur (a_projectId a) = Ok proj ->
  kind_of_string (a_kind a) = Some k ->
  status_of_string (status_arg a) = Some st ->
  a_title a = Some title ->
  project_exists (Libsql.projects db) proj = true ->
  native_keys_ok db = true ->
  native_embeddings_ok db = true ->
  native_holds db e = false ->
  exists v db',
    Libsql.upsert no_faults cur a e now db = (Ok (Some v), db')
    /\ native_settled db' e (r_id (rv_record v)) proj k
    /\ Libsql.projects db' = Libsql.projects db.
Proof.
  intros He Hid Hproj Hk Hst Htitle Hp Hkeys Hok Hfresh.
  assert (Hdim : dim_ok e = true).
  { unfold normalized in He. apply andb_true_iff in He. tauto. }
  unfold Libsql.upsert. rewrite Hproj, Hid.
  unfold bind at 1. unfold guarded at 1, no_faults at 1, Libsql.dedup_candidates.
  unfold check_dim. rewrite Hdim.
  destruct (find _ _) as [c|] eqn:F.
  - apply find_some in F. destruct F as [Hin _].
    apply Libsql_candidate_row in Hin.
    destruct Hin as (r0 & Hr0 & Hc & Hr0p & Hr0k).
    destruct (in_split _ _ Hr0) as (l1 & l2 & Hrec).
    assert (Hdistinct : forall y, In y (l1 ++ l2) ->
                                  r_id (Libsql.rec y) <> r_id (Libsql.rec r0)).
    { apply (distinct_keys_split _ (fun r => r_id (Libsql.rec r)) l1 l2 r0).
      unfold native_keys_ok in Hkeys. rewrite Hrec in Hkeys. exact Hkeys. }
    assert (Hsel : forall y, In y (l1 ++ l2) ->
                             Libsql.has_id (r_id (Libsql.rec r0)) y = false).
    { intros y Hy. unfold Libsql.has_id. apply Z.eqb_neq. auto. }
    assert (Hp' : project_exists (Libsql.projects db) (r_project_id (Libsql.rec r0))
                  = true) by (rewrite Hr0p; assumption).
    destruct (Libsql_update_and_read_back db a e now l1 l2 r0 st title
                Hrec Hsel Hst Htitle Hdim Hp') as (pname & Hrun).
    subst c. cbn [fst]. rewrite Hrun.
    eexists. eexists. split; [reflexivity|].
    cbn [rv_record r_id Libsql.rec Libsql.projects]. split; [|reflexivity].
    exists l1, (Libsql.mkRow
                  (mkRecord (r_id (Libsql.rec r0)) (r_project_id (Libsql.rec r0))
                     (r_kind (Libsql.rec r0)) title (body_of a) st
                     (r_created_at (Libsql.rec r0)) now) (Some e)), l2.
    cbn [Libsql.records Libsql.rec Libsql.emb r_id r_project_id r_kind].
    repeat (split; [assumption || reflexivity|]).
    split.
    + pose proof (kind_of_to_string _ _ Hr0k) as Hk'. congruence.
    + split; [reflexivity|].
      intros y Hy. apply (native_row_is_other db); auto.
      rewrite Hrec. apply in_app_or in Hy. apply in_or_app.
      destruct Hy; [left | right; right]; assumption.
  - destruct (project_exists_join _ _ Hp) as (p & ps & Hps).
    unfold bind, guarded, no_faults, Libsql.exec_insert, check_kind, check_title,
      check_status, check_dim.
    rewrite Hk, Htitle, Hst, Hdim. cbn [rbind].
    unfold Libsql.get, Libsql.get_rows.
    cbn [Libsql.records Libsql.projects].
    assert (Hnew : forall y, In y (Libsql.records db) ->
                             r_id (Libsql.rec y) <> Libsql.next_rowid db).
    { intros y Hy. unfold Libsql.next_rowid.
      pose proof (list_max_id_bound
                    (map (fun r => r_id (Libsql.rec r)) (Libsql.records db))
                    (r_id (Libsql.rec y))
                    (in_map (fun r => r_id (Libsql.rec r)) _ _ Hy)).
      lia. }
    rewrite (filter_split_single _ (Libsql.has_id (Libsql.next_rowid db))
               (Libsql.records db) []).
    + cbn [flat_map app]. unfold Libsql.join_project.
      cbn [Libsql.projects Libsql.rec r_project_id]. rewrite Hps.
      cbn [map hd_error].
      eexists. eexists. split; [reflexivity|].
      cbn [rv_record Libsql.view_of fst Libsql.rec r_id Libsql.projects].
      split; [|reflexivity].
      exists (Libsql.records db),
        (Libsql.mkRow (mkRecord (Libsql.next_rowid db) proj k title (body_of a) st
                         now now) (Some e)), [].
      cbn [Libsql.records Libsql.rec Libsql.emb r_id r_project_id r_kind].
      repeat (split; [reflexivity|]).
      intros y Hy. rewrite app_nil_r in Hy.
      apply (native_row_is_other db); auto.
    + intros y Hy. rewrite app_nil_r in Hy. unfold Libsql.has_id.
      apply Z.eqb_neq. auto.
    + unfold Libsql.has_id. apply Z.eqb_refl.
Qed.

(** *** The legacy backend *)

Lemma legacy_entry_farther (e : embedding) (t : Z) (l : list (Z * embedding))
    (nd : Z * Q) :
  normalized e = true ->
  (forall iv, In iv l -> normalized (snd iv) = true /\ same_vector e (snd iv) = false) ->
  In nd (map (fun iv : Z * embedding => (fst iv, distance e (snd iv))) l) ->
  asc (fun x : Z * Q => snd x) (t, distance e e) nd = true
  /\ asc (fun x : Z * Q => snd x) nd (t, distance e e) = false.
Proof.
  intros He Hl Hin. apply in_map_iff in Hin. destruct Hin as (iv & Hnd & Hiv).
  subst nd. destruct (Hl iv Hiv) as [Hn Hs].
  pose proof (other_vector_is_farther e (snd iv) He Hn Hs) as Hlt.
  pose proof (dot_self_normalized e He) as Hee.
  unfold asc, Qleb, distance. simpl. split.
  - apply Qle_bool_iff. lra.
  - destruct (Qle_bool (1 - dot e (snd iv)) (1 - dot e e)) eqn:E; auto.
    apply Qle_bool_iff in E. lra.
Qed.

Lemma legacy_settled_top (db : SqliteVec.store) (e : embedding) (t proj : Z)
    (k : kind) (n : nat) :
  normalized e = true -> legacy_settled db e t proj k ->
  exists rest,
    SqliteVec.vec0_knn db e (S n) = (t, distance e e) :: rest
    /\ forall nd, In nd rest ->
                  asc (fun x : Z * Q => snd x) (t, distance e e) nd = true
                  /\ asc (fun x : Z * Q => snd x) nd (t, distance e e) = false.
Proof.
  intros He [_ (m1 & m2 & Hemb & Hothers)].
  unfold SqliteVec.vec0_knn. rewrite Hemb, map_app. cbn [map fst snd].
  rewrite sort_by_front.
  - cbn [firstn]. eexists. split; [reflexivity|].
    intros nd Hnd. apply In_firstn in Hnd. apply In_sort_by in Hnd.
    rewrite <- map_app in Hnd.
    apply (legacy_entry_farther e t (m1 ++ m2)); assumption.
  - intros nd Hnd. rewrite <- map_app in Hnd.
    apply (legacy_entry_farther e t (m1 ++ m2)); assumption.
Qed.

Lemma legacy_settled_candidates (db : SqliteVec.store) (e : embedding) (t proj : Z)
    (k : kind) (ks : string) :
  normalized e = true -> legacy_settled db e t proj k ->
  kind_to_string k = ks ->
  SqliteVec.dedup_candidates proj ks e db = (Ok [(t, distance e e)], db).
Proof.
  intros He Hset Hk.
  destruct (legacy_settled_top db e t proj k 4 He Hset) as (rest & Htop & Hrest).
  destruct Hset as [(l1 & T & l2 & Hrec & Ht & Hp & Hkind & Hothers) _].
  assert (Hdim : dim_ok e = true).
  { unfold normalized in He. apply andb_true_iff in He. tauto. }
  unfold SqliteVec.dedup_candidates, check_dim. rewrite Hdim, Htop.
  cbn [flat_map]. unfold SqliteVec.join_record at 1. cbn [fst snd]. rewrite Hrec.
  rewrite (filter_split_single _ (SqliteVec.has_id t) l1 l2 T).
  - cbn [map app filter fst snd].
    rewrite Hp, Hkind, Hk, Z.eqb_refl, String.eqb_refl. cbn [andb map fst snd].
    rewrite Ht.
    match goal with
    | |- context [sort_by _ (_ :: ?L)] =>
        pose proof (sort_by_front _ (asc (fun x : Z * Q => snd x))
                      (t, distance e e) [] L) as Hs
    end.
    cbn [app] in Hs. rewrite Hs.
    + reflexivity.
    + intros nd Hnd. apply in_map_iff in Hnd.
      destruct Hnd as ([r d] & Hnd & Hin). subst nd. cbn [fst snd].
      apply filter_In in Hin. destruct Hin as [Hin _].
      apply in_flat_map in Hin. destruct Hin as (nd' & Hnd' & Hj).
      unfold SqliteVec.join_record in Hj. apply in_map_iff in Hj.
      destruct Hj as (r' & Heq & _). inversion Heq; subst r' d.
      destruct (Hrest nd' Hnd') as [H1 H2].
      unfold asc in *. cbn [snd] in *. auto.
  - intros y Hy. unfold SqliteVec.has_id. apply Z.eqb_neq. auto.
  - unfold SqliteVec.has_id. rewrite Ht. apply Z.eqb_refl.
Qed.

(** The close-match branch of the legacy backend: the record is rewritten
    in place, its embedding row is deleted and re-inserted at the end of
    the side-table, and the record is read back. *)
Lemma SqliteVec_update_and_read_back (db : SqliteVec.store) (a : upsert_args)
    (e : embedding) (now : string) (l1 l2 : list record) (T : record)
    (st : status) (title : string) :
  SqliteVec.records db = l1 ++ T :: l2 ->
  (forall y, In y (l1 ++ l2) -> SqliteVec.has_id (r_id T) y = false) ->
  status_of_string (status_arg a) = Some st ->
  a_title a = Some title ->
  dim_ok e = true ->
  project_exists (SqliteVec.projects db) (r_project_id T) = true ->
  let T' := mkRecord (r_id T) (r_project_id T) (r_kind T) title (body_of a) st
              (r_created_at T) now in
  exists pname,
    (guarded no_faults UpdateRecord
       (SqliteVec.exec_update (r_id T) (SqliteVec.set_dedup a now)) ;;;
     guarded no_faults DeleteEmbedding (SqliteVec.exec_delete_embedding (r_id T)) ;;;
     guarded no_faults InsertEmbedding (SqliteVec.exec_insert_embedding (r_id T) e) ;;;
     guarded no_faults ReadBack (SqliteVec._getRecord (r_id T))) db
    = (Ok (Some (mkView T' pname)),
       SqliteVec.mkStore (SqliteVec.projects db) (l1 ++ T' :: l2)
         (filter (fun iv => negb (Z.eqb (fst iv) (r_id T)))
                 (SqliteVec.record_embedding db) ++ [(r_id T, e)])
         (SqliteVec.seq db)).
Proof.
  intros Hrec Hothers Hst Htitle Hdim Hproj T'.
  destruct (project_exists_join _ _ Hproj) as (p & ps & Hps).
  exists (p_name p).
  unfold bind, guarded, no_faults, SqliteVec.exec_update. rewrite Hrec.
  rewrite (update_rows_split _ (SqliteVec.has_id (r_id T))
             (SqliteVec.set_dedup a now) l1 l2 T T'); auto.
  - unfold SqliteVec.exec_delete_embedding, SqliteVec.exec_insert_embedding, check_dim.
    cbn [SqliteVec.projects SqliteVec.records SqliteVec.record_embedding SqliteVec.seq].
    rewrite Hdim, existsb_after_delete.
    unfold SqliteVec._getRecord, SqliteVec.get_rows.
    cbn [SqliteVec.projects SqliteVec.records SqliteVec.record_embedding SqliteVec.seq].
    rewrite (filter_split_single _ (SqliteVec.has_id (r_id T)) l1 l2 T'); auto.
    + cbn [flat_map app]. unfold SqliteVec.join_project.
      cbn [SqliteVec.projects r_project_id T']. rewrite Hps. reflexivity.
    + unfold SqliteVec.has_id. apply Z.eqb_refl.
  - unfold SqliteVec.has_id. apply Z.eqb_refl.
  - unfold SqliteVec.set_dedup, check_title, check_status.
    rewrite Htitle, Hst. reflexivity.
Qed.

(** The insert branch of the legacy backend. *)
Lemma SqliteVec_insert_and_read_back (db : SqliteVec.store) (a : upsert_args)
    (e : embedding) (now : string) (proj : Z) (k : kind) (st : status)
    (title : string) :
  kind_of_string (a_kind a) = Some k ->
  status_of_string (status_arg a) = Some st ->
  a_title a = Some title ->
  dim_ok e = true ->
  project_exists (SqliteVec.projects db) proj = true ->
  legacy_keys_ok db = true ->
  let T := mkRecord (SqliteVec.next_rowid db) proj k title (body_of a) st now now in
  exists pname,
    (newId <- guarded no_faults InsertRecord (SqliteVec.exec_insert proj a now) ;;
     guarded no_faults InsertEmbedding (SqliteVec.exec_insert_embedding newId e) ;;;
     guarded no_faults ReadBack (SqliteVec._getRecord newId)) db
    = (Ok (Some (mkView T pname)),
       SqliteVec.mkStore (SqliteVec.projects db) (SqliteVec.records db ++ [T])
         (SqliteVec.record_embedding db ++ [(SqliteVec.next_rowid db, e)])
         (SqliteVec.next_rowid db))
    /\ (forall y, In y (SqliteVec.records db) -> r_id y <> SqliteVec.next_rowid db).
Proof.
  intros Hk Hst Htitle Hdim Hproj Hkeys T.
  destruct (project_exists_join _ _ Hproj) as (p & ps & Hps).
  exists (p_name p).
  assert (Hnew : forall y, In y (SqliteVec.records db) ->
                           r_id y <> SqliteVec.next_rowid db).
  { intros y Hy. unfold SqliteVec.next_rowid.
    pose proof (list_max_id_bound (map r_id (SqliteVec.records db)) (r_id y)
                  (in_map r_id _ _ Hy)). lia. }
  split; [|assumption].
  unfold legacy_keys_ok in Hkeys. apply andb_true_iff in Hkeys.
  destruct Hkeys as [_ Horph].
  assert (Hfree : existsb (fun iv : Z * embedding => Z.eqb (fst iv) (SqliteVec.next_rowid db))
                    (SqliteVec.record_embedding db) = false).
  { destruct (existsb _ (SqliteVec.record_embedding db)) eqn:E; auto. exfalso.
    apply existsb_exists in E. destruct E as (iv & Hiv & Heq).
    apply Z.eqb_eq in Heq. rewrite forallb_forall in Horph.
    specialize (Horph iv Hiv). apply existsb_exists in Horph.
    destruct Horph as (r & Hr & Hid). unfold SqliteVec.has_id in Hid.
    apply Z.eqb_eq in Hid. apply (Hnew r Hr). congruence. }
  unfold bind, guarded, no_faults, SqliteVec.exec_insert, check_kind, check_title,
    check_status.
  rewrite Hk, Htitle, Hst. cbn [rbind].
  unfold project_exists in Hproj. rewrite Hproj.
  unfold SqliteVec.exec_insert_embedding, check_dim.
  cbn [SqliteVec.projects SqliteVec.records SqliteVec.record_embedding SqliteVec.seq].
  rewrite Hdim, Hfree.
  unfold SqliteVec._getRecord, SqliteVec.get_rows.
  cbn [SqliteVec.projects SqliteVec.records SqliteVec.record_embedding SqliteVec.seq].
  subst T.
  match goal with
  | |- context [filter (SqliteVec.has_id ?i) (?l ++ [?x])] =>
      rewrite (filter_split_single _ (SqliteVec.has_id i) l [] x)
  end.
  - cbn [flat_map app]. unfold SqliteVec.join_project.
    cbn [SqliteVec.projects r_project_id]. rewrite Hps. reflexivity.
  - intros y Hy. rewrite app_nil_r in Hy. unfold SqliteVec.has_id.
    apply Z.eqb_neq. auto.
  - unfold SqliteVec.has_id. apply Z.eqb_refl.
Qed.

Lemma SqliteVec_upsert_settled (cur : option project) (a : upsert_args)
    (e : embedding) (now : string) (db : SqliteVec.store) (t proj : Z)
    (k : kind) (st : status) (title : string) :
  normalized e = true ->
  truthy_id (a_id a) = false ->
  resolve_project cur (a_projectId a) = Ok proj ->
  kind_of_string (a_kind a) = Some k ->
  status_of_string (status_arg a) = Some st ->
  a_title a = Some title ->
  project_exists (SqliteVec.projects db) proj = true ->
  legacy_settled db e t proj k ->
  exists v db',
    SqliteVec.upsert no_faults cur a e now db = (Ok (Some v), db')
    /\ r_id (rv_record v) = t
    /\ r_title (rv_record v) = title
    /\ r_body (rv_record v) = body_of a
    /\ r_status (rv_record v) = st
    /\ legacy_settled db' e t proj k
    /\ map r_id (SqliteVec.records db') = map r_id (SqliteVec.records db).
Proof.
  intros He Hid Hproj Hk Hst Htitle Hp Hset.
  pose proof (legacy_settled_candidates db e t proj k (a_kind a) He Hset
                (kind_to_of_string _ _ Hk)) as Hcands.
  destruct Hset as [(l1 & T & l2 & Hrec & Ht & HTp & HTk & Hothers)
                    (m1 & m2 & Hemb & Hfresh)].
  assert (Hdim : dim_ok e = true).
  { unfold normalized in He. apply andb_true_iff in He. tauto. }
  assert (Hp' : project_exists (SqliteVec.projects db) (r_project_id T) = true)
    by (rewrite HTp; assumption).
  assert (Hsel : forall y, In y (l1 ++ l2) -> SqliteVec.has_id (r_id T) y = false).
  { intros y Hy. unfold SqliteVec.has_id. rewrite Ht. apply Z.eqb_neq. auto. }
  destruct (SqliteVec_update_and_read_back db a e now l1 l2 T st title
              Hrec Hsel Hst Htitle Hdim Hp') as (pname & Hrun).
  unfold SqliteVec.upsert, transaction, SqliteVec.upsert_body. rewrite Hproj, Hid.
  unfold bind at 1. unfold guarded at 1, no_faults at 1. rewrite Hcands.
  assert (Hclose : Qleb (distance e e) (15 # 100) = true).
  { unfold Qleb, distance. apply Qle_bool_iff.
    rewrite (dot_self_normalized e He). lra. }
  cbn [fst snd]. rewrite Hclose. rewrite <- Ht. rewrite Hrun.
  eexists. eexists. split; [reflexivity|].
  cbn [rv_record r_id r_title r_body r_status SqliteVec.records].
  repeat (split; [reflexivity|]).
  split; [split|].
  - exists l1, (mkRecord (r_id T) (r_project_id T) (r_kind T) title (body_of a) st
                  (r_created_at T) now), l2.
    cbn [SqliteVec.records r_id r_project_id r_kind].
    repeat (split; [assumption || reflexivity|]).
    rewrite Ht. assumption.
  - exists (filter (fun iv : Z * embedding => negb (Z.eqb (fst iv) (r_id T)))
                   (SqliteVec.record_embedding db)), [].
    cbn [SqliteVec.record_embedding]. split; [reflexivity|].
    intros iv Hiv. rewrite app_nil_r in Hiv. apply filter_In in Hiv.
    destruct Hiv as [Hin Hne]. rewrite Hemb in Hin.
    apply Hfresh. apply in_app_or in Hin. apply in_or_app.
    destruct Hin as [Hin|[Heq|Hin]]; auto.
    subst iv. cbn [fst] in Hne. rewrite Ht, Z.eqb_refl in Hne. discriminate.
  - rewrite Hrec, !map_app. reflexivity.
Qed.

Lemma SqliteVec_upsert_first (cur : option project) (a : upsert_args)
    (e : embedding) (now : string) (db : SqliteVec.store) (proj : Z)
    (k : kind) (st : status) (title : string) :
  normalized e = true ->
  truthy_id (a_id a) = false ->
  resolve_project cur (a_projectId a) = Ok proj ->
  kind_of_string (a_kind a) = Some k ->
  status_of_string (status_arg a) = Some st ->
  a_title a = Some title ->
  project_exists (SqliteVec.projects db) proj = true ->
  legacy_keys_ok db = true ->
  legacy_embeddings_ok db = true ->
  legacy_holds db e = false ->
  exists v db',
    SqliteVec.upsert no_faults cur a e now db = (Ok (Some v), db')
    /\ legacy_settled db' e (r_id (rv_record v)) proj k
    /\ SqliteVec.projects db' = SqliteVec.projects db.
Proof.
  intros He Hid Hproj Hk Hst Htitle Hp Hkeys Hok Hfresh.
  assert (Hdim : dim_ok e = true).
  { unfold normalized in He. apply andb_true_iff in He. tauto. }
  assert (Hstored : forall iv, In iv (SqliteVec.record_embedding db) ->
                     normalized (snd iv) = true /\ same_vector e (snd iv) = false).
  { intros iv Hiv. unfold legacy_embeddings_ok in Hok.
    rewrite forallb_forall in Hok. split; [apply Hok; assumption|].
    apply (existsb_false_forall _ _ _ Hfresh iv Hiv). }
  destruct (SqliteVec_insert_and_read_back db a e now proj k st title
              Hk Hst Htitle Hdim Hp Hkeys) as (pname & Hins & Hnew).
  assert (Hinsert :
            exists v db',
              transaction
                (fun s =>
                   (newId <- guarded no_faults InsertRecord
                               (SqliteVec.exec_insert proj a now) ;;
                    guarded no_faults InsertEmbedding
                      (SqliteVec.exec_insert_embedding newId e) ;;;
                    guarded no_faults ReadBack (SqliteVec._getRecord newId)) s) db
              = (Ok (Some v), db')
              /\ legacy_settled db' e (r_id (rv_record v)) proj k
              /\ SqliteVec.projects db' = SqliteVec.projects db).
  { unfold transaction. rewrite Hins. eexists. eexists. split; [reflexivity|].
    cbn [rv_record r_id SqliteVec.projects]. split; [|reflexivity]. split.
    - exists (SqliteVec.records db),
        (mkRecord (SqliteVec.next_rowid db) proj k title (body_of a) st now now), [].
      cbn [SqliteVec.records r_id r_project_id r_kind].
      repeat (split; [reflexivity|]).
      intros y Hy. rewrite app_nil_r in Hy. auto.
    - exists (SqliteVec.record_embedding db), [].
      cbn [SqliteVec.record_embedding]. split; [reflexivity|].
      intros iv Hiv. rewrite app_nil_r in Hiv. auto. }
  unfold SqliteVec.upsert. rewrite Hproj.
  unfold transaction in *. unfold SqliteVec.upsert_body. rewrite Hid.
  unfold bind at 1. unfold guarded at 1, no_faults at 1, SqliteVec.dedup_candidates.
  unfold check_dim. rewrite Hdim.
  destruct (firstn 1 _) as [|c rest] eqn:F; [exact Hinsert|].
  destruct (Qleb (snd c) (15 # 100)); [|exact Hinsert].
  clear Hinsert Hins.
  assert (Hin : In c (c :: rest)) by (left; reflexivity).
  rewrite <- F in Hin. apply In_firstn in Hin. apply In_sort_by in Hin.
  apply SqliteVec_candidate_row in Hin.
  destruct Hin as (r0 & d & Hr0 & _ & Hc & Hr0p & Hr0k).
  destruct (in_split _ _ Hr0) as (l1 & l2 & Hrec).
  assert (Hdistinct : forall y, In y (l1 ++ l2) -> r_id y <> r_id r0).
  { apply (distinct_keys_split _ r_id l1 l2 r0).
    unfold legacy_keys_ok in Hkeys. apply andb_true_iff in Hkeys.
    destruct Hkeys as [Hkeys _]. rewrite Hrec in Hkeys. exact Hkeys. }
  assert (Hsel : forall y, In y (l1 ++ l2) -> SqliteVec.has_id (r_id r0) y = false).
  { intros y Hy. unfold SqliteVec.has_id. apply Z.eqb_neq. auto. }
  assert (Hp' : project_exists (SqliteVec.projects db) (r_project_id r0) = true)
    by (rewrite Hr0p; assumption).
  destruct (SqliteVec_update_and_read_back db a e now l1 l2 r0 st title
              Hrec Hsel Hst Htitle Hdim Hp') as (pname' & Hrun).
  subst c. cbn [fst]. rewrite Hrun.
  eexists. eexists. split; [reflexivity|].
  cbn [rv_record r_id SqliteVec.projects]. split; [|reflexivity]. split.
  - exists l1, (mkRecord (r_id r0) (r_project_id r0) (r_kind r0) title (body_of a) st
                  (r_created_at r0) now), l2.
    cbn [SqliteVec.records r_id r_project_id r_kind].
    repeat (split; [assumption || reflexivity|]).
    split; [|assumption].
    pose proof (kind_of_to_string _ _ Hr0k) as Hk'. congruence.
  - exists (filter (fun iv : Z * embedding => negb (Z.eqb (fst iv) (r_id r0)))
                   (SqliteVec.record_embedding db)), [].
    cbn [SqliteVec.record_embedding]. split; [reflexivity|].
    intros iv Hiv. rewrite app_nil_r in Hiv. apply filter_In in Hiv.
    apply Hstored. tauto.
Qed.

Lemma native_settled_one_holder (db : Libsql.store) (e : embedding) (t proj : Z)
    (k : kind) :
  native_settled db e t proj k ->
  List.length (filter (fun r => match Libsql.emb r with
                                | Some v => same_vector e v
                                | None => false
                                end) (Libsql.records db)) = 1%nat.
Proof.
  intros (l1 & T & l2 & Hrec & _ & _ & _ & Hemb & Hothers).
  rewrite Hrec.
  rewrite (filter_split_single _ _ l1 l2 T); [reflexivity| |].
  - intros y Hy. destruct (Hothers y Hy) as [_ Hy'].
    destruct (Libsql.emb y); [tauto | reflexivity].
  - rewrite Hemb. apply same_vector_refl.
Qed.

Lemma legacy_settled_one_holder (db : SqliteVec.store) (e : embedding) (t proj : Z)
    (k : kind) :
  legacy_settled db e t proj k ->
  List.length (filter (fun iv : Z * embedding => same_vector e (snd iv))
                 (SqliteVec.record_embedding db)) = 1%nat.
Proof.
  intros [_ (m1 & m2 & Hemb & Hothers)]. rewrite Hemb.
  rewrite (filter_split_single _ _ m1 m2 (t, e)); [reflexivity| |].
  - intros iv Hiv. apply Hothers. assumption.
  - apply same_vector_refl.
Qed.

(** C1.  Two [upsert] calls without id, with the same normalised embedding
    [e], the same project and the same kind, on a store that does not hold
    [e] yet: both succeed, the second returns the identifier the first
    returned, with the title, body and status of the second call; the
    second call adds no row, and exactly one record carries [e]
    afterwards.  On both backends. *)
Theorem upsert_twice_same_embedding_one_record :
  forall (cur : option project) (a1 a2 : upsert_args) (e : embedding)
         (now1 now2 : string) (proj : Z),
    normalized e = true ->
    truthy_id (a_id a1) = false -> truthy_id (a_id a2) = false ->
    a_projectId a2 = a_projectId a1 -> a_kind a2 = a_kind a1 ->
    rejected_by_schema a1 = false -> rejected_by_schema a2 = false ->
    resolve_project cur (a_projectId a1) = Ok proj ->
    (forall db : Libsql.store,
        project_exists (Libsql.projects db) proj = true ->
        native_keys_ok db = true ->
        native_embeddings_ok db = true ->
        native_holds db e = false ->
        exists v1 db1 v2 db2,
          Libsql.upsert no_faults cur a1 e now1 db = (Ok (Some v1), db1)
          /\ Libsql.upsert no_faults cur a2 e now2 db1 = (Ok (Some v2), db2)
          /\ r_id (rv_record v2) = r_id (rv_record v1)
          /\ Some (r_title (rv_record v2)) = a_title a2
          /\ r_body (rv_record v2) = body_of a2
          /\ status_to_string (r_status (rv_record v2)) = status_arg a2
          /\ map (fun r => r_id (Libsql.rec r)) (Libsql.records db2)
             = map (fun r => r_id (Libsql.rec r)) (Libsql.records db1)
          /\ List.length
               (filter (fun r => match Libsql.emb r with
                                 | Some v => same_vector e v
                                 | None => false
                                 end) (Libsql.records db2)) = 1%nat)
    /\ (forall db : SqliteVec.store,
        project_exists (SqliteVec.projects db) proj = true ->
        legacy_keys_ok db = true ->
        legacy_embeddings_ok db = true ->
        legacy_holds db e = false ->
        exists v1 db1 v2 db2,
          SqliteVec.upsert no_faults cur a1 e now1 db = (Ok (Some v1), db1)
          /\ SqliteVec.upsert no_faults cur a2 e now2 db1 = (Ok (Some v2), db2)
          /\ r_id (rv_record v2) = r_id (rv_record v1)
          /\ Some (r_title (rv_record v2)) = a_title a2
          /\ r_body (rv_record v2) = body_of a2
          /\ status_to_string (r_status (rv_record v2)) = status_arg a2
          /\ map r_id (SqliteVec.records db2) = map r_id (SqliteVec.records db1)
          /\ List.length
               (filter (fun iv : Z * embedding => same_vector e (snd iv))
                  (SqliteVec.record_embedding db2)) = 1%nat).
Proof.
  intros cur a1 a2 e now1 now2 proj He Hid1 Hid2 Hsamep Hsamek Hok1 Hok2 Hproj.
  destruct (accepted_by_schema a1 Hok1) as (k & st1 & t1 & Hk1 & Hst1 & Ht1).
  destruct (accepted_by_schema a2 Hok2) as (k2 & st2 & t2 & Hk2 & Hst2 & Ht2).
  assert (Hproj2 : resolve_project cur (a_projectId a2) = Ok proj)
    by (rewrite Hsamep; assumption).
  assert (k2 = k) by (rewrite Hsamek in Hk2; congruence). subst k2.
  split; intros db Hp Hkeys Hemb Hfresh.
  - destruct (Libsql_upsert_first cur a1 e now1 db proj k st1 t1
                He Hid1 Hproj Hk1 Hst1 Ht1 Hp Hkeys Hemb Hfresh)
      as (v1 & db1 & Hrun1 & Hset1 & Hprojs).
    assert (Hp1 : project_exists (Libsql.projects db1) proj = true)
      by (rewrite Hprojs; assumption).
    destruct (Libsql_upsert_settled cur a2 e now2 db1 (r_id (rv_record v1)) proj k st2 t2
                He Hid2 Hproj2 Hk2 Hst2 Ht2 Hp1 Hset1)
      as (v2 & db2 & Hrun2 & Hsame & Htitle & Hbody & Hstatus & Hset2 & Hids).
    exists v1, db1, v2, db2.
    repeat (split; [assumption|]).
    split; [rewrite Htitle; symmetry; assumption|].
    split; [assumption|].
    split; [rewrite Hstatus; apply status_to_of_string; assumption|].
    split; [assumption|].
    apply (native_settled_one_holder db2 e (r_id (rv_record v1)) proj k). assumption.
  - destruct (SqliteVec_upsert_first cur a1 e now1 db proj k st1 t1
                He Hid1 Hproj Hk1 Hst1 Ht1 Hp Hkeys Hemb Hfresh)
      as (v1 & db1 & Hrun1 & Hset1 & Hprojs).
    assert (Hp1 : project_exists (SqliteVec.projects db1) proj = true)
      by (rewrite Hprojs; assumption).
    destruct (SqliteVec_upsert_settled cur a2 e now2 db1 (r_id (rv_record v1)) proj k
                st2 t2 He Hid2 Hproj2 Hk2 Hst2 Ht2 Hp1 Hset1)
      as (v2 & db2 & Hrun2 & Hsame & Htitle & Hbody & Hstatus & Hset2 & Hids).
    exists v1, db1, v2, db2.
    repeat (split; [assumption|]).
    split; [rewrite Htitle; symmetry; assumption|].
    split; [assumption|].
    split; [rewrite Hstatus; apply status_to_of_string; assumption|].
    split; [assumption|].
    apply (legacy_settled_one_holder db2 e (r_id (rv_record v1)) proj k). assumption.
Qed.

(** C1 on the native store with two other records, and on the legacy
    store without records (the scenario of the repository's deduplication
    test). *)
Lemma upsert_twice_witness :
  (exists v1 db1 v2 db2,
      Libsql.upsert no_faults (Some Fixtures.repo) (Fixtures.args "issue" "Original")
        (Fixtures.axis 0) "2025-06-02" Fixtures.native2 = (Ok (Some v1), db1)
      /\ Libsql.upsert no_faults (Some Fixtures.repo)
           (Fixtures.args "issue" "Updated Title")
           (Fixtures.axis 0) "2025-06-03" db1 = (Ok (Some v2), db2)
      /\ r_id (rv_record v2) = r_id (rv_record v1)
      /\ Some (r_title (rv_record v2)) = Some "Updated Title"%string)
  /\ (exists v1 db1 v2 db2,
      SqliteVec.upsert no_faults (Some Fixtures.repo) (Fixtures.args "issue" "Original")
        (Fixtures.axis 0) "2025-06-02" Fixtures.legacy0 = (Ok (Some v1), db1)
      /\ SqliteVec.upsert no_faults (Some Fixtures.repo)
           (Fixtures.args "issue" "Updated Title")
           (Fixtures.axis 0) "2025-06-03" db1 = (Ok (Some v2), db2)
      /\ r_id (rv_record v2) = r_id (rv_record v1)
      /\ List.length (SqliteVec.records db2) = List.length (SqliteVec.records db1)).
Proof.
  destruct (upsert_twice_same_embedding_one_record (Some Fixtures.repo)
              (Fixtures.args "issue" "Original")
              (Fixtures.args "issue" "Updated Title")
              (Fixtures.axis 0) "2025-06-02" "2025-06-03" 1%Z
              eq_refl eq_refl eq_refl eq_refl eq_refl eq_refl eq_refl eq_refl)
    as [HL HV].
  split.
  - destruct (HL Fixtures.native2 eq_refl eq_refl eq_refl eq_refl)
      as (v1 & db1 & v2 & db2 & H1 & H2 & Hid & Htitle & _).
    exists v1, db1, v2, db2. repeat (split; [assumption|]). exact Htitle.
  - destruct (HV Fixtures.legacy0 eq_refl eq_refl eq_refl eq_refl)
      as (v1 & db1 & v2 & db2 & H1 & H2 & Hid & _ & _ & _ & Hids & _).
    exists v1, db1, v2, db2. repeat (split; [assumption|]).
    rewrite <- (length_map r_id (SqliteVec.records db2)), Hids.
    apply length_map.
Defined.

(* ------------------------------------------------------------------ *)
(** * Further properties of the adapters *)

(** ** Project identity *)

Lemma touch_id (name now : string) (p : project) :
  p_id (ProjectTable.touch name now p) = p_id p.
Proof. unfold ProjectTable.touch. destruct (String.eqb _ _); reflexivity. Qed.

Lemma touch_name (name now : string) (p : project) :
  p_name (ProjectTable.touch name now p) = p_name p.
Proof. unfold ProjectTable.touch. destruct (String.eqb _ _); reflexivity. Qed.

Lemma map_touch_ids (name now : string) (ps : list project) :
  map p_id (map (ProjectTable.touch name now) ps) = map p_id ps.
Proof.
  rewrite map_map. apply map_ext. intros p. apply touch_id.
Qed.

Lemma map_touch_names (name now : string) (ps : list project) :
  map p_name (map (ProjectTable.touch name now) ps) = map p_name ps.
Proof.
  rewrite map_map. apply map_ext. intros p. apply touch_name.
Qed.

Lemma by_name_touch (name now : string) (ps : list project) :
  ProjectTable.by_name name (map (ProjectTable.touch name now) ps)
  = option_map (ProjectTable.touch name now) (ProjectTable.by_name name ps).
Proof.
  unfold ProjectTable.by_name. induction ps as [|p ps IH]; simpl; auto.
  rewrite touch_name. destruct (String.eqb (p_name p) name); auto.
Qed.

Lemma by_name_found (name : string) (ps : list project) :
  existsb (fun p => String.eqb (p_name p) name) ps = true ->
  exists p, ProjectTable.by_name name ps = Some p /\ p_name p = name /\ In p ps.
Proof.
  unfold ProjectTable.by_name. intros H.
  destruct (find _ ps) as [p|] eqn:F.
  - apply find_some in F. destruct F as [Hin Hn]. apply String.eqb_eq in Hn. eauto.
  - apply existsb_exists in H. destruct H as (p & Hin & Hn).
    pose proof (find_none _ _ F p Hin) as Hc. cbv beta in Hc. congruence.
Qed.

Lemma by_name_missing (name : string) (ps : list project) :
  existsb (fun p => String.eqb (p_name p) name) ps = false ->
  ProjectTable.by_name name ps = None.
Proof.
  unfold ProjectTable.by_name. intros H.
  destruct (find _ ps) as [p|] eqn:F; auto.
  apply find_some in F. destruct F as [Hin Hn].
  pose proof (existsb_false_forall _ _ _ H p Hin) as Hc. cbv beta in Hc. congruence.
Qed.

Lemma find_appended (A : Type) (f : A -> bool) (l1 l2 : list A) :
  find f (l1 ++ l2) = match find f l1 with Some x => Some x | None => find f l2 end.
Proof.
  induction l1 as [|h t IH]; simpl; auto. destruct (f h); auto.
Qed.

Lemma by_name_appended (name now : string) (ps : list project) (id : Z) :
  existsb (fun p => String.eqb (p_name p) name) ps = false ->
  ProjectTable.by_name name (ps ++ [mkProject id name now now])
  = Some (mkProject id name now now).
Proof.
  intros H. unfold ProjectTable.by_name. rewrite find_appended.
  fold (ProjectTable.by_name name ps). rewrite (by_name_missing _ _ H).
  simpl. rewrite String.eqb_refl. reflexivity.
Qed.

(** What one [_upsertProject] does to the table, in both cases. *)
Lemma insert_or_touch_spec (name now : string) (ps : list project) (pseq : Z) :
  exists p,
    ProjectTable.by_name name (fst (ProjectTable.insert_or_touch name now ps pseq))
    = Some p
    /\ p_name p = name
    /\ p_updated_at p = now
    /\ existsb (fun q => String.eqb (p_name q) name)
         (fst (ProjectTable.insert_or_touch name now ps pseq)) = true.
Proof.
  unfold ProjectTable.insert_or_touch.
  destruct (existsb _ ps) eqn:E; cbn [fst].
  - destruct (by_name_found _ _ E) as (p & Hp & Hn & Hin).
    exists (ProjectTable.touch name now p).
    rewrite by_name_touch, Hp. cbn [option_map].
    split; [reflexivity|]. split; [rewrite touch_name; assumption|].
    split.
    + unfold ProjectTable.touch. rewrite Hn, String.eqb_refl. reflexivity.
    + apply existsb_exists. exists (ProjectTable.touch name now p).
      split; [apply in_map; assumption|].
      rewrite touch_name, Hn. apply String.eqb_refl.
  - exists (mkProject (ProjectTable.next_id ps pseq) name now now).
    rewrite (by_name_appended _ _ _ _ E).
    repeat (split; [reflexivity|]).
    rewrite existsb_app. simpl. rewrite String.eqb_refl. apply orb_true_r.
Qed.

Lemma insert_or_touch_again (name now : string) (ps : list project) (pseq : Z) :
  existsb (fun q => String.eqb (p_name q) name) ps = true ->
  ProjectTable.insert_or_touch name now ps pseq
  = (map (ProjectTable.touch name now) ps, ProjectTable.next_id ps pseq).
Proof.
  intros H. unfold ProjectTable.insert_or_touch. rewrite H. reflexivity.
Qed.

Lemma insert_or_touch_twice (name now1 now2 : string) (ps : list project) (pseq : Z) :
  forall ps1 s1 ps2 s2,
    ProjectTable.insert_or_touch name now1 ps pseq = (ps1, s1) ->
    ProjectTable.insert_or_touch name now2 ps1 s1 = (ps2, s2) ->
    exists p1 p2,
      ProjectTable.by_name name ps1 = Some p1
      /\ ProjectTable.by_name name ps2 = Some p2
      /\ p_name p1 = name
      /\ p_id p2 = p_id p1
      /\ p_updated_at p2 = now2
      /\ map p_id ps2 = map p_id ps1
      /\ map p_name ps2 = map p_name ps1
      /\ p_created_at p2 = p_created_at p1
      /\ ps2 = map (ProjectTable.touch name now2) ps1.
Proof.
  intros ps1 s1 ps2 s2 H1 H2.
  destruct (insert_or_touch_spec name now1 ps pseq) as (p1 & Hp1 & Hn1 & _ & Hex).
  rewrite H1 in Hp1, Hex. cbn [fst] in Hp1, Hex.
  rewrite (insert_or_touch_again _ _ _ _ Hex) in H2. inversion H2; subst ps2 s2.
  exists p1, (ProjectTable.touch name now2 p1).
  rewrite by_name_touch, Hp1. cbn [option_map].
  repeat (split; [reflexivity || assumption|]).
  split; [apply touch_id|].
  split; [unfold ProjectTable.touch; rewrite Hn1, String.eqb_refl; reflexivity|].
  split; [apply map_touch_ids|]. split; [apply map_touch_names|].
  split; [|reflexivity].
  unfold ProjectTable.touch. destruct (String.eqb (p_name p1) name); reflexivity.
Qed.

(** X1.  [_upsertProject] is idempotent on the name, in both adapters: a
    second call with the same name returns the row of the first call (same
    id, same [created_at]), only bumps its [updated_at], creates no row,
    leaves every row of another name exactly as it was, and leaves the
    records alone. *)
Theorem upsertProject_twice_same_row :
  forall (name now1 now2 : string),
    (forall d : LibsqlAdapter.database,
        exists p1 p2 d1 d2,
          LibsqlAdapter._upsertProject name now1 d = (Ok (Some p1), d1)
          /\ LibsqlAdapter._upsertProject name now2 d1 = (Ok (Some p2), d2)
          /\ p_name p1 = name
          /\ p_id p2 = p_id p1
          /\ p_updated_at p2 = now2
          /\ map p_id (Libsql.projects (LibsqlAdapter.tables d2))
             = map p_id (Libsql.projects (LibsqlAdapter.tables d1))
          /\ map p_name (Libsql.projects (LibsqlAdapter.tables d2))
             = map p_name (Libsql.projects (LibsqlAdapter.tables d1))
          /\ Libsql.records (LibsqlAdapter.tables d2)
             = Libsql.records (LibsqlAdapter.tables d)
          /\ p_created_at p2 = p_created_at p1
          /\ Libsql.projects (LibsqlAdapter.tables d2)
             = map (fun p : project =>
                      if String.eqb (p_name p) name
                      then mkProject (p_id p) (p_name p) (p_created_at p) now2
                      else p)
                   (Libsql.projects (LibsqlAdapter.tables d1)))
    /\ (forall d : SqliteVecAdapter.database,
        exists p1 p2 d1 d2,
          SqliteVecAdapter._upsertProject name now1 d = (Ok (Some p1), d1)
          /\ SqliteVecAdapter._upsertProject name now2 d1 = (Ok (Some p2), d2)
          /\ p_name p1 = name
          /\ p_id p2 = p_id p1
          /\ p_updated_at p2 = now2
          /\ map p_id (SqliteVec.projects (SqliteVecAdapter.tables d2))
             = map p_id (SqliteVec.projects (SqliteVecAdapter.tables d1))
          /\ map p_name (SqliteVec.projects (SqliteVecAdapter.tables d2))
             = map p_name (SqliteVec.projects (SqliteVecAdapter.tables d1))
          /\ SqliteVec.records (SqliteVecAdapter.tables d2)
             = SqliteVec.records (SqliteVecAdapter.tables d)
          /\ p_created_at p2 = p_created_at p1
          /\ SqliteVec.projects (SqliteVecAdapter.tables d2)
             = map (fun p : project =>
                      if String.eqb (p_name p) name
                      then mkProject (p_id p) (p_name p) (p_created_at p) now2
                      else p)
                   (SqliteVec.projects (SqliteVecAdapter.tables d1))).
Proof.
  intros name now1 now2. split; intros d.
  - destruct (ProjectTable.insert_or_touch name now1
                (Libsql.projects (LibsqlAdapter.tables d))
                (LibsqlAdapter.project_seq d)) as [ps1 s1] eqn:H1.
    destruct (ProjectTable.insert_or_touch name now2 ps1 s1) as [ps2 s2] eqn:H2.
    destruct (insert_or_touch_twice _ _ _ _ _ _ _ _ _ H1 H2)
      as (p1 & p2 & Hp1 & Hp2 & Hn & Hid & Hup & Hids & Hnames & Hcr & Hps).
    exists p1, p2,
      (LibsqlAdapter.mkDatabase
         (Libsql.mkStore ps1 (Libsql.records (LibsqlAdapter.tables d))
            (Libsql.seq (LibsqlAdapter.tables d))) s1),
      (LibsqlAdapter.mkDatabase
         (Libsql.mkStore ps2 (Libsql.records (LibsqlAdapter.tables d))
            (Libsql.seq (LibsqlAdapter.tables d))) s2).
    unfold LibsqlAdapter._upsertProject. rewrite H1.
    cbn [LibsqlAdapter.tables LibsqlAdapter.project_seq Libsql.projects
         Libsql.records Libsql.seq].
    rewrite H2, Hp1, Hp2.
    repeat (split; [reflexivity || assumption|]). exact Hps.
  - destruct (ProjectTable.insert_or_touch name now1
                (SqliteVec.projects (SqliteVecAdapter.tables d))
                (SqliteVecAdapter.project_seq d)) as [ps1 s1] eqn:H1.
    destruct (ProjectTable.insert_or_touch name now2 ps1 s1) as [ps2 s2] eqn:H2.
    destruct (insert_or_touch_twice _ _ _ _ _ _ _ _ _ H1 H2)
      as (p1 & p2 & Hp1 & Hp2 & Hn & Hid & Hup & Hids & Hnames & Hcr & Hps).
    exists p1, p2,
      (SqliteVecAdapter.mkDatabase
         (SqliteVec.mkStore ps1 (SqliteVec.records (SqliteVecAdapter.tables d))
            (SqliteVec.record_embedding (SqliteVecAdapter.tables d))
            (SqliteVec.seq (SqliteVecAdapter.tables d))) s1),
      (SqliteVecAdapter.mkDatabase
         (SqliteVec.mkStore ps2 (SqliteVec.records (SqliteVecAdapter.tables d))
            (SqliteVec.record_embedding (SqliteVecAdapter.tables d))
            (SqliteVec.seq (SqliteVecAdapter.tables d))) s2).
    unfold SqliteVecAdapter._upsertProject. rewrite H1.
    cbn [SqliteVecAdapter.tables SqliteVecAdapter.project_seq SqliteVec.projects
         SqliteVec.records SqliteVec.record_embedding SqliteVec.seq].
    rewrite H2, Hp1, Hp2.
    repeat (split; [reflexivity || assumption|]). exact Hps.
Qed.

Lemma distinct_ids_snoc (l : list Z) (x : Z) :
  distinct_ids l = true -> existsb (Z.eqb x) l = false ->
  distinct_ids (l ++ [x]) = true.
Proof.
  induction l as [|h t IH]; simpl; auto.
  intros H Hx. apply andb_true_iff in H. destruct H as [Hh Ht].
  apply orb_false_iff in Hx. destruct Hx as [Hxh Hxt].
  rewrite IH by assumption. rewrite andb_true_r.
  rewrite existsb_app. simpl. apply negb_true_iff in Hh. rewrite Hh. simpl.
  rewrite Z.eqb_sym, Hxh. reflexivity.
Qed.

Lemma distinct_names_snoc (l : list string) (x : string) :
  distinct_names l = true -> existsb (String.eqb x) l = false ->
  distinct_names (l ++ [x]) = true.
Proof.
  induction l as [|h t IH]; simpl; auto.
  intros H Hx. apply andb_true_iff in H. destruct H as [Hh Ht].
  apply orb_false_iff in Hx. destruct Hx as [Hxh Hxt].
  rewrite IH by assumption. rewrite andb_true_r.
  rewrite existsb_app. simpl. apply negb_true_iff in Hh. rewrite Hh. simpl.
  rewrite String.eqb_sym, Hxh. reflexivity.
Qed.

Lemma next_id_fresh (ps : list project) (pseq : Z) :
  existsb (Z.eqb (ProjectTable.next_id ps pseq)) (map p_id ps) = false.
Proof.
  destruct (existsb _ _) eqn:E; auto. exfalso.
  apply existsb_exists in E. destruct E as (id & Hin & Heq).
  apply Z.eqb_eq in Heq. pose proof (list_max_id_bound _ _ Hin) as Hb.
  unfold ProjectTable.next_id in Heq. lia.
Qed.

Lemma existsb_map_name (name : string) (ps : list project) :
  existsb (String.eqb name) (map p_name ps)
  = existsb (fun p => String.eqb (p_name p) name) ps.
Proof.
  induction ps as [|p ps IH]; simpl; auto.
  rewrite IH, (String.eqb_sym name). reflexivity.
Qed.

Lemma insert_or_touch_keeps_schema (name now : string) (ps : list project) (pseq : Z) :
  projects_ok ps = true ->
  projects_ok (fst (ProjectTable.insert_or_touch name now ps pseq)) = true.
Proof.
  unfold projects_ok, ProjectTable.insert_or_touch. intros H.
  apply andb_true_iff in H. destruct H as [Hid Hname].
  destruct (existsb _ ps) eqn:E; cbn [fst].
  - rewrite map_touch_ids, map_touch_names, Hid, Hname. reflexivity.
  - rewrite !map_app. cbn [map p_id p_name].
    rewrite distinct_ids_snoc, distinct_names_snoc; auto.
    + rewrite existsb_map_name. assumption.
    + apply next_id_fresh.
Qed.

(** X2.  [_upsertProject] keeps the [project] table's keys: ids and names
    stay unique; a name not yet in the table is appended as one row with
    an id larger than every existing id, and the rows already there are
    not touched.  In both adapters. *)
Theorem upsertProject_keeps_table_keys :
  forall (name now : string),
    (forall d : LibsqlAdapter.database,
        projects_ok (Libsql.projects (LibsqlAdapter.tables d)) = true ->
        let d1 := snd (LibsqlAdapter._upsertProject name now d) in
        projects_ok (Libsql.projects (LibsqlAdapter.tables d1)) = true
        /\ (ProjectTable.by_name name (Libsql.projects (LibsqlAdapter.tables d)) = None ->
            exists id,
              Libsql.projects (LibsqlAdapter.tables d1)
              = Libsql.projects (LibsqlAdapter.tables d) ++ [mkProject id name now now]
              /\ forall p, In p (Libsql.projects (LibsqlAdapter.tables d)) ->
                           (p_id p < id)%Z))
    /\ (forall d : SqliteVecAdapter.database,
        projects_ok (SqliteVec.projects (SqliteVecAdapter.tables d)) = true ->
        let d1 := snd (SqliteVecAdapter._upsertProject name now d) in
        projects_ok (SqliteVec.projects (SqliteVecAdapter.tables d1)) = true
        /\ (ProjectTable.by_name name (SqliteVec.projects (SqliteVecAdapter.tables d))
            = None ->
            exists id,
              SqliteVec.projects (SqliteVecAdapter.tables d1)
              = SqliteVec.projects (SqliteVecAdapter.tables d)
                ++ [mkProject id name now now]
              /\ forall p, In p (SqliteVec.projects (SqliteVecAdapter.tables d)) ->
                           (p_id p < id)%Z)).
Proof.
  assert (Hnew : forall name now ps pseq,
             ProjectTable.by_name name ps = None ->
             exists id,
               fst (ProjectTable.insert_or_touch name now ps pseq)
               = ps ++ [mkProject id name now now]
               /\ forall p, In p ps -> (p_id p < id)%Z).
  { intros name now ps pseq Hnone. unfold ProjectTable.insert_or_touch.
    destruct (existsb _ ps) eqn:E.
    - destruct (by_name_found _ _ E) as (p & Hp & _). congruence.
    - exists (ProjectTable.next_id ps pseq). split; [reflexivity|].
      intros p Hp. unfold ProjectTable.next_id.
      pose proof (list_max_id_bound _ _ (in_map p_id _ _ Hp)). lia. }
  intros name now. split; intros d Hok d1; subst d1.
  - unfold LibsqlAdapter._upsertProject.
    pose proof (insert_or_touch_keeps_schema name now _ (LibsqlAdapter.project_seq d) Hok)
      as Hkeep.
    pose proof (Hnew name now (Libsql.projects (LibsqlAdapter.tables d))
                  (LibsqlAdapter.project_seq d)) as Hn.
    destruct (ProjectTable.insert_or_touch name now _ _) as [ps1 s1].
    cbn [snd fst LibsqlAdapter.tables Libsql.projects] in *. split; assumption.
  - unfold SqliteVecAdapter._upsertProject.
    pose proof (insert_or_touch_keeps_schema name now _ (SqliteVecAdapter.project_seq d) Hok)
      as Hkeep.
    pose proof (Hnew name now (SqliteVec.projects (SqliteVecAdapter.tables d))
                  (SqliteVecAdapter.project_seq d)) as Hn.
    destruct (ProjectTable.insert_or_touch name now _ _) as [ps1 s1].
    cbn [snd fst SqliteVecAdapter.tables SqliteVec.projects] in *. split; assumption.
Qed.

(** ** Merging the project that was stored under the directory name *)

Lemma filter_all (A : Type) (f : A -> bool) (l : list A) :
  (forall x, In x l -> f x = true) -> filter f l = l.
Proof.
  induction l as [|h t IH]; simpl; intros H; auto.
  rewrite (H h) by auto. rewrite IH; auto.
Qed.

Lemma by_name_In (n : string) (ps : list project) (p : project) :
  ProjectTable.by_name n ps = Some p -> In p ps /\ p_name p = n.
Proof.
  unfold ProjectTable.by_name. intros H. apply find_some in H.
  destruct H as [Hin Heq]. apply String.eqb_eq in Heq. auto.
Qed.

Lemma names_not_in (n : string) (ps : list project) :
  existsb (String.eqb n) (map p_name ps) = false ->
  forall p, In p ps -> p_name p <> n.
Proof.
  intros H p Hp Heq.
  assert (Ht : existsb (String.eqb n) (map p_name ps) = true).
  { apply existsb_exists. exists (p_name p). split.
    - apply in_map. assumption.
    - rewrite Heq. apply String.eqb_refl. }
  congruence.
Qed.

Lemma ids_not_in (i : Z) (ps : list project) :
  existsb (Z.eqb i) (map p_id ps) = false ->
  forall p, In p ps -> p_id p <> i.
Proof.
  intros H p Hp Heq.
  assert (Ht : existsb (Z.eqb i) (map p_id ps) = true).
  { apply existsb_exists. exists (p_id p). split.
    - apply in_map. assumption.
    - rewrite Heq. apply Z.eqb_refl. }
  congruence.
Qed.

Lemma same_name_same_row (ps : list project) :
  distinct_names (map p_name ps) = true ->
  forall p q, In p ps -> In q ps -> p_name p = p_name q -> p = q.
Proof.
  induction ps as [|h t IH]; simpl; intros Hd p q Hp Hq Hn; [contradiction|].
  apply andb_true_iff in Hd. destruct Hd as [Hh Ht]. apply negb_true_iff in Hh.
  pose proof (names_not_in _ _ Hh) as Hfresh.
  destruct Hp as [Hp|Hp], Hq as [Hq|Hq]; subst; auto.
  - exfalso. apply (Hfresh q Hq). auto.
  - exfalso. apply (Hfresh p Hp). auto.
Qed.

Lemma same_id_same_row (ps : list project) :
  distinct_ids (map p_id ps) = true ->
  forall p q, In p ps -> In q ps -> p_id p = p_id q -> p = q.
Proof.
  induction ps as [|h t IH]; simpl; intros Hd p q Hp Hq Hn; [contradiction|].
  apply andb_true_iff in Hd. destruct Hd as [Hh Ht]. apply negb_true_iff in Hh.
  pose proof (ids_not_in _ _ Hh) as Hfresh.
  destruct Hp as [Hp|Hp], Hq as [Hq|Hq]; subst; auto.
  - exfalso. apply (Hfresh q Hq). auto.
  - exfalso. apply (Hfresh p Hp). auto.
Qed.

Lemma by_name_delete_other (n : string) (id : Z) (ps : list project) (c : project) :
  ProjectTable.by_name n ps = Some c -> p_id c <> id ->
  ProjectTable.by_name n (ProjectTable.delete_id id ps) = Some c.
Proof.
  unfold ProjectTable.by_name, ProjectTable.delete_id.
  induction ps as [|h t IH]; simpl; intros H Hid; [discriminate|].
  destruct (String.eqb (p_name h) n) eqn:En.
  - inversion H; subst h.
    destruct (Z.eqb (p_id c) id) eqn:E; [apply Z.eqb_eq in E; contradiction|].
    simpl. rewrite En. reflexivity.
  - destruct (negb (Z.eqb (p_id h) id)); simpl; [rewrite En|]; auto.
Qed.

Lemma by_name_delete_self (n : string) (ps : list project) (old : project) :
  distinct_names (map p_name ps) = true ->
  ProjectTable.by_name n ps = Some old ->
  ProjectTable.by_name n (ProjectTable.delete_id (p_id old) ps) = None.
Proof.
  intros Hd H. destruct (by_name_In _ _ _ H) as [Hin Hn].
  destruct (ProjectTable.by_name n (ProjectTable.delete_id (p_id old) ps))
    as [q|] eqn:E; auto.
  exfalso. destruct (by_name_In _ _ _ E) as [Hq Hqn].
  unfold ProjectTable.delete_id in Hq. apply filter_In in Hq.
  destruct Hq as [Hq Hne].
  assert (q = old) by (apply (same_name_same_row ps Hd); auto; congruence).
  subst q. rewrite Z.eqb_refl in Hne. discriminate.
Qed.

Lemma until_slash_clean (l : list Ascii.ascii) :
  existsb Path.is_slash (Path.until_slash l) = false.
Proof.
  induction l as [|c t IH]; simpl; auto.
  destruct (Path.is_slash c) eqn:E; simpl; auto. rewrite E. assumption.
Qed.

Lemma existsb_rev (A : Type) (f : A -> bool) (l : list A) :
  existsb f (rev l) = existsb f l.
Proof.
  induction l as [|h t IH]; simpl; auto.
  rewrite existsb_app, IH. simpl. rewrite orb_false_r. apply orb_comm.
Qed.

Lemma basename_no_slash (path : string) :
  Path.includes_slash (Path.basename path) = false.
Proof.
  unfold Path.includes_slash, Path.basename.
  rewrite list_ascii_of_string_of_list_ascii, existsb_rev.
  apply until_slash_clean.
Qed.

(** The row found under the directory name is never the row found
    under a name with a slash. *)
Lemma legacy_row_differs (projectName : string) (ps : list project)
    (old cur : project) :
  Path.includes_slash projectName = true ->
  distinct_ids (map p_id ps) = true ->
  ProjectTable.by_name (Path.basename projectName) ps = Some old ->
  ProjectTable.by_name projectName ps = Some cur ->
  Z.eqb (p_id old) (p_id cur) = false.
Proof.
  intros Hs Hd Ho Hc. destruct (by_name_In _ _ _ Ho) as [Hino Hno].
  destruct (by_name_In _ _ _ Hc) as [Hinc Hnc].
  apply Z.eqb_neq. intros Heq.
  assert (old = cur) by (apply (same_id_same_row ps Hd); auto). subst cur.
  pose proof (basename_no_slash projectName) as Hb.
  rewrite <- Hno, Hnc in Hb. congruence.
Qed.

Lemma delete_id_spec (id : Z) (ps : list project) (p : project) :
  In p (ProjectTable.delete_id id ps) <-> In p ps /\ p_id p <> id.
Proof.
  unfold ProjectTable.delete_id. rewrite filter_In, negb_true_iff, Z.eqb_neq.
  reflexivity.
Qed.

Lemma Libsql_reassign_leaves (to from : Z) (r : Libsql.row) :
  Z.eqb from to = false ->
  Z.eqb (r_project_id (Libsql.rec (LibsqlAdapter.reassign to from r))) from = false.
Proof.
  intros H. unfold LibsqlAdapter.reassign.
  destruct (Z.eqb (r_project_id (Libsql.rec r)) from) eqn:E; cbn; auto.
  rewrite Z.eqb_sym. assumption.
Qed.

Lemma SqliteVec_reassign_leaves (to from : Z) (r : record) :
  Z.eqb from to = false ->
  Z.eqb (r_project_id (SqliteVecAdapter.reassign to from r)) from = false.
Proof.
  intros H. unfold SqliteVecAdapter.reassign.
  destruct (Z.eqb (r_project_id r) from) eqn:E; cbn; auto.
  rewrite Z.eqb_sym. assumption.
Qed.

Lemma cascade_after_move (to from : Z) (rs : list record) :
  Z.eqb from to = false ->
  filter (fun r => negb (Z.eqb (r_project_id r) from))
         (map (SqliteVecAdapter.reassign to from) rs)
  = map (SqliteVecAdapter.reassign to from) rs.
Proof.
  intros H. apply filter_all. intros x Hx. apply in_map_iff in Hx.
  destruct Hx as (r & <- & _). rewrite SqliteVec_reassign_leaves; auto.
Qed.

(** X3.  The merge of [_migrateProjectNames], in both adapters.  When the
    detected name contains a slash and a project is still stored under
    its last component, the call returns normally and afterwards: the
    project of the short name is gone; the current project and every
    other project row are as they were; every record that belonged to
    the short-named project belongs to the current one, no record belongs
    to the deleted project, and no record was deleted (the cascade of the
    sqlite-vec schema finds nothing left to delete); embeddings are
    untouched. *)
Theorem migrateProjectNames_merges_legacy_project :
  forall (projectName : string) (old cur : project),
    Path.includes_slash projectName = true ->
    (forall d : LibsqlAdapter.database,
        projects_ok (Libsql.projects (LibsqlAdapter.tables d)) = true ->
        ProjectTable.by_name (Path.basename projectName)
          (Libsql.projects (LibsqlAdapter.tables d)) = Some old ->
        ProjectTable.by_name projectName
          (Libsql.projects (LibsqlAdapter.tables d)) = Some cur ->
        exists d',
          LibsqlAdapter._migrateProjectNames (Some cur) projectName d
          = (Factory.Returned tt, d')
          /\ ProjectTable.by_name (Path.basename projectName)
               (Libsql.projects (LibsqlAdapter.tables d')) = None
          /\ ProjectTable.by_name projectName
               (Libsql.projects (LibsqlAdapter.tables d')) = Some cur
          /\ (forall p, In p (Libsql.projects (LibsqlAdapter.tables d'))
                        <-> In p (Libsql.projects (LibsqlAdapter.tables d))
                            /\ p_id p <> p_id old)
          /\ Libsql.records (LibsqlAdapter.tables d')
             = map (LibsqlAdapter.reassign (p_id cur) (p_id old))
                   (Libsql.records (LibsqlAdapter.tables d))
          /\ (forall r, In r (Libsql.records (LibsqlAdapter.tables d')) ->
                        r_project_id (Libsql.rec r) <> p_id old)
          /\ map Libsql.emb (Libsql.records (LibsqlAdapter.tables d'))
             = map Libsql.emb (Libsql.records (LibsqlAdapter.tables d)))
    /\ (forall d : SqliteVecAdapter.database,
        projects_ok (SqliteVec.projects (SqliteVecAdapter.tables d)) = true ->
        ProjectTable.by_name (Path.basename projectName)
          (SqliteVec.projects (SqliteVecAdapter.tables d)) = Some old ->
        ProjectTable.by_name projectName
          (SqliteVec.projects (SqliteVecAdapter.tables d)) = Some cur ->
        exists d',
          SqliteVecAdapter._migrateProjectNames (Some cur) projectName d
          = (Factory.Returned tt, d')
          /\ ProjectTable.by_name (Path.basename projectName)
               (SqliteVec.projects (SqliteVecAdapter.tables d')) = None
          /\ ProjectTable.by_name projectName
               (SqliteVec.projects (SqliteVecAdapter.tables d')) = Some cur
          /\ (forall p, In p (SqliteVec.projects (SqliteVecAdapter.tables d'))
                        <-> In p (SqliteVec.projects (SqliteVecAdapter.tables d))
                            /\ p_id p <> p_id old)
          /\ SqliteVec.records (SqliteVecAdapter.tables d')
             = map (SqliteVecAdapter.reassign (p_id cur) (p_id old))
                   (SqliteVec.records (SqliteVecAdapter.tables d))
          /\ (forall r, In r (SqliteVec.records (SqliteVecAdapter.tables d')) ->
                        r_project_id r <> p_id old)
          /\ SqliteVec.record_embedding (SqliteVecAdapter.tables d')
             = SqliteVec.record_embedding (SqliteVecAdapter.tables d)).
Proof.
  intros projectName old cur Hs. split; intros d Hok Hold Hcur.
  - unfold projects_ok in Hok. apply andb_true_iff in Hok. destruct Hok as [Hids Hnames].
    pose proof (legacy_row_differs _ _ _ _ Hs Hids Hold Hcur) as Hne.
    unfold LibsqlAdapter._migrateProjectNames. rewrite Hs, Hold, Hne. cbn [negb].
    eexists. split; [reflexivity|].
    cbn [LibsqlAdapter.drop_project LibsqlAdapter.move_records LibsqlAdapter.tables
         Libsql.projects Libsql.records].
    split; [apply by_name_delete_self; assumption|].
    split; [apply by_name_delete_other; [assumption|]|].
    { apply Z.eqb_neq in Hne. congruence. }
    split; [intros p; apply delete_id_spec|].
    split; [reflexivity|].
    split.
    + intros r Hr. apply in_map_iff in Hr. destruct Hr as (r0 & <- & _).
      apply Z.eqb_neq. apply Libsql_reassign_leaves. assumption.
    + rewrite map_map. apply map_ext. intros r. unfold LibsqlAdapter.reassign.
      destruct (Z.eqb (r_project_id (Libsql.rec r)) (p_id old)); reflexivity.
  - unfold projects_ok in Hok. apply andb_true_iff in Hok. destruct Hok as [Hids Hnames].
    pose proof (legacy_row_differs _ _ _ _ Hs Hids Hold Hcur) as Hne.
    unfold SqliteVecAdapter._migrateProjectNames. rewrite Hs, Hold, Hne. cbn [negb].
    eexists. split; [reflexivity|].
    cbn [SqliteVecAdapter.drop_project SqliteVecAdapter.move_records
         SqliteVecAdapter.tables SqliteVec.projects SqliteVec.records
         SqliteVec.record_embedding].
    rewrite cascade_after_move by assumption.
    split; [apply by_name_delete_self; assumption|].
    split; [apply by_name_delete_other; [assumption|]|].
    { apply Z.eqb_neq in Hne. congruence. }
    split; [intros p; apply delete_id_spec|].
    split; [reflexivity|].
    split; [|reflexivity].
    intros r Hr. apply in_map_iff in Hr. destruct Hr as (r0 & <- & _).
    apply Z.eqb_neq. apply SqliteVec_reassign_leaves. assumption.
Qed.

(** The merge on the stores of [Scenes]: project 1 ([repo]) is folded into
    project 3 ([org/repo]). *)
Lemma migrateProjectNames_merge_witness :
  (exists d',
      LibsqlAdapter._migrateProjectNames (Some Scenes.remote_named) "org/repo"
        Scenes.native_split = (Factory.Returned tt, d')
      /\ map (fun r => r_project_id (Libsql.rec r))
             (Libsql.records (LibsqlAdapter.tables d')) = [3; 2; 3]%Z
      /\ map p_id (Libsql.projects (LibsqlAdapter.tables d')) = [2; 3]%Z)
  /\ (exists d',
      SqliteVecAdapter._migrateProjectNames (Some Scenes.remote_named) "org/repo"
        Scenes.legacy_split = (Factory.Returned tt, d')
      /\ map r_project_id (SqliteVec.records (SqliteVecAdapter.tables d')) = [3; 2; 3]%Z
      /\ map p_id (SqliteVec.projects (SqliteVecAdapter.tables d')) = [2; 3]%Z).
Proof.
  destruct (migrateProjectNames_merges_legacy_project "org/repo"
              Scenes.legacy_named Scenes.remote_named eq_refl) as [HL HV].
  split.
  - destruct (HL Scenes.native_split eq_refl eq_refl eq_refl)
      as (d' & Hrun & _ & _ & _ & Hrec & _).
    exists d'. split; [exact Hrun|].
    inversion Hrun; subst d'. split; reflexivity.
  - destruct (HV Scenes.legacy_split eq_refl eq_refl eq_refl)
      as (d' & Hrun & _ & _ & _ & Hrec & _).
    exists d'. split; [exact Hrun|].
    inversion Hrun; subst d'. split; reflexivity.
Defined.

(** A project table with unique keys stays so when the name [org/new] is
    first seen, and the new row takes the next id. *)
Lemma upsertProject_keeps_table_keys_witness :
  projects_ok
    (Libsql.projects
       (LibsqlAdapter.tables
          (snd (LibsqlAdapter._upsertProject "org/new" "2025-07-01"
                  Scenes.native_split)))) = true
  /\ projects_ok
       (SqliteVec.projects
          (SqliteVecAdapter.tables
             (snd (SqliteVecAdapter._upsertProject "org/new" "2025-07-01"
                     Scenes.legacy_split)))) = true.
Proof.
  destruct (upsertProject_keeps_table_keys "org/new" "2025-07-01") as [HL HV].
  split.
  - exact (proj1 (HL Scenes.native_split eq_refl)).
  - exact (proj1 (HV Scenes.legacy_split eq_refl)).
Defined.

Lemma Libsql_reassign_again (to from : Z) (r : Libsql.row) :
  Z.eqb from to = false ->
  LibsqlAdapter.reassign to from (LibsqlAdapter.reassign to from r)
  = LibsqlAdapter.reassign to from r.
Proof.
  intros H. pose proof (Libsql_reassign_leaves to from r H) as Hl.
  unfold LibsqlAdapter.reassign at 1. rewrite Hl. reflexivity.
Qed.

Lemma SqliteVec_reassign_again (to from : Z) (r : record) :
  Z.eqb from to = false ->
  SqliteVecAdapter.reassign to from (SqliteVecAdapter.reassign to from r)
  = SqliteVecAdapter.reassign to from r.
Proof.
  intros H. pose proof (SqliteVec_reassign_leaves to from r H) as Hl.
  unfold SqliteVecAdapter.reassign at 1. rewrite Hl. reflexivity.
Qed.

(** X4.  The merge can be resumed.  Its two statements run outside any
    transaction; when only the first one (the [UPDATE] of the records) has
    been carried out, calling [_migrateProjectNames] again with the same
    name ends in the state the uninterrupted call ends in.  In both
    adapters. *)
Theorem migrateProjectNames_resumes_after_update :
  forall (projectName : string) (old cur : project),
    Path.includes_slash projectName = true ->
    Z.eqb (p_id old) (p_id cur) = false ->
    (forall d : LibsqlAdapter.database,
        ProjectTable.by_name (Path.basename projectName)
          (Libsql.projects (LibsqlAdapter.tables d)) = Some old ->
        LibsqlAdapter._migrateProjectNames (Some cur) projectName
          (LibsqlAdapter.move_records (p_id cur) (p_id old) d)
        = LibsqlAdapter._migrateProjectNames (Some cur) projectName d)
    /\ (forall d : SqliteVecAdapter.database,
        ProjectTable.by_name (Path.basename projectName)
          (SqliteVec.projects (SqliteVecAdapter.tables d)) = Some old ->
        SqliteVecAdapter._migrateProjectNames (Some cur) projectName
          (SqliteVecAdapter.move_records (p_id cur) (p_id old) d)
        = SqliteVecAdapter._migrateProjectNames (Some cur) projectName d).
Proof.
  intros projectName old cur Hs Hne. split; intros d Hold.
  - unfold LibsqlAdapter._migrateProjectNames. rewrite Hs.
    cbn [LibsqlAdapter.move_records LibsqlAdapter.tables Libsql.projects].
    rewrite Hold, Hne. cbn [negb]. f_equal.
    unfold LibsqlAdapter.drop_project, LibsqlAdapter.move_records.
    cbn [LibsqlAdapter.tables LibsqlAdapter.project_seq Libsql.projects
         Libsql.records Libsql.seq].
    rewrite map_map.
    rewrite (map_ext _ (LibsqlAdapter.reassign (p_id cur) (p_id old))
               (fun r => Libsql_reassign_again _ _ r Hne)).
    reflexivity.
  - unfold SqliteVecAdapter._migrateProjectNames. rewrite Hs.
    cbn [SqliteVecAdapter.move_records SqliteVecAdapter.tables SqliteVec.projects].
    rewrite Hold, Hne. cbn [negb]. f_equal.
    unfold SqliteVecAdapter.drop_project, SqliteVecAdapter.move_records.
    cbn [SqliteVecAdapter.tables SqliteVecAdapter.project_seq SqliteVec.projects
         SqliteVec.records SqliteVec.record_embedding SqliteVec.seq].
    rewrite map_map.
    rewrite (map_ext _ (SqliteVecAdapter.reassign (p_id cur) (p_id old))
               (fun r => SqliteVec_reassign_again _ _ r Hne)).
    reflexivity.
Qed.

(** The interrupted merge of [Scenes], resumed. *)
Lemma migrateProjectNames_resume_witness :
  LibsqlAdapter._migrateProjectNames (Some Scenes.remote_named) "org/repo"
    (LibsqlAdapter.move_records 3 1 Scenes.native_split)
  = LibsqlAdapter._migrateProjectNames (Some Scenes.remote_named) "org/repo"
      Scenes.native_split
  /\ SqliteVecAdapter._migrateProjectNames (Some Scenes.remote_named) "org/repo"
       (SqliteVecAdapter.move_records 3 1 Scenes.legacy_split)
     = SqliteVecAdapter._migrateProjectNames (Some Scenes.remote_named) "org/repo"
         Scenes.legacy_split.
Proof.
  destruct (migrateProjectNames_resumes_after_update "org/repo"
              Scenes.legacy_named Scenes.remote_named eq_refl eq_refl) as [HL HV].
  split.
  - exact (HL Scenes.native_split eq_refl).
  - exact (HV Scenes.legacy_split eq_refl).
Defined.

(** ** The directory name looked up by the merge *)

Lemma list_ascii_of_append (a b : string) :
  list_ascii_of_string (a ++ b) = (list_ascii_of_string a ++ list_ascii_of_string b)%list.
Proof.
  induction a as [|c a IH]; simpl; auto. rewrite IH. reflexivity.
Qed.

Lemma until_slash_prefix (l rest : list Ascii.ascii) :
  existsb Path.is_slash l = false ->
  Path.until_slash (l ++ Ascii.ascii_of_nat 47 :: rest) = l.
Proof.
  induction l as [|c t IH]; simpl; intros H.
  - reflexivity.
  - apply orb_false_iff in H. destruct H as [Hc Ht]. rewrite Hc, IH; auto.
Qed.

Lemma drop_slashes_clean (l rest : list Ascii.ascii) :
  l <> [] -> existsb Path.is_slash l = false ->
  Path.drop_slashes (l ++ rest) = (l ++ rest)%list.
Proof.
  destruct l as [|c t]; [congruence|]. simpl. intros _ H.
  apply orb_false_iff in H. destruct H as [Hc _]. rewrite Hc. reflexivity.
Qed.

(** X5.  For a name of the form [org/repo] that [_detectProject] builds
    from the remote ([repo] is not empty and has no slash), the merge is
    attempted ([includes('/')] holds) and the name it looks up,
    [basename(projectName)], is exactly [repo]. *)
Theorem basename_of_remote_name :
  forall (org repo : string),
    repo <> ""%string ->
    Path.includes_slash repo = false ->
    Path.includes_slash (org ++ "/" ++ repo) = true
    /\ Path.basename (org ++ "/" ++ repo) = repo.
Proof.
  intros org repo Hne Hclean. unfold Path.includes_slash, Path.basename in *.
  rewrite !list_ascii_of_append. cbn [list_ascii_of_string app].
  split.
  - rewrite existsb_app. simpl. apply orb_true_r.
  - rewrite rev_app_distr. cbn [rev]. rewrite <- !app_assoc. cbn [app].
    assert (Hrev : existsb Path.is_slash (rev (list_ascii_of_string repo)) = false)
      by (rewrite existsb_rev; assumption).
    assert (Hnil : rev (list_ascii_of_string repo) <> []).
    { intros E. apply (f_equal (@rev _)) in E. rewrite rev_involutive in E.
      apply Hne. rewrite <- (string_of_list_ascii_of_string repo), E. reflexivity. }
    rewrite drop_slashes_clean by assumption.
    rewrite until_slash_prefix by assumption.
    rewrite rev_involutive. apply string_of_list_ascii_of_string.
Qed.

(** [fingerskier/dudamel-plugin] is looked up as [dudamel-plugin]. *)
Lemma basename_of_remote_name_witness :
  Path.includes_slash "fingerskier/dudamel-plugin" = true
  /\ Path.basename "fingerskier/dudamel-plugin" = "dudamel-plugin"%string.
Proof.
  apply (basename_of_remote_name "fingerskier" "dudamel-plugin").
  - discriminate.
  - reflexivity.
Defined.

(** ** [init] *)

Lemma by_name_touch_any (n name now : string) (ps : list project) :
  ProjectTable.by_name n (map (ProjectTable.touch name now) ps)
  = option_map (ProjectTable.touch name now) (ProjectTable.by_name n ps).
Proof.
  unfold ProjectTable.by_name. induction ps as [|p ps IH]; simpl; auto.
  rewrite touch_name. destruct (String.eqb (p_name p) n); auto.
Qed.

Lemma existsb_map_id_filter (i : Z) (g : project -> bool) (ps : list project) :
  existsb (Z.eqb i) (map p_id ps) = false ->
  existsb (Z.eqb i) (map p_id (filter g ps)) = false.
Proof.
  induction ps as [|h t IH]; simpl; auto. intros H.
  apply orb_false_iff in H. destruct H as [Hh Ht].
  destruct (g h); simpl; auto. rewrite Hh; auto.
Qed.

Lemma existsb_map_name_filter (n : string) (g : project -> bool) (ps : list project) :
  existsb (String.eqb n) (map p_name ps) = false ->
  existsb (String.eqb n) (map p_name (filter g ps)) = false.
Proof.
  induction ps as [|h t IH]; simpl; auto. intros H.
  apply orb_false_iff in H. destruct H as [Hh Ht].
  destruct (g h); simpl; auto. rewrite Hh; auto.
Qed.

Lemma delete_id_keeps_schema (id : Z) (ps : list project) :
  projects_ok ps = true -> projects_ok (ProjectTable.delete_id id ps) = true.
Proof.
  unfold projects_ok, ProjectTable.delete_id. intros H.
  apply andb_true_iff in H. destruct H as [Hi Hn]. apply andb_true_iff. split.
  - clear Hn. induction ps as [|h t IH]; simpl in *; auto.
    apply andb_true_iff in Hi. destruct Hi as [Hh Ht]. apply negb_true_iff in Hh.
    destruct (negb (Z.eqb (p_id h) id)); simpl; auto.
    rewrite IH by assumption. rewrite andb_true_r. apply negb_true_iff.
    rewrite existsb_map_id_filter; auto.
  - clear Hi. induction ps as [|h t IH]; simpl in *; auto.
    apply andb_true_iff in Hn. destruct Hn as [Hh Ht]. apply negb_true_iff in Hh.
    destruct (negb (Z.eqb (p_id h) id)); simpl; auto.
    rewrite IH by assumption. rewrite andb_true_r. apply negb_true_iff.
    rewrite existsb_map_name_filter; auto.
Qed.

(** What the first [init] on a database establishes. *)
Lemma Libsql_init_establishes (name now : string) (d : LibsqlAdapter.database) :
  projects_ok (Libsql.projects (LibsqlAdapter.tables d)) = true ->
  exists c d1,
    LibsqlAdapter.init name now LibsqlAdapter.fresh d
    = (Factory.Returned (LibsqlAdapter.mkAdapter true (Some c)), d1)
    /\ p_name c = name
    /\ ProjectTable.by_name name (Libsql.projects (LibsqlAdapter.tables d1)) = Some c
    /\ projects_ok (Libsql.projects (LibsqlAdapter.tables d1)) = true
    /\ (Path.includes_slash name = true ->
        ProjectTable.by_name (Path.basename name)
          (Libsql.projects (LibsqlAdapter.tables d1)) = None).
Proof.
  intros Hok. unfold LibsqlAdapter.init, LibsqlAdapter.fresh.
  cbn [LibsqlAdapter.opened]. unfold LibsqlAdapter._upsertProject.
  pose proof (insert_or_touch_keeps_schema name now _ (LibsqlAdapter.project_seq d) Hok)
    as Hkeep.
  destruct (insert_or_touch_spec name now (Libsql.projects (LibsqlAdapter.tables d))
              (LibsqlAdapter.project_seq d)) as (c & Hc & Hn & _ & _).
  destruct (ProjectTable.insert_or_touch name now _ _) as [ps1 s1].
  cbn [fst] in Hkeep, Hc. rewrite Hc.
  unfold LibsqlAdapter._migrateProjectNames.
  cbn [LibsqlAdapter.tables Libsql.projects].
  destruct (Path.includes_slash name) eqn:Hs.
  - destruct (ProjectTable.by_name (Path.basename name) ps1) as [old|] eqn:Hold.
    + assert (Hids : distinct_ids (map p_id ps1) = true).
      { unfold projects_ok in Hkeep. apply andb_true_iff in Hkeep. tauto. }
      assert (Hnames : distinct_names (map p_name ps1) = true).
      { unfold projects_ok in Hkeep. apply andb_true_iff in Hkeep. tauto. }
      pose proof (legacy_row_differs _ _ _ _ Hs Hids Hold Hc) as Hne.
      rewrite Hne. cbn [negb]. eexists. eexists. split; [reflexivity|].
      cbn [LibsqlAdapter.drop_project LibsqlAdapter.move_records LibsqlAdapter.tables
           Libsql.projects].
      split; [assumption|].
      split; [apply by_name_delete_other; [assumption|]|].
      { apply Z.eqb_neq in Hne. congruence. }
      split; [apply delete_id_keeps_schema; assumption|].
      intros _. apply by_name_delete_self; assumption.
    + eexists. eexists. split; [reflexivity|].
      cbn [LibsqlAdapter.tables Libsql.projects]. auto.
  - eexists. eexists. split; [reflexivity|].
    cbn [LibsqlAdapter.tables Libsql.projects].
    repeat (split; [assumption|]). discriminate.
Qed.

(** X6.  [LibsqlAdapter.init] settles the database: it never throws (the
    current project is always found after [_upsertProject], so the merge
    never reads an undefined row); run again by a new adapter on the
    database it left, it selects the same project (same id and name),
    adds and removes no project, changes no record, and merges nothing;
    run again on the same adapter it does nothing at all. *)
Theorem init_again_selects_same_project :
  forall (name now1 now2 : string) (d : LibsqlAdapter.database),
    projects_ok (Libsql.projects (LibsqlAdapter.tables d)) = true ->
    exists c1 d1 c2 d2,
      LibsqlAdapter.init name now1 LibsqlAdapter.fresh d
      = (Factory.Returned (LibsqlAdapter.mkAdapter true (Some c1)), d1)
      /\ LibsqlAdapter.init name now2 LibsqlAdapter.fresh d1
         = (Factory.Returned (LibsqlAdapter.mkAdapter true (Some c2)), d2)
      /\ p_name c1 = name /\ p_name c2 = name /\ p_id c2 = p_id c1
      /\ map p_id (Libsql.projects (LibsqlAdapter.tables d2))
         = map p_id (Libsql.projects (LibsqlAdapter.tables d1))
      /\ map p_name (Libsql.projects (LibsqlAdapter.tables d2))
         = map p_name (Libsql.projects (LibsqlAdapter.tables d1))
      /\ Libsql.records (LibsqlAdapter.tables d2)
         = Libsql.records (LibsqlAdapter.tables d1)
      /\ LibsqlAdapter.init name now2 (LibsqlAdapter.mkAdapter true (Some c1)) d1
         = (Factory.Returned (LibsqlAdapter.mkAdapter true (Some c1)), d1).
Proof.
  intros name now1 now2 d Hok.
  destruct (Libsql_init_establishes name now1 d Hok)
    as (c1 & d1 & Hrun & Hn & Hc & Hok1 & Hgone).
  exists c1, d1, (ProjectTable.touch name now2 c1).
  assert (Hex : existsb (fun q => String.eqb (p_name q) name)
                  (Libsql.projects (LibsqlAdapter.tables d1)) = true).
  { apply existsb_exists. exists c1. destruct (by_name_In _ _ _ Hc) as [Hin _].
    split; [assumption|]. rewrite Hn. apply String.eqb_refl. }
  eexists. split; [exact Hrun|]. split.
  - unfold LibsqlAdapter.init, LibsqlAdapter.fresh. cbn [LibsqlAdapter.opened].
    unfold LibsqlAdapter._upsertProject, ProjectTable.insert_or_touch.
    rewrite Hex. rewrite by_name_touch, Hc. cbn [option_map].
    unfold LibsqlAdapter._migrateProjectNames.
    cbn [LibsqlAdapter.tables Libsql.projects].
    destruct (Path.includes_slash name) eqn:Hs; [|reflexivity].
    rewrite by_name_touch_any, (Hgone eq_refl). cbn [option_map]. reflexivity.
  - cbn [LibsqlAdapter.tables Libsql.projects Libsql.records].
    split; [assumption|]. split; [rewrite touch_name; assumption|].
    split; [apply touch_id|]. split; [apply map_touch_ids|].
    split; [apply map_touch_names|]. split; reflexivity.
Qed.

(** Two starts on the store of [Scenes]: the first merges project 1 into
    project 3, the second finds project 3 again. *)
Lemma init_again_witness :
  exists c1 d1 c2 d2,
    LibsqlAdapter.init "org/repo" "2025-07-01" LibsqlAdapter.fresh Scenes.native_split
    = (Factory.Returned (LibsqlAdapter.mkAdapter true (Some c1)), d1)
    /\ LibsqlAdapter.init "org/repo" "2025-07-02" LibsqlAdapter.fresh d1
       = (Factory.Returned (LibsqlAdapter.mkAdapter true (Some c2)), d2)
    /\ p_id c2 = p_id c1.
Proof.
  destruct (init_again_selects_same_project "org/repo" "2025-07-01" "2025-07-02"
              Scenes.native_split eq_refl)
    as (c1 & d1 & c2 & d2 & H1 & H2 & _ & _ & Hid & _).
  exists c1, d1, c2, d2. split; [exact H1|]. split; [exact H2|exact Hid].
Defined.

(** ** [delete] *)

Lemma filter_other_id (A : Type) (key : A -> Z) (i j : Z) (l : list A) :
  j <> i ->
  filter (fun r => Z.eqb (key r) j) (filter (fun r => negb (Z.eqb (key r) i)) l)
  = filter (fun r => Z.eqb (key r) j) l.
Proof.
  intros H. induction l as [|h t IH]; simpl; auto.
  destruct (Z.eqb (key h) i) eqn:Ei; simpl.
  - apply Z.eqb_eq in Ei.
    destruct (Z.eqb (key h) j) eqn:Ej; [apply Z.eqb_eq in Ej; congruence|].
    assumption.
  - rewrite IH. reflexivity.
Qed.

Lemma filter_same_id (A : Type) (key : A -> Z) (i : Z) (l : list A) :
  filter (fun r => Z.eqb (key r) i) (filter (fun r => negb (Z.eqb (key r) i)) l) = [].
Proof.
  apply filter_none. intros x Hx. apply filter_In in Hx.
  destruct Hx as [_ Hx]. apply negb_true_iff in Hx. assumption.
Qed.

Lemma filter_absent_id (A : Type) (key : A -> Z) (i : Z) (l : list A) :
  existsb (fun r => Z.eqb (key r) i) l = false ->
  filter (fun r => negb (Z.eqb (key r) i)) l = l.
Proof.
  intros H. apply filter_all. intros x Hx.
  rewrite (existsb_false_forall _ _ _ H x Hx). reflexivity.
Qed.

(** X7.  [delete(id)] in both adapters (and [deleteRecord] of src/db.js):
    the answer says whether a record had that id; afterwards [get(id)] is
    null, no vector is stored or indexed under the id, the answer of
    [get] for every other id is what it was, and the projects are
    untouched.  When no record had the id the records are exactly as
    before.  The call never fails. *)
Theorem delete_removes_the_record_only :
  forall (id : Z),
    (forall db : Libsql.store,
        exists db',
          LibsqlAdapter.delete id db
          = (Ok (existsb (Libsql.has_id id) (Libsql.records db)), db')
          /\ Libsql.get id db' = (Ok None, db')
          /\ (forall iv, In iv (Libsql.indexed db') -> fst iv <> id)
          /\ (forall j, j <> id -> Libsql.get j db' = (fst (Libsql.get j db), db'))
          /\ Libsql.projects db' = Libsql.projects db
          /\ (existsb (Libsql.has_id id) (Libsql.records db) = false -> db' = db))
    /\ (forall db : SqliteVec.store,
        exists db',
          SqliteVecAdapter.delete id db
          = (Ok (existsb (SqliteVec.has_id id) (SqliteVec.records db)), db')
          /\ SqliteVec._getRecord id db' = (Ok None, db')
          /\ (forall iv, In iv (SqliteVec.record_embedding db') -> fst iv <> id)
          /\ (forall j, j <> id ->
                SqliteVec._getRecord j db' = (fst (SqliteVec._getRecord j db), db'))
          /\ (forall iv, fst iv <> id ->
                (In iv (SqliteVec.record_embedding db')
                 <-> In iv (SqliteVec.record_embedding db)))
          /\ SqliteVec.projects db' = SqliteVec.projects db
          /\ (existsb (SqliteVec.has_id id) (SqliteVec.records db) = false ->
              SqliteVec.records db' = SqliteVec.records db)).
Proof.
  intros id. split; intros db.
  - eexists. split; [reflexivity|].
    unfold Libsql.get, Libsql.get_rows, Libsql.indexed.
    cbn [Libsql.records Libsql.projects fst].
    split; [|split; [|split; [|split]]].
    + unfold Libsql.has_id.
      rewrite (filter_same_id _ (fun r => r_id (Libsql.rec r))). reflexivity.
    + intros iv Hiv. apply in_flat_map in Hiv. destruct Hiv as (r & Hr & Hiv).
      apply filter_In in Hr. destruct Hr as [_ Hr]. apply negb_true_iff in Hr.
      unfold Libsql.has_id in Hr. apply Z.eqb_neq in Hr.
      destruct (Libsql.emb r); [|contradiction].
      destruct Hiv as [<-|[]]. assumption.
    + intros j Hj. unfold Libsql.has_id.
      rewrite (filter_other_id _ (fun r => r_id (Libsql.rec r)) id j _ Hj).
      reflexivity.
    + reflexivity.
    + intros H. unfold Libsql.has_id in *.
      rewrite (filter_absent_id _ (fun r => r_id (Libsql.rec r)) id _ H).
      destruct db; reflexivity.
  - unfold SqliteVecAdapter.delete, transaction, bind, SqliteVec.exec_delete_embedding.
    cbn [SqliteVec.records SqliteVec.projects SqliteVec.record_embedding SqliteVec.seq].
    eexists. split; [reflexivity|].
    unfold SqliteVec._getRecord, SqliteVec.get_rows.
    cbn [SqliteVec.records SqliteVec.projects SqliteVec.record_embedding fst].
    split; [|split; [|split; [|split; [|split]]]].
    + unfold SqliteVec.has_id. rewrite (filter_same_id _ r_id). reflexivity.
    + intros iv Hiv. apply filter_In in Hiv. destruct Hiv as [_ Hiv].
      apply negb_true_iff, Z.eqb_neq in Hiv. assumption.
    + intros j Hj. unfold SqliteVec.has_id.
      rewrite (filter_other_id _ r_id id j _ Hj). reflexivity.
    + intros iv Hne. rewrite filter_In, negb_true_iff, Z.eqb_neq. tauto.
    + reflexivity.
    + intros H. unfold SqliteVec.has_id in *. apply (filter_absent_id _ r_id id _ H).
Qed.

(** ** Order and size of result lists *)

Section SortedBy.
Variable A : Type.
Variable le : A -> A -> bool.
Hypothesis le_total : forall a b, le a b = false -> le b a = true.

Lemma sorted_by_cons (x y : A) (t : list A) :
  sorted_by le (x :: y :: t) = le x y && sorted_by le (y :: t).
Proof. reflexivity. Qed.

Lemma insert_by_head (x : A) (l : list A) :
  match insert_by le x l with
  | [] => False
  | z :: _ => z = x \/ exists t, l = z :: t
  end.
Proof.
  destruct l as [|h t]; simpl; auto. destruct (le x h); eauto.
Qed.

Lemma insert_by_sorted (x : A) (l : list A) :
  sorted_by le l = true -> sorted_by le (insert_by le x l) = true.
Proof.
  induction l as [|h t IH]; intros Hs; [reflexivity|].
  cbn [insert_by]. destruct (le x h) eqn:E.
  - rewrite sorted_by_cons, E, Hs. reflexivity.
  - assert (Ht : sorted_by le t = true).
    { destruct t as [|y t']; [reflexivity|].
      rewrite sorted_by_cons in Hs. apply andb_true_iff in Hs. tauto. }
    specialize (IH Ht). pose proof (insert_by_head x t) as Hh.
    destruct (insert_by le x t) as [|z u] eqn:Ez; [contradiction|].
    rewrite sorted_by_cons, IH, andb_true_r.
    destruct Hh as [->|[t' ->]].
    + apply le_total. assumption.
    + rewrite sorted_by_cons in Hs. apply andb_true_iff in Hs. tauto.
Qed.

Lemma sort_by_sorted (l : list A) : sorted_by le (sort_by le l) = true.
Proof.
  induction l as [|h t IH]; [reflexivity|]. cbn [sort_by fold_right].
  apply insert_by_sorted. exact IH.
Qed.

Lemma sorted_by_tail (x : A) (l : list A) :
  sorted_by le (x :: l) = true -> sorted_by le l = true.
Proof.
  destruct l as [|y t]; [reflexivity|]. rewrite sorted_by_cons.
  intros H. apply andb_true_iff in H. tauto.
Qed.

Lemma sorted_by_firstn (n : nat) (l : list A) :
  sorted_by le l = true -> sorted_by le (firstn n l) = true.
Proof.
  revert l. induction n as [|n IH]; intros l Hs; [reflexivity|].
  destruct l as [|x t]; [reflexivity|]. cbn [firstn].
  pose proof (IH t (sorted_by_tail x t Hs)) as Ht.
  destruct t as [|y u]; [destruct n; reflexivity|].
  destruct n as [|n']; [reflexivity|].
  cbn [firstn] in *. rewrite sorted_by_cons, Ht, andb_true_r.
  rewrite sorted_by_cons in Hs. apply andb_true_iff in Hs. tauto.
Qed.

End SortedBy.

Lemma sorted_by_map (A B : Type) (f : A -> B) (le : B -> B -> bool) (l : list A) :
  sorted_by le (map f l) = sorted_by (fun a b => le (f a) (f b)) l.
Proof.
  induction l as [|x t IH]; [reflexivity|].
  destruct t as [|y u]; [reflexivity|].
  cbn [map] in *. rewrite !sorted_by_cons, IH. reflexivity.
Qed.

Lemma Qleb_total (a b : Q) : Qleb a b = false -> Qleb b a = true.
Proof.
  unfold Qleb. intros H. apply Qle_bool_iff.
  destruct (Qlt_le_dec b a) as [Hlt|Hle].
  - apply Qlt_le_weak. assumption.
  - apply Qle_bool_iff in Hle. congruence.
Qed.

Lemma string_leb_total (a b : string) : String.leb a b = false -> String.leb b a = true.
Proof.
  intros H. destruct (String.leb_total a b) as [Hab|Hba]; congruence.
Qed.

(** ** What [search] returns *)

Lemma Libsql_search_candidate_facts (db : Libsql.store) (q : embedding)
    (kind : option string) (n : nat) (rp : Libsql.row * string) :
  In rp (Libsql.search_candidates db q kind n) ->
  In (fst rp) (Libsql.records db)
  /\ (exists v, In (r_id (Libsql.rec (fst rp)), v) (Libsql.indexed db))
  /\ (exists p, In p (Libsql.projects db)
                /\ p_id p = r_project_id (Libsql.rec (fst rp))
                /\ p_name p = snd rp)
  /\ (filter_active kind = true ->
      kind_to_string (r_kind (Libsql.rec (fst rp))) = filter_value kind).
Proof.
  unfold Libsql.search_candidates. intros H.
  assert (Hj : In rp (flat_map (Libsql.join_project db)
                        (Libsql.join_record db (Libsql.vector_top_k db q (n * 3))))
               /\ (filter_active kind = true ->
                   kind_to_string (r_kind (Libsql.rec (fst rp))) = filter_value kind)).
  { destruct (filter_active kind).
    - apply filter_In in H. destruct H as [H Hk]. apply String.eqb_eq in Hk. auto.
    - split; [assumption | discriminate]. }
  clear H. destruct Hj as [Hj Hk].
  apply in_flat_map in Hj. destruct Hj as (r & Hr & Hrp).
  unfold Libsql.join_project in Hrp. apply in_map_iff in Hrp.
  destruct Hrp as (p & <- & Hp). apply filter_In in Hp. destruct Hp as [Hp Hpid].
  apply Z.eqb_eq in Hpid. cbn [fst snd].
  unfold Libsql.join_record in Hr. apply in_flat_map in Hr.
  destruct Hr as (id & Hid & Hr). apply filter_In in Hr. destruct Hr as [Hr Hrid].
  unfold Libsql.has_id in Hrid. apply Z.eqb_eq in Hrid.
  unfold Libsql.vector_top_k in Hid. apply in_map_iff in Hid.
  destruct Hid as (iv & Hfst & Hiv). apply In_firstn in Hiv.
  apply (proj1 (In_sort_by _ _ _ _)) in Hiv.
  split; [assumption|]. split.
  - exists (snd iv). rewrite Hrid, <- Hfst. destruct iv; assumption.
  - split; [exists p; auto | assumption].
Qed.

Lemma SqliteVec_search_candidate_facts (db : SqliteVec.store) (q : embedding)
    (kind : option string) (n : nat) (vd : record_view * Q) :
  In vd (SqliteVec.search_candidates db q kind n) ->
  In (rv_record (fst vd)) (SqliteVec.records db)
  /\ (exists v, In (r_id (rv_record (fst vd)), v) (SqliteVec.record_embedding db))
  /\ (exists p, In p (SqliteVec.projects db)
                /\ p_id p = r_project_id (rv_record (fst vd))
                /\ p_name p = rv_project (fst vd))
  /\ (filter_active kind = true ->
      kind_to_string (r_kind (rv_record (fst vd))) = filter_value kind).
Proof.
  unfold SqliteVec.search_candidates. intros H.
  apply (proj1 (In_sort_by _ _ _ _)) in H.
  assert (Hj : In vd (flat_map
                        (fun rd : record * Q =>
                           map (fun v => (v, snd rd))
                               (SqliteVec.join_project db (fst rd)))
                        (flat_map (SqliteVec.join_record db)
                           (SqliteVec.vec0_knn db q (n * 3))))
               /\ (filter_active kind = true ->
                   kind_to_string (r_kind (rv_record (fst vd))) = filter_value kind)).
  { destruct (filter_active kind).
    - apply filter_In in H. destruct H as [H Hk]. apply String.eqb_eq in Hk. auto.
    - split; [assumption | discriminate]. }
  clear H. destruct Hj as [Hj Hk].
  apply in_flat_map in Hj. destruct Hj as (rd & Hrd & Hvd).
  apply in_map_iff in Hvd. destruct Hvd as (v & <- & Hv).
  unfold SqliteVec.join_project in Hv. apply in_map_iff in Hv.
  destruct Hv as (p & <- & Hp). apply filter_In in Hp. destruct Hp as [Hp Hpid].
  apply Z.eqb_eq in Hpid. cbn [fst snd rv_record rv_project] in *.
  apply in_flat_map in Hrd. destruct Hrd as (nd & Hnd & Hrd).
  unfold SqliteVec.join_record in Hrd. apply in_map_iff in Hrd.
  destruct Hrd as (r & <- & Hr). apply filter_In in Hr. destruct Hr as [Hr Hrid].
  unfold SqliteVec.has_id in Hrid. apply Z.eqb_eq in Hrid. cbn [fst snd] in *.
  unfold SqliteVec.vec0_knn in Hnd. apply In_firstn in Hnd.
  apply (proj1 (In_sort_by _ _ _ _)) in Hnd. apply in_map_iff in Hnd.
  destruct Hnd as (iv & <- & Hiv). cbn [fst] in Hrid.
  split; [assumption|]. split.
  - exists (snd iv). rewrite Hrid. destruct iv; assumption.
  - split; [exists p; auto | assumption].
Qed.

(** X8.  [search] on an initialised adapter with a query of the schema's
    dimension answers, leaves the store as it is, and its answer has this
    shape in both adapters: at most [limit] hits, ordered by similarity
    from high to low; every hit is a stored record that has a stored
    vector, shown with the name of the project it belongs to; with a
    [kind] filter every hit has that kind.  On the native backend the
    limit is at least one: [vector_top_k] is asked for [3 * limit] rows
    and refuses to be asked for none. *)
Theorem search_returns_ranked_stored_records :
  forall (c : project) (q : embedding) (kind : option string) (limit : option nat),
    dim_ok q = true ->
    (forall db : Libsql.store,
        (1 <= limit_of limit)%nat ->
        exists hits,
          Libsql.search (Some c) q kind limit db = (Ok hits, db)
          /\ (List.length hits <= limit_of limit)%nat
          /\ sorted_by by_similarity hits = true
          /\ forall h, In h hits ->
               (exists r, In r (Libsql.records db)
                          /\ Libsql.rec r = rv_record (hit_view h))
               /\ (exists v, In (r_id (rv_record (hit_view h)), v) (Libsql.indexed db))
               /\ (exists p, In p (Libsql.projects db)
                             /\ p_id p = r_project_id (rv_record (hit_view h))
                             /\ p_name p = rv_project (hit_view h))
               /\ (filter_active kind = true ->
                   kind_to_string (r_kind (rv_record (hit_view h)))
                   = filter_value kind))
    /\ (forall db : SqliteVec.store,
        exists hits,
          SqliteVec.search (Some c) q kind limit db = (Ok hits, db)
          /\ (List.length hits <= limit_of limit)%nat
          /\ sorted_by by_similarity hits = true
          /\ forall h, In h hits ->
               In (rv_record (hit_view h)) (SqliteVec.records db)
               /\ (exists v, In (r_id (rv_record (hit_view h)), v)
                               (SqliteVec.record_embedding db))
               /\ (exists p, In p (SqliteVec.projects db)
                             /\ p_id p = r_project_id (rv_record (hit_view h))
                             /\ p_name p = rv_project (hit_view h))
               /\ (filter_active kind = true ->
                   kind_to_string (r_kind (rv_record (hit_view h)))
                   = filter_value kind)).
Proof.
  intros c q kind limit Hdim. split; [intros db _ | intros db].
  - assert (Hrun : exists hits, Libsql.search (Some c) q kind limit db = (Ok hits, db)).
    { unfold Libsql.search, Libsql.getCurrentProject, check_dim. rewrite Hdim.
      eexists. reflexivity. }
    destruct Hrun as (hits & Hrun). exists hits. split; [exact Hrun|].
    split; [|split].
    + unfold Libsql.search, Libsql.getCurrentProject, check_dim in Hrun.
      rewrite Hdim in Hrun. inversion Hrun. rewrite length_map. apply firstn_le_length.
    + unfold Libsql.search, Libsql.getCurrentProject, check_dim in Hrun.
      rewrite Hdim in Hrun. inversion Hrun. rewrite sorted_by_map.
      apply (sorted_by_firstn _ (desc Libsql.score_of)).
      apply sort_by_sorted. intros a b. apply Qleb_total.
    + intros h Hh.
      destruct (Libsql_search_hit _ _ _ _ _ _ _ _ Hrun Hh) as (c' & rp & _ & Hrp & -> & _).
      destruct (Libsql_search_candidate_facts _ _ _ _ _ Hrp) as (Hin & Hv & Hp & Hk).
      cbn. split; [exists (fst rp); auto|]. auto.
  - assert (Hrun : exists hits, SqliteVec.search (Some c) q kind limit db = (Ok hits, db)).
    { unfold SqliteVec.search, SqliteVec.getCurrentProject, check_dim. rewrite Hdim.
      eexists. reflexivity. }
    destruct Hrun as (hits & Hrun). exists hits. split; [exact Hrun|].
    split; [|split].
    + unfold SqliteVec.search, SqliteVec.getCurrentProject, check_dim in Hrun.
      rewrite Hdim in Hrun. inversion Hrun. rewrite length_map. apply firstn_le_length.
    + unfold SqliteVec.search, SqliteVec.getCurrentProject, check_dim in Hrun.
      rewrite Hdim in Hrun. inversion Hrun. rewrite sorted_by_map.
      apply (sorted_by_firstn _ (desc SqliteVec.score_of)).
      apply sort_by_sorted. intros a b. apply Qleb_total.
    + intros h Hh.
      destruct (SqliteVec_search_hit _ _ _ _ _ _ _ _ Hrun Hh)
        as (c' & vd & _ & Hvd & -> & _).
      destruct (SqliteVec_search_candidate_facts _ _ _ _ _ Hvd) as (Hin & Hv & Hp & Hk).
      cbn. auto.
Qed.

(** A search on the two-record stores answers with at most five hits. *)
Lemma search_shape_witness :
  (exists hits,
      Libsql.search (Some Fixtures.repo) (Fixtures.axis 1) None None Fixtures.native2
      = (Ok hits, Fixtures.native2)
      /\ (List.length hits <= 5)%nat /\ sorted_by by_similarity hits = true)
  /\ (exists hits,
      SqliteVec.search (Some Fixtures.repo) (Fixtures.axis 1) None None Fixtures.legacy2
      = (Ok hits, Fixtures.legacy2)
      /\ (List.length hits <= 5)%nat /\ sorted_by by_similarity hits = true).
Proof.
  destruct (search_returns_ranked_stored_records Fixtures.repo (Fixtures.axis 1)
              None None eq_refl) as [HL HV].
  split.
  - assert (Hlimit : (1 <= limit_of None)%nat) by (unfold limit_of; lia).
    destruct (HL Fixtures.native2 Hlimit) as (hits & Hrun & Hlen & Hsorted & _).
    exists hits. auto.
  - destruct (HV Fixtures.legacy2) as (hits & Hrun & Hlen & Hsorted & _).
    exists hits. auto.
Defined.

(** ** What [upsert] stored, [search] finds first *)

Lemma native_settled_score_le_1 (db : Libsql.store) (e : embedding) (t proj : Z)
    (k : kind) (name : string) (rp : Libsql.row * string) :
  normalized e = true -> native_settled db e t proj k ->
  In (fst rp) (Libsql.records db) ->
  Libsql.score_of (Libsql.score name e rp) <= 1.
Proof.
  intros He (l1 & T & l2 & Hrec & _ & _ & _ & Hemb & Hothers) Hin.
  assert (Hraw : Libsql._computeSimilarity e (Libsql.emb (fst rp)) <= 1).
  { rewrite Hrec in Hin. apply in_app_or in Hin.
    assert (Hcase : fst rp = T \/ In (fst rp) (l1 ++ l2)).
    { destruct Hin as [Hin|[Hin|Hin]]; auto; right; apply in_or_app; auto. }
    destruct Hcase as [->|Hother].
    - rewrite Hemb. cbn. rewrite (dot_self_normalized e He). apply Qle_refl.
    - destruct (Hothers _ Hother) as [_ Hv].
      destruct (Libsql.emb (fst rp)) as [v|]; cbn.
      + apply dot_normalized_le_1; tauto.
      + discriminate. }
  unfold Libsql.score_of, Libsql.score. cbn [snd].
  destruct (String.eqb (snd rp) name); [apply boost_le_1 | assumption].
Qed.

Lemma boost_of_one (s : Q) : s == 1 -> boost s == 1.
Proof.
  intros H. unfold boost. rewrite H. apply Q.min_l. discriminate.
Qed.

Lemma native_settled_search (db : Libsql.store) (e : embedding) (t proj : Z)
    (k : kind) (c : project) (kind : option string) (n : nat) :
  normalized e = true -> native_settled db e t proj k ->
  project_exists (Libsql.projects db) proj = true ->
  passes kind (kind_to_string k) = true ->
  exists h rest,
    Libsql.search (Some c) e kind (Some (S n)) db = (Ok (h :: rest), db)
    /\ r_id (rv_record (hit_view h)) = t
    /\ similarity h == 1
    /\ Libsql.get t db = (Ok (Some (hit_view h)), db).
Proof.
  intros He Hset Hproj Hpass.
  assert (Hdim : dim_ok e = true).
  { unfold normalized in He. apply andb_true_iff in He. tauto. }
  assert (Hle := fun name rp => native_settled_score_le_1 db e t proj k name rp He Hset).
  destruct (native_settled_top db e t proj k (S (S (n * 3))) He Hset) as (ids & Htop).
  destruct Hset as (l1 & T & l2 & Hrec & Ht & Hp & Hkind & Hemb & Hothers).
  destruct (project_exists_join _ _ Hproj) as (p & ps' & Hjoin).
  assert (Hsel : filter (Libsql.has_id t) (Libsql.records db) = [T]).
  { rewrite Hrec. apply filter_split_single.
    - apply (native_other_not_selected e). assumption.
    - unfold Libsql.has_id. rewrite Ht. apply Z.eqb_refl. }
  assert (HjT : Libsql.join_project db T
                = (T, p_name p) :: map (fun p => (T, p_name p)) ps').
  { unfold Libsql.join_project. rewrite Hp, Hjoin. reflexivity. }
  assert (Hcand : exists C,
             Libsql.search_candidates db e kind (S n) = (T, p_name p) :: C).
  { unfold Libsql.search_candidates.
    change (S n * 3)%nat with (S (S (S (n * 3)))). rewrite Htop.
    unfold Libsql.join_record. cbn [flat_map]. rewrite Hsel. cbn [app flat_map].
    rewrite HjT. cbn [app].
    destruct (filter_active kind) eqn:Hact; [|eexists; reflexivity].
    cbn [filter fst]. rewrite Hkind.
    rewrite (passes_spec _ _ Hpass Hact). eexists. reflexivity. }
  destruct Hcand as (C & Hcand).
  assert (Hone : Libsql.score_of (Libsql.score (p_name c) e (T, p_name p)) == 1).
  { unfold Libsql.score_of, Libsql.score. cbn [fst snd]. rewrite Hemb. cbn.
    destruct (String.eqb (p_name p) (p_name c)).
    - apply boost_of_one. apply dot_self_normalized. assumption.
    - apply dot_self_normalized. assumption. }
  exists (Libsql.strip (Libsql.score (p_name c) e (T, p_name p))).
  unfold Libsql.search, Libsql.getCurrentProject, check_dim. rewrite Hdim.
  cbn [limit_of]. rewrite Hcand. cbn [map filter].
  assert (Hfloor : Qleb (3 # 10) (Libsql.score_of (Libsql.score (p_name c) e (T, p_name p)))
                   = true).
  { unfold Qleb. apply Qle_bool_iff. rewrite Hone. discriminate. }
  rewrite Hfloor. cbn [sort_by fold_right].
  rewrite insert_by_front.
  - cbn [firstn map]. eexists. split; [reflexivity|].
    split; [exact Ht|]. split; [exact Hone|].
    unfold Libsql.get, Libsql.get_rows. rewrite Hsel. cbn [flat_map].
    rewrite HjT. reflexivity.
  - intros y Hy. apply (proj1 (In_sort_by _ _ _ _)) in Hy.
    apply filter_In in Hy. destruct Hy as [Hy _].
    apply in_map_iff in Hy. destruct Hy as (rp & <- & Hrp).
    unfold desc, Qleb. apply Qle_bool_iff. rewrite Hone. apply Hle.
    apply (Libsql_search_candidate_stored db e kind (S n)).
    rewrite Hcand. right. assumption.
Qed.

Lemma legacy_settled_score_le_1 (db : SqliteVec.store) (e : embedding) (t proj : Z)
    (k : kind) (name : string) (kind : option string) (n : nat)
    (vd : record_view * Q) :
  normalized e = true -> legacy_settled db e t proj k ->
  In vd (SqliteVec.search_candidates db e kind n) ->
  distance e e <= snd vd /\ SqliteVec.score_of (SqliteVec.score name vd) <= 1.
Proof.
  intros He [_ (m1 & m2 & Hemb & Hothers)] Hin.
  destruct (SqliteVec_search_candidate_distance _ _ _ _ _ Hin) as (iv & Hiv & Hd).
  pose proof (dot_self_normalized e He) as Hee.
  assert (Hdot : dot e (snd iv) <= 1).
  { rewrite Hemb in Hiv. apply in_app_or in Hiv.
    assert (Hcase : iv = (t, e) \/ In iv (m1 ++ m2)).
    { destruct Hiv as [Hiv|[Hiv|Hiv]]; auto; right; apply in_or_app; auto. }
    destruct Hcase as [->|Hother].
    - cbn. rewrite Hee. apply Qle_refl.
    - apply dot_normalized_le_1; [assumption|]. apply (Hothers _ Hother). }
  assert (Hraw : 1 - snd vd <= 1) by (rewrite Hd; unfold distance; lra).
  split.
  - rewrite Hd. unfold distance. lra.
  - unfold SqliteVec.score_of, SqliteVec.score. cbn [snd].
    destruct (String.eqb (rv_project (fst vd)) name); [apply boost_le_1 | assumption].
Qed.

Lemma legacy_settled_search (db : SqliteVec.store) (e : embedding) (t proj : Z)
    (k : kind) (c : project) (kind : option string) (n : nat) :
  normalized e = true -> legacy_settled db e t proj k ->
  project_exists (SqliteVec.projects db) proj = true ->
  passes kind (kind_to_string k) = true ->
  exists h rest,
    SqliteVec.search (Some c) e kind (Some (S n)) db = (Ok (h :: rest), db)
    /\ r_id (rv_record (hit_view h)) = t
    /\ similarity h == 1
    /\ SqliteVec._getRecord t db = (Ok (Some (hit_view h)), db).
Proof.
  intros He Hset Hproj Hpass.
  assert (Hdim : dim_ok e = true).
  { unfold normalized in He. apply andb_true_iff in He. tauto. }
  assert (Hle := fun name vd =>
                   legacy_settled_score_le_1 db e t proj k name kind (S n) vd He Hset).
  destruct (legacy_settled_top db e t proj k (S (S (n * 3))) He Hset)
    as (nds & Htop & _).
  destruct Hset as [(l1 & T & l2 & Hrec & Ht & Hp & Hkind & Hothers) _].
  destruct (project_exists_join _ _ Hproj) as (p & ps' & Hjoin).
  assert (Hsel : filter (SqliteVec.has_id t) (SqliteVec.records db) = [T]).
  { rewrite Hrec. apply filter_split_single.
    - intros y Hy. unfold SqliteVec.has_id. apply Z.eqb_neq. apply Hothers. assumption.
    - unfold SqliteVec.has_id. rewrite Ht. apply Z.eqb_refl. }
  assert (HjT : SqliteVec.join_project db T
                = mkView T (p_name p) :: map (fun p => mkView T (p_name p)) ps').
  { unfold SqliteVec.join_project. rewrite Hp, Hjoin. reflexivity. }
  pose (x := (mkView T (p_name p), distance e e)).
  assert (Hcand : exists L,
             SqliteVec.search_candidates db e kind (S n)
             = insert_by (asc (fun vd : record_view * Q => snd vd)) x
                 (sort_by (asc (fun vd : record_view * Q => snd vd)) L)).
  { assert (HJ : exists J,
               flat_map (fun rd : record * Q =>
                           map (fun v => (v, snd rd))
                               (SqliteVec.join_project db (fst rd)))
                 (flat_map (SqliteVec.join_record db)
                    (SqliteVec.vec0_knn db e (S n * 3)))
               = x :: J).
    { change (S n * 3)%nat with (S (S (S (n * 3)))). rewrite Htop.
      cbn [flat_map]. unfold SqliteVec.join_record at 1. cbn [fst snd].
      rewrite Hsel. cbn [map app flat_map fst snd]. rewrite HjT. cbn [map app].
      eexists. reflexivity. }
    destruct HJ as (J & HJ).
    unfold SqliteVec.search_candidates. rewrite HJ.
    destruct (filter_active kind) eqn:Hact; [|eexists; reflexivity].
    unfold x at 1. cbn [filter fst rv_record]. rewrite Hkind.
    rewrite (passes_spec _ _ Hpass Hact). eexists. reflexivity. }
  destruct Hcand as (L & Hcand).
  assert (Hfront : SqliteVec.search_candidates db e kind (S n)
                   = x :: sort_by (asc (fun vd : record_view * Q => snd vd)) L).
  { rewrite Hcand. apply insert_by_front. intros y Hy.
    assert (Hy' : In y (SqliteVec.search_candidates db e kind (S n))).
    { rewrite Hcand. apply In_insert_by. right. assumption. }
    unfold asc, Qleb. apply Qle_bool_iff. apply (proj1 (Hle EmptyString y Hy')). }
  clear Hcand.
  pose proof (dot_self_normalized e He) as Hee.
  assert (Hone : SqliteVec.score_of (SqliteVec.score (p_name c) x) == 1).
  { unfold SqliteVec.score_of, SqliteVec.score, x. cbn [fst snd rv_project].
    assert (Hraw : 1 - distance e e == 1) by (unfold distance; lra).
    destruct (String.eqb (p_name p) (p_name c)).
    - apply boost_of_one. assumption.
    - assumption. }
  exists (SqliteVec.strip (SqliteVec.score (p_name c) x)).
  unfold SqliteVec.search, SqliteVec.getCurrentProject, check_dim. rewrite Hdim.
  cbn [limit_of]. rewrite Hfront. cbn [map filter].
  assert (Hfloor : Qleb (3 # 10) (SqliteVec.score_of (SqliteVec.score (p_name c) x))
                   = true).
  { unfold Qleb. apply Qle_bool_iff. rewrite Hone. discriminate. }
  rewrite Hfloor. cbn [sort_by fold_right].
  rewrite insert_by_front.
  - cbn [firstn map]. eexists. split; [reflexivity|].
    split; [exact Ht|]. split; [exact Hone|].
    unfold SqliteVec._getRecord, SqliteVec.get_rows. rewrite Hsel. cbn [flat_map].
    rewrite HjT. reflexivity.
  - intros y Hy. apply (proj1 (In_sort_by _ _ _ _)) in Hy.
    apply filter_In in Hy. destruct Hy as [Hy _].
    apply in_map_iff in Hy. destruct Hy as (vd & <- & Hvd).
    unfold desc, Qleb. apply Qle_bool_iff. rewrite Hone. apply Hle.
    rewrite Hfront. right. assumption.
Qed.

(** *** The native backend, in whatever order the query returns its rows *)

Section BestFirst.
Variable A : Type.
Variable key : A -> Q.

(** The one element whose key is strictly the largest sorts first,
    wherever it stood. *)
Lemma unique_best_first (x : A) (l : list A) :
  In x l ->
  (forall y, In y l -> y = x \/ key y < key x) ->
  exists rest, sort_by (desc key) l = x :: rest.
Proof.
  induction l as [|a l IH]; intros Hin Hall; [destruct Hin|].
  cbn [sort_by fold_right]. fold (sort_by (desc key) l).
  destruct (Hall a (or_introl eq_refl)) as [->|Hlt].
  - exists (sort_by (desc key) l). apply insert_by_front.
    intros y Hy. apply (proj1 (In_sort_by _ _ y l)) in Hy.
    unfold desc, Qleb. apply Qle_bool_iff.
    destruct (Hall y (or_intror Hy)) as [->|Hy']; [apply Qle_refl | apply Qlt_le_weak; assumption].
  - assert (Hin' : In x l).
    { destruct Hin as [->|Hin]; [|assumption]. exfalso. apply (Qlt_irrefl _ Hlt). }
    destruct (IH Hin' (fun y Hy => Hall y (or_intror Hy))) as (rest & ->).
    cbn [insert_by]. unfold desc at 1, Qleb.
    destruct (Qle_bool (key x) (key a)) eqn:E.
    + apply Qle_bool_iff in E. exfalso. apply (Qlt_not_le _ _ Hlt E).
    + eexists. reflexivity.
Qed.
End BestFirst.

Lemma boost_below_cap (sim : Q) : sim < 9 # 10 -> boost sim < 1.
Proof.
  intros H. unfold boost.
  apply Qle_lt_trans with (sim + (1 # 10)); [apply Q.le_min_r | lra].
Qed.

(** The first call leaves every other row as it was. *)
Lemma Libsql_upsert_first_kept (cur : option project) (a : upsert_args)
    (e : embedding) (now : string) (db : Libsql.store) (proj : Z)
    (k : kind) (st : status) (title : string) :
  normalized e = true ->
  truthy_id (a_id a) = false ->
  resolve_project cur (a_projectId a) = Ok proj ->
  kind_of_string (a_kind a) = Some k ->
  status_of_string (status_arg a) = Some st ->
  a_title a = Some title ->
  project_exists (Libsql.projects db) proj = true ->
  native_keys_ok db = true ->
  exists v db',
    Libsql.upsert no_faults cur a e now db = (Ok (Some v), db')
    /\ forall y, In y (Libsql.records db') ->
                 r_id (Libsql.rec y) <> r_id (rv_record v) ->
                 In y (Libsql.records db).
Proof.
  intros He Hid Hproj Hk Hst Htitle Hp Hkeys.
  assert (Hdim : dim_ok e = true).
  { unfold normalized in He. apply andb_true_iff in He. tauto. }
  unfold Libsql.upsert. rewrite Hproj, Hid.
  unfold bind at 1. unfold guarded at 1, no_faults at 1, Libsql.dedup_candidates.
  unfold check_dim. rewrite Hdim.
  destruct (find _ _) as [c|] eqn:F.
  - apply find_some in F. destruct F as [Hin _].
    apply Libsql_candidate_row in Hin.
    destruct Hin as (r0 & Hr0 & Hc & Hr0p & Hr0k).
    destruct (in_split _ _ Hr0) as (l1 & l2 & Hrec).
    assert (Hdistinct : forall y, In y (l1 ++ l2) ->
                                  r_id (Libsql.rec y) <> r_id (Libsql.rec r0)).
    { apply (distinct_keys_split _ (fun r => r_id (Libsql.rec r)) l1 l2 r0).
      unfold native_keys_ok in Hkeys. rewrite Hrec in Hkeys. exact Hkeys. }
    assert (Hsel : forall y, In y (l1 ++ l2) ->
                             Libsql.has_id (r_id (Libsql.rec r0)) y = false).
    { intros y Hy. unfold Libsql.has_id. apply Z.eqb_neq. auto. }
    assert (Hp' : project_exists (Libsql.projects db) (r_project_id (Libsql.rec r0))
                  = true) by (rewrite Hr0p; assumption).
    destruct (Libsql_update_and_read_back db a e now l1 l2 r0 st title
                Hrec Hsel Hst Htitle Hdim Hp') as (pname & Hrun).
    subst c. cbn [fst]. rewrite Hrun.
    eexists. eexists. split; [reflexivity|].
    cbn [rv_record r_id Libsql.rec Libsql.records].
    intros y Hy Hne. rewrite Hrec. apply in_app_or in Hy. apply in_or_app.
    destruct Hy as [Hy|[Hy|Hy]];
      [left; assumption | subst y; exfalso; apply Hne; reflexivity
       | right; right; assumption].
  - destruct (project_exists_join _ _ Hp) as (p & ps & Hps).
    unfold bind, guarded, no_faults, Libsql.exec_insert, check_kind, check_title,
      check_status, check_dim.
    rewrite Hk, Htitle, Hst, Hdim. cbn [rbind].
    unfold Libsql.get, Libsql.get_rows.
    cbn [Libsql.records Libsql.projects].
    assert (Hnew : forall y, In y (Libsql.records db) ->
                             r_id (Libsql.rec y) <> Libsql.next_rowid db).
    { intros y Hy. unfold Libsql.next_rowid.
      pose proof (list_max_id_bound
                    (map (fun r => r_id (Libsql.rec r)) (Libsql.records db))
                    (r_id (Libsql.rec y))
                    (in_map (fun r => r_id (Libsql.rec r)) _ _ Hy)).
      lia. }
    rewrite (filter_split_single _ (Libsql.has_id (Libsql.next_rowid db))
               (Libsql.records db) []).
    + cbn [flat_map app]. unfold Libsql.join_project.
      cbn [Libsql.projects Libsql.rec r_project_id]. rewrite Hps.
      cbn [map hd_error].
      eexists. eexists. split; [reflexivity|].
      cbn [rv_record Libsql.view_of fst Libsql.rec r_id Libsql.records].
      intros y Hy Hne. apply in_app_or in Hy.
      destruct Hy as [Hy|[Hy|[]]]; [assumption|].
      subst y. exfalso. apply Hne. reflexivity.
    + intros y Hy. rewrite app_nil_r in Hy. unfold Libsql.has_id.
      apply Z.eqb_neq. auto.
    + unfold Libsql.has_id. apply Z.eqb_refl.
Qed.

(** On a settled store the record that carries the query is the first
    hit, in whatever order the candidate rows arrive, once no other row
    reaches the cap of the boost. *)
Lemma native_settled_ranked (db : Libsql.store) (e : embedding) (t proj : Z)
    (k : kind) (c : project) (kind : option string) (n : nat)
    (rows : list (Libsql.row * string)) :
  normalized e = true -> native_settled db e t proj k ->
  project_exists (Libsql.projects db) proj = true ->
  distinct_ids (map p_id (Libsql.projects db)) = true ->
  passes kind (kind_to_string k) = true ->
  (forall rp, In rp (flat_map (Libsql.join_project db) (Libsql.records db)) ->
              r_id (Libsql.rec (fst rp)) <> t ->
              String.eqb (snd rp) (p_name c) = true ->
              Libsql._computeSimilarity e (Libsql.emb (fst rp)) < 9 # 10) ->
  Permutation rows (Libsql.search_candidates db e kind (S n)) ->
  exists h rest,
    LibsqlRanking.ranked (p_name c) e (S n) rows = h :: rest
    /\ r_id (rv_record (hit_view h)) = t
    /\ similarity h == 1
    /\ Libsql.get t db = (Ok (Some (hit_view h)), db).
Proof.
  intros He Hset Hproj Hpids Hpass Hcap Hperm.
  destruct (native_settled_search db e t proj k c kind n He Hset Hproj Hpass)
    as (h0 & rest0 & Hs & Ht0 & Hone & Hget).
  destruct (Libsql_search_hit _ _ _ _ _ _ _ _ Hs (or_introl eq_refl))
    as (c' & rp0 & Hc' & Hrp0 & Hh0 & _).
  inversion Hc'; subst c'. clear Hc'.
  pose (x := Libsql.score (p_name c) e rp0).
  assert (Hx1 : Libsql.score_of x == 1) by (subst h0; exact Hone).
  destruct Hset as (l1 & T & l2 & Hrec & Ht & Hp & Hkind & Hemb & Hothers).
  assert (Hfacts0 := Libsql_search_candidate_facts _ _ _ _ _ Hrp0).
  destruct Hfacts0 as (Hin0 & _ & (p0 & Hp0 & Hp0id & Hp0n) & _).
  assert (Hrow : forall r, In r (Libsql.records db) ->
                           r = T \/ In r (l1 ++ l2)).
  { intros r Hr. rewrite Hrec in Hr. apply in_app_or in Hr.
    destruct Hr as [Hr|[Hr|Hr]]; auto; right; apply in_or_app; auto. }
  assert (HT0 : fst rp0 = T).
  { destruct (Hrow _ Hin0) as [HT|Hother]; [assumption|exfalso].
    destruct (Hothers _ Hother) as [Hne _]. apply Hne.
    subst h0. exact Ht0. }
  assert (Hbest : exists rest,
             sort_by (desc Libsql.score_of)
               (filter (fun r => Qleb (3 # 10) (Libsql.score_of r))
                  (map (Libsql.score (p_name c) e) rows)) = x :: rest).
  { apply unique_best_first.
    - apply filter_In. split.
      + apply in_map. apply (Permutation_in _ (Permutation_sym Hperm)). exact Hrp0.
      + unfold Qleb. apply Qle_bool_iff. rewrite Hx1. discriminate.
    - intros y Hy. apply filter_In in Hy. destruct Hy as [Hy _].
      apply in_map_iff in Hy. destruct Hy as (rp & <- & Hrp).
      apply (Permutation_in _ Hperm) in Hrp.
      destruct (Libsql_search_candidate_facts _ _ _ _ _ Hrp)
        as (Hin & _ & (p & Hpin & Hpid & Hpn) & _).
      destruct (Hrow _ Hin) as [HT|Hother].
      + left. unfold x.
        assert (Hsame : p = p0).
        { apply (same_id_same_row _ Hpids); auto.
          rewrite Hpid, Hp0id, HT, HT0. reflexivity. }
        destruct rp as [r pn], rp0 as [r0 pn0]. cbn [fst snd] in *.
        subst. reflexivity.
      + right. rewrite Hx1.
        destruct (Hothers _ Hother) as [Hne Hv].
        unfold Libsql.score_of, Libsql.score. cbn [snd].
        destruct (String.eqb (snd rp) (p_name c)) eqn:Hboost.
        * apply boost_below_cap. apply Hcap; auto.
          apply in_flat_map. exists (fst rp). split; [assumption|].
          unfold Libsql.join_project. apply in_map_iff. exists p.
          split.
          -- destruct rp as [r pn]. cbn [fst snd] in *. subst pn. reflexivity.
          -- apply filter_In. split; [assumption|]. apply Z.eqb_eq. assumption.
        * destruct (Libsql.emb (fst rp)) as [v|]; cbn.
          -- apply other_vector_is_farther; tauto.
          -- reflexivity. }
  destruct Hbest as (rest & Hbest).
  exists h0. unfold LibsqlRanking.ranked. rewrite Hbest. cbn [firstn map].
  eexists. split; [subst h0; reflexivity|]. auto.
Qed.

(** X9.  What [upsert] stores, [search] finds first.  After a new record
    has been stored with a normalised embedding that no record carried
    before (no explicit id), a [search] with that same embedding and a
    limit of at least one, with no [kind] filter or the record's kind as
    filter, and whatever the current project of the searching adapter,
    returns that record as its first hit with similarity 1, and the hit is
    the row that [get] returns for the new id.  In both adapters.  On the
    native backend, whose query has no ORDER BY, this holds for every
    order in which the candidate rows may arrive, in a store whose
    project ids and names are unique and in which no record of the
    searching adapter's project carries a vector at similarity 0.9 or
    more of the new one (such a row would be lifted to 1.0 as well, and
    the stable sort would leave the two in the order of arrival). *)
Theorem search_finds_the_record_just_stored :
  forall (cur : option project) (c : project) (a : upsert_args) (e : embedding)
         (now : string) (proj : Z) (kind : option string) (n : nat),
    normalized e = true ->
    truthy_id (a_id a) = false ->
    rejected_by_schema a = false ->
    resolve_project cur (a_projectId a) = Ok proj ->
    passes kind (a_kind a) = true ->
    (forall db : Libsql.store,
        project_exists (Libsql.projects db) proj = true ->
        projects_ok (Libsql.projects db) = true ->
        native_keys_ok db = true ->
        native_embeddings_ok db = true ->
        native_holds db e = false ->
        native_below_cap db (p_name c) e = true ->
        exists v db',
          Libsql.upsert no_faults cur a e now db = (Ok (Some v), db')
          /\ Libsql.search (Some c) e kind (Some (S n)) db'
             = (Ok (LibsqlRanking.ranked (p_name c) e (S n)
                      (Libsql.search_candidates db' e kind (S n))), db')
          /\ forall rows,
               Permutation rows (Libsql.search_candidates db' e kind (S n)) ->
               exists h rest,
                 LibsqlRanking.ranked (p_name c) e (S n) rows = h :: rest
                 /\ r_id (rv_record (hit_view h)) = r_id (rv_record v)
                 /\ similarity h == 1
                 /\ Libsql.get (r_id (rv_record v)) db'
                    = (Ok (Some (hit_view h)), db'))
    /\ (forall db : SqliteVec.store,
        project_exists (SqliteVec.projects db) proj = true ->
        legacy_keys_ok db = true ->
        legacy_embeddings_ok db = true ->
        legacy_holds db e = false ->
        exists v db' h rest,
          SqliteVec.upsert no_faults cur a e now db = (Ok (Some v), db')
          /\ SqliteVec.search (Some c) e kind (Some (S n)) db' = (Ok (h :: rest), db')
          /\ r_id (rv_record (hit_view h)) = r_id (rv_record v)
          /\ similarity h == 1
          /\ SqliteVec._getRecord (r_id (rv_record v)) db'
             = (Ok (Some (hit_view h)), db')).
Proof.
  intros cur c a e now proj kind n He Hid Hacc Hproj Hpass.
  destruct (accepted_by_schema a Hacc) as (k & st & title & Hk & Hst & Htitle).
  assert (Hpass' : passes kind (kind_to_string k) = true)
    by (rewrite (kind_to_of_string _ _ Hk); assumption).
  assert (Hdim : dim_ok e = true).
  { unfold normalized in He. apply andb_true_iff in He. tauto. }
  split.
  - intros db Hp Hpok Hkeys Hok Hfresh Hcap.
    destruct (Libsql_upsert_first cur a e now db proj k st title
                He Hid Hproj Hk Hst Htitle Hp Hkeys Hok Hfresh)
      as (v & db' & Hrun & Hset & Hps).
    destruct (Libsql_upsert_first_kept cur a e now db proj k st title
                He Hid Hproj Hk Hst Htitle Hp Hkeys)
      as (v1 & db1 & Hrun1 & Hkept).
    rewrite Hrun in Hrun1. inversion Hrun1; subst v1 db1. clear Hrun1.
    assert (Hp' : project_exists (Libsql.projects db') proj = true)
      by (rewrite Hps; assumption).
    exists v, db'. split; [exact Hrun|]. split.
    + unfold Libsql.search, Libsql.getCurrentProject, check_dim. rewrite Hdim.
      reflexivity.
    + intros rows Hperm.
      apply (native_settled_ranked db' e _ proj k c kind n rows He Hset Hp'); auto.
      * rewrite Hps. unfold projects_ok in Hpok. apply andb_true_iff in Hpok. tauto.
      * intros rp Hrp Hne Hname.
        apply in_flat_map in Hrp. destruct Hrp as (r & Hr & Hrp).
        assert (Hfst : fst rp = r).
        { unfold Libsql.join_project in Hrp. apply in_map_iff in Hrp.
          destruct Hrp as (p & <- & _). reflexivity. }
        unfold native_below_cap in Hcap. rewrite forallb_forall in Hcap.
        assert (Hold : In rp (flat_map (Libsql.join_project db) (Libsql.records db))).
        { apply in_flat_map. exists r. split.
          - apply Hkept; [assumption|]. rewrite <- Hfst. assumption.
          - unfold Libsql.join_project in *. rewrite <- Hps. assumption. }
        specialize (Hcap rp Hold). rewrite Hname in Hcap. cbn [andb] in Hcap.
        apply negb_true_iff in Hcap. unfold Qleb in Hcap.
        destruct (Qlt_le_dec (Libsql._computeSimilarity e (Libsql.emb (fst rp)))
                    (9 # 10)) as [Hlt|Hge]; [assumption|].
        apply Qle_bool_iff in Hge. congruence.
  - intros db Hp Hkeys Hok Hfresh.
    destruct (SqliteVec_upsert_first cur a e now db proj k st title
                He Hid Hproj Hk Hst Htitle Hp Hkeys Hok Hfresh)
      as (v & db' & Hrun & Hset & Hps).
    assert (Hp' : project_exists (SqliteVec.projects db') proj = true)
      by (rewrite Hps; assumption).
    destruct (legacy_settled_search db' e _ proj k c kind n He Hset Hp' Hpass')
      as (h & rest & Hs & Hh & Hsim & Hget).
    exists v, db', h, rest. auto.
Qed.

(** Storing an issue under [axis 0] and searching for [axis 0], on the
    two-record stores. *)
Lemma search_finds_stored_witness :
  (exists v db' h rest,
      Libsql.upsert no_faults (Some Fixtures.repo) (Fixtures.args "issue" "Original")
        (Fixtures.axis 0) "2025-06-02" Fixtures.native2 = (Ok (Some v), db')
      /\ Libsql.search (Some Fixtures.other) (Fixtures.axis 0) (Some "issue"%string)
           (Some 1%nat) db' = (Ok (h :: rest), db')
      /\ r_id (rv_record (hit_view h)) = r_id (rv_record v)
      /\ similarity h == 1)
  /\ (exists v db' h rest,
      SqliteVec.upsert no_faults (Some Fixtures.repo) (Fixtures.args "issue" "Original")
        (Fixtures.axis 0) "2025-06-02" Fixtures.legacy2 = (Ok (Some v), db')
      /\ SqliteVec.search (Some Fixtures.other) (Fixtures.axis 0) (Some "issue"%string)
           (Some 1%nat) db' = (Ok (h :: rest), db')
      /\ r_id (rv_record (hit_view h)) = r_id (rv_record v)
      /\ similarity h == 1).
Proof.
  destruct (search_finds_the_record_just_stored (Some Fixtures.repo) Fixtures.other
              (Fixtures.args "issue" "Original") (Fixtures.axis 0) "2025-06-02" 1%Z
              (Some "issue"%string) 0%nat eq_refl eq_refl eq_refl eq_refl eq_refl)
    as [HL HV].
  split.
  - assert (Hcap : native_below_cap Fixtures.native2 (p_name Fixtures.other)
                     (Fixtures.axis 0) = true) by (vm_compute; reflexivity).
    destruct (HL Fixtures.native2 eq_refl eq_refl eq_refl eq_refl eq_refl Hcap)
      as (v & db' & H1 & H2 & H3).
    destruct (H3 _ (Permutation_refl _)) as (h & rest & H4 & H5 & H6 & _).
    exists v, db', h, rest. rewrite H2, H4. auto.
  - destruct (HV Fixtures.legacy2 eq_refl eq_refl eq_refl eq_refl)
      as (v & db' & h & rest & H1 & H2 & H3 & H4 & _).
    exists v, db', h, rest. auto.
Defined.

(** ** What [list] returns *)

Lemma In_filter_if (A : Type) (b : bool) (f : A -> bool) (l : list A) (x : A) :
  In x (if b then filter f l else l) <-> In x l /\ (b = true -> f x = true).
Proof.
  destruct b.
  - rewrite filter_In. intuition.
  - intuition. discriminate.
Qed.

Lemma passes_iff (f : option string) (v : string) :
  passes f v = true <-> (filter_active f = true -> String.eqb v (filter_value f) = true).
Proof.
  unfold passes. destruct (filter_active f); cbn; intuition. discriminate.
Qed.

Lemma Libsql_list_rows_spec (db : Libsql.store) (pid : option Z)
    (kind status : option string) (v : record_view) :
  In v (Libsql.list_rows db pid kind status)
  <-> In v (Libsql.list_rows db None None None)
      /\ (truthy_id pid = true -> r_project_id (rv_record v) = Libsql.id_of pid)
      /\ passes kind (kind_to_string (r_kind (rv_record v))) = true
      /\ passes status (status_to_string (r_status (rv_record v))) = true.
Proof.
  unfold Libsql.list_rows. cbn [truthy_id filter_active].
  rewrite !In_sort_by, !In_filter_if, !passes_iff, Z.eqb_eq. tauto.
Qed.

Lemma SqliteVec_list_rows_spec (db : SqliteVec.store) (pid : option Z)
    (kind status : option string) (v : record_view) :
  In v (SqliteVec.list_rows db pid kind status)
  <-> In v (SqliteVec.list_rows db None None None)
      /\ (truthy_id pid = true -> r_project_id (rv_record v) = SqliteVec.id_of pid)
      /\ passes kind (kind_to_string (r_kind (rv_record v))) = true
      /\ passes status (status_to_string (r_status (rv_record v))) = true.
Proof.
  unfold SqliteVec.list_rows. cbn [truthy_id filter_active].
  rewrite !In_sort_by, !In_filter_if, !passes_iff, Z.eqb_eq. tauto.
Qed.

(** X10.  [list] in both adapters: once the project filter is resolved
    (the current project for no name, [''] or ['current']; the named
    project; none for ['*']), the call answers without changing the
    store; the answer is ordered by [updated_at] from new to old, and it
    holds exactly the rows of the unfiltered listing that belong to the
    resolved project (when there is one with a non-zero id) and pass the
    [kind] and [status] filters: nothing else is listed and nothing that
    qualifies is left out. *)
Theorem list_returns_exactly_the_filtered_rows :
  forall (cur : option project) (kind status project : option string),
    (forall (db : Libsql.store) (pid : option Z),
        Libsql.list_project_id cur project db = Ok pid ->
        exists rows,
          Libsql.list cur kind status project db = (Ok rows, db)
          /\ sorted_by newest_first rows = true
          /\ forall v,
               In v rows
               <-> In v (Libsql.list_rows db None None None)
                   /\ (truthy_id pid = true ->
                       r_project_id (rv_record v) = Libsql.id_of pid)
                   /\ passes kind (kind_to_string (r_kind (rv_record v))) = true
                   /\ passes status (status_to_string (r_status (rv_record v))) = true)
    /\ (forall (db : SqliteVec.store) (pid : option Z),
        SqliteVec.list_project_id cur project db = Ok pid ->
        exists rows,
          SqliteVec.list cur kind status project db = (Ok rows, db)
          /\ sorted_by newest_first rows = true
          /\ forall v,
               In v rows
               <-> In v (SqliteVec.list_rows db None None None)
                   /\ (truthy_id pid = true ->
                       r_project_id (rv_record v) = SqliteVec.id_of pid)
                   /\ passes kind (kind_to_string (r_kind (rv_record v))) = true
                   /\ passes status (status_to_string (r_status (rv_record v))) = true).
Proof.
  intros cur kind status project. split; intros db pid Hpid.
  - exists (Libsql.list_rows db pid kind status). unfold Libsql.list. rewrite Hpid.
    split; [reflexivity|]. split.
    + unfold Libsql.list_rows.
      apply (sort_by_sorted _ (desc_text (fun v => r_updated_at (rv_record v)))).
      intros a b. apply string_leb_total.
    + intros v. apply Libsql_list_rows_spec.
  - exists (SqliteVec.list_rows db pid kind status). unfold SqliteVec.list. rewrite Hpid.
    split; [reflexivity|]. split.
    + unfold SqliteVec.list_rows.
      apply (sort_by_sorted _ (desc_text (fun v => r_updated_at (rv_record v)))).
      intros a b. apply string_leb_total.
    + intros v. apply SqliteVec_list_rows_spec.
Qed.

(** Listing the open issues of the current project on the two-record
    stores. *)
Lemma list_filtered_witness :
  (exists rows,
      Libsql.list (Some Fixtures.repo) (Some "issue"%string) (Some "open"%string) None
        Fixtures.native2 = (Ok rows, Fixtures.native2)
      /\ sorted_by newest_first rows = true)
  /\ (exists rows,
      SqliteVec.list (Some Fixtures.repo) (Some "issue"%string) (Some "open"%string) None
        Fixtures.legacy2 = (Ok rows, Fixtures.legacy2)
      /\ sorted_by newest_first rows = true).
Proof.
  destruct (list_returns_exactly_the_filtered_rows (Some Fixtures.repo)
              (Some "issue"%string) (Some "open"%string) None) as [HL HV].
  split.
  - destruct (HL Fixtures.native2 (Some 1%Z) eq_refl) as (rows & Hrun & Hs & _).
    exists rows. auto.
  - destruct (HV Fixtures.legacy2 (Some 1%Z) eq_refl) as (rows & Hrun & Hs & _).
    exists rows. auto.
Defined.

(** ** [upsert] with the id of an existing record *)

(** X11.  [upsert] with the id of a stored record rewrites that record in
    place, in both adapters: kind, title, body, status and [updated_at]
    take the call's values and the vector is replaced; id, project and
    [created_at] stay (the [projectId] of the call is not written); every
    other record, and the order of the table, is as before; no duplicate
    search takes place; the returned row is the rewritten record. *)
Theorem upsert_by_id_rewrites_in_place :
  forall (cur : option project) (a : upsert_args) (e : embedding) (now : string)
         (proj : Z) (k : kind) (st : status) (title : string),
    truthy_id (a_id a) = true ->
    kind_of_string (a_kind a) = Some k ->
    status_of_string (status_arg a) = Some st ->
    a_title a = Some title ->
    dim_ok e = true ->
    resolve_project cur (a_projectId a) = Ok proj ->
    (forall (db : Libsql.store) (l1 l2 : list Libsql.row) (T : Libsql.row),
        Libsql.records db = l1 ++ T :: l2 ->
        r_id (Libsql.rec T) = Libsql.id_of (a_id a) ->
        native_keys_ok db = true ->
        project_exists (Libsql.projects db) (r_project_id (Libsql.rec T)) = true ->
        let R := mkRecord (r_id (Libsql.rec T)) (r_project_id (Libsql.rec T)) k title
                   (body_of a) st (r_created_at (Libsql.rec T)) now in
        exists pname,
          Libsql.upsert no_faults cur a e now db
          = (Ok (Some (mkView R pname)),
             Libsql.mkStore (Libsql.projects db)
               (l1 ++ Libsql.mkRow R (Some e) :: l2) (Libsql.seq db)))
    /\ (forall (db : SqliteVec.store) (l1 l2 : list record) (T : record),
        SqliteVec.records db = l1 ++ T :: l2 ->
        r_id T = SqliteVec.id_of (a_id a) ->
        distinct_ids (map r_id (SqliteVec.records db)) = true ->
        project_exists (SqliteVec.projects db) (r_project_id T) = true ->
        let R := mkRecord (r_id T) (r_project_id T) k title (body_of a) st
                   (r_created_at T) now in
        exists pname,
          SqliteVec.upsert no_faults cur a e now db
          = (Ok (Some (mkView R pname)),
             SqliteVec.mkStore (SqliteVec.projects db) (l1 ++ R :: l2)
               (filter (fun iv => negb (Z.eqb (fst iv) (r_id T)))
                       (SqliteVec.record_embedding db) ++ [(r_id T, e)])
               (SqliteVec.seq db))).
Proof.
  intros cur a e now proj k st title Hid Hk Hst Htitle Hdim Hproj. split.
  - intros db l1 l2 T Hrec HT Hkeys Hp R.
    destruct (project_exists_join _ _ Hp) as (p & ps & Hps).
    exists (p_name p).
    assert (Hothers : forall y, In y (l1 ++ l2) ->
                                Libsql.has_id (r_id (Libsql.rec T)) y = false).
    { intros y Hy. unfold Libsql.has_id. apply Z.eqb_neq.
      unfold native_keys_ok in Hkeys. rewrite Hrec in Hkeys.
      apply (distinct_keys_split _ (fun r => r_id (Libsql.rec r)) l1 l2 T Hkeys y Hy). }
    unfold Libsql.upsert. rewrite Hproj, Hid, <- HT.
    unfold bind, guarded, no_faults, Libsql.exec_update. rewrite Hrec.
    rewrite (update_rows_split _ (Libsql.has_id (r_id (Libsql.rec T)))
               (Libsql.set_by_id a e now) l1 l2 T (Libsql.mkRow R (Some e))); auto.
    + unfold Libsql.get, Libsql.get_rows. simpl.
      rewrite (filter_split_single _ (Libsql.has_id (r_id (Libsql.rec T))) l1 l2
                 (Libsql.mkRow R (Some e))); auto.
      * simpl. unfold Libsql.join_project. simpl. rewrite Hps. simpl. reflexivity.
      * unfold Libsql.has_id. simpl. apply Z.eqb_refl.
    + unfold Libsql.has_id. apply Z.eqb_refl.
    + unfold Libsql.set_by_id, check_kind, check_title, check_status, check_dim.
      rewrite Hk, Htitle, Hst, Hdim. reflexivity.
  - intros db l1 l2 T Hrec HT Hkeys Hp R.
    destruct (project_exists_join _ _ Hp) as (p & ps & Hps).
    exists (p_name p).
    assert (Hothers : forall y, In y (l1 ++ l2) -> SqliteVec.has_id (r_id T) y = false).
    { intros y Hy. unfold SqliteVec.has_id. apply Z.eqb_neq.
      rewrite Hrec in Hkeys.
      apply (distinct_keys_split _ r_id l1 l2 T Hkeys y Hy). }
    unfold SqliteVec.upsert. rewrite Hproj.
    unfold transaction, SqliteVec.upsert_body. rewrite Hid, <- HT.
    unfold bind, guarded, no_faults, SqliteVec.exec_update. rewrite Hrec.
    rewrite (update_rows_split _ (SqliteVec.has_id (r_id T))
               (SqliteVec.set_by_id a now) l1 l2 T R); auto.
    + unfold SqliteVec.exec_delete_embedding, SqliteVec.exec_insert_embedding, check_dim.
      cbn [SqliteVec.projects SqliteVec.records SqliteVec.record_embedding SqliteVec.seq].
      rewrite Hdim, existsb_after_delete.
      unfold SqliteVec._getRecord, SqliteVec.get_rows.
      cbn [SqliteVec.projects SqliteVec.records SqliteVec.record_embedding SqliteVec.seq].
      rewrite (filter_split_single _ (SqliteVec.has_id (r_id T)) l1 l2 R); auto.
      * cbn [flat_map app]. unfold SqliteVec.join_project.
        cbn [SqliteVec.projects r_project_id R]. rewrite Hps. reflexivity.
      * unfold SqliteVec.has_id. apply Z.eqb_refl.
    + unfold SqliteVec.has_id. apply Z.eqb_refl.
    + unfold SqliteVec.set_by_id, check_kind, check_title, check_status.
      rewrite Hk, Htitle, Hst. reflexivity.
Qed.

(** Record 2 of the two-record stores rewritten as a resolved [spec] by a
    call that names project 1: it stays in project 2. *)
Lemma upsert_by_id_witness :
  (exists pname db',
      Libsql.upsert no_faults (Some Fixtures.repo)
        (mkArgs (Some 2%Z) (Some 1%Z) "spec" (Some "done"%string) None
           (Some "resolved"%string))
        (Fixtures.axis 5) "2025-06-09" Fixtures.native2
      = (Ok (Some (mkView (mkRecord 2 2 Spec "done" "" Resolved "2025-06-01"
                             "2025-06-09") pname)), db'))
  /\ (exists pname db',
      SqliteVec.upsert no_faults (Some Fixtures.repo)
        (mkArgs (Some 2%Z) (Some 1%Z) "spec" (Some "done"%string) None
           (Some "resolved"%string))
        (Fixtures.axis 5) "2025-06-09" Fixtures.legacy2
      = (Ok (Some (mkView (mkRecord 2 2 Spec "done" "" Resolved "2025-06-01"
                             "2025-06-09") pname)), db')).
Proof.
  destruct (upsert_by_id_rewrites_in_place (Some Fixtures.repo)
              (mkArgs (Some 2%Z) (Some 1%Z) "spec" (Some "done"%string) None
                 (Some "resolved"%string))
              (Fixtures.axis 5) "2025-06-09" 1%Z Spec Resolved "done"
              eq_refl eq_refl eq_refl eq_refl eq_refl eq_refl) as [HL HV].
  split.
  - destruct (HL Fixtures.native2
                [Libsql.mkRow (Fixtures.rec_of 1 1 Issue "mine") (Some (Fixtures.axis 1))]
                []
                (Libsql.mkRow (Fixtures.rec_of 2 2 Issue "theirs")
                   (Some (Fixtures.axis 2)))
                eq_refl eq_refl eq_refl eq_refl) as (pname & Hrun).
    exists pname. eexists. exact Hrun.
  - destruct (HV Fixtures.legacy2 [Fixtures.rec_of 1 1 Issue "mine"] []
                (Fixtures.rec_of 2 2 Issue "theirs")
                eq_refl eq_refl eq_refl eq_refl) as (pname & Hrun).
    exists pname. eexists. exact Hrun.
Defined.

(** ** What [upsert] never does *)

Section Stays.
Variables (S : Type) (R : S -> S -> Prop).
Hypothesis R_refl : forall s, R s s.
Hypothesis R_trans : forall s1 s2 s3, R s1 s2 -> R s2 s3 -> R s1 s3.

Lemma stays_bind (A B : Type) (m : M S A) (k : A -> M S B) :
  stays R m -> (forall a, stays R (k a)) -> stays R (bind m k).
Proof.
  intros Hm Hk s. unfold bind. specialize (Hm s).
  destruct (m s) as [[a|e] s1]; cbn [snd] in *.
  - apply (R_trans _ s1); [assumption | apply Hk].
  - assumption.
Qed.

Lemma stays_guarded (A : Type) (f : faults) (st : stmt) (m : M S A) :
  stays R m -> stays R (guarded f st m).
Proof.
  intros Hm s. unfold guarded. destruct (f st); [apply R_refl | apply Hm].
Qed.

Lemma stays_transaction (A : Type) (m : M S A) :
  stays R m -> stays R (transaction m).
Proof.
  intros Hm s. unfold transaction. specialize (Hm s).
  destruct (m s) as [[a|e] s1]; cbn [snd] in *; [assumption | apply R_refl].
Qed.

Lemma stays_read (A : Type) (m : M S A) :
  (forall s, snd (m s) = s) -> stays R m.
Proof. intros H s. rewrite H. apply R_refl. Qed.

End Stays.

Lemma native_extends_refl (db : Libsql.store) : native_extends db db.
Proof.
  split; [reflexivity|]. split; [|auto]. exists []. rewrite app_nil_r. reflexivity.
Qed.

Lemma native_extends_trans (d1 d2 d3 : Libsql.store) :
  native_extends d1 d2 -> native_extends d2 d3 -> native_extends d1 d3.
Proof.
  intros (Hp1 & (x1 & Hx1) & Hk1) (Hp2 & (x2 & Hx2) & Hk2).
  split; [congruence|]. split; [|auto].
  exists (x1 ++ x2). rewrite Hx2, Hx1, app_assoc. reflexivity.
Qed.

Lemma legacy_extends_refl (db : SqliteVec.store) : legacy_extends db db.
Proof.
  split; [reflexivity|]. split; [|auto]. exists []. rewrite app_nil_r. reflexivity.
Qed.

Lemma legacy_extends_trans (d1 d2 d3 : SqliteVec.store) :
  legacy_extends d1 d2 -> legacy_extends d2 d3 -> legacy_extends d1 d3.
Proof.
  intros (Hp1 & (x1 & Hx1) & Hk1) (Hp2 & (x2 & Hx2) & Hk2).
  split; [congruence|]. split; [|auto].
  exists (x1 ++ x2). rewrite Hx2, Hx1, app_assoc. reflexivity.
Qed.

Lemma update_rows_keeps (A B : Type) (key : A -> B) (sel : A -> bool)
    (upd : A -> result A) (rows rows' : list A) :
  (forall r r', upd r = Ok r' -> key r' = key r) ->
  update_rows sel upd rows = Ok rows' -> map key rows' = map key rows.
Proof.
  intros Hupd. revert rows'. induction rows as [|r rest IH]; simpl; intros rows' H.
  - inversion H. reflexivity.
  - destruct (sel r).
    + destruct (upd r) as [r1|err] eqn:E; [|discriminate].
      destruct (update_rows sel upd rest) as [rest'|err]; [|discriminate].
      inversion H. simpl. rewrite (Hupd _ _ E), (IH rest' eq_refl). reflexivity.
    + destruct (update_rows sel upd rest) as [rest'|err]; [|discriminate].
      inversion H. simpl. rewrite (IH rest' eq_refl). reflexivity.
Qed.

Lemma map_id_of_identity (A : Type) (rc : A -> record) (l l' : list A) :
  map (fun r => record_identity (rc r)) l' = map (fun r => record_identity (rc r)) l ->
  map (fun r => r_id (rc r)) l' = map (fun r => r_id (rc r)) l.
Proof.
  intros H. apply (f_equal (map (fun x : Z * Z * string => fst (fst x)))) in H.
  rewrite !map_map in H. exact H.
Qed.

Lemma Libsql_exec_update_stays (id : Z) (upd : Libsql.row -> result Libsql.row) :
  (forall r r', upd r = Ok r' ->
                record_identity (Libsql.rec r') = record_identity (Libsql.rec r)) ->
  stays native_extends (Libsql.exec_update id upd).
Proof.
  intros Hupd db. unfold Libsql.exec_update.
  destruct (update_rows (Libsql.has_id id) upd (Libsql.records db)) as [rows'|err] eqn:E;
    cbn [snd]; [|apply native_extends_refl].
  pose proof (update_rows_keeps _ _ (fun r => record_identity (Libsql.rec r))
                _ _ _ _ Hupd E) as Hkeep.
  split; [reflexivity|]. cbn [Libsql.records]. split.
  - exists []. rewrite app_nil_r. exact Hkeep.
  - rewrite (map_id_of_identity _ Libsql.rec _ _ Hkeep). auto.
Qed.

Lemma Libsql_set_by_id_identity (a : upsert_args) (e : embedding) (now : string)
    (r r' : Libsql.row) :
  Libsql.set_by_id a e now r = Ok r' ->
  record_identity (Libsql.rec r') = record_identity (Libsql.rec r).
Proof.
  unfold Libsql.set_by_id, rbind.
  destruct (check_kind _); [|discriminate]. destruct (check_title _); [|discriminate].
  destruct (check_status _); [|discriminate]. destruct (check_dim _); [|discriminate].
  intros H. inversion H. reflexivity.
Qed.

Lemma Libsql_set_dedup_identity (a : upsert_args) (e : embedding) (now : string)
    (r r' : Libsql.row) :
  Libsql.set_dedup a e now r = Ok r' ->
  record_identity (Libsql.rec r') = record_identity (Libsql.rec r).
Proof.
  unfold Libsql.set_dedup, rbind.
  destruct (check_title _); [|discriminate].
  destruct (check_status _); [|discriminate]. destruct (check_dim _); [|discriminate].
  intros H. inversion H. reflexivity.
Qed.

Lemma next_id_not_in (ids : list Z) (s : Z) :
  existsb (Z.eqb (Z.max s (list_max_id ids) + 1)) ids = false.
Proof.
  destruct (existsb _ ids) eqn:E; auto. exfalso.
  apply existsb_exists in E. destruct E as (id & Hin & Heq).
  apply Z.eqb_eq in Heq. pose proof (list_max_id_bound _ _ Hin). lia.
Qed.

Lemma Libsql_exec_insert_stays (proj : Z) (a : upsert_args) (e : embedding)
    (now : string) :
  stays native_extends (Libsql.exec_insert proj a e now).
Proof.
  intros db. unfold Libsql.exec_insert, rbind.
  destruct (check_kind _); [|apply native_extends_refl].
  destruct (check_title _); [|apply native_extends_refl].
  destruct (check_status _); [|apply native_extends_refl].
  destruct (check_dim _); [|apply native_extends_refl].
  cbn [snd]. split; [reflexivity|]. cbn [Libsql.records]. split.
  - eexists. rewrite map_app. reflexivity.
  - intros Hd. rewrite map_app. cbn [map Libsql.rec r_id].
    apply distinct_ids_snoc; [assumption|]. apply next_id_not_in.
Qed.

Lemma Libsql_upsert_stays (f : faults) (cur : option project) (a : upsert_args)
    (e : embedding) (now : string) :
  stays native_extends (Libsql.upsert f cur a e now).
Proof.
  assert (Hget : forall id, stays native_extends (guarded f ReadBack (Libsql.get id))).
  { intros id. apply stays_guarded; [apply native_extends_refl|].
    apply stays_read; [apply native_extends_refl | reflexivity]. }
  intros db. unfold Libsql.upsert.
  destruct (resolve_project cur (a_projectId a)) as [proj|err];
    [|apply native_extends_refl].
  destruct (truthy_id (a_id a)).
  - apply (stays_bind _ native_extends native_extends_trans).
    + apply stays_guarded; [apply native_extends_refl|].
      apply Libsql_exec_update_stays. apply Libsql_set_by_id_identity.
    + intros _. apply Hget.
  - apply (stays_bind _ native_extends native_extends_trans).
    + apply stays_guarded; [apply native_extends_refl|].
      apply stays_read; [apply native_extends_refl|].
      intros s. unfold Libsql.dedup_candidates. destruct (check_dim e); reflexivity.
    + intros candidates. destruct (find _ candidates) as [c|].
      * apply (stays_bind _ native_extends native_extends_trans).
        -- apply stays_guarded; [apply native_extends_refl|].
           apply Libsql_exec_update_stays. apply Libsql_set_dedup_identity.
        -- intros _. apply Hget.
      * apply (stays_bind _ native_extends native_extends_trans).
        -- apply stays_guarded; [apply native_extends_refl|].
           apply Libsql_exec_insert_stays.
        -- intros newId. apply Hget.
Qed.

Lemma SqliteVec_exec_update_stays (id : Z) (upd : record -> result record) :
  (forall r r', upd r = Ok r' -> record_identity r' = record_identity r) ->
  stays legacy_extends (SqliteVec.exec_update id upd).
Proof.
  intros Hupd db. unfold SqliteVec.exec_update.
  destruct (update_rows (SqliteVec.has_id id) upd (SqliteVec.records db))
    as [rows'|err] eqn:E; cbn [snd]; [|apply legacy_extends_refl].
  pose proof (update_rows_keeps _ _ record_identity _ _ _ _ Hupd E) as Hkeep.
  split; [reflexivity|]. cbn [SqliteVec.records]. split.
  - exists []. rewrite app_nil_r. exact Hkeep.
  - pose proof (map_id_of_identity _ (fun r : record => r) _ _ Hkeep) as Hids.
    change (map r_id rows' = map r_id (SqliteVec.records db)) in Hids.
    rewrite Hids. auto.
Qed.

Lemma SqliteVec_set_by_id_identity (a : upsert_args) (now : string) (r r' : record) :
  SqliteVec.set_by_id a now r = Ok r' -> record_identity r' = record_identity r.
Proof.
  unfold SqliteVec.set_by_id, rbind.
  destruct (check_kind _); [|discriminate]. destruct (check_title _); [|discriminate].
  destruct (check_status _); [|discriminate].
  intros H. inversion H. reflexivity.
Qed.

Lemma SqliteVec_set_dedup_identity (a : upsert_args) (now : string) (r r' : record) :
  SqliteVec.set_dedup a now r = Ok r' -> record_identity r' = record_identity r.
Proof.
  unfold SqliteVec.set_dedup, rbind.
  destruct (check_title _); [|discriminate]. destruct (check_status _); [|discriminate].
  intros H. inversion H. reflexivity.
Qed.

Lemma SqliteVec_exec_insert_stays (proj : Z) (a : upsert_args) (now : string) :
  stays legacy_extends (SqliteVec.exec_insert proj a now).
Proof.
  intros db. unfold SqliteVec.exec_insert, rbind.
  destruct (check_kind _); [|apply legacy_extends_refl].
  destruct (check_title _); [|apply legacy_extends_refl].
  destruct (check_status _); [|apply legacy_extends_refl].
  destruct (existsb _ (SqliteVec.projects db)); [|apply legacy_extends_refl].
  cbn [snd]. split; [reflexivity|]. cbn [SqliteVec.records]. split.
  - eexists. rewrite map_app. reflexivity.
  - intros Hd. rewrite map_app. cbn [map r_id].
    apply distinct_ids_snoc; [assumption|]. apply next_id_not_in.
Qed.

Lemma SqliteVec_embedding_steps_stay (f : faults) (id : Z) (e : embedding)
    (A : Type) (k : M SqliteVec.store A) :
  stays legacy_extends k ->
  stays legacy_extends
    (guarded f DeleteEmbedding (SqliteVec.exec_delete_embedding id) ;;;
     guarded f InsertEmbedding (SqliteVec.exec_insert_embedding id e) ;;; k).
Proof.
  intros Hk.
  apply (stays_bind _ legacy_extends legacy_extends_trans).
  - apply stays_guarded; [apply legacy_extends_refl|]. intros s.
    unfold SqliteVec.exec_delete_embedding. cbn [snd].
    split; [reflexivity|]. split; [exists []; rewrite app_nil_r; reflexivity | auto].
  - intros _. apply (stays_bind _ legacy_extends legacy_extends_trans).
    + apply stays_guarded; [apply legacy_extends_refl|]. intros s.
      unfold SqliteVec.exec_insert_embedding.
      destruct (check_dim e); [|apply legacy_extends_refl].
      destruct (existsb _ _); [apply legacy_extends_refl|]. cbn [snd].
      split; [reflexivity|]. split; [exists []; rewrite app_nil_r; reflexivity | auto].
    + intros _. exact Hk.
Qed.

Lemma SqliteVec_upsert_stays (f : faults) (cur : option project) (a : upsert_args)
    (e : embedding) (now : string) :
  stays legacy_extends (SqliteVec.upsert f cur a e now).
Proof.
  assert (Hget : forall id,
             stays legacy_extends (guarded f ReadBack (SqliteVec._getRecord id))).
  { intros id. apply stays_guarded; [apply legacy_extends_refl|].
    apply stays_read; [apply legacy_extends_refl | reflexivity]. }
  assert (Hins : forall proj,
             stays legacy_extends
               (newId <- guarded f InsertRecord (SqliteVec.exec_insert proj a now) ;;
                guarded f InsertEmbedding (SqliteVec.exec_insert_embedding newId e) ;;;
                guarded f ReadBack (SqliteVec._getRecord newId))).
  { intros proj. apply (stays_bind _ legacy_extends legacy_extends_trans).
    - apply stays_guarded; [apply legacy_extends_refl|].
      apply SqliteVec_exec_insert_stays.
    - intros newId. apply (stays_bind _ legacy_extends legacy_extends_trans).
      + apply stays_guarded; [apply legacy_extends_refl|]. intros s.
        unfold SqliteVec.exec_insert_embedding.
        destruct (check_dim e); [|apply legacy_extends_refl].
        destruct (existsb _ _); [apply legacy_extends_refl|]. cbn [snd].
        split; [reflexivity|].
        split; [exists []; rewrite app_nil_r; reflexivity | auto].
      + intros _. apply Hget. }
  intros db. unfold SqliteVec.upsert.
  destruct (resolve_project cur (a_projectId a)) as [proj|err];
    [|apply legacy_extends_refl].
  apply (stays_transaction _ legacy_extends legacy_extends_refl).
  unfold SqliteVec.upsert_body. destruct (truthy_id (a_id a)).
  - apply (stays_bind _ legacy_extends legacy_extends_trans).
    + apply stays_guarded; [apply legacy_extends_refl|].
      apply SqliteVec_exec_update_stays. apply SqliteVec_set_by_id_identity.
    + intros _. apply SqliteVec_embedding_steps_stay. apply Hget.
  - apply (stays_bind _ legacy_extends legacy_extends_trans).
    + apply stays_guarded; [apply legacy_extends_refl|].
      apply stays_read; [apply legacy_extends_refl|].
      intros s. unfold SqliteVec.dedup_candidates. destruct (check_dim e); reflexivity.
    + intros candidates. destruct candidates as [|c rest]; [apply Hins|].
      destruct (Qleb (snd c) (15 # 100)); [|apply Hins].
      apply (stays_bind _ legacy_extends legacy_extends_trans).
      * apply stays_guarded; [apply legacy_extends_refl|].
        apply SqliteVec_exec_update_stays. apply SqliteVec_set_dedup_identity.
      * intros _. apply SqliteVec_embedding_steps_stay. apply Hget.
Qed.

(** X12.  What [upsert] never does, for every call, every store and
    every storage fault: it never touches the project table; it never
    removes or reorders a record, never changes the id, the project or the
    creation time of a stored record (new rows only ever follow the old
    ones); and it never makes two records share an id.  In both
    adapters. *)
Theorem upsert_never_removes_or_rekeys_records :
  forall (f : faults) (cur : option project) (a : upsert_args) (e : embedding)
         (now : string),
    (forall db : Libsql.store,
        native_extends db (snd (Libsql.upsert f cur a e now db)))
    /\ (forall db : SqliteVec.store,
        legacy_extends db (snd (SqliteVec.upsert f cur a e now db))).
Proof.
  intros f cur a e now. split; intros db.
  - apply Libsql_upsert_stays.
  - apply SqliteVec_upsert_stays.
Qed.

(** ** The text order of timestamps, and the rows a [LIMIT] cuts off *)

Lemma string_compare_refl (a : string) : String.compare a a = Eq.
Proof.
  induction a as [|c a IH]; simpl; auto.
  unfold Ascii.compare. rewrite N.compare_refl. assumption.
Qed.

Lemma string_compare_lt_trans (a b c : string) :
  String.compare a b = Lt -> String.compare b c = Lt -> String.compare a c = Lt.
Proof.
  revert b c. induction a as [|x a IH]; intros [|y b] [|z c]; simpl; try congruence.
  unfold Ascii.compare.
  destruct (N.compare_spec (Ascii.N_of_ascii x) (Ascii.N_of_ascii y)) as [Hxy|Hxy|Hxy];
    destruct (N.compare_spec (Ascii.N_of_ascii y) (Ascii.N_of_ascii z)) as [Hyz|Hyz|Hyz];
    try congruence; intros H1 H2.
  - rewrite Hxy, Hyz, N.compare_refl. apply (IH b c); assumption.
  - rewrite Hxy. apply N.compare_lt_iff in Hyz. rewrite Hyz. reflexivity.
  - rewrite <- Hyz. apply N.compare_lt_iff in Hxy. rewrite Hxy. reflexivity.
  - assert (Hxz : (Ascii.N_of_ascii x < Ascii.N_of_ascii z)%N) by lia.
    apply N.compare_lt_iff in Hxz. rewrite Hxz. reflexivity.
Qed.

Lemma string_leb_cases (a b : string) :
  String.leb a b = true <-> a = b \/ String.compare a b = Lt.
Proof.
  unfold String.leb. split.
  - destruct (String.compare a b) eqn:E; intros H; try discriminate; auto.
    left. apply String.compare_eq_iff. assumption.
  - intros [->|H]; [rewrite string_compare_refl | rewrite H]; reflexivity.
Qed.

Lemma string_leb_trans (a b c : string) :
  String.leb a b = true -> String.leb b c = true -> String.leb a c = true.
Proof.
  rewrite !string_leb_cases. intros [->|H1] [->|H2]; auto.
  right. apply (string_compare_lt_trans a b c); assumption.
Qed.

Lemma In_skipped (A : Type) (n : nat) (l : list A) (x : A) :
  In x (skipn n l) -> In x l.
Proof.
  revert l. induction n as [|n IH]; intros l H; [exact H|].
  destruct l as [|h t]; [contradiction|]. right. apply IH. exact H.
Qed.

Section Cut.
Variable A : Type.
Variable le : A -> A -> bool.
Hypothesis le_trans : forall a b c, le a b = true -> le b c = true -> le a c = true.

Lemma sorted_head_first (x : A) (l : list A) :
  sorted_by le (x :: l) = true -> forall y, In y l -> le x y = true.
Proof.
  revert x. induction l as [|h t IH]; intros x Hs y Hy; [contradiction|].
  rewrite sorted_by_cons in Hs. apply andb_true_iff in Hs. destruct Hs as [Hxh Ht].
  destruct Hy as [<-|Hy]; [assumption|].
  apply (le_trans x h y); [assumption | apply IH; assumption].
Qed.

Lemma sorted_cut (n : nat) (l : list A) :
  sorted_by le l = true ->
  forall a b, In a (firstn n l) -> In b (skipn n l) -> le a b = true.
Proof.
  revert l. induction n as [|n IH]; intros l Hs a b Ha Hb; [contradiction|].
  destruct l as [|x t]; [contradiction|]. cbn [firstn skipn] in *.
  destruct Ha as [<-|Ha].
  - apply (sorted_head_first x t Hs). apply (In_skipped _ _ _ _ Hb).
  - apply (IH t); auto. apply (sorted_by_tail _ le x t Hs).
Qed.

End Cut.

Section TopRows.
Variable A : Type.
Variable le : A -> A -> bool.
Hypothesis le_total : forall a b, le a b = false -> le b a = true.
Hypothesis le_trans : forall a b c, le a b = true -> le b c = true -> le a c = true.

(** [WHERE P ORDER BY le LIMIT n] over the rows [l]. *)
Lemma top_rows_spec (P : A -> bool) (n : nat) (l : list A) :
  let rows := firstn n (sort_by le (filter P l)) in
  (List.length rows <= n)%nat
  /\ sorted_by le rows = true
  /\ (forall v, In v rows -> In v l /\ P v = true)
  /\ (forall w, In w l -> P w = true -> ~ In w rows ->
                List.length rows = n /\ forall v, In v rows -> le v w = true).
Proof.
  intros rows. subst rows.
  pose proof (sort_by_sorted _ le le_total (filter P l)) as Hsorted.
  split; [apply firstn_le_length|].
  split; [apply sorted_by_firstn; assumption|].
  split.
  - intros v Hv. apply In_firstn in Hv. apply (proj1 (In_sort_by _ le _ _)) in Hv.
    apply filter_In in Hv. assumption.
  - intros w Hw HP Hnot.
    assert (Hin : In w (sort_by le (filter P l))).
    { apply (proj2 (In_sort_by _ le _ _)). apply filter_In. auto. }
    rewrite <- (firstn_skipn n (sort_by le (filter P l))) in Hin.
    apply in_app_or in Hin. destruct Hin as [Hin|Hin]; [contradiction|].
    split.
    + assert (Hlen : (n < List.length (sort_by le (filter P l)))%nat).
      { destruct (Nat.lt_ge_cases n (List.length (sort_by le (filter P l))))
          as [Hlt|Hge]; [assumption|].
        rewrite (skipn_all2 _ Hge) in Hin. contradiction. }
      apply firstn_length_le. apply Nat.lt_le_incl. assumption.
    + intros v Hv. apply (sorted_cut _ le le_trans n _ Hsorted v w Hv Hin).
Qed.

End TopRows.

Lemma newest_first_total (a b : record_view) :
  newest_first a b = false -> newest_first b a = true.
Proof. unfold newest_first. apply string_leb_total. Qed.

Lemma newest_first_trans (a b c : record_view) :
  newest_first a b = true -> newest_first b c = true -> newest_first a c = true.
Proof.
  unfold newest_first. intros H1 H2.
  apply (string_leb_trans _ (r_updated_at (rv_record b))); assumption.
Qed.

(** X13.  [getRecentRecords(projectId, hours)] in both adapters (and in
    src/db.js): at most ten rows, ordered by [updated_at] from new to
    old; every row is a record of the project, joined to its project,
    whose [updated_at] is strictly after the cutoff; and if a record of
    the project that is newer than the cutoff is not returned, then ten
    rows are returned and each of them is at least as recent. *)
Theorem getRecentRecords_returns_the_ten_newest :
  forall (projectId : Z) (cutoff : string),
    (forall db : Libsql.store,
        let rows := LibsqlAdapter.getRecentRecords projectId cutoff db in
        (List.length rows <= 10)%nat
        /\ sorted_by newest_first rows = true
        /\ (forall v, In v rows ->
              In v (Libsql.list_rows db None None None)
              /\ r_project_id (rv_record v) = projectId
              /\ String.ltb cutoff (r_updated_at (rv_record v)) = true)
        /\ (forall w, In w (Libsql.list_rows db None None None) ->
              r_project_id (rv_record w) = projectId ->
              String.ltb cutoff (r_updated_at (rv_record w)) = true ->
              ~ In w rows ->
              List.length rows = 10%nat
              /\ forall v, In v rows -> newest_first v w = true))
    /\ (forall db : SqliteVec.store,
        let rows := SqliteVecAdapter.getRecentRecords projectId cutoff db in
        (List.length rows <= 10)%nat
        /\ sorted_by newest_first rows = true
        /\ (forall v, In v rows ->
              In v (SqliteVec.list_rows db None None None)
              /\ r_project_id (rv_record v) = projectId
              /\ String.ltb cutoff (r_updated_at (rv_record v)) = true)
        /\ (forall w, In w (SqliteVec.list_rows db None None None) ->
              r_project_id (rv_record w) = projectId ->
              String.ltb cutoff (r_updated_at (rv_record w)) = true ->
              ~ In w rows ->
              List.length rows = 10%nat
              /\ forall v, In v rows -> newest_first v w = true)).
Proof.
  intros projectId cutoff. split; intros db rows; subst rows.
  - destruct (top_rows_spec _ newest_first newest_first_total newest_first_trans
                (fun v => Z.eqb (r_project_id (rv_record v)) projectId
                          && String.ltb cutoff (r_updated_at (rv_record v)))
                10 (map Libsql.view_of
                      (flat_map (Libsql.join_project db) (Libsql.records db))))
      as (Hlen & Hsorted & Hsound & Hcomplete).
    unfold LibsqlAdapter.getRecentRecords.
    split; [exact Hlen|]. split; [exact Hsorted|]. split.
    + intros v Hv. destruct (Hsound v Hv) as [Hin HP].
      apply andb_true_iff in HP. destruct HP as [Hp Hc]. apply Z.eqb_eq in Hp.
      split; [|auto]. unfold Libsql.list_rows. cbn [truthy_id filter_active].
      apply (proj2 (In_sort_by _ _ _ _)). exact Hin.
    + intros w Hw Hp Hc Hnot. apply Hcomplete; [| |exact Hnot].
      * unfold Libsql.list_rows in Hw. cbn [truthy_id filter_active] in Hw.
        apply (proj1 (In_sort_by _ _ _ _)) in Hw. exact Hw.
      * rewrite Hc, Hp, Z.eqb_refl. reflexivity.
  - destruct (top_rows_spec _ newest_first newest_first_total newest_first_trans
                (fun v => Z.eqb (r_project_id (rv_record v)) projectId
                          && String.ltb cutoff (r_updated_at (rv_record v)))
                10 (flat_map (SqliteVec.join_project db) (SqliteVec.records db)))
      as (Hlen & Hsorted & Hsound & Hcomplete).
    unfold SqliteVecAdapter.getRecentRecords.
    split; [exact Hlen|]. split; [exact Hsorted|]. split.
    + intros v Hv. destruct (Hsound v Hv) as [Hin HP].
      apply andb_true_iff in HP. destruct HP as [Hp Hc]. apply Z.eqb_eq in Hp.
      split; [|auto]. unfold SqliteVec.list_rows. cbn [truthy_id filter_active].
      apply (proj2 (In_sort_by _ _ _ _)). exact Hin.
    + intros w Hw Hp Hc Hnot. apply Hcomplete; [| |exact Hnot].
      * unfold SqliteVec.list_rows in Hw. cbn [truthy_id filter_active] in Hw.
        apply (proj1 (In_sort_by _ _ _ _)) in Hw. exact Hw.
      * rewrite Hc, Hp, Z.eqb_refl. reflexivity.
Qed.

(** ** The migrated database answers as the legacy one did *)

Lemma migrateFromDb_into_empty (old : SqliteVec.store) :
  legacy_schema_ok old = true ->
  Migrate.migrateFromDb (old, Libsql.empty)
  = (Ok (Migrate.mkStats
           (List.length (SqliteVec.projects old))
           (List.length (SqliteVec.records old))
           (List.length (filter (has_embedding_row old) (SqliteVec.records old)))),
     (old, Libsql.mkStore (SqliteVec.projects old)
             (map (migrated_row old) (SqliteVec.records old))
             (seq_after (SqliteVec.records old) 0))).
Proof.
  intros Hok. unfold legacy_schema_ok in Hok.
  apply andb_true_iff in Hok. destruct Hok as [Hok _].
  apply andb_true_iff in Hok. destruct Hok as [Hok Hdim].
  apply andb_true_iff in Hok. destruct Hok as [Hok Hrid].
  apply andb_true_iff in Hok. destruct Hok as [Hpid Hname].
  unfold Migrate.migrateFromDb.
  unfold bind at 1. unfold Migrate.execute_new at 1, Migrate.createSchema.
  cbn [fst snd].
  unfold bind at 1. unfold Migrate.query_old at 1. cbn [fst snd].
  unfold bind at 1.
  rewrite migrate_projects_appends by (simpl; assumption).
  unfold bind at 1. unfold Migrate.query_old at 1. cbn [fst snd].
  unfold bind at 1.
  rewrite (migrate_records_appends old (SqliteVec.records old) Hdim)
    by (simpl; assumption).
  unfold ret. cbn [Libsql.projects Libsql.records Libsql.seq Libsql.empty app plus].
  reflexivity.
Qed.

Lemma migrated_rows_selected (old : SqliteVec.store) (id : Z) (l : list record) :
  filter (Libsql.has_id id) (map (migrated_row old) l)
  = map (migrated_row old) (filter (SqliteVec.has_id id) l).
Proof.
  induction l as [|r t IH]; simpl; auto.
  unfold Libsql.has_id at 1, SqliteVec.has_id at 1. cbn [migrated_row Libsql.rec].
  destruct (Z.eqb (r_id r) id); simpl; rewrite IH; reflexivity.
Qed.

Lemma migrated_rows_joined (old : SqliteVec.store) (db : Libsql.store)
    (l : list record) :
  Libsql.projects db = SqliteVec.projects old ->
  map Libsql.view_of (flat_map (Libsql.join_project db) (map (migrated_row old) l))
  = flat_map (SqliteVec.join_project old) l.
Proof.
  intros Hp. induction l as [|r t IH]; simpl; auto.
  rewrite map_app, IH. f_equal.
  unfold Libsql.join_project, SqliteVec.join_project. rewrite Hp, map_map.
  reflexivity.
Qed.

Lemma seq_after_bound (rs : list record) (s : Z) :
  (s <= seq_after rs s)%Z
  /\ forall r, In r rs -> (r_id r <= seq_after rs s)%Z.
Proof.
  unfold seq_after. revert s. induction rs as [|h t IH]; intros s; simpl.
  - split; [lia | contradiction].
  - destruct (IH (Z.max s (r_id h))) as [Hs Hin]. split; [lia|].
    intros r [<-|Hr]; [lia | apply Hin; assumption].
Qed.

(** X14.  After [migrateFromDb] has copied a legacy database (as its
    schema keeps it) into a fresh native one, the native adapter answers
    as the legacy adapter did: [get] of every id, [list] with every
    resolved project and filter, [listProjects] and [getRecentRecords]
    agree; record ids are unique in the target, and the id given to the
    next inserted record is larger than every migrated id. *)
Theorem migrated_database_answers_as_legacy :
  forall old : SqliteVec.store,
    legacy_schema_ok old = true ->
    exists (s : Migrate.stats) (new' : Libsql.store),
      Migrate.migrateFromDb (old, Libsql.empty) = (Ok s, (old, new'))
      /\ (forall id, fst (Libsql.get id new') = fst (SqliteVec._getRecord id old))
      /\ (forall pid kind status,
             Libsql.list_rows new' pid kind status
             = SqliteVec.list_rows old pid kind status)
      /\ (forall cur kind status project,
             fst (Libsql.list cur kind status project new')
             = fst (SqliteVec.list cur kind status project old))
      /\ (forall projectId cutoff,
             LibsqlAdapter.getRecentRecords projectId cutoff new'
             = SqliteVecAdapter.getRecentRecords projectId cutoff old)
      /\ (forall s1 s2,
             LibsqlAdapter.listProjects (LibsqlAdapter.mkDatabase new' s1)
             = SqliteVecAdapter.listProjects (SqliteVecAdapter.mkDatabase old s2))
      /\ native_keys_ok new' = true
      /\ (forall r, In r (Libsql.records new') ->
                    (r_id (Libsql.rec r) < Libsql.next_rowid new')%Z).
Proof.
  intros old Hok. eexists. eexists.
  split; [apply (migrateFromDb_into_empty old Hok)|].
  assert (Hjoin : map Libsql.view_of
                    (flat_map
                       (Libsql.join_project
                          (Libsql.mkStore (SqliteVec.projects old)
                             (map (migrated_row old) (SqliteVec.records old))
                             (seq_after (SqliteVec.records old) 0)))
                       (map (migrated_row old) (SqliteVec.records old)))
                  = flat_map (SqliteVec.join_project old) (SqliteVec.records old))
    by (apply migrated_rows_joined; reflexivity).
  assert (Hlist : forall pid kind status,
             Libsql.list_rows
               (Libsql.mkStore (SqliteVec.projects old)
                  (map (migrated_row old) (SqliteVec.records old))
                  (seq_after (SqliteVec.records old) 0)) pid kind status
             = SqliteVec.list_rows old pid kind status).
  { intros pid kind status. unfold Libsql.list_rows, SqliteVec.list_rows.
    cbn [Libsql.records]. rewrite Hjoin. reflexivity. }
  split; [|split; [|split; [|split; [|split; [|split]]]]].
  - intros id. unfold Libsql.get, SqliteVec._getRecord, Libsql.get_rows,
      SqliteVec.get_rows. cbn [fst Libsql.records].
    rewrite migrated_rows_selected, migrated_rows_joined by reflexivity. reflexivity.
  - exact Hlist.
  - intros cur kind status project. unfold Libsql.list, SqliteVec.list.
    unfold Libsql.list_project_id, SqliteVec.list_project_id. cbn [Libsql.projects].
    destruct project as [name|].
    + destruct (String.eqb name "" || String.eqb name "current").
      * destruct cur; cbn; [rewrite Hlist|]; reflexivity.
      * destruct (negb (String.eqb name "*")); cbn; rewrite Hlist; reflexivity.
    + destruct cur; cbn; [rewrite Hlist|]; reflexivity.
  - intros projectId cutoff.
    unfold LibsqlAdapter.getRecentRecords, SqliteVecAdapter.getRecentRecords.
    cbn [Libsql.records]. rewrite Hjoin. reflexivity.
  - intros s1 s2. reflexivity.
  - unfold native_keys_ok. cbn [Libsql.records]. rewrite map_map.
    cbn [migrated_row Libsql.rec].
    unfold legacy_schema_ok in Hok.
    apply andb_true_iff in Hok. destruct Hok as [Hok _].
    apply andb_true_iff in Hok. destruct Hok as [Hok _].
    apply andb_true_iff in Hok. destruct Hok as [_ Hrid]. exact Hrid.
  - intros r Hr. cbn [Libsql.records] in Hr. apply in_map_iff in Hr.
    destruct Hr as (r0 & <- & Hr0). cbn [migrated_row Libsql.rec].
    unfold Libsql.next_rowid. cbn [Libsql.seq].
    pose proof (proj2 (seq_after_bound (SqliteVec.records old) 0) r0 Hr0). lia.
Qed.

(** The store with one project and three records, two of them embedded,
    migrated: record 3 reads the same on both sides. *)
Lemma migrated_database_witness :
  exists (s : Migrate.stats) (new' : Libsql.store),
    Migrate.migrateFromDb (Fixtures.legacy3, Libsql.empty)
    = (Ok s, (Fixtures.legacy3, new'))
    /\ fst (Libsql.get 3 new') = fst (SqliteVec._getRecord 3 Fixtures.legacy3).
Proof.
  destruct (migrated_database_answers_as_legacy Fixtures.legacy3 eq_refl)
    as (s & new' & Hrun & Hget & _).
  exists s, new'. split; [exact Hrun | apply Hget].
Defined.

(** ** A second migration run, and the source in every run *)

Lemma same_source_trans (w1 w2 w3 : Migrate.world) :
  same_source w1 w2 -> same_source w2 w3 -> same_source w1 w3.
Proof. unfold same_source. congruence. Qed.

Lemma execute_new_same_source (A : Type) (m : M Libsql.store A) :
  stays same_source (Migrate.execute_new m).
Proof.
  intros w. unfold Migrate.execute_new. destruct (m (snd w)). reflexivity.
Qed.

Lemma migrate_projects_same_source (ps : list project) :
  stays same_source (Migrate.migrate_projects ps).
Proof.
  induction ps as [|p rest IH]; cbn [Migrate.migrate_projects].
  - intros w. reflexivity.
  - apply (stays_bind _ same_source same_source_trans).
    + apply execute_new_same_source.
    + intros _. exact IH.
Qed.

Lemma migrate_records_same_source (rs : list record) (n : nat) :
  stays same_source (Migrate.migrate_records rs n).
Proof.
  revert n. induction rs as [|r rest IH]; intros n; cbn [Migrate.migrate_records].
  - intros w. reflexivity.
  - apply (stays_bind _ same_source same_source_trans).
    + intros w. reflexivity.
    + intros [v|]; apply (stays_bind _ same_source same_source_trans);
        try apply execute_new_same_source; intros _; apply IH.
Qed.

Lemma migrateFromDb_same_source : stays same_source Migrate.migrateFromDb.
Proof.
  unfold Migrate.migrateFromDb.
  apply (stays_bind _ same_source same_source_trans);
    [apply execute_new_same_source|]. intros _.
  apply (stays_bind _ same_source same_source_trans); [intros w; reflexivity|].
  intros ps.
  apply (stays_bind _ same_source same_source_trans);
    [apply migrate_projects_same_source|]. intros _.
  apply (stays_bind _ same_source same_source_trans); [intros w; reflexivity|].
  intros rs.
  apply (stays_bind _ same_source same_source_trans);
    [apply migrate_records_same_source|]. intros n w. reflexivity.
Qed.

(** X15.  [migrateFromDb] is not repeatable, and it only reads its source.
    For a legacy database (as its schema keeps it) with at least one
    project: the first run into a fresh target succeeds; a second run into
    that target fails on its first [INSERT] with the primary-key conflict
    of [project.id] and leaves the target exactly as the first run left
    it.  And in every run, from whatever source into whatever target,
    failed or not, the source comes back unchanged. *)
Theorem migrateFromDb_second_run_fails_cleanly :
  forall old : SqliteVec.store,
    legacy_schema_ok old = true ->
    SqliteVec.projects old <> [] ->
    exists (s : Migrate.stats) (new' : Libsql.store),
      Migrate.migrateFromDb (old, Libsql.empty) = (Ok s, (old, new'))
      /\ Migrate.migrateFromDb (old, new')
         = (Err (UniqueFailed "project.id"), (old, new'))
      /\ forall (src : SqliteVec.store) (target : Libsql.store),
           fst (snd (Migrate.migrateFromDb (src, target))) = src.
Proof.
  intros old Hok Hne. eexists. eexists.
  split; [apply (migrateFromDb_into_empty old Hok)|]. split.
  - unfold Migrate.migrateFromDb.
    unfold bind at 1. unfold Migrate.execute_new at 1, Migrate.createSchema.
    cbn [fst snd].
    unfold bind at 1. unfold Migrate.query_old at 1. cbn [fst snd].
    destruct (SqliteVec.projects old) as [|p rest] eqn:Hps; [congruence|].
    unfold bind at 1. cbn [Migrate.migrate_projects].
    unfold bind at 1. unfold Migrate.execute_new at 1, Migrate.insert_project.
    cbn [fst snd Libsql.projects existsb]. rewrite Z.eqb_refl. reflexivity.
  - intros src target. apply (migrateFromDb_same_source (src, target)).
Qed.

(** The second run on the store with one project and three records. *)
Lemma migrateFromDb_second_run_witness :
  exists (s : Migrate.stats) (new' : Libsql.store),
    Migrate.migrateFromDb (Fixtures.legacy3, Libsql.empty)
    = (Ok s, (Fixtures.legacy3, new'))
    /\ Migrate.migrateFromDb (Fixtures.legacy3, new')
       = (Err (UniqueFailed "project.id"), (Fixtures.legacy3, new')).
Proof.
  destruct (migrateFromDb_second_run_fails_cleanly Fixtures.legacy3 eq_refl)
    as (s & new' & H1 & H2 & _).
  - discriminate.
  - exists s, new'. split; assumption.
Defined.

(** ** [initDb] after a start that succeeded *)

Section FactoryStartFacts.
Variable C : Type.

(** Forgetting what the files hold, [FactoryStart._autoMigrate] is
    [Factory._autoMigrate]. *)
Lemma FactoryStart_autoMigrate_seen (e : FactoryStart.env C)
    (fs : FactoryStart.files C) :
  Factory._autoMigrate (FactoryStart.base e) (FactoryStart.seen fs)
  = (fst (FactoryStart._autoMigrate e fs),
     FactoryStart.seen (snd (FactoryStart._autoMigrate e fs))).
Proof.
  unfold Factory._autoMigrate, FactoryStart._autoMigrate, FactoryStart.seen.
  destruct (Factory.import_error (FactoryStart.base e)); [reflexivity|].
  destruct (Factory.migrate_run (FactoryStart.base e)) as [st|msg partial].
  - cbn [FactoryStart.old_db FactoryStart.new_db FactoryStart.old_backup
         Factory.old_db Factory.new_db Factory.old_backup].
    destruct (FactoryStart.old_db fs);
      destruct (Factory.rename_fails (FactoryStart.base e)); reflexivity.
  - cbn [FactoryStart.old_db FactoryStart.new_db FactoryStart.old_backup
         Factory.old_db Factory.new_db Factory.old_backup].
    destruct (FactoryStart.new_db fs || partial);
      [destruct (Factory.unlink_fails (FactoryStart.base e))|]; reflexivity.
Qed.



End FactoryStartFacts.



(** ** Schema migrations of the sqlite-vec adapter *)

Section RunMigrations.
Variable D : Type.

Lemma max_version_ge (vs : list Z) (v : Z) :
  In v vs -> exists m, Migrations.max_version vs = Some m /\ (v <= m)%Z.
Proof.
  induction vs as [|h t IH]; intros Hin; [contradiction|]. cbn [Migrations.max_version].
  destruct Hin as [<-|Hin].
  - destruct (Migrations.max_version t) as [m|]; eexists; split; try reflexivity; lia.
  - destruct (IH Hin) as (m & -> & Hle). eexists. split; [reflexivity | lia].
Qed.

Lemma max_version_in (vs : list Z) (m : Z) :
  Migrations.max_version vs = Some m -> In m vs.
Proof.
  revert m. induction vs as [|h t IH]; intros m H; [discriminate|].
  cbn [Migrations.max_version] in H.
  destruct (Migrations.max_version t) as [m'|].
  - inversion H. destruct (Z.max_spec h m') as [[_ ->]|[_ ->]].
    + right. apply IH. reflexivity.
    + left. reflexivity.
  - inversion H. left. reflexivity.
Qed.

Lemma step_outcome (cur : Z) (m : Migrations.migration D)
    (s : Migrations.versioned D) :
  (exists e, Migrations.step cur m s = (Err e, s) /\ (cur < Migrations.version m)%Z)
  \/ (Migrations.step cur m s = (Ok tt, s) /\ (Migrations.version m <= cur)%Z)
  \/ (exists d',
         Migrations.step cur m s
         = (Ok tt, Migrations.mkVersioned
                     (Migrations.schema_version s ++ [Migrations.version m]) d')
         /\ (cur < Migrations.version m)%Z).
Proof.
  unfold Migrations.step. destruct (Z.ltb cur (Migrations.version m)) eqn:L.
  - apply Z.ltb_lt in L.
    unfold transaction, bind, Migrations.run_up, Migrations.record_version.
    destruct (Migrations.up m (Migrations.content s)) as [d'|e].
    + cbn [Migrations.schema_version Migrations.content].
      destruct (existsb _ _).
      * left. eexists. split; [reflexivity | assumption].
      * right. right. exists d'. split; [reflexivity | assumption].
    + left. eexists. split; [reflexivity | assumption].
  - apply Z.ltb_ge in L. right. left. split; [reflexivity | assumption].
Qed.

Lemma run_ok_inv (cur : Z) (ms : list (Migrations.migration D)) :
  forall s s',
    Migrations.run cur ms s = (Ok tt, s') ->
    (forall v, In v (Migrations.schema_version s) -> In v (Migrations.schema_version s'))
    /\ (forall m, In m ms -> (cur < Migrations.version m)%Z ->
                  In (Migrations.version m) (Migrations.schema_version s'))
    /\ (forall v, In v (Migrations.schema_version s') ->
                  In v (Migrations.schema_version s) \/ (cur < v)%Z).
Proof.
  induction ms as [|m rest IH]; intros s s' H.
  - inversion H; subst s'. repeat split; auto. contradiction.
  - cbn [Migrations.run] in H. unfold bind in H.
    destruct (step_outcome cur m s) as [(e & E & _)|[[E Hle]|(d' & E & Hlt)]];
      rewrite E in H; [discriminate| |].
    + destruct (IH _ _ H) as (H1 & H2 & H3). split; [assumption|]. split; [|assumption].
      intros m' [<-|Hin] Hlt; [lia | apply H2; assumption].
    + destruct (IH _ _ H) as (H1 & H2 & H3).
      cbn [Migrations.schema_version] in *. split; [|split].
      * intros v Hv. apply H1. apply in_or_app. auto.
      * intros m' [<-|Hin] Hlt'; [|apply H2; assumption].
        apply H1. apply in_or_app. right. left. reflexivity.
      * intros v Hv. destruct (H3 v Hv) as [Hold|Hnew]; [|auto].
        apply in_app_or in Hold. destruct Hold as [Hold|[<-|[]]]; auto.
Qed.

Lemma run_skips (cur : Z) (ms : list (Migrations.migration D))
    (s : Migrations.versioned D) :
  (forall m, In m ms -> (Migrations.version m <= cur)%Z) ->
  Migrations.run cur ms s = (Ok tt, s).
Proof.
  induction ms as [|m rest IH]; intros H; [reflexivity|].
  cbn [Migrations.run]. unfold bind, Migrations.step.
  assert (L : Z.ltb cur (Migrations.version m) = false)
    by (apply Z.ltb_ge; apply H; left; reflexivity).
  rewrite L. cbn. apply IH. intros m' Hm'. apply H. right. assumption.
Qed.

Lemma run_failure (cur : Z) (ms : list (Migrations.migration D)) :
  forall s s' e,
    Migrations.run cur ms s = (Err e, s') ->
    exists ms1 m ms2,
      ms = ms1 ++ m :: ms2
      /\ Migrations.run cur ms1 s = (Ok tt, s')
      /\ (cur < Migrations.version m)%Z
      /\ Migrations.step cur m s' = (Err e, s').
Proof.
  induction ms as [|m rest IH]; intros s s' e H; [discriminate|].
  cbn [Migrations.run] in H. unfold bind in H.
  destruct (step_outcome cur m s) as [(e' & E & Hlt)|[[E Hle]|(d' & E & Hlt)]];
    rewrite E in H.
  - inversion H; subst. exists [], m, rest. repeat split; auto.
  - destruct (IH _ _ _ H) as (ms1 & m' & ms2 & -> & Hrun & Hlt & Hstep).
    exists (m :: ms1), m', ms2. split; [reflexivity|]. split; [|auto].
    cbn [Migrations.run]. unfold bind. rewrite E. exact Hrun.
  - destruct (IH _ _ _ H) as (ms1 & m' & ms2 & -> & Hrun & Hlt' & Hstep).
    exists (m :: ms1), m', ms2. split; [reflexivity|]. split; [|auto].
    cbn [Migrations.run]. unfold bind. rewrite E. exact Hrun.
Qed.

(** X17.  [_runMigrations], for any migration modules in any file order.
    A run that succeeded leaves nothing to do: run again on the state it
    left, it applies no migration and changes nothing.  A run that fails
    stops at the failing module and leaves the database exactly as the
    modules before it left it: the failing module's own changes are rolled
    back with its version row, the modules after it are not run, and the
    error is the failing module's. *)
Theorem runMigrations_settles_or_stops_cleanly :
  forall (ms : list (Migrations.migration D)) (s : Migrations.versioned D),
    (forall s',
        Migrations._runMigrations ms s = (Ok tt, s') ->
        Migrations._runMigrations ms s' = (Ok tt, s'))
    /\ (forall e s',
        Migrations._runMigrations ms s = (Err e, s') ->
        exists ms1 m ms2,
          ms = ms1 ++ m :: ms2
          /\ Migrations.run (Migrations.currentVersion s) ms1 s = (Ok tt, s')
          /\ (Migrations.currentVersion s < Migrations.version m)%Z
          /\ Migrations.step (Migrations.currentVersion s) m s' = (Err e, s')).
Proof.
  intros ms s. split.
  - unfold Migrations._runMigrations. intros s' H.
    destruct (run_ok_inv _ _ _ _ H) as (Hkeep & Hdone & Hnew).
    apply run_skips. intros m Hm.
    destruct (Z.lt_ge_cases (Migrations.currentVersion s) (Migrations.version m))
      as [Hlt|Hge].
    + destruct (max_version_ge _ _ (Hdone m Hm Hlt)) as (mx & Hmx & Hle).
      unfold Migrations.currentVersion at 1. rewrite Hmx. exact Hle.
    + apply (Z.le_trans _ (Migrations.currentVersion s)); [assumption|].
      unfold Migrations.currentVersion.
      destruct (Migrations.max_version (Migrations.schema_version s)) as [c|] eqn:Hc.
      * destruct (max_version_ge _ _ (Hkeep c (max_version_in _ _ Hc)))
          as (mx & -> & Hle). exact Hle.
      * destruct (Migrations.max_version (Migrations.schema_version s')) as [c'|] eqn:Hc';
          [|lia].
        destruct (Hnew c' (max_version_in _ _ Hc')) as [Hold|Hgt].
        -- destruct (max_version_ge _ _ Hold) as (mx & Hmx & _). congruence.
        -- unfold Migrations.currentVersion in Hgt. rewrite Hc in Hgt. lia.
  - unfold Migrations._runMigrations. intros e s' H. apply run_failure. exact H.
Qed.

End RunMigrations.

(** Two modules (versions 1 and 2) on a new database whose content is the
    list of its tables: the first run applies both, the second none. *)
Lemma runMigrations_witness :
  exists s',
    Migrations._runMigrations
      [Migrations.mkMigration 1 (fun d : list string => Ok (d ++ ["project"%string; "record"%string]));
       Migrations.mkMigration 2 (fun d : list string => Ok (d ++ ["record_v2"%string]))]
      (Migrations.mkVersioned [] [])
    = (Ok tt, s')
    /\ Migrations.schema_version s' = [1; 2]%Z
    /\ Migrations._runMigrations
         [Migrations.mkMigration 1 (fun d : list string => Ok (d ++ ["project"%string; "record"%string]));
          Migrations.mkMigration 2 (fun d : list string => Ok (d ++ ["record_v2"%string]))]
         s'
       = (Ok tt, s').
Proof.
  pose proof
    (proj1 (runMigrations_settles_or_stops_cleanly (list string)
              [Migrations.mkMigration 1
                 (fun d : list string => Ok (d ++ ["project"%string; "record"%string]));
               Migrations.mkMigration 2
                 (fun d : list string => Ok (d ++ ["record_v2"%string]))]
              (Migrations.mkVersioned [] []))) as Hsettled.
  eexists. split; [reflexivity|]. split; [reflexivity|].
  apply Hsettled. reflexivity.
Defined.

(** ** [upsert] when nothing stored is close *)

Lemma normalized_has_dimension (e : embedding) :
  normalized e = true -> dim_ok e = true.
Proof.
  unfold normalized. intros H. apply andb_true_iff in H. tauto.
Qed.

Lemma find_nothing (A : Type) (f : A -> bool) (l : list A) :
  (forall x, In x l -> f x = false) -> find f l = None.
Proof.
  induction l as [|h t IH]; simpl; intros H; auto.
  rewrite (H h) by auto. apply IH. auto.
Qed.

Lemma Libsql_no_candidate_close (db : Libsql.store) (proj : Z) (kind : string)
    (e : embedding) (ids : list Z) :
  native_nothing_close db proj kind e = true ->
  find (fun c : Z * option embedding =>
          Qleb (85 # 100) (Libsql._computeSimilarity e (snd c)))
       (map (fun r => (r_id (Libsql.rec r), Libsql.emb r))
          (filter (fun r => Z.eqb (r_project_id (Libsql.rec r)) proj
                            && String.eqb (kind_to_string (r_kind (Libsql.rec r))) kind)
             (Libsql.join_record db ids)))
  = None.
Proof.
  intros Hfar. apply find_nothing. intros c Hc.
  apply Libsql_candidate_row in Hc. destruct Hc as (r & Hr & -> & Hp & Hk).
  unfold native_nothing_close in Hfar. rewrite forallb_forall in Hfar.
  specialize (Hfar r Hr). apply negb_true_iff in Hfar.
  rewrite Hp, Z.eqb_refl, Hk in Hfar. exact Hfar.
Qed.

Lemma SqliteVec_no_candidate_close (db : SqliteVec.store) (proj : Z) (kind : string)
    (e : embedding) (c : Z * Q) (n : nat) :
  legacy_nothing_close db proj kind e = true ->
  In c (map (fun rd : record * Q => (r_id (fst rd), snd rd))
          (filter (fun rd : record * Q =>
                     Z.eqb (r_project_id (fst rd)) proj
                     && String.eqb (kind_to_string (r_kind (fst rd))) kind)
             (flat_map (SqliteVec.join_record db) (SqliteVec.vec0_knn db e n)))) ->
  Qleb (snd c) (15 # 100) = false.
Proof.
  intros Hfar Hc. apply SqliteVec_candidate_row in Hc.
  destruct Hc as (r & d & Hr & Hnd & -> & Hp & Hk).
  unfold SqliteVec.vec0_knn in Hnd. apply In_firstn in Hnd.
  apply (proj1 (In_sort_by _ _ _ _)) in Hnd. apply in_map_iff in Hnd.
  destruct Hnd as (iv & Heq & Hiv). inversion Heq; subst d.
  unfold legacy_nothing_close in Hfar. rewrite forallb_forall in Hfar.
  specialize (Hfar iv Hiv). rewrite forallb_forall in Hfar.
  specialize (Hfar r Hr). apply negb_true_iff in Hfar.
  unfold SqliteVec.has_id in Hfar.
  rewrite H0, Z.eqb_refl, Hp, Z.eqb_refl, Hk in Hfar. exact Hfar.
Qed.

(** X18.  [upsert] without an id inserts when nothing is close.  When no
    record of the call's project and kind carries a vector within the
    duplicate threshold (similarity 0.85, distance 0.15), also when a
    record of another project or kind carries the very same vector, the
    call appends exactly one record: its id is the next rowid, larger than
    every stored id; project, kind, title, body and status are the call's;
    [created_at] and [updated_at] are both the time of the call; the
    vector is stored under the new id; every stored row is left as it
    was; and the new row is returned.  In both adapters; on the
    sqlite-vec backend for unit vectors, the new one and the stored ones,
    the case in which the cosine distance the table reports is one minus
    the dot product. *)
Theorem upsert_inserts_when_nothing_is_close :
  forall (cur : option project) (a : upsert_args) (e : embedding) (now : string)
         (proj : Z) (k : kind) (st : status) (title : string),
    truthy_id (a_id a) = false ->
    kind_of_string (a_kind a) = Some k ->
    status_of_string (status_arg a) = Some st ->
    a_title a = Some title ->
    dim_ok e = true ->
    resolve_project cur (a_projectId a) = Ok proj ->
    (forall db : Libsql.store,
        project_exists (Libsql.projects db) proj = true ->
        native_nothing_close db proj (a_kind a) e = true ->
        let R := mkRecord (Libsql.next_rowid db) proj k title (body_of a) st now now in
        (exists pname,
            Libsql.upsert no_faults cur a e now db
            = (Ok (Some (mkView R pname)),
               Libsql.mkStore (Libsql.projects db)
                 (Libsql.records db ++ [Libsql.mkRow R (Some e)])
                 (Libsql.next_rowid db)))
        /\ forall y, In y (Libsql.records db) ->
                     (r_id (Libsql.rec y) < Libsql.next_rowid db)%Z)
    /\ (forall db : SqliteVec.store,
        normalized e = true ->
        legacy_embeddings_ok db = true ->
        project_exists (SqliteVec.projects db) proj = true ->
        legacy_keys_ok db = true ->
        legacy_nothing_close db proj (a_kind a) e = true ->
        let R := mkRecord (SqliteVec.next_rowid db) proj k title (body_of a) st
                   now now in
        (exists pname,
            SqliteVec.upsert no_faults cur a e now db
            = (Ok (Some (mkView R pname)),
               SqliteVec.mkStore (SqliteVec.projects db) (SqliteVec.records db ++ [R])
                 (SqliteVec.record_embedding db ++ [(SqliteVec.next_rowid db, e)])
                 (SqliteVec.next_rowid db)))
        /\ forall y, In y (SqliteVec.records db) ->
                     (r_id y < SqliteVec.next_rowid db)%Z).
Proof.
  intros cur a e now proj k st title Hid Hk Hst Htitle Hdim Hproj. split.
  - intros db Hp Hfar R.
    assert (Hnew : forall y, In y (Libsql.records db) ->
                             (r_id (Libsql.rec y) < Libsql.next_rowid db)%Z).
    { intros y Hy. unfold Libsql.next_rowid.
      pose proof (list_max_id_bound
                    (map (fun r => r_id (Libsql.rec r)) (Libsql.records db))
                    (r_id (Libsql.rec y))
                    (in_map (fun r => r_id (Libsql.rec r)) _ _ Hy)).
      lia. }
    split; [|exact Hnew].
    destruct (project_exists_join _ _ Hp) as (p & ps & Hps).
    exists (p_name p).
    unfold Libsql.upsert. rewrite Hproj, Hid.
    unfold bind at 1. unfold guarded at 1, no_faults at 1, Libsql.dedup_candidates.
    unfold check_dim. rewrite Hdim.
    rewrite (Libsql_no_candidate_close db proj (a_kind a) e _ Hfar).
    unfold bind, guarded, no_faults, Libsql.exec_insert, check_kind, check_title,
      check_status, check_dim.
    rewrite Hk, Htitle, Hst, Hdim. cbn [rbind].
    unfold Libsql.get, Libsql.get_rows.
    cbn [Libsql.records Libsql.projects].
    rewrite (filter_split_single _ (Libsql.has_id (Libsql.next_rowid db))
               (Libsql.records db) []).
    + cbn [flat_map app]. unfold Libsql.join_project.
      cbn [Libsql.projects Libsql.rec r_project_id]. rewrite Hps. reflexivity.
    + intros y Hy. rewrite app_nil_r in Hy. unfold Libsql.has_id.
      apply Z.eqb_neq. specialize (Hnew y Hy). lia.
    + unfold Libsql.has_id. apply Z.eqb_refl.
  - intros db _ _ Hp Hkeys Hfar R.
    destruct (SqliteVec_insert_and_read_back db a e now proj k st title
                Hk Hst Htitle Hdim Hp Hkeys) as (pname & Hrun & Hnew).
    split.
    + exists pname. unfold SqliteVec.upsert. rewrite Hproj.
      unfold transaction, SqliteVec.upsert_body. rewrite Hid.
      unfold bind at 1. unfold guarded at 1, no_faults at 1, SqliteVec.dedup_candidates.
      unfold check_dim. rewrite Hdim.
      match goal with
      | |- context [firstn 1 ?l] => destruct (firstn 1 l) as [|c rest] eqn:Hc
      end.
      * rewrite Hrun. reflexivity.
      * assert (Hin : In c (firstn 1
                  (sort_by (asc (fun x : Z * Q => snd x))
                     (map (fun rd : record * Q => (r_id (fst rd), snd rd))
                        (filter (fun rd : record * Q =>
                                   Z.eqb (r_project_id (fst rd)) proj
                                   && String.eqb (kind_to_string (r_kind (fst rd)))
                                                 (a_kind a))
                           (flat_map (SqliteVec.join_record db)
                              (SqliteVec.vec0_knn db e 5)))))))
          by (rewrite Hc; left; reflexivity).
        apply In_firstn in Hin. apply (proj1 (In_sort_by _ _ _ _)) in Hin.
        rewrite (SqliteVec_no_candidate_close db proj (a_kind a) e c 5 Hfar Hin).
        rewrite Hrun. reflexivity.
    + intros y Hy. unfold SqliteVec.next_rowid.
      pose proof (list_max_id_bound (map r_id (SqliteVec.records db)) (r_id y)
                    (in_map r_id _ _ Hy)). lia.
Qed.

(** On the two-record stores, whose record 2 belongs to project 2 and
    carries [axis 2]: an issue stored for project 1 under the same vector
    becomes record 3. *)
Lemma upsert_inserts_witness :
  (exists pname db',
      Libsql.upsert no_faults (Some Fixtures.repo) (Fixtures.args "issue" "same vector")
        (Fixtures.axis 2) "2025-06-09" Fixtures.native2
      = (Ok (Some (mkView (mkRecord 3 1 Issue "same vector" "" Open "2025-06-09"
                             "2025-06-09") pname)), db'))
  /\ (exists pname db',
      SqliteVec.upsert no_faults (Some Fixtures.repo)
        (Fixtures.args "issue" "same vector")
        (Fixtures.axis 2) "2025-06-09" Fixtures.legacy2
      = (Ok (Some (mkView (mkRecord 3 1 Issue "same vector" "" Open "2025-06-09"
                             "2025-06-09") pname)), db')).
Proof.
  destruct (upsert_inserts_when_nothing_is_close (Some Fixtures.repo)
              (Fixtures.args "issue" "same vector") (Fixtures.axis 2) "2025-06-09"
              1%Z Issue Open "same vector"
              eq_refl eq_refl eq_refl eq_refl eq_refl eq_refl) as [HL HV].
  split.
  - destruct (HL Fixtures.native2 eq_refl eq_refl) as [(pname & Hrun) _].
    exists pname. eexists. exact Hrun.
  - destruct (HV Fixtures.legacy2 eq_refl eq_refl eq_refl eq_refl eq_refl)
      as [(pname & Hrun) _].
    exists pname. eexists. exact Hrun.
Defined.

(** ** An embedding row without its record (sqlite-vec adapter) *)

(** X19.  In the sqlite-vec adapter an embedding row keyed to the next
    rowid blocks every insert.  ([upsert] with an explicit id that matches
    no record leaves such a row behind.)  When [record_embedding] holds a
    row under the id the next record will get, an [upsert] without id that
    finds no duplicate fails with the primary-key conflict of
    [record_embedding]; the transaction rolls the new record back, so the
    store is unchanged and the same call fails again.  The vectors, the
    new one and the stored ones, are unit vectors, for which the distance
    of the duplicate check is one minus the dot product. *)
Theorem orphan_embedding_row_blocks_inserts :
  forall (cur : option project) (a : upsert_args) (e : embedding) (now : string)
         (proj : Z) (k : kind) (st : status) (title : string) (db : SqliteVec.store),
    truthy_id (a_id a) = false ->
    kind_of_string (a_kind a) = Some k ->
    status_of_string (status_arg a) = Some st ->
    a_title a = Some title ->
    normalized e = true ->
    legacy_embeddings_ok db = true ->
    resolve_project cur (a_projectId a) = Ok proj ->
    project_exists (SqliteVec.projects db) proj = true ->
    legacy_nothing_close db proj (a_kind a) e = true ->
    existsb (fun iv => Z.eqb (fst iv) (SqliteVec.next_rowid db))
            (SqliteVec.record_embedding db) = true ->
    SqliteVec.upsert no_faults cur a e now db
    = (Err (UniqueFailed "record_embedding"), db).
Proof.
  intros cur a e now proj k st title db Hid Hk Hst Htitle He _ Hproj Hp Hfar Horphan.
  pose proof (normalized_has_dimension e He) as Hdim.
  assert (Hins :
            transaction
              (newId <- guarded no_faults InsertRecord (SqliteVec.exec_insert proj a now) ;;
               guarded no_faults InsertEmbedding
                 (SqliteVec.exec_insert_embedding newId e) ;;;
               guarded no_faults ReadBack (SqliteVec._getRecord newId)) db
            = (Err (UniqueFailed "record_embedding"), db)).
  { unfold transaction, bind, guarded, no_faults, SqliteVec.exec_insert, check_kind,
      check_title, check_status.
    rewrite Hk, Htitle, Hst. cbn [rbind].
    unfold project_exists in Hp. rewrite Hp.
    unfold SqliteVec.exec_insert_embedding, check_dim.
    cbn [SqliteVec.projects SqliteVec.records SqliteVec.record_embedding SqliteVec.seq].
    rewrite Hdim, Horphan. reflexivity. }
  unfold SqliteVec.upsert. rewrite Hproj.
  unfold SqliteVec.upsert_body. rewrite Hid.
  unfold transaction in *. unfold bind at 1.
  unfold guarded at 1, no_faults at 1, SqliteVec.dedup_candidates.
  unfold check_dim. rewrite Hdim.
  match goal with
  | |- context [firstn 1 ?l] => destruct (firstn 1 l) as [|c rest] eqn:Hc
  end.
  - exact Hins.
  - assert (Hin : In c (firstn 1
                (sort_by (asc (fun x : Z * Q => snd x))
                   (map (fun rd : record * Q => (r_id (fst rd), snd rd))
                      (filter (fun rd : record * Q =>
                                 Z.eqb (r_project_id (fst rd)) proj
                                 && String.eqb (kind_to_string (r_kind (fst rd)))
                                               (a_kind a))
                         (flat_map (SqliteVec.join_record db)
                            (SqliteVec.vec0_knn db e 5)))))))
      by (rewrite Hc; left; reflexivity).
    apply In_firstn in Hin. apply (proj1 (In_sort_by _ _ _ _)) in Hin.
    rewrite (SqliteVec_no_candidate_close db proj (a_kind a) e c 5 Hfar Hin).
    exact Hins.
Qed.

(** The chain on the two-record store: an [upsert] with the unused id 3
    returns null and leaves the row [(3, axis 5)]; from then on the insert
    of a new issue fails and changes nothing. *)
Lemma orphan_embedding_witness :
  let stray := snd (SqliteVec.upsert no_faults (Some Fixtures.repo)
                      (mkArgs (Some 3%Z) None "issue" (Some "ghost"%string) None None)
                      (Fixtures.axis 5) "2025-06-08" Fixtures.legacy2) in
  SqliteVec.records stray = SqliteVec.records Fixtures.legacy2
  /\ SqliteVec.upsert no_faults (Some Fixtures.repo) (Fixtures.args "issue" "new")
       (Fixtures.axis 7) "2025-06-09" stray
     = (Err (UniqueFailed "record_embedding"), stray).
Proof.
  split; [reflexivity|].
  apply (orphan_embedding_row_blocks_inserts (Some Fixtures.repo)
           (Fixtures.args "issue" "new") (Fixtures.axis 7) "2025-06-09" 1%Z
           Issue Open "new"); reflexivity.
Defined.

(** ** [PUT /api/records/:id] *)

Lemma getRecord_found (db : SqliteVec.store) (id : Z) (existing : record_view) :
  hd_error (SqliteVec.get_rows db id) = Some existing ->
  distinct_ids (map r_id (SqliteVec.records db)) = true ->
  exists l1 l2,
    SqliteVec.records db = l1 ++ rv_record existing :: l2
    /\ r_id (rv_record existing) = id
    /\ (forall y, In y (l1 ++ l2) -> SqliteVec.has_id id y = false)
    /\ hd_error (SqliteVec.join_project db (rv_record existing)) = Some existing.
Proof.
  intros Hget Hkeys.
  assert (Hin : In existing (SqliteVec.get_rows db id)).
  { destruct (SqliteVec.get_rows db id); inversion Hget. left. reflexivity. }
  unfold SqliteVec.get_rows in Hin. apply in_flat_map in Hin.
  destruct Hin as (r & Hr & Hex). apply filter_In in Hr. destruct Hr as [Hr Hid].
  unfold SqliteVec.has_id in Hid. apply Z.eqb_eq in Hid.
  assert (Hrec : rv_record existing = r).
  { unfold SqliteVec.join_project in Hex. apply in_map_iff in Hex.
    destruct Hex as (p & <- & _). reflexivity. }
  destruct (in_split _ _ Hr) as (l1 & l2 & Hsplit).
  assert (Hothers : forall y, In y (l1 ++ l2) -> SqliteVec.has_id id y = false).
  { intros y Hy. unfold SqliteVec.has_id. apply Z.eqb_neq. rewrite <- Hid.
    rewrite Hsplit in Hkeys. apply (distinct_keys_split _ r_id l1 l2 r Hkeys y Hy). }
  exists l1, l2. rewrite Hrec. repeat (split; [assumption|]).
  unfold SqliteVec.get_rows in Hget. rewrite Hsplit in Hget.
  rewrite (filter_split_single _ (SqliteVec.has_id id) l1 l2 r Hothers) in Hget.
  - cbn [flat_map] in Hget. rewrite app_nil_r in Hget. exact Hget.
  - unfold SqliteVec.has_id. rewrite Hid. apply Z.eqb_refl.
Qed.

Lemma SqliteVec_by_id_keeps_records (f : faults) (proj : Z) (a : upsert_args)
    (e : embedding) (now : string) :
  truthy_id (a_id a) = true ->
  stays (fun db db' => map record_identity (SqliteVec.records db')
                       = map record_identity (SqliteVec.records db))
        (transaction (SqliteVec.upsert_body f proj a e now)).
Proof.
  intros Hid.
  pose (R := fun db db' : SqliteVec.store =>
               map record_identity (SqliteVec.records db')
               = map record_identity (SqliteVec.records db)).
  assert (Hrefl : forall s, R s s) by (intros s; reflexivity).
  assert (Htrans : forall s1 s2 s3, R s1 s2 -> R s2 s3 -> R s1 s3)
    by (unfold R; intros s1 s2 s3 H1 H2; congruence).
  fold R. apply (stays_transaction _ R Hrefl).
  unfold SqliteVec.upsert_body. rewrite Hid.
  apply (stays_bind _ R Htrans).
  - apply (stays_guarded _ R Hrefl). intros s. unfold SqliteVec.exec_update.
    destruct (update_rows _ _ (SqliteVec.records s)) as [rows'|err] eqn:E;
      cbn [snd SqliteVec.records]; [|reflexivity].
    unfold R. cbn [SqliteVec.records].
    apply (update_rows_keeps _ _ record_identity _ _ _ _
             (SqliteVec_set_by_id_identity a now) E).
  - intros _. apply (stays_bind _ R Htrans).
    + apply (stays_guarded _ R Hrefl). intros s. reflexivity.
    + intros _. apply (stays_bind _ R Htrans).
      * apply (stays_guarded _ R Hrefl). intros s.
        unfold SqliteVec.exec_insert_embedding.
        destruct (check_dim e); [|reflexivity].
        destruct (existsb _ _); reflexivity.
      * intros _. apply (stays_guarded _ R Hrefl). intros s. reflexivity.
Qed.

(** X20.  [PUT /api/records/:id] of the web server.  When no record has
    the id the answer is 404 and nothing is written.  When a record has
    it, the record is rewritten in place with every field the body leaves
    out (or, but for [body], leaves empty) taken from the stored record;
    id, project and [created_at] stay, [updated_at] becomes the time of
    the call and the vector is replaced; the answer is 200 with the
    rewritten row.  Whatever the body and whatever fails, the route never
    adds or removes a record and never changes a record's id, project or
    creation time. *)
Theorem put_record_rewrites_or_answers_404 :
  forall (id : Z) (body : Web.request_body) (e : embedding) (now : string)
         (db : SqliteVec.store),
    (forall f, hd_error (SqliteVec.get_rows db id) = None ->
               Web.put_record f id body e now db = (Web.NotFound, db))
    /\ (forall (existing : record_view) (k : kind) (st : status),
           id <> 0%Z ->
           hd_error (SqliteVec.get_rows db id) = Some existing ->
           distinct_ids (map r_id (SqliteVec.records db)) = true ->
           dim_ok e = true ->
           kind_of_string (a_kind (Web.put_args id body existing)) = Some k ->
           status_of_string (status_arg (Web.put_args id body existing)) = Some st ->
           let R := mkRecord id (r_project_id (rv_record existing)) k
                      (Web.or_default (Web.b_title body) (r_title (rv_record existing)))
                      (Web.or_existing (Web.b_body body) (r_body (rv_record existing)))
                      st (r_created_at (rv_record existing)) now in
           exists l1 l2,
             SqliteVec.records db = l1 ++ rv_record existing :: l2
             /\ Web.put_record no_faults id body e now db
                = (Web.Json 200 (Some (mkView R (rv_project existing))),
                   SqliteVec.mkStore (SqliteVec.projects db) (l1 ++ R :: l2)
                     (filter (fun iv => negb (Z.eqb (fst iv) id))
                             (SqliteVec.record_embedding db) ++ [(id, e)])
                     (SqliteVec.seq db)))
    /\ (forall f,
           map record_identity (SqliteVec.records (snd (Web.put_record f id body e now db)))
           = map record_identity (SqliteVec.records db)).
Proof.
  intros id body e now db. split; [|split].
  - intros f Hnone. unfold Web.put_record. rewrite Hnone.
    destruct (Z.eqb id 0); reflexivity.
  - intros existing k st Hnz Hget Hkeys Hdim Hk Hst R.
    destruct (getRecord_found db id existing Hget Hkeys)
      as (l1 & l2 & Hrec & Hid & Hothers & Hjoin).
    exists l1, l2. split; [exact Hrec|].
    unfold Web.put_record. rewrite Hget.
    assert (Hz : Z.eqb id 0 = false) by (apply Z.eqb_neq; assumption).
    rewrite Hz. unfold transaction, SqliteVec.upsert_body.
    assert (Ht : truthy_id (a_id (Web.put_args id body existing)) = true)
      by (cbn; rewrite Hz; reflexivity).
    rewrite Ht. cbn [Web.put_args a_id SqliteVec.id_of].
    unfold bind, guarded, no_faults, SqliteVec.exec_update. rewrite Hrec.
    rewrite (update_rows_split _ (SqliteVec.has_id id)
               (SqliteVec.set_by_id (Web.put_args id body existing) now)
               l1 l2 (rv_record existing) R); auto.
    + unfold SqliteVec.exec_delete_embedding, SqliteVec.exec_insert_embedding, check_dim.
      cbn [SqliteVec.projects SqliteVec.records SqliteVec.record_embedding SqliteVec.seq].
      rewrite Hdim, existsb_after_delete.
      unfold SqliteVec._getRecord, SqliteVec.get_rows.
      cbn [SqliteVec.projects SqliteVec.records SqliteVec.record_embedding SqliteVec.seq].
      rewrite (filter_split_single _ (SqliteVec.has_id id) l1 l2 R); auto.
      * cbn [flat_map app]. rewrite app_nil_r.
        unfold SqliteVec.join_project in *.
        cbn [SqliteVec.projects r_project_id R].
        destruct (filter _ (SqliteVec.projects db)) as [|p ps]; [discriminate|].
        cbn [map hd_error] in *. inversion Hjoin. reflexivity.
      * unfold SqliteVec.has_id. cbn. apply Z.eqb_refl.
    + unfold SqliteVec.has_id. rewrite Hid. apply Z.eqb_refl.
    + unfold SqliteVec.set_by_id, check_kind, check_title, check_status.
      rewrite Hk, Hst. cbn [Web.put_args a_title rbind body_of a_body].
      subst R. rewrite Hid. reflexivity.
  - intros f. unfold Web.put_record.
    destruct (Z.eqb id 0) eqn:Hz; [reflexivity|].
    destruct (hd_error (SqliteVec.get_rows db id)) as [existing|]; [|reflexivity].
    assert (Ht : truthy_id (a_id (Web.put_args id body existing)) = true)
      by (cbn; rewrite Hz; reflexivity).
    pose proof (SqliteVec_by_id_keeps_records f (r_project_id (rv_record existing))
                  (Web.put_args id body existing) e now Ht db) as Hkeep.
    cbv beta in Hkeep.
    destruct (transaction _ db) as [[r|err] db']; exact Hkeep.
Qed.

(** An empty body sent to record 2 of the two-record store: everything but
    [updated_at] and the vector stays. *)
Lemma put_record_witness :
  exists db',
    Web.put_record no_faults 2 (Web.mkBody None None None None) (Fixtures.axis 9)
      "2025-06-10" Fixtures.legacy2
    = (Web.Json 200
         (Some (mkView (mkRecord 2 2 Issue "theirs" "" Open "2025-06-01" "2025-06-10")
                  "other")), db').
Proof.
  destruct (put_record_rewrites_or_answers_404 2 (Web.mkBody None None None None)
              (Fixtures.axis 9) "2025-06-10" Fixtures.legacy2) as (_ & Hput & _).
  destruct (Hput (mkView (Fixtures.rec_of 2 2 Issue "theirs") "other") Issue Open)
    as (l1 & l2 & _ & Hrun); try reflexivity; [discriminate|].
  eexists. exact Hrun.
Defined.

(** ** Nearest neighbours first, filters afterwards *)

Section Crowd.
Variable A : Type.
Variable le : A -> A -> bool.
Hypothesis le_total : forall a b, le a b = false -> le b a = true.
Hypothesis le_trans : forall a b c, le a b = true -> le b c = true -> le a c = true.

Lemma filter_insert_by_length (P : A -> bool) (x : A) (l : list A) :
  List.length (filter P (insert_by le x l)) = List.length (filter P (x :: l)).
Proof.
  induction l as [|h t IH]; [reflexivity|]. cbn [insert_by].
  destruct (le x h); [reflexivity|].
  cbn [filter] in *. destruct (P h), (P x); cbn [List.length] in *; lia.
Qed.

Lemma filter_sort_by_length (P : A -> bool) (l : list A) :
  List.length (filter P (sort_by le l)) = List.length (filter P l).
Proof.
  induction l as [|h t IH]; [reflexivity|]. cbn [sort_by fold_right].
  rewrite filter_insert_by_length. cbn [filter].
  destruct (P h); cbn [List.length]; fold (sort_by le t); lia.
Qed.

Lemma filter_length_lt (P : A -> bool) (l : list A) (x : A) :
  In x l -> P x = false -> (List.length (filter P l) < List.length l)%nat.
Proof.
  induction l as [|h t IH]; intros Hin Hx; [contradiction|]. cbn [filter].
  pose proof (filter_length_le P t) as Hle.
  destruct Hin as [->|Hin].
  - rewrite Hx. cbn [List.length]. lia.
  - specialize (IH Hin Hx). destruct (P h); cbn [List.length]; lia.
Qed.

(** When at least [n] rows form a crowd that sorts strictly before every
    other row, the first [n] rows of the sorted list are all of the
    crowd. *)
Lemma crowd_fills_the_top (P : A -> bool) (n : nat) (l : list A) :
  (forall x y, In x l -> In y l -> P x = true -> P y = false -> le y x = false) ->
  (n <= List.length (filter P l))%nat ->
  forall x, In x (firstn n (sort_by le l)) -> P x = true.
Proof.
  intros Hfirst Hmany x Hx. destruct (P x) eqn:Px; [reflexivity|]. exfalso.
  pose proof (sort_by_sorted _ le le_total l) as Hsorted.
  assert (Hx' : In x l).
  { apply In_firstn in Hx. apply (proj1 (In_sort_by _ le _ _)) in Hx. exact Hx. }
  assert (Hrest : filter P (skipn n (sort_by le l)) = []).
  { apply filter_none. intros y Hy. destruct (P y) eqn:Py; [|reflexivity]. exfalso.
    pose proof (sorted_cut _ le le_trans n _ Hsorted x y Hx Hy) as Hle.
    assert (Hy' : In y l).
    { apply In_skipped in Hy. apply (proj1 (In_sort_by _ le _ _)) in Hy. exact Hy. }
    rewrite (Hfirst y x Hy' Hx' Py Px) in Hle. discriminate. }
  pose proof (filter_sort_by_length P l) as Hlen.
  rewrite <- (firstn_skipn n (sort_by le l)) in Hlen at 1.
  rewrite filter_app, Hrest, app_nil_r in Hlen.
  pose proof (filter_length_lt P _ x Hx Px) as Hlt.
  pose proof (firstn_le_length n (sort_by le l)) as Hn. lia.
Qed.

End Crowd.

Lemma asc_total (A : Type) (key : A -> Q) (a b : A) :
  asc key a b = false -> asc key b a = true.
Proof. unfold asc. apply Qleb_total. Qed.

Lemma asc_trans (A : Type) (key : A -> Q) (a b c : A) :
  asc key a b = true -> asc key b c = true -> asc key a c = true.
Proof.
  unfold asc, Qleb. rewrite !Qle_bool_iff. intros H1 H2.
  apply (Qle_trans _ (key b)); assumption.
Qed.

Lemma crowded_out_spec (of_kind : Z -> bool) (q : embedding) (n : nat)
    (vectors : list (Z * embedding)) :
  crowded_out of_kind q n vectors = true ->
  (n <= List.length (filter (fun iv => negb (of_kind (fst iv))) vectors))%nat
  /\ forall x y, In x vectors -> In y vectors ->
                 negb (of_kind (fst x)) = true -> negb (of_kind (fst y)) = false ->
                 Qleb (distance q (snd y)) (distance q (snd x)) = false.
Proof.
  unfold crowded_out. intros H. apply andb_true_iff in H. destruct H as [Hn Hall].
  split; [apply Nat.leb_le; assumption|].
  intros x y Hx Hy Px Py. rewrite forallb_forall in Hall.
  specialize (Hall x Hx). rewrite forallb_forall in Hall. specialize (Hall y Hy).
  apply negb_true_iff in Hall. apply negb_false_iff in Py.
  rewrite Px, Py in Hall. exact Hall.
Qed.

Lemma filter_map_length (A B : Type) (g : A -> B) (P : B -> bool) (l : list A) :
  List.length (filter P (map g l)) = List.length (filter (fun x => P (g x)) l).
Proof.
  induction l as [|h t IH]; [reflexivity|]. cbn [map filter].
  destruct (P (g h)); cbn [List.length]; rewrite IH; reflexivity.
Qed.

Lemma Libsql_crowded_candidates (db : Libsql.store) (q : embedding) (K : string)
    (limit : nat) :
  filter_active (Some K) = true ->
  crowded_out (native_of_kind db K) q (limit * 3) (Libsql.indexed db) = true ->
  Libsql.search_candidates db q (Some K) limit = [].
Proof.
  intros Hact Hcrowd. destruct (crowded_out_spec _ _ _ _ Hcrowd) as [Hmany Hfirst].
  unfold Libsql.search_candidates. rewrite Hact. apply filter_none.
  intros rp Hrp. apply in_flat_map in Hrp. destruct Hrp as (r & Hr & Hrp).
  unfold Libsql.join_project in Hrp. apply in_map_iff in Hrp.
  destruct Hrp as (p & <- & _). cbn [fst filter_value].
  unfold Libsql.join_record in Hr. apply in_flat_map in Hr.
  destruct Hr as (id & Hid & Hr). apply filter_In in Hr. destruct Hr as [Hr Hrid].
  unfold Libsql.vector_top_k in Hid. apply in_map_iff in Hid.
  destruct Hid as (iv & <- & Hiv).
  pose proof (crowd_fills_the_top _
                (asc (fun iv : Z * embedding => distance q (snd iv)))
                (asc_total _ _) (asc_trans _ _)
                (fun iv => negb (native_of_kind db K (fst iv)))
                (limit * 3) (Libsql.indexed db)) as Htop.
  cbv beta in Htop. specialize (Htop Hfirst Hmany iv Hiv).
  apply negb_true_iff in Htop. unfold native_of_kind in Htop.
  pose proof (existsb_false_forall _ _ _ Htop r Hr) as Hk. cbv beta in Hk.
  rewrite Hrid in Hk. exact Hk.
Qed.

Lemma SqliteVec_crowded_candidates (db : SqliteVec.store) (q : embedding) (K : string)
    (limit : nat) :
  filter_active (Some K) = true ->
  crowded_out (legacy_of_kind db K) q (limit * 3) (SqliteVec.record_embedding db)
  = true ->
  SqliteVec.search_candidates db q (Some K) limit = [].
Proof.
  intros Hact Hcrowd. destruct (crowded_out_spec _ _ _ _ Hcrowd) as [Hmany Hfirst].
  unfold SqliteVec.search_candidates. rewrite Hact.
  match goal with
  | |- sort_by _ ?l = [] => assert (Hnone : l = []); [|rewrite Hnone; reflexivity]
  end.
  apply filter_none. intros vd Hvd. apply in_flat_map in Hvd.
  destruct Hvd as (rd & Hrd & Hvd). apply in_map_iff in Hvd.
  destruct Hvd as (v & <- & Hv). unfold SqliteVec.join_project in Hv.
  apply in_map_iff in Hv. destruct Hv as (p & <- & _).
  cbn [fst rv_record filter_value].
  apply in_flat_map in Hrd. destruct Hrd as (nd & Hnd & Hrd).
  unfold SqliteVec.join_record in Hrd. apply in_map_iff in Hrd.
  destruct Hrd as (r & <- & Hr). apply filter_In in Hr. destruct Hr as [Hr Hrid].
  cbn [fst]. unfold SqliteVec.vec0_knn in Hnd.
  pose proof (crowd_fills_the_top _ (asc (fun x : Z * Q => snd x))
                (asc_total _ _) (asc_trans _ _)
                (fun nd : Z * Q => negb (legacy_of_kind db K (fst nd)))
                (limit * 3)
                (map (fun iv : Z * embedding => (fst iv, distance q (snd iv)))
                     (SqliteVec.record_embedding db))) as Htop.
  cbv beta in Htop.
  assert (Hnear : negb (legacy_of_kind db K (fst nd)) = true).
  { apply Htop; [| |exact Hnd].
    - intros x y Hx Hy Px Py. apply in_map_iff in Hx. destruct Hx as (x0 & <- & Hx0).
      apply in_map_iff in Hy. destruct Hy as (y0 & <- & Hy0).
      cbn [fst snd] in *. unfold asc. cbn [snd].
      apply (Hfirst x0 y0 Hx0 Hy0 Px Py).
    - rewrite filter_map_length. cbn [fst]. exact Hmany. }
  apply negb_true_iff in Hnear. unfold legacy_of_kind in Hnear.
  pose proof (existsb_false_forall _ _ _ Hnear r Hr) as Hk. cbv beta in Hk.
  rewrite Hrid in Hk. exact Hk.
Qed.

(** X21.  [search] looks for the nearest vectors first and applies the
    [kind] filter afterwards.  When at least [3 * limit] stored vectors
    belong to records of other kinds and each of them is strictly nearer
    to the query than every vector of a record of the wanted kind, a
    [search] with that [kind] returns nothing, however similar the records
    of that kind are.  In both adapters, for unit vectors (the query and
    the stored ones), for which nearer means a larger dot product; on the
    native backend with a limit of at least one, which [vector_top_k]
    needs. *)
Theorem search_with_kind_returns_nothing_when_crowded_out :
  forall (c : project) (q : embedding) (K : string) (limit : nat),
    normalized q = true ->
    filter_active (Some K) = true ->
    (forall db : Libsql.store,
        (1 <= limit)%nat ->
        native_embeddings_ok db = true ->
        crowded_out (native_of_kind db K) q (limit * 3) (Libsql.indexed db) = true ->
        Libsql.search (Some c) q (Some K) (Some limit) db = (Ok [], db))
    /\ (forall db : SqliteVec.store,
        legacy_embeddings_ok db = true ->
        crowded_out (legacy_of_kind db K) q (limit * 3) (SqliteVec.record_embedding db)
        = true ->
        SqliteVec.search (Some c) q (Some K) (Some limit) db = (Ok [], db)).
Proof.
  intros c q K limit Hq Hact.
  pose proof (normalized_has_dimension q Hq) as Hdim.
  split; [intros db _ _ Hcrowd | intros db _ Hcrowd].
  - unfold Libsql.search, Libsql.getCurrentProject, check_dim. rewrite Hdim.
    cbn [limit_of]. rewrite (Libsql_crowded_candidates db q K limit Hact Hcrowd).
    cbn [map filter sort_by fold_right]. rewrite firstn_nil. reflexivity.
  - unfold SqliteVec.search, SqliteVec.getCurrentProject, check_dim. rewrite Hdim.
    cbn [limit_of]. rewrite (SqliteVec_crowded_candidates db q K limit Hact Hcrowd).
    cbn [map filter sort_by fold_right]. rewrite firstn_nil. reflexivity.
Qed.

(** The stores with five [spec] records under [axis 0] and an [issue] at
    similarity 12/13 of it: a search for one issue near [axis 0] finds
    nothing. *)
Lemma search_crowded_out_witness :
  (85 # 100 <= dot (Fixtures.axis 0) Fixtures.near_axis0)
  /\ Libsql.search (Some Fixtures.repo) (Fixtures.axis 0) (Some "issue"%string)
       (Some 1%nat) Fixtures.native_crowded = (Ok [], Fixtures.native_crowded)
  /\ SqliteVec.search (Some Fixtures.repo) (Fixtures.axis 0) (Some "issue"%string)
       (Some 1%nat) Fixtures.legacy_crowded = (Ok [], Fixtures.legacy_crowded).
Proof.
  destruct (search_with_kind_returns_nothing_when_crowded_out Fixtures.repo
              (Fixtures.axis 0) "issue" 1%nat eq_refl eq_refl) as [HL HV].
  split; [vm_compute; discriminate|]. split.
  - apply HL; [lia | vm_compute; reflexivity | vm_compute; reflexivity].
  - apply HV; vm_compute; reflexivity.
Defined.

Lemma Libsql_crowded_dedup (db : Libsql.store) (e : embedding) (proj : Z)
    (K : string) :
  dim_ok e = true ->
  crowded_out (native_of_group db proj K) e 5 (Libsql.indexed db) = true ->
  Libsql.dedup_candidates proj K e db = (Ok [], db).
Proof.
  intros Hdim Hcrowd. destruct (crowded_out_spec _ _ _ _ Hcrowd) as [Hmany Hfirst].
  unfold Libsql.dedup_candidates, check_dim. rewrite Hdim.
  rewrite filter_none; [reflexivity|].
  intros r Hr. unfold Libsql.join_record in Hr. apply in_flat_map in Hr.
  destruct Hr as (id & Hid & Hr). apply filter_In in Hr. destruct Hr as [Hr Hrid].
  unfold Libsql.vector_top_k in Hid. apply in_map_iff in Hid.
  destruct Hid as (iv & <- & Hiv).
  pose proof (crowd_fills_the_top _
                (asc (fun iv : Z * embedding => distance e (snd iv)))
                (asc_total _ _) (asc_trans _ _)
                (fun iv => negb (native_of_group db proj K (fst iv)))
                5 (Libsql.indexed db)) as Htop.
  cbv beta in Htop. specialize (Htop Hfirst Hmany iv Hiv).
  apply negb_true_iff in Htop. unfold native_of_group in Htop.
  pose proof (existsb_false_forall _ _ _ Htop r Hr) as Hk. cbv beta in Hk.
  rewrite Hrid in Hk. exact Hk.
Qed.

Lemma SqliteVec_crowded_dedup (db : SqliteVec.store) (e : embedding) (proj : Z)
    (K : string) :
  dim_ok e = true ->
  crowded_out (legacy_of_group db proj K) e 5 (SqliteVec.record_embedding db) = true ->
  SqliteVec.dedup_candidates proj K e db = (Ok [], db).
Proof.
  intros Hdim Hcrowd. destruct (crowded_out_spec _ _ _ _ Hcrowd) as [Hmany Hfirst].
  unfold SqliteVec.dedup_candidates, check_dim. rewrite Hdim.
  rewrite filter_none; [reflexivity|].
  intros rd Hrd. apply in_flat_map in Hrd. destruct Hrd as (nd & Hnd & Hrd).
  unfold SqliteVec.join_record in Hrd. apply in_map_iff in Hrd.
  destruct Hrd as (r & <- & Hr). apply filter_In in Hr. destruct Hr as [Hr Hrid].
  cbn [fst].
  pose proof (crowd_fills_the_top _ (asc (fun x : Z * Q => snd x))
                (asc_total _ _) (asc_trans _ _)
                (fun nd : Z * Q => negb (legacy_of_group db proj K (fst nd)))
                5
                (map (fun iv : Z * embedding => (fst iv, distance e (snd iv)))
                     (SqliteVec.record_embedding db))) as Htop.
  cbv beta in Htop.
  assert (Hnear : negb (legacy_of_group db proj K (fst nd)) = true).
  { apply Htop; [| |exact Hnd].
    - intros x y Hx Hy Px Py. apply in_map_iff in Hx. destruct Hx as (x0 & <- & Hx0).
      apply in_map_iff in Hy. destruct Hy as (y0 & <- & Hy0).
      cbn [fst snd] in *. unfold asc. cbn [snd].
      apply (Hfirst x0 y0 Hx0 Hy0 Px Py).
    - rewrite filter_map_length. cbn [fst]. exact Hmany. }
  apply negb_true_iff in Hnear. unfold legacy_of_group in Hnear.
  pose proof (existsb_false_forall _ _ _ Hnear r Hr) as Hk. cbv beta in Hk.
  rewrite Hrid in Hk. exact Hk.
Qed.

(** X22.  The duplicate check of [upsert] looks at the five nearest
    vectors of the whole table and filters by project and kind afterwards.
    When at least five stored vectors belong to records outside the call's
    project and kind, each strictly nearer to the new vector than every
    vector of a record inside it, the check finds no candidate and the
    call appends a new record, however close (even identical) a record of
    the same project and kind is.  In both adapters, for unit vectors
    (the new one and the stored ones), for which nearer means a larger
    dot product. *)
Theorem upsert_inserts_duplicate_when_crowded_out :
  forall (cur : option project) (a : upsert_args) (e : embedding) (now : string)
         (proj : Z) (k : kind) (st : status) (title : string),
    truthy_id (a_id a) = false ->
    kind_of_string (a_kind a) = Some k ->
    status_of_string (status_arg a) = Some st ->
    a_title a = Some title ->
    normalized e = true ->
    resolve_project cur (a_projectId a) = Ok proj ->
    (forall db : Libsql.store,
        native_embeddings_ok db = true ->
        project_exists (Libsql.projects db) proj = true ->
        crowded_out (native_of_group db proj (a_kind a)) e 5 (Libsql.indexed db) = true ->
        let R := mkRecord (Libsql.next_rowid db) proj k title (body_of a) st now now in
        exists pname,
          Libsql.upsert no_faults cur a e now db
          = (Ok (Some (mkView R pname)),
             Libsql.mkStore (Libsql.projects db)
               (Libsql.records db ++ [Libsql.mkRow R (Some e)])
               (Libsql.next_rowid db)))
    /\ (forall db : SqliteVec.store,
        legacy_embeddings_ok db = true ->
        project_exists (SqliteVec.projects db) proj = true ->
        legacy_keys_ok db = true ->
        crowded_out (legacy_of_group db proj (a_kind a)) e 5
          (SqliteVec.record_embedding db) = true ->
        let R := mkRecord (SqliteVec.next_rowid db) proj k title (body_of a) st
                   now now in
        exists pname,
          SqliteVec.upsert no_faults cur a e now db
          = (Ok (Some (mkView R pname)),
             SqliteVec.mkStore (SqliteVec.projects db) (SqliteVec.records db ++ [R])
               (SqliteVec.record_embedding db ++ [(SqliteVec.next_rowid db, e)])
               (SqliteVec.next_rowid db))).
Proof.
  intros cur a e now proj k st title Hid Hk Hst Htitle He Hproj.
  pose proof (normalized_has_dimension e He) as Hdim. split.
  - intros db _ Hp Hcrowd R.
    assert (Hnew : forall y, In y (Libsql.records db) ->
                             (r_id (Libsql.rec y) < Libsql.next_rowid db)%Z).
    { intros y Hy. unfold Libsql.next_rowid.
      pose proof (list_max_id_bound
                    (map (fun r => r_id (Libsql.rec r)) (Libsql.records db))
                    (r_id (Libsql.rec y))
                    (in_map (fun r => r_id (Libsql.rec r)) _ _ Hy)).
      lia. }
    destruct (project_exists_join _ _ Hp) as (p & ps & Hps).
    exists (p_name p).
    unfold Libsql.upsert. rewrite Hproj, Hid.
    unfold bind at 1. unfold guarded at 1, no_faults at 1.
    rewrite (Libsql_crowded_dedup db e proj (a_kind a) Hdim Hcrowd). cbn [find].
    unfold bind, guarded, no_faults, Libsql.exec_insert, check_kind, check_title,
      check_status, check_dim.
    rewrite Hk, Htitle, Hst, Hdim. cbn [rbind].
    unfold Libsql.get, Libsql.get_rows.
    cbn [Libsql.records Libsql.projects].
    rewrite (filter_split_single _ (Libsql.has_id (Libsql.next_rowid db))
               (Libsql.records db) []).
    + cbn [flat_map app]. unfold Libsql.join_project.
      cbn [Libsql.projects Libsql.rec r_project_id]. rewrite Hps. reflexivity.
    + intros y Hy. rewrite app_nil_r in Hy. unfold Libsql.has_id.
      apply Z.eqb_neq. specialize (Hnew y Hy). lia.
    + unfold Libsql.has_id. apply Z.eqb_refl.
  - intros db _ Hp Hkeys Hcrowd R.
    destruct (SqliteVec_insert_and_read_back db a e now proj k st title
                Hk Hst Htitle Hdim Hp Hkeys) as (pname & Hrun & _).
    exists pname. unfold SqliteVec.upsert. rewrite Hproj.
    unfold transaction, SqliteVec.upsert_body. rewrite Hid.
    unfold bind at 1. unfold guarded at 1, no_faults at 1.
    rewrite (SqliteVec_crowded_dedup db e proj (a_kind a) Hdim Hcrowd).
    rewrite Hrun. reflexivity.
Qed.

(** On the crowded stores the issue at similarity 12/13 of [axis 0] is not
    found, and the call inserts record 7. *)
Lemma upsert_crowded_out_witness :
  (exists pname db',
      Libsql.upsert no_faults (Some Fixtures.repo) (Fixtures.args "issue" "again")
        (Fixtures.axis 0) "2025-06-09" Fixtures.native_crowded
      = (Ok (Some (mkView (mkRecord 7 1 Issue "again" "" Open "2025-06-09"
                             "2025-06-09") pname)), db'))
  /\ (exists pname db',
      SqliteVec.upsert no_faults (Some Fixtures.repo) (Fixtures.args "issue" "again")
        (Fixtures.axis 0) "2025-06-09" Fixtures.legacy_crowded
      = (Ok (Some (mkView (mkRecord 7 1 Issue "again" "" Open "2025-06-09"
                             "2025-06-09") pname)), db')).
Proof.
  destruct (upsert_inserts_duplicate_when_crowded_out (Some Fixtures.repo)
              (Fixtures.args "issue" "again") (Fixtures.axis 0) "2025-06-09"
              1%Z Issue Open "again"
              eq_refl eq_refl eq_refl eq_refl eq_refl eq_refl) as [HL HV].
  split.
  - assert (Hok : native_embeddings_ok Fixtures.native_crowded = true)
      by (vm_compute; reflexivity).
    destruct (HL Fixtures.native_crowded Hok eq_refl) as (pname & Hrun);
      [vm_compute; reflexivity|].
    exists pname. eexists. exact Hrun.
  - assert (Hok : legacy_embeddings_ok Fixtures.legacy_crowded = true)
      by (vm_compute; reflexivity).
    destruct (HV Fixtures.legacy_crowded Hok eq_refl eq_refl) as (pname & Hrun);
      [vm_compute; reflexivity|].
    exists pname. eexists. exact Hrun.
Defined.

(** ** The module-level [searchRecords] and the adapter's [search] *)

(** X23.  [searchRecords] of src/db.js against [SqliteVecAdapter.search].
    With a current project the two give the same answer for every query,
    filter, limit and store.  Without one (the adapter not initialised)
    the adapter's [search] throws "Database not initialised", while
    [searchRecords] answers, and then no hit is boosted: for a unit query
    over stored unit vectors every similarity is one minus the distance of
    a stored vector, and it is at least 0.3. *)
Theorem searchRecords_agrees_with_adapter_search :
  forall (q : embedding) (kind : option string) (limit : option nat)
         (db : SqliteVec.store),
    (forall c : project,
        DbJsSearch.searchRecords (Some c) q kind limit db
        = SqliteVec.search (Some c) q kind limit db)
    /\ SqliteVec.search None q kind limit db = (Err NotInitialised, db)
    /\ (normalized q = true ->
        legacy_embeddings_ok db = true ->
        exists hits,
          DbJsSearch.searchRecords None q kind limit db = (Ok hits, db)
          /\ forall h, In h hits ->
               3 # 10 <= similarity h
               /\ exists iv, In iv (SqliteVec.record_embedding db)
                             /\ similarity h == 1 - distance q (snd iv)).
Proof.
  intros q kind limit db. split; [|split].
  - intros c. reflexivity.
  - reflexivity.
  - intros Hq _. pose proof (normalized_has_dimension q Hq) as Hdim.
    unfold DbJsSearch.searchRecords, check_dim. rewrite Hdim.
    eexists. split; [reflexivity|]. intros h Hh.
    apply in_map_iff in Hh. destruct Hh as (x & <- & Hx).
    apply ranked_floor in Hx. destruct Hx as [Hx Hfloor].
    apply in_map_iff in Hx. destruct Hx as (vd & <- & Hvd).
    split; [exact Hfloor|].
    destruct (SqliteVec_search_candidate_distance _ _ _ _ _ Hvd) as (iv & Hiv & Hd).
    exists iv. split; [exact Hiv|].
    unfold DbJsSearch.score, SqliteVec.strip. cbn [similarity snd]. rewrite Hd.
    reflexivity.
Qed.

(** ** A start of the sqlite-vec adapter that fails *)

(** X24.  A failed start is never retried (src/db.js with the sqlite-vec
    adapter).  [initDb] stores the new adapter in the module's variable
    before [init] runs, and [init] sets [this.db] before the migrations
    run.  So when the first [initDb] fails with the error of a statement,
    that error is the one [_runMigrations] stopped with, the module is
    left holding an adapter that is open but has no current project, and
    every later [initDb], whatever the migration modules and the database
    then are, returns that adapter at once: no migration is run again, no
    project is selected, and [search], [list] for the current project and
    [upsert] without [projectId] through it throw "Database not
    initialised". *)
Theorem failed_start_is_never_retried :
  forall (ms : list (Migrations.migration SqliteVecAdapter.database))
         (projectName now : string) (s s' : SqliteVecStart.state)
         (e : sql_error) (g' : option SqliteVecStart.adapter),
    SqliteVecStart.initDb ms projectName now None s = (SqliteVecStart.Failed e, g', s') ->
    Migrations._runMigrations ms s = (Err e, s')
    /\ g' = Some (SqliteVecStart.mkAdapter true None)
    /\ (forall ms2 name2 now2 s2,
           SqliteVecStart.initDb ms2 name2 now2 g' s2 = (SqliteVecStart.Done, g', s2))
    /\ (forall a, g' = Some a ->
           (forall q kind limit db,
               SqliteVec.search (SqliteVecStart.currentProject a) q kind limit db
               = (Err NotInitialised, db))
           /\ (forall kind status db,
                  SqliteVec.list (SqliteVecStart.currentProject a) kind status None db
                  = (Err NotInitialised, db))
           /\ (forall f args v t db,
                  a_projectId args = None ->
                  SqliteVec.upsert f (SqliteVecStart.currentProject a) args v t db
                  = (Err NotInitialised, db))).
Proof.
  intros ms projectName now s s' e g' H.
  unfold SqliteVecStart.initDb, SqliteVecStart.init, SqliteVecStart.fresh in H.
  cbn [SqliteVecStart.opened SqliteVecStart.currentProject] in H.
  destruct (Migrations._runMigrations ms s) as [[u|e0] s1] eqn:Hrun.
  - exfalso. unfold SqliteVecAdapter._upsertProject in H.
    destruct (ProjectTable.insert_or_touch _ _ _ _) as [ps pseq].
    destruct (SqliteVecAdapter._migrateProjectNames _ _ _) as [[u'|msg] d2];
      discriminate.
  - inversion H; subst. split; [reflexivity|]. split; [reflexivity|].
    split; [intros; reflexivity|].
    intros a Ha. inversion Ha; subst a. cbn [SqliteVecStart.currentProject].
    split; [intros; reflexivity|]. split; [intros; reflexivity|].
    intros f args v t db Hnone. unfold SqliteVec.upsert, resolve_project.
    rewrite Hnone. reflexivity.
Qed.

(** A new database whose first migration module fails. *)
Lemma failed_start_witness :
  exists g' s',
    SqliteVecStart.initDb
      [Migrations.mkMigration 1
         (fun _ : SqliteVecAdapter.database => Err (CheckFailed "kind"))]
      "org/repo" "2025-07-01" None
      (Migrations.mkVersioned [] (SqliteVecAdapter.mkDatabase SqliteVec.empty 0))
    = (SqliteVecStart.Failed (CheckFailed "kind"), g', s')
    /\ SqliteVecStart.initDb [] "org/repo" "2025-07-02" g' s'
       = (SqliteVecStart.Done, g', s')
    /\ Migrations.schema_version s' = [].
Proof.
  eexists. eexists. split; [reflexivity|]. split; [|reflexivity].
  apply (failed_start_is_never_retried
           [Migrations.mkMigration 1
              (fun _ : SqliteVecAdapter.database => Err (CheckFailed "kind"))]
           "org/repo" "2025-07-01"
           (Migrations.mkVersioned [] (SqliteVecAdapter.mkDatabase SqliteVec.empty 0))
           _ (CheckFailed "kind") _ eq_refl).
Defined.
